(** * Tracking Routes Drawer: route store, hit testing and arc-length geometry

    A shallow embedding of [tracking_routs_drawer.py] (class
    [TrackingRouteDrawer]).  Python integers are [Z]; Python floats are
    IEEE-754 binary64 values, modelled by the executable specification
    [spec_float] of the standard library with round-to-nearest-even
    ([prec = 53], [emax = 1024]); Python exceptions are an error type.
    Lists are stdpp lists addressed with Python's (possibly negative)
    integer indices. *)

From Stdlib Require Import ZArith Bool Lia String DecimalString.
From Stdlib Require Import Floats.SpecFloat.
From stdpp Require Import list sorting.

Open Scope Z_scope.

(** ** Python exceptions and the error monad *)

Inductive exn : Type :=
| IndexError | OverflowError | ValueError | ZeroDivisionError | TypeError.

Inductive result (A : Type) : Type :=
| Ok (a : A)
| Raise (e : exn).
Arguments Ok {A} a.
Arguments Raise {A} e.

#[global] Instance result_ret : MRet result := fun A a => Ok a.
#[global] Instance result_bind : MBind result := fun A B f r =>
  match r with Ok a => f a | Raise e => Raise e end.

(** ** Python numbers *)

Module Py.

(** binary64 *)
Definition prec : Z := 53.
Definition emax : Z := 1024.

Definition fadd : spec_float -> spec_float -> spec_float := SFadd prec emax.
Definition fsub : spec_float -> spec_float -> spec_float := SFsub prec emax.
Definition fmul : spec_float -> spec_float -> spec_float := SFmul prec emax.
Definition fdiv : spec_float -> spec_float -> spec_float := SFdiv prec emax.
Definition fsqrt : spec_float -> spec_float := SFsqrt prec emax.

(** The literal [0.0]. *)
Definition fzero : spec_float := S754_zero false.

Definition is_inf (f : spec_float) : bool :=
  match f with S754_infinity _ => true | _ => false end.
Definition is_zero (f : spec_float) : bool :=
  match f with S754_zero _ => true | _ => false end.
Definition is_finite (f : spec_float) : bool :=
  match f with S754_zero _ | S754_finite _ _ _ => true | _ => false end.

(** A Python number is an [int] or a [float]. *)
Inductive num : Type :=
| Int (z : Z)
| Float (f : spec_float).

(** [float(n)] for an int [n] (PyLong_AsDouble): the nearest double,
    ties to even; [OverflowError] when that is out of range. *)
Definition float_of_int (n : Z) : result spec_float :=
  let f := binary_normalize prec emax n 0 false in
  if is_inf f then Raise OverflowError else Ok f.

Definition to_float (x : num) : result spec_float :=
  match x with
  | Int n => float_of_int n
  | Float f => Ok f
  end.

(** Binary [+], [-], [*]: exact on two ints, otherwise both operands
    are converted to float; float arithmetic itself never raises. *)
Definition add (a b : num) : result num :=
  match a, b with
  | Int x, Int y => Ok (Int (x + y))
  | _, _ => fa ← to_float a; fb ← to_float b; Ok (Float (fadd fa fb))
  end.

Definition sub (a b : num) : result num :=
  match a, b with
  | Int x, Int y => Ok (Int (x - y))
  | _, _ => fa ← to_float a; fb ← to_float b; Ok (Float (fsub fa fb))
  end.

Definition mul (a b : num) : result num :=
  match a, b with
  | Int x, Int y => Ok (Int (x * y))
  | _, _ => fa ← to_float a; fb ← to_float b; Ok (Float (fmul fa fb))
  end.

(** [x / y] on two ints is the correctly rounded quotient of the exact
    integers (long_true_divide). *)
Definition int_truediv (x y : Z) : result spec_float :=
  if y =? 0 then Raise ZeroDivisionError
  else if x =? 0 then Ok (S754_zero (y <? 0))
  else
    let f := fdiv (S754_finite (x <? 0) (Z.to_pos (Z.abs x)) 0)
                  (S754_finite (y <? 0) (Z.to_pos (Z.abs y)) 0) in
    if is_inf f then Raise OverflowError else Ok f.

Definition truediv (a b : num) : result num :=
  match a, b with
  | Int x, Int y => f ← int_truediv x y; Ok (Float f)
  | _, _ =>
      fa ← to_float a; fb ← to_float b;
      if is_zero fb then Raise ZeroDivisionError
      else Ok (Float (fdiv fa fb))
  end.

(** [x ** 2]: exact on an int; on a float the C library's [pow(x, 2.0)],
    taken here as the correctly rounded square, with [OverflowError]
    when a finite operand overflows. *)
Definition pow2 (a : num) : result num :=
  match a with
  | Int x => Ok (Int (x ^ 2))
  | Float f =>
      let r := fmul f f in
      if is_finite f && is_inf r then Raise OverflowError else Ok (Float r)
  end.

(** [math.sqrt]: converts to float, [ValueError] below zero. *)
Definition sqrt (a : num) : result num :=
  f ← to_float a;
  match f with
  | S754_finite true _ _ | S754_infinity true => Raise ValueError
  | _ => Ok (Float (fsqrt f))
  end.

(** Comparisons are exact, also between an int and a float. *)
Definition float_compare_int (f : spec_float) (z : Z) : option comparison :=
  match f with
  | S754_nan => None
  | S754_infinity s => Some (if s then Lt else Gt)
  | S754_zero _ => Some (0 ?= z)
  | S754_finite s m e =>
      let v := if s then Z.neg m else Z.pos m in
      if 0 <=? e then Some (v * 2 ^ e ?= z)
      else Some (v ?= z * 2 ^ (- e))
  end.

Definition compare (a b : num) : option comparison :=
  match a, b with
  | Int x, Int y => Some (x ?= y)
  | Float f, Float g => SFcompare f g
  | Float f, Int y => float_compare_int f y
  | Int x, Float g => option_map CompOpp (float_compare_int g x)
  end.

Definition le (a b : num) : bool :=
  match compare a b with Some (Lt | Eq) => true | _ => false end.
Definition lt (a b : num) : bool :=
  match compare a b with Some Lt => true | _ => false end.
Definition ge (a b : num) : bool :=
  match compare a b with Some (Gt | Eq) => true | _ => false end.
Definition gt (a b : num) : bool :=
  match compare a b with Some Gt => true | _ => false end.
Definition eq (a b : num) : bool :=
  match compare a b with Some Eq => true | _ => false end.

(** [min(a, b)] and [max(a, b)] keep the first argument unless the
    second is strictly better. *)
Definition min (a b : num) : num := if lt b a then b else a.
Definition max (a b : num) : num := if gt b a then b else a.

(** [round(x)] with one argument: an int, halves to the even side. *)
Definition round_half_even (m : Z) (k : Z) : Z :=
  let q := m / 2 ^ k in
  let r := m mod 2 ^ k in
  match 2 * r ?= 2 ^ k with
  | Lt => q
  | Gt => q + 1
  | Eq => if Z.even q then q else q + 1
  end.

Definition round (a : num) : result Z :=
  match a with
  | Int z => Ok z
  | Float S754_nan => Raise ValueError
  | Float (S754_infinity _) => Raise OverflowError
  | Float (S754_zero _) => Ok 0
  | Float (S754_finite s m e) =>
      let v := if 0 <=? e then Z.pos m * 2 ^ e
               else round_half_even (Z.pos m) (- e) in
      Ok (if s then - v else v)
  end.

(** Python list indexing with an int that may be negative. *)
Definition index (len : nat) (i : Z) : option nat :=
  if (0 <=? i) && (i <? Z.of_nat len) then Some (Z.to_nat i)
  else if (- Z.of_nat len <=? i) && (i <? 0) then Some (Z.to_nat (Z.of_nat len + i))
  else None.

Definition getitem {A} (l : list A) (i : Z) : result A :=
  match index (length l) i with
  | Some n => match l !! n with Some x => Ok x | None => Raise IndexError end
  | None => Raise IndexError
  end.

Definition setitem {A} (l : list A) (i : Z) (x : A) : result (list A) :=
  match index (length l) i with
  | Some n => Ok (<[n := x]> l)
  | None => Raise IndexError
  end.

(** [l.pop(i)]: the removed element and the remaining list. *)
Definition pop {A} (l : list A) (i : Z) : result (A * list A) :=
  match index (length l) i with
  | Some n => match l !! n with
              | Some x => Ok (x, delete n l)
              | None => Raise IndexError
              end
  | None => Raise IndexError
  end.

(** [l.insert(i, x)] never raises: the index is clamped. *)
Definition insert_pos (len : nat) (i : Z) : nat :=
  if i <? 0 then Z.to_nat (Z.max 0 (Z.of_nat len + i))
  else Z.to_nat (Z.min i (Z.of_nat len)).

Definition insert {A} (l : list A) (i : Z) (x : A) : list A :=
  let n := insert_pos (length l) i in
  take n l ++ x :: drop n l.

(** [0 <= i < len(l)] *)
Definition in_bounds {A} (i : Z) (l : list A) : bool :=
  (0 <=? i) && (i <? Z.of_nat (length l)).

End Py.

(** ** The drawer object

    The fields of [TrackingRouteDrawer] that the route engine reads or
    writes.  Tk widgets (canvas items, status and coordinate labels, the
    list box) are display only: [redraw_all_routes], [draw_point],
    [draw_line], [update_route_list] and the [config] calls read the store
    and never assign to it, and are left out.  [drag_start_x] and
    [drag_start_y] are written once and never read. *)

Abbreviation point := (Z * Z)%type.
Abbreviation route := (list (Z * Z)).

Record drawer : Type := mk_drawer {
  grid_size : Z;
  origin_x : Z;
  origin_y : Z;
  routes : list route;
  current_route : route;
  click_tolerance : Z;
  dragging : bool;
  drag_route_idx : option Z;
  drag_point_idx : option Z
}.

(** [__init__] *)
Definition init : drawer :=
  {| grid_size := 20; origin_x := 0; origin_y := 0;
     routes := []; current_route := [];
     click_tolerance := 8;
     dragging := false; drag_route_idx := None; drag_point_idx := None |}.

Definition set_routes (rs : list route) (s : drawer) : drawer :=
  {| grid_size := grid_size s; origin_x := origin_x s; origin_y := origin_y s;
     routes := rs; current_route := current_route s;
     click_tolerance := click_tolerance s;
     dragging := dragging s; drag_route_idx := drag_route_idx s;
     drag_point_idx := drag_point_idx s |}.

Definition set_current_route (r : route) (s : drawer) : drawer :=
  {| grid_size := grid_size s; origin_x := origin_x s; origin_y := origin_y s;
     routes := routes s; current_route := r;
     click_tolerance := click_tolerance s;
     dragging := dragging s; drag_route_idx := drag_route_idx s;
     drag_point_idx := drag_point_idx s |}.

Definition set_drag (d : bool) (r p : option Z) (s : drawer) : drawer :=
  {| grid_size := grid_size s; origin_x := origin_x s; origin_y := origin_y s;
     routes := routes s; current_route := current_route s;
     click_tolerance := click_tolerance s;
     dragging := d; drag_route_idx := r; drag_point_idx := p |}.

(** Methods run in a state-and-exception monad over the drawer: a raised
    exception leaves the assignments made so far in place. *)
Definition M (A : Type) : Type := drawer -> result A * drawer.

#[global] Instance M_ret : MRet M := fun A a s => (Ok a, s).
#[global] Instance M_bind : MBind M := fun A B f m s =>
  match m s with
  | (Ok a, s') => f a s'
  | (Raise e, s') => (Raise e, s')
  end.

Definition get : M drawer := fun s => (Ok s, s).
Definition put (s' : drawer) : M unit := fun _ => (Ok tt, s').
Definition modify (f : drawer -> drawer) : M unit := fun s => (Ok tt, f s).
(** A computation that does not touch [self]. *)
Definition lift {A} (r : result A) : M A := fun s => (r, s).

(** ** Coordinate system *)

Definition canvas_to_coord_x (s : drawer) (canvas_x : Z) : result Z :=
  d ← Py.sub (Py.Int canvas_x) (Py.Int (origin_x s));
  q ← Py.truediv d (Py.Int (grid_size s));
  Py.round q.

Definition canvas_to_coord_y (s : drawer) (canvas_y : Z) : result Z :=
  d ← Py.sub (Py.Int canvas_y) (Py.Int (origin_y s));
  q ← Py.truediv d (Py.Int (grid_size s));
  Py.round q.

Definition coord_to_canvas_x (s : drawer) (coord_x : Z) : Z :=
  origin_x s + coord_x * grid_size s.

Definition coord_to_canvas_y (s : drawer) (coord_y : Z) : Z :=
  origin_y s + coord_y * grid_size s.

(** ** Hit testing *)

(** The test of one point in [find_point_at_position]:
    [math.sqrt((canvas_x - px)**2 + (canvas_y - py)**2) <= click_tolerance]. *)
Definition point_hit (s : drawer) (canvas_x canvas_y : Z) (p : point) : result bool :=
  let point_canvas_x := coord_to_canvas_x s (fst p) in
  let point_canvas_y := coord_to_canvas_y s (snd p) in
  distance ← Py.sqrt (Py.Int ((canvas_x - point_canvas_x) ^ 2
                              + (canvas_y - point_canvas_y) ^ 2));
  Ok (Py.le distance (Py.Int (click_tolerance s))).

(** [for i, point in enumerate(route)]: the index of the first hit. *)
Fixpoint scan_points (s : drawer) (canvas_x canvas_y : Z) (r : route) (i : Z)
  : result (option Z) :=
  match r with
  | [] => Ok None
  | p :: rest =>
      hit ← point_hit s canvas_x canvas_y p;
      if hit : bool then Ok (Some i)
      else scan_points s canvas_x canvas_y rest (i + 1)
  end.

(** [for route_idx, route in enumerate(self.routes)] *)
Fixpoint scan_routes (s : drawer) (canvas_x canvas_y : Z) (rs : list route)
    (route_idx : Z) : result (option (Z * Z)) :=
  match rs with
  | [] => Ok None
  | r :: rest =>
      found ← scan_points s canvas_x canvas_y r 0;
      match found with
      | Some point_idx => Ok (Some (route_idx, point_idx))
      | None => scan_routes s canvas_x canvas_y rest (route_idx + 1)
      end
  end.

(** The current route is reported as route [-1]. *)
Definition find_point_at_position (s : drawer) (canvas_x canvas_y : Z)
  : result (option (Z * Z)) :=
  found ← scan_points s canvas_x canvas_y (current_route s) 0;
  match found with
  | Some i => Ok (Some (-1, i))
  | None => scan_routes s canvas_x canvas_y (routes s) 0
  end.

Definition is_point_on_line (s : drawer) (canvas_x canvas_y : Z)
    (point1 point2 : point) : result bool :=
  let x1 := coord_to_canvas_x s (fst point1) in
  let y1 := coord_to_canvas_y s (snd point1) in
  let x2 := coord_to_canvas_x s (fst point2) in
  let y2 := coord_to_canvas_y s (snd point2) in
  let line_length_sq := (x2 - x1) ^ 2 + (y2 - y1) ^ 2 in
  if line_length_sq =? 0 then Ok false
  else
    q ← Py.truediv (Py.Int ((canvas_x - x1) * (x2 - x1) + (canvas_y - y1) * (y2 - y1)))
                   (Py.Int line_length_sq);
    let t := Py.max (Py.Int 0) (Py.min (Py.Int 1) q) in
    tx ← Py.mul t (Py.Int (x2 - x1));
    closest_x ← Py.add (Py.Int x1) tx;
    ty ← Py.mul t (Py.Int (y2 - y1));
    closest_y ← Py.add (Py.Int y1) ty;
    dx ← Py.sub (Py.Int canvas_x) closest_x;
    dx2 ← Py.pow2 dx;
    dy ← Py.sub (Py.Int canvas_y) closest_y;
    dy2 ← Py.pow2 dy;
    sum ← Py.add dx2 dy2;
    distance ← Py.sqrt sum;
    Ok (Py.le distance (Py.Int (click_tolerance s))).

(** [for i in range(len(route) - 1)]: the start index of the first
    segment that is hit. *)
Fixpoint scan_lines (s : drawer) (canvas_x canvas_y : Z) (r : route) (i : Z)
  : result (option Z) :=
  match r with
  | [] => Ok None
  | point1 :: rest =>
      match rest with
      | [] => Ok None
      | point2 :: _ =>
          hit ← is_point_on_line s canvas_x canvas_y point1 point2;
          if hit : bool then Ok (Some i)
          else scan_lines s canvas_x canvas_y rest (i + 1)
      end
  end.

Fixpoint scan_route_lines (s : drawer) (canvas_x canvas_y : Z) (rs : list route)
    (route_idx : Z) : result (option (Z * Z * Z)) :=
  match rs with
  | [] => Ok None
  | r :: rest =>
      found ← scan_lines s canvas_x canvas_y r 0;
      match found with
      | Some i => Ok (Some (route_idx, i, i + 1))
      | None => scan_route_lines s canvas_x canvas_y rest (route_idx + 1)
      end
  end.

Definition find_line_at_position (s : drawer) (canvas_x canvas_y : Z)
  : result (option (Z * Z * Z)) :=
  found ← scan_lines s canvas_x canvas_y (current_route s) 0;
  match found with
  | Some i => Ok (Some (-1, i, i + 1))
  | None => scan_route_lines s canvas_x canvas_y (routes s) 0
  end.

(** ** Route store mutations *)

Definition start_new_route : M unit :=
  s ← get;
  _ ← (match current_route s with
       | [] => mret tt
       | _ :: _ => modify (set_routes (routes s ++ [current_route s]))
       end);
  modify (set_current_route []).

Definition clear_all : M unit :=
  _ ← modify (set_routes []);
  modify (set_current_route []).

Definition undo_last_point : M unit :=
  s ← get;
  match current_route s with
  | [] => mret tt
  | _ :: _ =>
      '(_, rest) ← lift (Py.pop (current_route s) (-1));
      modify (set_current_route rest)
  end.

Definition remove_point (route_idx point_idx : Z) : M unit :=
  s ← get;
  if route_idx =? -1 then
    if Py.in_bounds point_idx (current_route s) then
      '(_, rest) ← lift (Py.pop (current_route s) point_idx);
      modify (set_current_route rest)
    else mret tt
  else
    if Py.in_bounds route_idx (routes s) then
      r ← lift (Py.getitem (routes s) route_idx);
      if Py.in_bounds point_idx r then
        '(_, rest) ← lift (Py.pop r point_idx);
        match rest with
        | [] =>
            '(_, rs) ← lift (Py.pop (routes s) route_idx);
            modify (set_routes rs)
        | _ :: _ =>
            rs ← lift (Py.setitem (routes s) route_idx rest);
            modify (set_routes rs)
        end
      else mret tt
    else mret tt.

Definition insert_point_in_route (route_idx insert_idx : Z) (new_point : point)
  : M unit :=
  s ← get;
  if route_idx =? -1 then
    modify (set_current_route (Py.insert (current_route s) insert_idx new_point))
  else
    if Py.in_bounds route_idx (routes s) then
      r ← lift (Py.getitem (routes s) route_idx);
      rs ← lift (Py.setitem (routes s) route_idx (Py.insert r insert_idx new_point));
      modify (set_routes rs)
    else mret tt.

(** ** Mouse handlers *)

Definition on_left_click (x y : Z) : M unit :=
  s ← get;
  clicked ← lift (find_point_at_position s x y);
  match clicked with
  | Some (route_idx, point_idx) =>
      modify (set_drag true (Some route_idx) (Some point_idx))
  | None =>
      coord_x ← lift (canvas_to_coord_x s x);
      coord_y ← lift (canvas_to_coord_y s y);
      modify (set_current_route (current_route s ++ [(coord_x, coord_y)]))
  end.

Definition on_right_click (x y : Z) : M unit :=
  s ← get;
  clicked ← lift (find_point_at_position s x y);
  match clicked with
  | Some (route_idx, point_idx) => remove_point route_idx point_idx
  | None =>
      line_info ← lift (find_line_at_position s x y);
      match line_info with
      | Some (route_idx, point1_idx, _) =>
          coord_x ← lift (canvas_to_coord_x s x);
          coord_y ← lift (canvas_to_coord_y s y);
          insert_point_in_route route_idx (point1_idx + 1) (coord_x, coord_y)
      | None => mret tt
      end
  end.

(** A list subscript that is [None] is a [TypeError]. *)
Definition subscript (i : option Z) : result Z :=
  match i with Some z => Ok z | None => Raise TypeError end.

(** The assignment in [on_left_release]:
    [self.current_route[point_idx] = new_pos] when [route_idx == -1],
    [self.routes[route_idx][point_idx] = new_pos] otherwise. *)
Definition move_point (route_idx point_idx : option Z) (new_pos : point) : M unit :=
  s ← get;
  if bool_decide (route_idx = Some (-1)) then
    i ← lift (subscript point_idx);
    r ← lift (Py.setitem (current_route s) i new_pos);
    modify (set_current_route r)
  else
    j ← lift (subscript route_idx);
    r ← lift (Py.getitem (routes s) j);
    i ← lift (subscript point_idx);
    r' ← lift (Py.setitem r i new_pos);
    rs ← lift (Py.setitem (routes s) j r');
    modify (set_routes rs).

Definition on_left_release (x y : Z) : M unit :=
  s ← get;
  if dragging s then
    coord_x ← lift (canvas_to_coord_x s x);
    coord_y ← lift (canvas_to_coord_y s y);
    _ ← move_point (drag_route_idx s) (drag_point_idx s) (coord_x, coord_y);
    modify (set_drag false None None)
  else mret tt.

Definition on_drag (x y : Z) : M unit :=
  s ← get;
  if dragging s then
    _ ← lift (canvas_to_coord_x s x);
    _ ← lift (canvas_to_coord_y s y);
    mret tt
  else mret tt.

(** ** Arc length *)

(** [math.sqrt((x2 - x1)**2 + (y2 - y1)**2)] for two grid points. *)
Definition segment_length (a b : point) : result Py.num :=
  let '(x1, y1) := a in
  let '(x2, y2) := b in
  dx ← Py.sub (Py.Int x2) (Py.Int x1);
  dx2 ← Py.pow2 dx;
  dy ← Py.sub (Py.Int y2) (Py.Int y1);
  dy2 ← Py.pow2 dy;
  sum ← Py.add dx2 dy2;
  Py.sqrt sum.

(** The loop of [calculate_route_length], over consecutive pairs. *)
Fixpoint length_loop (total_length : Py.num) (r : route) : result Py.num :=
  match r with
  | [] => Ok total_length
  | a :: rest =>
      match rest with
      | [] => Ok total_length
      | b :: _ =>
          distance ← segment_length a b;
          total_length' ← Py.add total_length distance;
          length_loop total_length' rest
      end
  end.

Definition calculate_route_length (r : route) : result Py.num :=
  if (length r <? 2)%nat then Ok (Py.Float Py.fzero)
  else length_loop (Py.Float Py.fzero) r.

Definition calculate_euclidean_distance (r : route) : result Py.num :=
  if (length r <? 2)%nat then Ok (Py.Float Py.fzero)
  else
    '(start_x, start_y) ← Py.getitem r 0;
    '(end_x, end_y) ← Py.getitem r (-1);
    segment_length (start_x, start_y) (end_x, end_y).

(** A returned position: grid points are pairs of ints, interpolated
    positions pairs of floats. *)
Abbreviation position := (Py.num * Py.num)%type.

Definition of_point (p : point) : position := (Py.Int (fst p), Py.Int (snd p)).

(** Python's [==] on two such tuples. *)
Definition position_eq (p q : position) : bool :=
  Py.eq (fst p) (fst q) && Py.eq (snd p) (snd q).

(** [x1 + ratio * (x2 - x1)] *)
Definition interpolate (x1 x2 : Z) (ratio : Py.num) : result Py.num :=
  d ← Py.sub (Py.Int x2) (Py.Int x1);
  t ← Py.mul ratio d;
  Py.add (Py.Int x1) t.

(** The loop of [get_point_at_distance]; [None] when it runs to the end. *)
Fixpoint distance_loop (target_distance current_distance : Py.num) (r : route)
  : result (option position) :=
  match r with
  | [] => Ok None
  | a :: rest =>
      match rest with
      | [] => Ok None
      | b :: _ =>
          segment_length ← segment_length a b;
          reached ← Py.add current_distance segment_length;
          if Py.ge reached target_distance then
            remaining_distance ← Py.sub target_distance current_distance;
            if Py.eq segment_length (Py.Int 0) then Ok (Some (of_point a))
            else
              ratio ← Py.truediv remaining_distance segment_length;
              x ← interpolate (fst a) (fst b) ratio;
              y ← interpolate (snd a) (snd b) ratio;
              Ok (Some (x, y))
          else
            current_distance' ← Py.add current_distance segment_length;
            distance_loop target_distance current_distance' rest
      end
  end.

Definition get_point_at_distance (r : route) (target_distance : Py.num)
  : result position :=
  if (length r <? 2)%nat then
    match r with
    | [] => Ok (Py.Int 0, Py.Int 0)
    | _ :: _ => p ← Py.getitem r 0; Ok (of_point p)
    end
  else if Py.le target_distance (Py.Int 0) then
    p ← Py.getitem r 0; Ok (of_point p)
  else
    found ← distance_loop target_distance (Py.Float Py.fzero) r;
    match found with
    | Some p => Ok p
    | None => p ← Py.getitem r (-1); Ok (of_point p)
    end.

Definition get_middle_point (r : route) : result position :=
  total_length ← calculate_route_length r;
  half ← Py.truediv total_length (Py.Int 2);
  get_point_at_distance r half.

Definition get_third_points (r : route) : result (position * position) :=
  total_length ← calculate_route_length r;
  d1 ← Py.truediv total_length (Py.Int 3);
  point_1_3 ← get_point_at_distance r d1;
  twice ← Py.mul (Py.Int 2) total_length;
  d2 ← Py.truediv twice (Py.Int 3);
  point_2_3 ← get_point_at_distance r d2;
  Ok (point_1_3, point_2_3).

(** ** Feature extraction *)

Definition base_names : list string :=
  ["start_x"; "start_y"; "end_x"; "end_y"; "length"]%string.

Definition feature_names (include_middle include_thirds include_euclidean : bool)
  : list string :=
  base_names
  ++ (if include_middle then ["middle_x"; "middle_y"]%string else [])
  ++ (if include_thirds
      then ["third1_x"; "third1_y"; "third2_x"; "third2_y"]%string else [])
  ++ (if include_euclidean then ["euclidean_dist"]%string else []).

Definition extract_single_route_features (r : route)
    (include_middle include_thirds include_euclidean : bool)
  : result (list Py.num) :=
  '(start_x, start_y) ← Py.getitem r 0;
  '(end_x, end_y) ← Py.getitem r (-1);
  length ← calculate_route_length r;
  let feature_vector :=
    [Py.Int start_x; Py.Int start_y; Py.Int end_x; Py.Int end_y; length] in
  feature_vector ←
    (if include_middle then
       '(middle_x, middle_y) ← get_middle_point r;
       Ok (feature_vector ++ [middle_x; middle_y])
     else Ok feature_vector);
  feature_vector ←
    (if include_thirds then
       '(point_1_3, point_2_3) ← get_third_points r;
       Ok (feature_vector
           ++ [fst point_1_3; snd point_1_3; fst point_2_3; snd point_2_3])
     else Ok feature_vector);
  if include_euclidean then
    euclidean_dist ← calculate_euclidean_distance r;
    Ok (feature_vector ++ [euclidean_dist])
  else Ok feature_vector.

(** The decimal text of [i + 1] in [f"Route {i+1}"]. *)
Definition route_label (i : nat) : string :=
  String.append "Route " (NilEmpty.string_of_uint (Nat.to_uint (S i))).

(** [for i, route in enumerate(self.routes)], accumulating the rows and
    their labels. *)
Fixpoint extract_loop (include_middle include_thirds include_euclidean : bool)
    (rs : list route) (i : nat) (features : list (list Py.num))
    (route_labels : list string)
  : result (list (list Py.num) * list string) :=
  match rs with
  | [] => Ok (features, route_labels)
  | r :: rest =>
      if (2 <=? length r)%nat then
        feature_vector ← extract_single_route_features r
                           include_middle include_thirds include_euclidean;
        extract_loop include_middle include_thirds include_euclidean rest (S i)
          (features ++ [feature_vector]) (route_labels ++ [route_label i])
      else
        extract_loop include_middle include_thirds include_euclidean rest (S i)
          features route_labels
  end.

(** The rows are handed to [np.array], which packs them into a matrix
    with one row per feature vector; the list of rows stands for it. *)
Definition extract_route_features
    (include_middle include_thirds include_euclidean : bool)
  : M (list (list Py.num) * list string * list string) :=
  s ← get;
  '(features, route_labels) ←
    lift (extract_loop include_middle include_thirds include_euclidean
            (routes s) 0 [] []);
  '(features, route_labels) ←
    (if (2 <=? length (current_route s))%nat then
       feature_vector ← lift (extract_single_route_features (current_route s)
                                 include_middle include_thirds include_euclidean);
       mret (features ++ [feature_vector], route_labels ++ ["Current Route"%string])
     else mret (features, route_labels));
  mret (features, route_labels,
        feature_names include_middle include_thirds include_euclidean).

(** ** Coordinate ranges

    Grid coordinates that a double represents exactly, and device
    coordinates as Tk delivers them (C ints). *)
Definition coord_ok (z : Z) : Prop := Z.abs z <= 2 ^ 53.
Definition point_ok (p : point) : Prop := coord_ok (fst p) /\ coord_ok (snd p).
Definition route_ok (r : route) : Prop := Forall point_ok r.
Definition device_ok (c : Z) : Prop := Z.abs c <= 2 ^ 31.

(** The drawer as [__init__] configures it, with every stored coordinate
    in range. *)
Definition store_ok (s : drawer) : Prop :=
  grid_size s = 20 /\ origin_x s = 0 /\ origin_y s = 0 /\ click_tolerance s = 8
  /\ Forall route_ok (routes s) /\ route_ok (current_route s).

(** The integer nearest to [a / g], the even one of two that are equally
    near. *)
Definition round_div (a g : Z) : Z :=
  let q := a / g in
  let r := a mod g in
  match 2 * r ?= g with
  | Lt => q
  | Gt => q + 1
  | Eq => if Z.even q then q else q + 1
  end.

(** ** Program states

    The store invariant of the data model, the user events, and the states
    the program can reach from [__init__] by handling events. *)

Definition no_empty_route (s : drawer) : Prop :=
  Forall (fun r : route => r <> []) (routes s).

Inductive event : Type :=
| LeftClick (x y : Z)
| RightClick (x y : Z)
| LeftRelease (x y : Z)
| Drag (x y : Z)
| NewRoute
| ClearAll
| UndoLastPoint.

Definition handle (ev : event) : M unit :=
  match ev with
  | LeftClick x y => on_left_click x y
  | RightClick x y => on_right_click x y
  | LeftRelease x y => on_left_release x y
  | Drag x y => on_drag x y
  | NewRoute => start_new_route
  | ClearAll => clear_all
  | UndoLastPoint => undo_last_point
  end.

(** Tk delivers event coordinates as C ints. *)
Definition event_ok (ev : event) : Prop :=
  match ev with
  | LeftClick x y | RightClick x y | LeftRelease x y | Drag x y =>
      device_ok x /\ device_ok y
  | NewRoute | ClearAll | UndoLastPoint => True
  end.

(** The state after an event, whether or not its handler raised. *)
Definition after (ev : event) (s : drawer) : drawer := snd (handle ev s).

Definition run (evs : list event) (s : drawer) : drawer :=
  fold_left (fun st ev => after ev st) evs s.

Inductive reachable : drawer -> Prop :=
| reachable_init : reachable init
| reachable_step s ev : event_ok ev -> reachable s -> reachable (after ev s).

(** A route reference is [-1] for the current route or an index into the
    committed routes. *)
Definition valid_ref (s : drawer) (route_idx : Z) : Prop :=
  route_idx = -1 \/ 0 <= route_idx < Z.of_nat (length (routes s)).

Definition route_at (s : drawer) (route_idx : Z) : route :=
  if route_idx =? -1 then current_route s
  else default [] (routes s !! Z.to_nat route_idx).


(** The state in which a drag has lost its target: a click adds the point
    (1, 1) to the current route, a second click on it starts a drag of
    point 0 of the current route, and a right click on it (the left button
    still held) removes it. *)
Definition stale_drag : drawer :=
  run [LeftClick 20 20; LeftClick 20 20; RightClick 20 20] init.

(** The drawer after a point of the current route has been dragged onto
    the point of a committed route. *)
Definition coincident : drawer :=
  run [LeftClick 20 20; NewRoute; LeftClick 60 20; LeftClick 60 20;
       LeftRelease 20 20] init.


(** ** Scan order of the hit tests

    The order in which [find_point_at_position] visits the points: the
    current route's points (route reference [-1]) by index, then the
    committed routes by index, each by point index. *)
Fixpoint enumerate_from {A} (i : Z) (l : list A) : list (Z * A) :=
  match l with
  | [] => []
  | x :: rest => (i, x) :: enumerate_from (i + 1) rest
  end.

(** Python's [enumerate]. *)
Definition enumerate {A} (l : list A) : list (Z * A) := enumerate_from 0 l.

Definition tagged {A} (route_idx : Z) (l : list A) : list ((Z * Z) * A) :=
  map (fun ix : Z * A => ((route_idx, fst ix), snd ix)) (enumerate l).

Definition scan_order (s : drawer) : list ((Z * Z) * point) :=
  tagged (-1) (current_route s)
  ++ concat (map (fun jr : Z * route => tagged (fst jr) (snd jr))
                 (enumerate (routes s))).

(** The consecutive point pairs of a route, in order. *)
Definition segments (r : route) : list (point * point) := zip r (tail r).

(** The order in which [find_line_at_position] visits the segments; a
    segment is tagged with its route reference and start index. *)
Definition segment_scan_order (s : drawer) : list ((Z * Z) * (point * point)) :=
  tagged (-1) (segments (current_route s))
  ++ concat (map (fun jr : Z * route => tagged (fst jr) (segments (snd jr)))
                 (enumerate (routes s))).

(** References in the order of a scan: the current route, reported as
    [-1], comes before the committed routes, these go by index, and the
    points or segments of a route go by index. *)
Definition ref_lt (a b : Z * Z) : Prop :=
  fst a < fst b \/ (fst a = fst b /\ snd a < snd b).

(** The point stored under a route reference and a point index. *)
Definition point_at (s : drawer) (ref : Z * Z) (p : point) : Prop :=
  0 <= snd ref
  /\ ((fst ref = -1 /\ current_route s !! Z.to_nat (snd ref) = Some p)
      \/ (0 <= fst ref
          /\ exists r, routes s !! Z.to_nat (fst ref) = Some r
                       /\ r !! Z.to_nat (snd ref) = Some p)).

(** The segment stored under a route reference and the index of its
    first end. *)
Definition segment_at (s : drawer) (ref : Z * Z) (ab : point * point) : Prop :=
  0 <= snd ref
  /\ ((fst ref = -1 /\ current_route s !! Z.to_nat (snd ref) = Some (fst ab)
       /\ current_route s !! S (Z.to_nat (snd ref)) = Some (snd ab))
      \/ (0 <= fst ref
          /\ exists r, routes s !! Z.to_nat (fst ref) = Some r
                       /\ r !! Z.to_nat (snd ref) = Some (fst ab)
                       /\ r !! S (Z.to_nat (snd ref)) = Some (snd ab))).

(** The test [find_line_at_position] applies to a segment. *)
Definition segment_test (s : drawer) (cx cy : Z) (ab : point * point) : result bool :=
  is_point_on_line s cx cy (fst ab) (snd ab).

(** The first element that passes a test which may raise. *)
Fixpoint first_match {A} (test : A -> result bool) (l : list A) : result (option A) :=
  match l with
  | [] => Ok None
  | x :: rest =>
      hit ← test x;
      if hit : bool then Ok (Some x) else first_match test rest
  end.

(** The distance from a device position to a segment as the specification
    words it: [t = clamp(dot(P - A, B - A) / |B - A|^2, 0, 1)], the closest
    point [A + t (B - A)], and the distance from the position to it. *)
Definition clamp01 (q : Py.num) : Py.num :=
  Py.max (Py.Int 0) (Py.min (Py.Int 1) q).

Definition closest_point_distance (px py ax ay bx by' : Z) : result Py.num :=
  let dot := (px - ax) * (bx - ax) + (py - ay) * (by' - ay) in
  let len_sq := (bx - ax) ^ 2 + (by' - ay) ^ 2 in
  q ← Py.truediv (Py.Int dot) (Py.Int len_sq);
  let t := clamp01 q in
  tx ← Py.mul t (Py.Int (bx - ax));
  cx ← Py.add (Py.Int ax) tx;
  ty ← Py.mul t (Py.Int (by' - ay));
  cy ← Py.add (Py.Int ay) ty;
  dx ← Py.sub (Py.Int px) cx;
  dx2 ← Py.pow2 dx;
  dy ← Py.sub (Py.Int py) cy;
  dy2 ← Py.pow2 dy;
  sum ← Py.add dx2 dy2;
  Py.sqrt sum.

(** ** Qualifying routes of a feature extraction *)

Definition qualifies (r : route) : bool := (2 <=? length r)%nat.

(** The committed routes with at least two points, each with the label of
    its position in the store, counted from 1. *)
Definition committed_rows (rs : list route) : list (string * route) :=
  omap (fun ir : nat * route => if qualifies (snd ir)
                                then Some (route_label (fst ir), snd ir) else None)
       (imap (fun i r => (i, r)) rs).

Definition qualifying_routes (s : drawer) : list (string * route) :=
  committed_rows (routes s)
  ++ (if qualifies (current_route s)
      then [("Current Route"%string, current_route s)] else []).

(** The drawer of a drawing with a committed single point, a committed
    route of two points and a current route of two points. *)
Definition three_routes : drawer :=
  run [LeftClick 20 20; NewRoute; LeftClick 100 20; LeftClick 100 100; NewRoute;
       LeftClick 200 200; LeftClick 260 280] init.

(** The feature vectors of the qualifying routes in order; the first
    vector that raises ends the extraction. *)
Definition feature_rows (include_middle include_thirds include_euclidean : bool)
    (qs : list (string * route)) : result (list (list Py.num)) :=
  mapM (fun lr : string * route =>
          extract_single_route_features (snd lr)
            include_middle include_thirds include_euclidean) qs.


(** ** Predicates on floats *)

Abbreviation fexp := (SpecFloat.fexp Py.prec Py.emax).

(** A zero, or a finite float below [2 ^ K] in magnitude. *)
Definition mag_le (K : Z) (f : spec_float) : Prop :=
  match f with
  | S754_zero _ => True
  | S754_finite _ m e => Zdigits2 (Z.pos m) + e <= K
  | _ => False
  end.

(** The sign of a float that is not a NaN. *)
Definition has_sign (sx : bool) (f : spec_float) : Prop :=
  match f with
  | S754_zero s | S754_finite s _ _ | S754_infinity s => s = sx
  | S754_nan => False
  end.

Definition valid (f : spec_float) : Prop := valid_binary Py.prec Py.emax f = true.

Definition fle (a b : spec_float) : Prop :=
  SFcompare a b = Some Lt \/ SFcompare a b = Some Eq.

(** A valid float with sign bit clear: [+0.0], a positive finite float or
    [+inf]. *)
Definition nonneg (f : spec_float) : Prop := valid f /\ has_sign false f.

(** The value of a valid finite float, scaled by [2 ^ 1074] to an
    integer. *)
Definition scaled (m : positive) (e : Z) : Z := Z.pos m * 2 ^ (e + 1074).


(** A distance argument that converts to a float. *)
Definition distance_ok (d : Py.num) : Prop := exists f, Py.to_float d = Ok f.

(** The interpolation of [get_point_at_distance] inside the segment from
    [a] to [b] that starts at cumulative length [cumulative]:
    [a + ((d - cumulative) / segment_length) * (b - a)], or [a] itself on a
    segment of length zero. *)
Definition interpolate_on (a b : point) (cumulative segment_length d : Py.num)
  : result position :=
  remaining_distance ← Py.sub d cumulative;
  if Py.eq segment_length (Py.Int 0) then Ok (of_point a)
  else
    ratio ← Py.truediv remaining_distance segment_length;
    x ← interpolate (fst a) (fst b) ratio;
    y ← interpolate (snd a) (snd b) ratio;
    Ok (x, y).

(** The segment lengths of a route in order, each as [segment_length]
    computes it, and their sum accumulated from the left as in
    [calculate_route_length]. *)
Definition segment_lengths (r : route) : list (result Py.num) :=
  map (fun ab : point * point => segment_length (fst ab) (snd ab)) (segments r).

Fixpoint sum_lengths (total_length : Py.num) (ds : list (result Py.num))
  : result Py.num :=
  match ds with
  | [] => Ok total_length
  | d :: rest =>
      distance ← d;
      total_length' ← Py.add total_length distance;
      sum_lengths total_length' rest
  end.

(** A four-point route on the unit grid whose length depends on the
    direction of travel. *)
Definition zigzag : route := [(0, 0); (0, 1); (1, 0); (0, 1)].

(** The value of a finite float with mantissa [m] and exponent [e] is the
    integer [a]. *)
Definition represents (m : positive) (e : Z) (a : Z) : Prop :=
  (0 <= e /\ Z.pos m * 2 ^ e = a) \/ (e < 0 /\ Z.pos m = a * 2 ^ (- e)).

(** * Further definitions: drag state, counts, analysis dialog, cluster colours *)

From Stdlib Require Import DecimalNat.
From stdpp Require Import gmap.
Open Scope Z_scope.

(** The drag state of the drawer: the flag and the reference of the
    dragged point. *)
Definition drag_of (s : drawer) : bool * option Z * option Z :=
  (dragging s, drag_route_idx s, drag_point_idx s).

(** While a drag is on, the drag reference is set, to a route reference
    and a point index that a search has returned. *)
Definition drag_ok (s : drawer) : Prop :=
  dragging s = true ->
  exists j i, drag_route_idx s = Some j /\ drag_point_idx s = Some i
              /\ -1 <= j /\ 0 <= i.

(** The number of points the drawer stores. *)
Definition point_count (s : drawer) : nat :=
  (length (current_route s) + length (concat (routes s)))%nat.

(** [open_analysis_dialog]: the route count it checks and displays. *)
Definition total_routes (s : drawer) : nat :=
  (length (routes s) + (if (2 <=? length (current_route s))%nat then 1 else 0))%nat.

(** [update_feature_count] of [open_analysis_dialog]: the count and the
    feature list of the info text. *)
Definition update_feature_count (include_middle include_thirds include_euclidean : bool)
  : nat * list string :=
  let base_features := 5%nat in
  let count := base_features in
  let feature_list := ["start_x"; "start_y"; "end_x"; "end_y"; "length"]%string in
  let '(count, feature_list) :=
    if include_middle
    then ((count + 2)%nat, feature_list ++ ["middle_x"; "middle_y"]%string)
    else (count, feature_list) in
  let '(count, feature_list) :=
    if include_thirds
    then ((count + 4)%nat,
          feature_list ++ ["third1_x"; "third1_y"; "third2_x"; "third2_y"]%string)
    else (count, feature_list) in
  let '(count, feature_list) :=
    if include_euclidean
    then ((count + 1)%nat, feature_list ++ ["euclidean_dist"]%string)
    else (count, feature_list) in
  (count, feature_list).

(** ** Cluster colours *)

(** [np.unique] of a vector of cluster ids: the distinct ids in
    increasing order. *)
Definition np_unique (a : list Z) : list Z := merge_sort Z.le (remove_dups a).

Definition cluster_colors : list string :=
  ["#FF6B6B"; "#4ECDC4"; "#45B7D1"; "#FFA07A"; "#98D8C8";
   "#F7DC6F"; "#BB8FCE"; "#85C1E9"; "#F8C471"; "#82E0AA";
   "#F1948A"; "#85C9F5"; "#F9E79F"; "#D7BDE2"; "#A9DFBF"]%string.

(** [for cluster_id in unique_clusters], filling the dictionary
    [cluster_color_map]; [None] stands for an exception of the palette
    subscript. *)
Fixpoint color_map_loop (unique_clusters : list Z) (color_idx : nat)
    (cluster_color_map : gmap Z string) : option (gmap Z string) :=
  match unique_clusters with
  | [] => Some cluster_color_map
  | cluster_id :: rest =>
      if cluster_id =? -1 then
        color_map_loop rest color_idx (<[cluster_id := "#808080"%string]> cluster_color_map)
      else
        color ← cluster_colors !! (color_idx mod length cluster_colors)%nat;
        color_map_loop rest (S color_idx) (<[cluster_id := color]> cluster_color_map)
  end.

(** [generate_cluster_colors]: the colour of every label, in the order of
    the labels; [None] stands for an exception, of the palette subscript
    or of the dictionary subscript [cluster_color_map[cluster_label]]. *)
Definition generate_cluster_colors (cluster_labels : list Z) : option (list string) :=
  cluster_color_map ← color_map_loop (np_unique cluster_labels) 0 ∅;
  mapM (fun cluster_label => cluster_color_map !! cluster_label) cluster_labels.

(** The clusters proper of a labelling, noise ([-1]) left out, in
    increasing order. *)
Definition clusters (cluster_labels : list Z) : list Z :=
  filter (fun x => x <> -1) (np_unique cluster_labels).

(** The number of clusters with a smaller id. *)
Definition cluster_rank (cluster_labels : list Z) (l : Z) : nat :=
  length (filter (fun x => x < l) (clusters cluster_labels)).

(** The palette, repeated every fifteen entries. *)
Definition palette (k : nat) : string :=
  default ""%string (cluster_colors !! (k mod 15)%nat).

Definition cluster_color (cluster_labels : list Z) (l : Z) : string :=
  if l =? -1 then "#808080"%string else palette (cluster_rank cluster_labels l).

(** ** The canvas

    The record [drawer] leaves the widgets out; here the drawer comes
    together with its Tk canvas.  A canvas is its display
    list: the items in the order of their creation, each with the
    coordinates, the options and the tag it was created with (the font
    of a text item, always Arial 8, is left out).  The status label, the
    coordinate label and the list box are not modelled. *)

Module Gui.

Inductive item : Type :=
| create_line (x1 y1 x2 y2 : Z) (fill : string) (width : option Z) (tags : string)
| create_oval (x1 y1 x2 y2 : Z) (fill outline : string) (width : Z) (tags : string)
| create_text (x y : Z) (text : string) (fill : option string) (tags : string).

Definition item_tags (it : item) : string :=
  match it with
  | create_line _ _ _ _ _ _ tags => tags
  | create_oval _ _ _ _ _ _ _ tags => tags
  | create_text _ _ _ _ tags => tags
  end.

Record app : Type := mk_app {
  store : drawer;
  canvas : list item
}.

(** Methods that also draw run in a state-and-exception monad over the
    drawer and its canvas. *)
Definition V (A : Type) : Type := app -> result A * app.

#[global] Instance V_ret : MRet V := fun A a g => (Ok a, g).
#[global] Instance V_bind : MBind V := fun A B f m g =>
  match m g with
  | (Ok a, g') => f a g'
  | (Raise e, g') => (Raise e, g')
  end.

Definition get_store : V drawer := fun g => (Ok (store g), g).
Definition modify_store (f : drawer -> drawer) : V unit :=
  fun g => (Ok tt, {| store := f (store g); canvas := canvas g |}).
Definition lift_result {A} (r : result A) : V A := fun g => (r, g).
(** A method that makes no canvas call. *)
Definition call {A} (m : M A) : V A := fun g =>
  (fst (m (store g)), {| store := snd (m (store g)); canvas := canvas g |}).

(** [self.canvas.create_...(...)]: the new item goes on top. *)
Definition canvas_create (it : item) : V unit :=
  fun g => (Ok tt, {| store := store g; canvas := canvas g ++ [it] |}).
(** [self.canvas.delete(tag)] *)
Definition canvas_delete (tag : string) : V unit :=
  fun g => (Ok tt, {| store := store g;
                      canvas := filter (fun it => item_tags it <> tag) (canvas g) |}).

(** [for x in l: f(x)] *)
Fixpoint for_each {A} (f : A -> V unit) (l : list A) : V unit :=
  match l with
  | [] => mret tt
  | x :: rest => _ ← f x; for_each f rest
  end.

(** Settings that [__init__] assigns and nothing changes. *)
Definition point_radius : Z := 4.
Definition grid_color : string := "#E0E0E0".
Definition axis_color : string := "#808080".
Definition point_color : string := "#FF0000".
Definition line_color : string := "#0000FF".

(** [str(n)] for an int. *)
Definition str_int (n : Z) : string := NilZero.string_of_int (Z.to_int n).

(** [range(start, stop, step)] as a list; a zero step is a
    [ValueError]. *)
Definition range (start stop step : Z) : result (list Z) :=
  if step =? 0 then Raise ValueError
  else
    let n := if 0 <? step then (stop - start + step - 1) / step
             else (start - stop - step - 1) / (- step) in
    Ok (map (fun k : nat => start + Z.of_nat k * step) (seq 0 (Z.to_nat n))).

(** *** Grid, axes and axis labels *)

Definition draw_grid (canvas_width canvas_height : Z) : V unit :=
  s ← get_store;
  xs ← lift_result (range 0 canvas_width (grid_size s));
  _ ← for_each (fun x => canvas_create
                   (create_line x 0 x canvas_height grid_color None "grid")) xs;
  ys ← lift_result (range 0 canvas_height (grid_size s));
  for_each (fun y => canvas_create
              (create_line 0 y canvas_width y grid_color None "grid")) ys.

Definition draw_coordinate_labels (canvas_width canvas_height : Z) : V unit :=
  s ← get_store;
  xs ← lift_result (range 0 canvas_width (grid_size s * 5));
  _ ← for_each (fun x =>
         coord_x ← lift_result (canvas_to_coord_x s x);
         if negb (coord_x =? 0)
         then canvas_create (create_text x 15 (str_int coord_x) None "labels")
         else mret tt) xs;
  ys ← lift_result (range 0 canvas_height (grid_size s * 5));
  _ ← for_each (fun y =>
         coord_y ← lift_result (canvas_to_coord_y s y);
         if negb (coord_y =? 0)
         then canvas_create (create_text 15 y (str_int coord_y) None "labels")
         else mret tt) ys;
  canvas_create (create_text 10 10 "(0,0)" None "labels").

Definition draw_axes (canvas_width canvas_height : Z) : V unit :=
  s ← get_store;
  _ ← canvas_create (create_line 0 (origin_y s) canvas_width (origin_y s)
                       axis_color (Some 2) "axes");
  _ ← canvas_create (create_line (origin_x s) 0 (origin_x s) canvas_height
                       axis_color (Some 2) "axes");
  draw_coordinate_labels canvas_width canvas_height.

(** The drawing part of [__init__], for a canvas whose requested size is
    [canvas_width] by [canvas_height]. *)
Definition startup (canvas_width canvas_height : Z) : V unit :=
  _ ← draw_grid canvas_width canvas_height;
  draw_axes canvas_width canvas_height.

(** *** Routes *)

(** [f"({coord_x},{coord_y})"] *)
Definition point_text (coord_x coord_y : Z) : string :=
  String.append "("
    (String.append (str_int coord_x)
       (String.append "," (String.append (str_int coord_y) ")"))).

Definition draw_point (canvas_x canvas_y coord_x coord_y : Z) : V unit :=
  _ ← canvas_create
        (create_oval (canvas_x - point_radius) (canvas_y - point_radius)
                     (canvas_x + point_radius) (canvas_y + point_radius)
                     point_color "black" 1 "points");
  canvas_create
    (create_text canvas_x (canvas_y - 15) (point_text coord_x coord_y)
                 (Some "black"%string) "point_labels").

Definition draw_line (x1 y1 x2 y2 : Z) : V unit :=
  canvas_create (create_line x1 y1 x2 y2 line_color (Some 2) "lines").

(** [for i, point in enumerate(route)] of [draw_route], from index [i]
    on. *)
Fixpoint draw_route_loop (route : route) (i : Z) (rest : list point) : V unit :=
  match rest with
  | [] => mret tt
  | (coord_x, coord_y) :: rest' =>
      s ← get_store;
      let canvas_x := coord_to_canvas_x s coord_x in
      let canvas_y := coord_to_canvas_y s coord_y in
      _ ← draw_point canvas_x canvas_y coord_x coord_y;
      _ ← (if 0 <? i then
             prev_point ← lift_result (Py.getitem route (i - 1));
             let prev_canvas_x := coord_to_canvas_x s (fst prev_point) in
             let prev_canvas_y := coord_to_canvas_y s (snd prev_point) in
             draw_line prev_canvas_x prev_canvas_y canvas_x canvas_y
           else mret tt);
      draw_route_loop route (i + 1) rest'
  end.

Definition draw_route (route : route) : V unit := draw_route_loop route 0 route.

Definition redraw_all_routes : V unit :=
  _ ← canvas_delete "points";
  _ ← canvas_delete "lines";
  _ ← canvas_delete "point_labels";
  s ← get_store;
  _ ← for_each draw_route (routes s);
  match current_route s with
  | [] => mret tt
  | _ :: _ => draw_route (current_route s)
  end.

(** *** The handlers with their canvas calls *)

Definition on_left_click (x y : Z) : V unit :=
  s ← get_store;
  clicked ← lift_result (find_point_at_position s x y);
  match clicked with
  | Some (route_idx, point_idx) =>
      modify_store (set_drag true (Some route_idx) (Some point_idx))
  | None =>
      coord_x ← lift_result (canvas_to_coord_x s x);
      coord_y ← lift_result (canvas_to_coord_y s y);
      let canvas_x := coord_to_canvas_x s coord_x in
      let canvas_y := coord_to_canvas_y s coord_y in
      _ ← modify_store (set_current_route (current_route s ++ [(coord_x, coord_y)]));
      _ ← draw_point canvas_x canvas_y coord_x coord_y;
      s ← get_store;
      if (1 <? length (current_route s))%nat then
        prev_point ← lift_result (Py.getitem (current_route s) (-2));
        let prev_canvas_x := coord_to_canvas_x s (fst prev_point) in
        let prev_canvas_y := coord_to_canvas_y s (snd prev_point) in
        draw_line prev_canvas_x prev_canvas_y canvas_x canvas_y
      else mret tt
  end.

(** [start_new_route] makes no canvas call. *)
Definition start_new_route : V unit := call start_new_route.

Definition clear_all : V unit :=
  _ ← modify_store (set_routes []);
  _ ← modify_store (set_current_route []);
  _ ← canvas_delete "points";
  _ ← canvas_delete "lines";
  canvas_delete "point_labels".

Definition undo_last_point : V unit :=
  s ← get_store;
  match current_route s with
  | [] => mret tt
  | _ :: _ =>
      '(_, rest) ← lift_result (Py.pop (current_route s) (-1));
      _ ← modify_store (set_current_route rest);
      redraw_all_routes
  end.

Definition remove_point (route_idx point_idx : Z) : V unit :=
  s ← get_store;
  if route_idx =? -1 then
    if Py.in_bounds point_idx (current_route s) then
      '(_, rest) ← lift_result (Py.pop (current_route s) point_idx);
      _ ← modify_store (set_current_route rest);
      redraw_all_routes
    else mret tt
  else
    if Py.in_bounds route_idx (routes s) then
      r ← lift_result (Py.getitem (routes s) route_idx);
      if Py.in_bounds point_idx r then
        '(_, rest) ← lift_result (Py.pop r point_idx);
        _ ← match rest with
            | [] =>
                '(_, rs) ← lift_result (Py.pop (routes s) route_idx);
                modify_store (set_routes rs)
            | _ :: _ =>
                rs ← lift_result (Py.setitem (routes s) route_idx rest);
                modify_store (set_routes rs)
            end;
        redraw_all_routes
      else mret tt
    else mret tt.

Definition insert_point_in_route (route_idx insert_idx : Z) (new_point : point)
  : V unit :=
  s ← get_store;
  if route_idx =? -1 then
    _ ← modify_store (set_current_route (Py.insert (current_route s) insert_idx new_point));
    redraw_all_routes
  else
    if Py.in_bounds route_idx (routes s) then
      r ← lift_result (Py.getitem (routes s) route_idx);
      rs ← lift_result (Py.setitem (routes s) route_idx (Py.insert r insert_idx new_point));
      _ ← modify_store (set_routes rs);
      redraw_all_routes
    else mret tt.

Definition on_right_click (x y : Z) : V unit :=
  s ← get_store;
  clicked ← lift_result (find_point_at_position s x y);
  match clicked with
  | Some (route_idx, point_idx) => remove_point route_idx point_idx
  | None =>
      line_info ← lift_result (find_line_at_position s x y);
      match line_info with
      | Some (route_idx, point1_idx, _) =>
          coord_x ← lift_result (canvas_to_coord_x s x);
          coord_y ← lift_result (canvas_to_coord_y s y);
          insert_point_in_route route_idx (point1_idx + 1) (coord_x, coord_y)
      | None => mret tt
      end
  end.

Definition on_left_release (x y : Z) : V unit :=
  s ← get_store;
  if dragging s then
    coord_x ← lift_result (canvas_to_coord_x s x);
    coord_y ← lift_result (canvas_to_coord_y s y);
    _ ← call (move_point (drag_route_idx s) (drag_point_idx s) (coord_x, coord_y));
    _ ← redraw_all_routes;
    modify_store (set_drag false None None)
  else mret tt.

(** [on_drag] makes no canvas call. *)
Definition on_drag (x y : Z) : V unit := call (on_drag x y).

Definition handle (ev : event) : V unit :=
  match ev with
  | LeftClick x y => on_left_click x y
  | RightClick x y => on_right_click x y
  | LeftRelease x y => on_left_release x y
  | Drag x y => on_drag x y
  | NewRoute => start_new_route
  | ClearAll => clear_all
  | UndoLastPoint => undo_last_point
  end.

(** The drawer and its canvas after an event. *)
Definition after (ev : event) (g : app) : app := snd (handle ev g).

(** The window that [__init__] leaves, for a canvas of the given
    requested size. *)
Definition init (canvas_width canvas_height : Z) : app :=
  snd (startup canvas_width canvas_height {| store := init; canvas := [] |}).

Inductive reachable (canvas_width canvas_height : Z) : app -> Prop :=
| reachable_init : reachable canvas_width canvas_height (init canvas_width canvas_height)
| reachable_step g ev :
    event_ok ev -> reachable canvas_width canvas_height g ->
    reachable canvas_width canvas_height (after ev g).

(** *** What a redraw puts on the canvas *)

Definition point_items (s : drawer) (p : point) : list item :=
  let canvas_x := coord_to_canvas_x s (fst p) in
  let canvas_y := coord_to_canvas_y s (snd p) in
  [create_oval (canvas_x - point_radius) (canvas_y - point_radius)
               (canvas_x + point_radius) (canvas_y + point_radius)
               point_color "black" 1 "points";
   create_text canvas_x (canvas_y - 15) (point_text (fst p) (snd p))
               (Some "black"%string) "point_labels"].

Definition line_item (s : drawer) (a b : point) : item :=
  create_line (coord_to_canvas_x s (fst a)) (coord_to_canvas_y s (snd a))
              (coord_to_canvas_x s (fst b)) (coord_to_canvas_y s (snd b))
              line_color (Some 2) "lines".

(** The items of a route: for every point its oval and its label, and,
    from the second point on, the line from the point before. *)
Fixpoint route_items_from (s : drawer) (prev : option point) (r : route) : list item :=
  match r with
  | [] => []
  | p :: rest =>
      point_items s p
      ++ match prev with Some a => [line_item s a p] | None => [] end
      ++ route_items_from s (Some p) rest
  end.

Definition route_items (s : drawer) (r : route) : list item :=
  route_items_from s None r.

(** The committed routes in order, then the current route. *)
Definition drawing (s : drawer) : list item :=
  concat (map (route_items s) (routes s)) ++ route_items s (current_route s).

(** The tags of the route layer. *)
Definition route_tag (tag : string) : bool :=
  bool_decide (tag = "points"%string \/ tag = "lines"%string \/ tag = "point_labels"%string).

(** *** Highlighting by clusters *)

(** [for i, label in enumerate(clustering_results['labels'])], filling
    the dictionary [route_to_cluster] with the cluster id and the colour
    of every label. *)
Fixpoint route_to_cluster_loop (labels : list string) (i : Z)
    (cluster_labels : list Z) (colors : list string)
    (route_to_cluster : gmap string (Z * string)) : result (gmap string (Z * string)) :=
  match labels with
  | [] => Ok route_to_cluster
  | label :: rest =>
      cluster_id ← Py.getitem cluster_labels i;
      color ← Py.getitem colors i;
      route_to_cluster_loop rest (i + 1) cluster_labels colors
        (<[label := (cluster_id, color)]> route_to_cluster)
  end.

(** [draw_route_with_color]: the loop over the points, from index [i]
    on. *)
Fixpoint draw_route_with_color_loop (route : route) (color : string) (i : Z)
    (rest : list point) : V unit :=
  match rest with
  | [] => mret tt
  | (coord_x, coord_y) :: rest' =>
      s ← get_store;
      let canvas_x := coord_to_canvas_x s coord_x in
      let canvas_y := coord_to_canvas_y s coord_y in
      _ ← canvas_create
            (create_oval (canvas_x - point_radius) (canvas_y - point_radius)
                         (canvas_x + point_radius) (canvas_y + point_radius)
                         color "black" 1 "points");
      _ ← canvas_create
            (create_text canvas_x (canvas_y - 15) (point_text coord_x coord_y)
                         (Some "black"%string) "point_labels");
      _ ← (if 0 <? i then
             prev_point ← lift_result (Py.getitem route (i - 1));
             let prev_canvas_x := coord_to_canvas_x s (fst prev_point) in
             let prev_canvas_y := coord_to_canvas_y s (snd prev_point) in
             canvas_create (create_line prev_canvas_x prev_canvas_y canvas_x canvas_y
                              color (Some 2) "lines")
           else mret tt);
      draw_route_with_color_loop route color (i + 1) rest'
  end.

Definition draw_route_with_color (route : route) (color : string) : V unit :=
  draw_route_with_color_loop route color 0 route.

(** The body of the [try] of [highlight_original_routes_by_clusters],
    for the labels, cluster labels and colours that
    [last_clustering_results] holds; without such results the method
    shows a warning and returns. *)
Definition highlight_routes (labels : list string) (cluster_labels : list Z)
    (colors : list string) : V unit :=
  _ ← canvas_delete "lines";
  _ ← canvas_delete "points";
  _ ← canvas_delete "point_labels";
  route_to_cluster ← lift_result
    (route_to_cluster_loop labels 0 cluster_labels colors ∅);
  s ← get_store;
  _ ← for_each (fun ir : nat * route =>
         match route_to_cluster !! route_label (fst ir) with
         | Some cluster_info => draw_route_with_color (snd ir) (snd cluster_info)
         | None => draw_route_with_color (snd ir) "#0000FF"
         end) (imap (fun i r => (i, r)) (routes s));
  match current_route s with
  | [] => mret tt
  | _ :: _ =>
      match route_to_cluster !! "Current Route"%string with
      | Some cluster_info => draw_route_with_color (current_route s) (snd cluster_info)
      | None => draw_route_with_color (current_route s) "#0000FF"
      end
  end.

(** [except Exception]: an exception ends the highlighting where it was
    raised and is reported in a message box. *)
Definition highlight_original_routes_by_clusters (labels : list string)
    (cluster_labels : list Z) (colors : list string) : V unit :=
  fun g => (Ok tt, snd (highlight_routes labels cluster_labels colors g)).

(** The items of a route in a colour. *)
Fixpoint colored_items_from (s : drawer) (color : string) (prev : option point)
    (r : route) : list item :=
  match r with
  | [] => []
  | p :: rest =>
      let canvas_x := coord_to_canvas_x s (fst p) in
      let canvas_y := coord_to_canvas_y s (snd p) in
      [create_oval (canvas_x - point_radius) (canvas_y - point_radius)
                   (canvas_x + point_radius) (canvas_y + point_radius)
                   color "black" 1 "points";
       create_text canvas_x (canvas_y - 15) (point_text (fst p) (snd p))
                   (Some "black"%string) "point_labels"]
      ++ match prev with
         | Some a => [create_line (coord_to_canvas_x s (fst a)) (coord_to_canvas_y s (snd a))
                                  canvas_x canvas_y color (Some 2) "lines"]
         | None => []
         end
      ++ colored_items_from s color (Some p) rest
  end.

Definition colored_items (s : drawer) (color : string) (r : route) : list item :=
  colored_items_from s color None r.

End Gui.

(** The items of the canvas outside the route layer. *)
Definition base_items (c : list Gui.item) : list Gui.item :=
  filter (fun it => Gui.route_tag (Gui.item_tags it) = false) c.

(** What a handler may do to the canvas: redraw the route layer from
    the store, or put new items on top that extend the drawing. *)
Definition updates (g g' : Gui.app) : Prop :=
  Gui.canvas g' = base_items (Gui.canvas g) ++ Gui.drawing (Gui.store g')
  \/ exists items, Gui.canvas g' = Gui.canvas g ++ items
                   /\ Gui.drawing (Gui.store g') = Gui.drawing (Gui.store g) ++ items.

(** A method with canvas calls follows the method [m] on the store. *)
Definition follows {A} (v : Gui.V A) (m : M A) : Prop :=
  forall g, fst (v g) = fst (m (Gui.store g))
            /\ Gui.store (snd (v g)) = snd (m (Gui.store g))
            /\ updates g (snd (v g)).

(** A method that does nothing but put items with property [P] on top
    of the canvas. *)
Definition appends {A} (P : Gui.item -> Prop) (v : Gui.V A) : Prop :=
  forall g, Gui.store (snd (v g)) = Gui.store g
            /\ exists items, Gui.canvas (snd (v g)) = Gui.canvas g ++ items
                             /\ Forall P items.

(** An item of the background: grid, axes or axis labels. *)
Definition background (it : Gui.item) : Prop :=
  Gui.route_tag (Gui.item_tags it) = false.

(** The canvas consists of the background below and the drawing of the
    stored routes on top of it. *)
Definition shows (b : list Gui.item) (g : Gui.app) : Prop :=
  Gui.canvas g = b ++ Gui.drawing (Gui.store g).

(** The row of the committed route [i] in a feature extraction: the
    number of committed routes before it that have two points at
    least. *)
Definition row_of (rs : list route) (i : nat) : nat :=
  length (filter (fun r : route => (2 <= length r)%nat) (take i rs)).

(** The colour in which the highlighting draws a route whose row in the
    extraction is [k]: the colour of the row, and blue for a route that
    has no row. *)
Definition highlight_color (colors : list string) (k : nat) (r : route) : string :=
  if qualifies r then default "#0000FF"%string (colors !! k) else "#0000FF"%string.


(** ** The route list *)

(** [f"{d:02d}"] for a digit pair. *)
Definition two_digits (d : Z) : string :=
  if d <? 10 then String.append "0" (Gui.str_int d) else Gui.str_int d.

(** [f"{x:.2f}"]: the exact value rounded to two decimals, halves to the
    even side, in fixed notation. *)
Definition format_2f (x : Py.num) : string :=
  match x with
  | Py.Int n => String.append (Gui.str_int n) ".00"
  | Py.Float S754_nan => "nan"%string
  | Py.Float (S754_infinity s) => if s then "-inf"%string else "inf"%string
  | Py.Float (S754_zero s) => if s then "-0.00"%string else "0.00"%string
  | Py.Float (S754_finite s m e) =>
      let n := if 0 <=? e then Z.pos m * 2 ^ e * 100
               else Py.round_half_even (Z.pos m * 100) (- e) in
      String.append (if s then "-"%string else EmptyString)
        (String.append (Gui.str_int (n / 100))
           (String.append "." (two_digits (n mod 100))))
  end.

(** [f"({p[0]},{p[1]})"] *)
Definition point_str (p : point) : string := Gui.point_text (fst p) (snd p).

(** The line of a route in the list, after its name: both ends and the
    length, or the single point; a route without points has no line.
    The arrow is the character U+2192. *)
Definition route_info (name : string) (route : route) : result (option string) :=
  if (2 <=? length route)%nat then
    start ← Py.getitem route 0;
    end_ ← Py.getitem route (-1);
    length ← calculate_route_length route;
    Ok (Some (String.append name
                (String.append ": "
                   (String.append (point_str start)
                      (String.append " → "
                         (String.append (point_str end_)
                            (String.append " | Len: " (format_2f length))))))))
  else if (length route =? 1)%nat then
    start ← Py.getitem route 0;
    Ok (Some (String.append name
                (String.append ": "
                   (String.append (point_str start) " (single point)"))))
  else Ok None.

(** [for i, route in enumerate(self.routes)], filling the list box. *)
Fixpoint route_list_loop (rs : list route) (i : nat) (listbox : list string)
  : result (list string) :=
  match rs with
  | [] => Ok listbox
  | route :: rest =>
      info ← route_info (route_label i) route;
      route_list_loop rest (S i)
        (match info with Some line => listbox ++ [line] | None => listbox end)
  end.

(** [update_route_list]: the lines of the list box after the call. *)
Definition update_route_list (s : drawer) : result (list string) :=
  listbox ← route_list_loop (routes s) 0 [];
  listbox ← match current_route s with
            | [] => Ok listbox
            | _ :: _ =>
                info ← route_info "Current" (current_route s);
                Ok (match info with Some line => listbox ++ [line] | None => listbox end)
            end;
  match routes s, current_route s with
  | [], [] => Ok (listbox ++ ["No routes created yet"%string])
  | _, _ => Ok listbox
  end.

(** ** Constants *)

(** The double [0.5]. *)
Definition one_half : spec_float := S754_finite false 4503599627370496 (-53).

(** ** Python list operations *)

Section PyList.
Context {A : Type}.
Implicit Types (l : list A) (i : Z) (x : A).

Lemma in_bounds_spec i l :
  Py.in_bounds i l = true <-> 0 <= i < Z.of_nat (length l).
Proof. unfold Py.in_bounds. rewrite andb_true_iff. lia. Qed.

Lemma in_bounds_false i l :
  Py.in_bounds i l = false <-> ~ (0 <= i < Z.of_nat (length l)).
Proof. rewrite <- in_bounds_spec. destruct (Py.in_bounds i l); intuition congruence. Qed.

Lemma index_in_bounds (len : nat) i :
  0 <= i < Z.of_nat len -> Py.index len i = Some (Z.to_nat i).
Proof.
  intros H. unfold Py.index.
  replace ((0 <=? i) && (i <? Z.of_nat len)) with true; [done|].
  symmetry. apply andb_true_iff. lia.
Qed.

Lemma index_lt (len : nat) i n : Py.index len i = Some n -> (n < len)%nat.
Proof.
  unfold Py.index.
  destruct ((0 <=? i) && (i <? Z.of_nat len)) eqn:H1.
  - apply andb_true_iff in H1. intros [= <-]. lia.
  - destruct ((- Z.of_nat len <=? i) && (i <? 0)) eqn:H2; [|done].
    apply andb_true_iff in H2. intros [= <-]. lia.
Qed.

Lemma index_none (len : nat) i :
  Py.index len i = None <-> i < - Z.of_nat len \/ Z.of_nat len <= i.
Proof.
  unfold Py.index.
  destruct ((0 <=? i) && (i <? Z.of_nat len)) eqn:H1.
  - apply andb_true_iff in H1. split; [done | lia].
  - destruct ((- Z.of_nat len <=? i) && (i <? 0)) eqn:H2.
    + apply andb_true_iff in H2. split; [done | lia].
    + apply andb_false_iff in H1, H2. split; [lia | done].
Qed.

Lemma getitem_in_bounds l i x :
  0 <= i -> l !! Z.to_nat i = Some x -> Py.getitem l i = Ok x.
Proof.
  intros Hi Hx. unfold Py.getitem.
  apply lookup_lt_Some in Hx as Hlt.
  rewrite index_in_bounds by lia. by rewrite Hx.
Qed.

Lemma pop_in_bounds l i x :
  0 <= i -> l !! Z.to_nat i = Some x ->
  Py.pop l i = Ok (x, delete (Z.to_nat i) l).
Proof.
  intros Hi Hx. unfold Py.pop.
  apply lookup_lt_Some in Hx as Hlt.
  rewrite index_in_bounds by lia. by rewrite Hx.
Qed.

Lemma setitem_in_bounds l i x :
  0 <= i < Z.of_nat (length l) ->
  Py.setitem l i x = Ok (<[Z.to_nat i := x]> l).
Proof. intros Hi. unfold Py.setitem. by rewrite index_in_bounds. Qed.

Lemma setitem_out_of_range l i x :
  i < - Z.of_nat (length l) \/ Z.of_nat (length l) <= i ->
  Py.setitem l i x = Raise IndexError.
Proof.
  intros Hi. unfold Py.setitem.
  by rewrite (proj2 (index_none (length l) i) Hi).
Qed.

Lemma getitem_out_of_range l i :
  i < - Z.of_nat (length l) \/ Z.of_nat (length l) <= i ->
  Py.getitem l i = Raise IndexError.
Proof.
  intros Hi. unfold Py.getitem.
  by rewrite (proj2 (index_none (length l) i) Hi).
Qed.

Lemma insert_pos_in_range (len : nat) i :
  0 <= i <= Z.of_nat len -> Py.insert_pos len i = Z.to_nat i.
Proof.
  intros Hi. unfold Py.insert_pos.
  destruct (i <? 0) eqn:E; [lia|]. f_equal. lia.
Qed.

Lemma insert_in_range l i x :
  0 <= i <= Z.of_nat (length l) ->
  Py.insert l i x = take (Z.to_nat i) l ++ x :: drop (Z.to_nat i) l.
Proof. intros Hi. unfold Py.insert. by rewrite insert_pos_in_range. Qed.

Lemma delete_insert_at (n : nat) l x :
  (n <= length l)%nat -> delete n (take n l ++ x :: drop n l) = l.
Proof.
  intros Hn. rewrite delete_take_drop.
  rewrite take_app_le by (rewrite length_take; lia).
  rewrite take_take, Nat.min_id.
  rewrite drop_app_ge by (rewrite length_take; lia).
  rewrite length_take.
  replace (S n - n `min` length l)%nat with 1%nat by lia.
  simpl. rewrite drop_0. apply take_drop.
Qed.

Lemma lookup_insert_at (n : nat) l x :
  (n <= length l)%nat -> (take n l ++ x :: drop n l) !! n = Some x.
Proof.
  intros Hn. rewrite lookup_app_r by (rewrite length_take; lia).
  rewrite length_take. by replace (n - n `min` length l)%nat with 0%nat by lia.
Qed.
End PyList.

(** ** Route store: removal *)

Ltac unfold_M :=
  unfold mbind, M_bind, mret, M_ret, get, put, modify, lift; simpl.

Lemma remove_point_current (s : drawer) (point_idx : Z) :
  0 <= point_idx < Z.of_nat (length (current_route s)) ->
  remove_point (-1) point_idx s
  = (Ok tt, set_current_route (delete (Z.to_nat point_idx) (current_route s)) s).
Proof.
  intros Hp. unfold remove_point. unfold_M.
  rewrite (proj2 (in_bounds_spec _ _) Hp).
  destruct (lookup_lt_is_Some_2 (current_route s) (Z.to_nat point_idx)) as [x Hx]; [lia|].
  by rewrite (pop_in_bounds _ _ x) by (lia || done).
Qed.

Lemma remove_point_committed (s : drawer) (route_idx point_idx : Z) (r : route) :
  0 <= route_idx ->
  routes s !! Z.to_nat route_idx = Some r ->
  0 <= point_idx < Z.of_nat (length r) ->
  remove_point route_idx point_idx s
  = (Ok tt,
     match delete (Z.to_nat point_idx) r with
     | [] => set_routes (delete (Z.to_nat route_idx) (routes s)) s
     | (_ :: _) as rest => set_routes (<[Z.to_nat route_idx := rest]> (routes s)) s
     end).
Proof.
  intros Hr Hlook Hp. unfold remove_point. unfold_M.
  apply lookup_lt_Some in Hlook as Hlt.
  destruct (route_idx =? -1) eqn:E; [lia|].
  rewrite (proj2 (in_bounds_spec route_idx (routes s))) by lia.
  rewrite (getitem_in_bounds _ _ r) by done.
  rewrite (proj2 (in_bounds_spec point_idx r) Hp).
  destruct (lookup_lt_is_Some_2 r (Z.to_nat point_idx)) as [x Hx]; [lia|].
  rewrite (pop_in_bounds _ _ x) by (lia || done).
  destruct (delete (Z.to_nat point_idx) r) eqn:Hd.
  - by rewrite (pop_in_bounds _ _ r) by (lia || done).
  - by rewrite setitem_in_bounds by lia.
Qed.

Lemma remove_point_current_noop (s : drawer) (point_idx : Z) :
  ~ (0 <= point_idx < Z.of_nat (length (current_route s))) ->
  remove_point (-1) point_idx s = (Ok tt, s).
Proof.
  intros Hp. unfold remove_point. unfold_M.
  by rewrite (proj2 (in_bounds_false _ _) Hp).
Qed.

Lemma remove_point_bad_route (s : drawer) (route_idx point_idx : Z) :
  route_idx <> -1 ->
  ~ (0 <= route_idx < Z.of_nat (length (routes s))) ->
  remove_point route_idx point_idx s = (Ok tt, s).
Proof.
  intros Hne Hr. unfold remove_point. unfold_M.
  destruct (route_idx =? -1) eqn:E; [lia|].
  by rewrite (proj2 (in_bounds_false _ _) Hr).
Qed.

Lemma remove_point_bad_point (s : drawer) (route_idx point_idx : Z) (r : route) :
  0 <= route_idx ->
  routes s !! Z.to_nat route_idx = Some r ->
  ~ (0 <= point_idx < Z.of_nat (length r)) ->
  remove_point route_idx point_idx s = (Ok tt, s).
Proof.
  intros Hr Hlook Hp. unfold remove_point. unfold_M.
  apply lookup_lt_Some in Hlook as Hlt.
  destruct (route_idx =? -1) eqn:E; [lia|].
  rewrite (proj2 (in_bounds_spec route_idx (routes s))) by lia.
  rewrite (getitem_in_bounds _ _ r) by done.
  by rewrite (proj2 (in_bounds_false point_idx r) Hp).
Qed.

(** [remove_point] never raises. *)
Lemma remove_point_ok (s : drawer) (route_idx point_idx : Z) :
  fst (remove_point route_idx point_idx s) = Ok tt.
Proof.
  destruct (decide (route_idx = -1)) as [->|Hne].
  - destruct (decide (0 <= point_idx < Z.of_nat (length (current_route s)))).
    + by rewrite remove_point_current.
    + by rewrite remove_point_current_noop.
  - destruct (decide (0 <= route_idx < Z.of_nat (length (routes s)))) as [Hr|Hr].
    + destruct (lookup_lt_is_Some_2 (routes s) (Z.to_nat route_idx)) as [r Hlook]; [lia|].
      destruct (decide (0 <= point_idx < Z.of_nat (length r))).
      * by rewrite (remove_point_committed _ _ _ r) by (lia || done).
      * by rewrite (remove_point_bad_point _ _ _ r) by (lia || done).
    + by rewrite remove_point_bad_route.
Qed.

Lemma remove_point_no_empty_route (s : drawer) (route_idx point_idx : Z) :
  no_empty_route s -> no_empty_route (snd (remove_point route_idx point_idx s)).
Proof.
  unfold no_empty_route. intros Hinv.
  destruct (decide (route_idx = -1)) as [->|Hne].
  - destruct (decide (0 <= point_idx < Z.of_nat (length (current_route s)))).
    + by rewrite remove_point_current.
    + by rewrite remove_point_current_noop.
  - destruct (decide (0 <= route_idx < Z.of_nat (length (routes s)))) as [Hr|Hr].
    + destruct (lookup_lt_is_Some_2 (routes s) (Z.to_nat route_idx)) as [r Hlook]; [lia|].
      destruct (decide (0 <= point_idx < Z.of_nat (length r))).
      * rewrite (remove_point_committed _ _ _ r) by (lia || done).
        destruct (delete (Z.to_nat point_idx) r) eqn:Hd; simpl.
        -- by apply Forall_delete.
        -- by apply Forall_insert.
      * by rewrite (remove_point_bad_point _ _ _ r) by (lia || done).
    + by rewrite remove_point_bad_route.
Qed.

(** ** The store invariant over reachable states *)

Lemma insert_nonempty {A} (l : list A) (i : Z) (x : A) : Py.insert l i x <> [].
Proof. unfold Py.insert. by destruct (take _ l). Qed.

Lemma setitem_nonempty {A} (l l' : list A) (i : Z) (x : A) :
  Py.setitem l i x = Ok l' -> l <> [] -> l' <> [].
Proof.
  unfold Py.setitem. destruct (Py.index (length l) i); [|done].
  intros [= <-] Hl Hnil. apply (f_equal length) in Hnil.
  rewrite length_insert in Hnil. by destruct l.
Qed.

Lemma setitem_Forall {A} (P : A -> Prop) (l l' : list A) (i : Z) (x : A) :
  Py.setitem l i x = Ok l' -> Forall P l -> P x -> Forall P l'.
Proof.
  unfold Py.setitem. destruct (Py.index (length l) i); [|done].
  intros [= <-] Hl Hx. by apply Forall_insert.
Qed.

Lemma getitem_Forall {A} (P : A -> Prop) (l : list A) (i : Z) (x : A) :
  Py.getitem l i = Ok x -> Forall P l -> P x.
Proof.
  unfold Py.getitem. destruct (Py.index (length l) i) as [n|]; [|done].
  destruct (l !! n) eqn:E; [|done]. intros [= <-] Hl.
  by eapply Forall_lookup_1.
Qed.

Lemma insert_point_in_route_no_empty_route (s : drawer) (route_idx i : Z) (p : point) :
  no_empty_route s -> no_empty_route (snd (insert_point_in_route route_idx i p s)).
Proof.
  unfold no_empty_route, insert_point_in_route. intros Hinv. unfold_M.
  destruct (route_idx =? -1); [done|].
  destruct (Py.in_bounds route_idx (routes s)); [|done].
  destruct (Py.getitem (routes s) route_idx) as [r|] eqn:Hr; [|done].
  destruct (Py.setitem (routes s) route_idx (Py.insert r i p)) as [rs|] eqn:Hrs; [|done].
  simpl. eapply setitem_Forall; [done..|]. apply insert_nonempty.
Qed.

Lemma move_point_no_empty_route (s : drawer) (route_idx point_idx : option Z) (p : point) :
  no_empty_route s -> no_empty_route (snd (move_point route_idx point_idx p s)).
Proof.
  unfold no_empty_route, move_point. intros Hinv. unfold_M.
  case_bool_decide.
  - destruct (subscript point_idx); [|done]. simpl.
    by destruct (Py.setitem (current_route s) _ p).
  - destruct (subscript route_idx) as [j|]; [|done]. simpl.
    destruct (Py.getitem (routes s) j) as [r|] eqn:Hr; [|done].
    destruct (subscript point_idx) as [i|]; [|done]. simpl.
    destruct (Py.setitem r i p) as [r'|] eqn:Hr'; [|done].
    destruct (Py.setitem (routes s) j r') as [rs|] eqn:Hrs; [|done].
    simpl. eapply setitem_Forall; [done..|].
    eapply setitem_nonempty; [done|].
    exact (getitem_Forall (fun r : route => r <> []) _ _ _ Hr Hinv).
Qed.

Lemma after_no_empty_route (ev : event) (s : drawer) :
  no_empty_route s -> no_empty_route (after ev s).
Proof.
  intros Hinv. unfold after. destruct ev as [x y|x y|x y|x y| | |]; simpl.
  - unfold on_left_click. unfold_M.
    destruct (find_point_at_position s x y) as [[[??]|]|]; try done.
    destruct (canvas_to_coord_x s x); [|done].
    by destruct (canvas_to_coord_y s y).
  - unfold on_right_click. unfold_M.
    destruct (find_point_at_position s x y) as [[[rr pp]|]|]; try done.
    + by apply remove_point_no_empty_route.
    + destruct (find_line_at_position s x y) as [[[[rr i] j]|]|]; try done.
      destruct (canvas_to_coord_x s x); [|done].
      destruct (canvas_to_coord_y s y); [|done].
      by apply insert_point_in_route_no_empty_route.
  - unfold on_left_release. unfold_M.
    destruct (dragging s); [|done].
    destruct (canvas_to_coord_x s x) as [cx|]; [|done].
    destruct (canvas_to_coord_y s y) as [cy|]; [|done].
    pose proof (move_point_no_empty_route s (drag_route_idx s) (drag_point_idx s)
                  (cx, cy) Hinv) as Hm.
    by destruct (move_point _ _ _ s) as [[[]|] s'].
  - unfold on_drag. unfold_M.
    destruct (dragging s); [|done].
    destruct (canvas_to_coord_x s x); [|done].
    by destruct (canvas_to_coord_y s y).
  - unfold start_new_route, no_empty_route in *. unfold_M.
    destruct (current_route s) eqn:Hc; [done|]. simpl.
    apply Forall_app. split; [done|]. by apply Forall_singleton.
  - unfold clear_all, no_empty_route. unfold_M. constructor.
  - unfold undo_last_point. unfold_M.
    destruct (current_route s) eqn:Hc; [done|].
    by destruct (Py.pop _ _) as [[]|].
Qed.

Lemma reachable_no_empty_route (s : drawer) : reachable s -> no_empty_route s.
Proof.
  induction 1 as [|s ev _ _ IH].
  - constructor.
  - by apply after_no_empty_route.
Qed.

(** C2. [remove_point] never raises.  With a valid reference it deletes the
    point at the index: the current route keeps its slot even when it
    becomes empty; a committed route that keeps points is updated in
    place; a committed route that becomes empty is deleted from [routes],
    so the routes after it move down by one index.  An out-of-range
    reference leaves the drawer unchanged.  No empty route is left in
    [routes] by a removal, and none is there in any reachable state.  In
    [three_routes], removing the only point of route 0 deletes that route
    and the route that was at index 1 is then at index 0. *)
Theorem remove_point_spec (s : drawer) (route_idx point_idx : Z) :
  let s' := snd (remove_point route_idx point_idx s) in
  fst (remove_point route_idx point_idx s) = Ok tt
  /\ (route_idx = -1 ->
      (0 <= point_idx < Z.of_nat (length (current_route s)) ->
       s' = set_current_route (delete (Z.to_nat point_idx) (current_route s)) s)
      /\ (~ (0 <= point_idx < Z.of_nat (length (current_route s))) -> s' = s))
  /\ (route_idx <> -1 ->
      ~ (0 <= route_idx < Z.of_nat (length (routes s))) -> s' = s)
  /\ (forall r : route,
        0 <= route_idx -> routes s !! Z.to_nat route_idx = Some r ->
        (0 <= point_idx < Z.of_nat (length r) ->
         delete (Z.to_nat point_idx) r <> [] ->
         s' = set_routes (<[Z.to_nat route_idx := delete (Z.to_nat point_idx) r]>
                            (routes s)) s)
        /\ (0 <= point_idx < Z.of_nat (length r) ->
            delete (Z.to_nat point_idx) r = [] ->
            s' = set_routes (delete (Z.to_nat route_idx) (routes s)) s
            /\ length (routes s') = (length (routes s) - 1)%nat
            /\ (forall j : nat, (j < Z.to_nat route_idx)%nat ->
                  routes s' !! j = routes s !! j)
            /\ (forall j : nat, (Z.to_nat route_idx <= j)%nat ->
                  routes s' !! j = routes s !! S j))
        /\ (~ (0 <= point_idx < Z.of_nat (length r)) -> s' = s))
  /\ (no_empty_route s -> no_empty_route s')
  /\ (reachable s -> no_empty_route s /\ no_empty_route s')
  /\ (routes three_routes = [[(1, 1)]; [(5, 1); (5, 5)]]
      /\ routes (snd (remove_point 0 0 three_routes)) = [[(5, 1); (5, 5)]]
      /\ routes (snd (remove_point 1 0 three_routes)) = [[(1, 1)]; [(5, 5)]]
      /\ remove_point 2 0 three_routes = (Ok tt, three_routes)).
Proof.
  intros s'. subst s'.
  split; [apply remove_point_ok|].
  split.
  { intros ->. split; intros Hp.
    - by rewrite remove_point_current.
    - by rewrite remove_point_current_noop. }
  split.
  { intros Hne Hr. by rewrite remove_point_bad_route. }
  split.
  { intros r Hr Hlook. split; [|split].
    - intros Hp Hd. rewrite (remove_point_committed _ _ _ r) by done.
      by destruct (delete (Z.to_nat point_idx) r).
    - intros Hp Hd. rewrite (remove_point_committed _ _ _ r) by done.
      rewrite Hd. simpl. split; [done|]. split; [|split].
      + rewrite length_delete; [done|by eexists].
      + intros j Hj. by apply list_lookup_delete_lt.
      + intros j Hj. by apply list_lookup_delete_ge.
    - intros Hp. by rewrite (remove_point_bad_point _ _ _ r). }
  split; [apply remove_point_no_empty_route|].
  split; [|by vm_compute].
  intros Hs. split; [by apply reachable_no_empty_route|].
  by apply remove_point_no_empty_route, reachable_no_empty_route.
Qed.

(** ** Insertion followed by removal *)

Lemma set_current_route_id (s : drawer) : set_current_route (current_route s) s = s.
Proof. by destruct s. Qed.

Lemma set_routes_id (s : drawer) : set_routes (routes s) s = s.
Proof. by destruct s. Qed.

Lemma insert_point_current (s : drawer) (i : Z) (p : point) :
  insert_point_in_route (-1) i p s
  = (Ok tt, set_current_route (Py.insert (current_route s) i p) s).
Proof. done. Qed.

Lemma insert_point_committed (s : drawer) (route_idx i : Z) (p : point) (r : route) :
  0 <= route_idx ->
  routes s !! Z.to_nat route_idx = Some r ->
  insert_point_in_route route_idx i p s
  = (Ok tt, set_routes (<[Z.to_nat route_idx := Py.insert r i p]> (routes s)) s).
Proof.
  intros Hr Hlook. unfold insert_point_in_route. unfold_M.
  apply lookup_lt_Some in Hlook as Hlt.
  destruct (route_idx =? -1) eqn:E; [lia|].
  rewrite (proj2 (in_bounds_spec route_idx (routes s))) by lia.
  rewrite (getitem_in_bounds _ _ r) by done.
  by rewrite setitem_in_bounds by lia.
Qed.

Lemma insert_then_remove_gen (s : drawer) (route_idx i : Z) (p : point) :
  valid_ref s route_idx ->
  0 <= i <= Z.of_nat (length (route_at s route_idx)) ->
  (route_idx <> -1 -> route_at s route_idx <> []) ->
  (_ ← insert_point_in_route route_idx i p; remove_point route_idx i) s = (Ok tt, s)
  /\ route_at (snd (insert_point_in_route route_idx i p s)) route_idx !! Z.to_nat i
     = Some p.
Proof.
  intros Hv Hi Hne. unfold mbind at 1, M_bind at 1.
  destruct (decide (route_idx = -1)) as [->|Hr].
  - rewrite insert_point_current. unfold route_at in *. simpl in *.
    rewrite insert_in_range by done.
    rewrite remove_point_current; simpl.
    + rewrite delete_insert_at by lia. split; [by destruct s|].
      apply lookup_insert_at. lia.
    + rewrite length_app, length_take. simpl. rewrite length_drop. lia.
  - destruct Hv as [?|Hv]; [done|]. specialize (Hne Hr).
    unfold route_at in *. destruct (route_idx =? -1) eqn:E; [lia|].
    destruct (routes s !! Z.to_nat route_idx) as [r|] eqn:Hlook;
      [|apply lookup_ge_None in Hlook; lia].
    simpl in *.
    rewrite (insert_point_committed _ _ _ _ r) by (lia || done).
    assert (Hlt : (Z.to_nat route_idx < length (routes s))%nat) by lia.
    rewrite insert_in_range by done.
    rewrite (remove_point_committed _ _ _ (take (Z.to_nat i) r ++ p :: drop (Z.to_nat i) r));
      simpl.
    + rewrite delete_insert_at by lia. rewrite list_lookup_insert_eq by done. simpl.
      split; [|apply lookup_insert_at; lia].
      destruct r as [|q r]; [done|].
      rewrite list_insert_insert_eq, list_insert_id by done. by destruct s.
    + lia.
    + by rewrite list_lookup_insert_eq.
    + rewrite length_app, length_take. simpl. rewrite length_drop. lia.
Qed.

(** C8. In a drawer whose committed routes all hold a point, as in every
    reachable state, inserting a point at an index between [0] and the
    length of the referenced route and then removing the point at that
    index gives back the drawer as it was: the route has its original
    points and every other route and field is unchanged.  In between, the
    inserted point sits at that index. *)
Theorem insert_then_remove_restores (s : drawer) (route_idx i : Z) (p : point) :
  no_empty_route s ->
  valid_ref s route_idx ->
  0 <= i <= Z.of_nat (length (route_at s route_idx)) ->
  (_ ← insert_point_in_route route_idx i p; remove_point route_idx i) s = (Ok tt, s)
  /\ route_at (snd (insert_point_in_route route_idx i p s)) route_idx !! Z.to_nat i
     = Some p.
Proof.
  intros Hs Hv Hi. apply insert_then_remove_gen; [done..|].
  intros Hne. destruct Hv as [?|Hv]; [done|]. unfold route_at.
  destruct (route_idx =? -1) eqn:E; [lia|].
  destruct (routes s !! Z.to_nat route_idx) as [r|] eqn:Hlook; simpl.
  - exact (Forall_lookup_1 (fun r : route => r <> []) _ _ _ Hs Hlook).
  - apply lookup_ge_None in Hlook. lia.
Qed.

(** ** Committing a drag *)

Lemma reachable_run (evs : list event) (s : drawer) :
  Forall event_ok evs -> reachable s -> reachable (run evs s).
Proof.
  intros Hevs. revert s. induction Hevs as [|ev evs Hev _ IH]; intros s Hs; [done|].
  apply IH. by constructor.
Qed.

Lemma device_ok_small (c : Z) : Z.abs c <= 1000 -> device_ok c.
Proof. unfold device_ok. change (2 ^ 31) with 2147483648. lia. Qed.

(** The round trip on the committed route of a drawing of two routes:
    [(3, 1)] goes in between [(1, 1)] and [(5, 1)] and comes out again. *)
Lemma insert_then_remove_restores_witness :
  let s := run [LeftClick 20 20; LeftClick 100 20; NewRoute; LeftClick 40 60] init in
  (_ ← insert_point_in_route 0 1 (3, 1); remove_point 0 1) s = (Ok tt, s)
  /\ route_at (snd (insert_point_in_route 0 1 (3, 1) s)) 0 !! Z.to_nat 1
     = Some (3, 1).
Proof.
  apply insert_then_remove_restores.
  - vm_compute. repeat constructor; discriminate.
  - right. vm_compute. split; [discriminate|reflexivity].
  - vm_compute. split; discriminate.
Defined.

Lemma move_point_current (s : drawer) (i : Z) (p : point) :
  0 <= i < Z.of_nat (length (current_route s)) ->
  move_point (Some (-1)) (Some i) p s
  = (Ok tt, set_current_route (<[Z.to_nat i := p]> (current_route s)) s).
Proof.
  intros Hi. unfold move_point. unfold_M.
  by rewrite setitem_in_bounds.
Qed.

Lemma move_point_committed (s : drawer) (j i : Z) (p : point) (r : route) :
  0 <= j -> routes s !! Z.to_nat j = Some r ->
  0 <= i < Z.of_nat (length r) ->
  move_point (Some j) (Some i) p s
  = (Ok tt, set_routes (<[Z.to_nat j := <[Z.to_nat i := p]> r]> (routes s)) s).
Proof.
  intros Hj Hlook Hi. unfold move_point. unfold_M.
  apply lookup_lt_Some in Hlook as Hlt.
  case_bool_decide as E; [injection E as E; lia|].
  rewrite (getitem_in_bounds _ _ r) by done.
  rewrite setitem_in_bounds by done.
  by rewrite setitem_in_bounds by lia.
Qed.

(** Out of range, the assignment raises and assigns nothing. *)
Lemma move_point_current_out_of_range (s : drawer) (i : Z) (p : point) :
  i < - Z.of_nat (length (current_route s)) \/ Z.of_nat (length (current_route s)) <= i ->
  move_point (Some (-1)) (Some i) p s = (Raise IndexError, s).
Proof.
  intros Hi. unfold move_point. unfold_M.
  by rewrite setitem_out_of_range.
Qed.

Lemma move_point_bad_route (s : drawer) (j i : Z) (p : point) :
  j <> -1 ->
  j < - Z.of_nat (length (routes s)) \/ Z.of_nat (length (routes s)) <= j ->
  move_point (Some j) (Some i) p s = (Raise IndexError, s).
Proof.
  intros Hne Hj. unfold move_point. unfold_M.
  case_bool_decide as E; [injection E as E; lia|].
  by rewrite getitem_out_of_range.
Qed.

Lemma on_left_release_dragging (s : drawer) (x y coord_x coord_y : Z) :
  dragging s = true ->
  canvas_to_coord_x s x = Ok coord_x -> canvas_to_coord_y s y = Ok coord_y ->
  on_left_release x y s
  = (_ ← move_point (drag_route_idx s) (drag_point_idx s) (coord_x, coord_y);
     modify (set_drag false None None)) s.
Proof.
  intros Hd Hx Hy. unfold on_left_release. unfold mbind at 1. unfold M_bind, get.
  rewrite Hd. unfold mbind at 1 2. unfold M_bind, lift. by rewrite Hx, Hy.
Qed.

(** C1. Releasing the button commits a drag by a list assignment.  With
    the drag target in range the point at the index is overwritten with
    the snapped position and the drag ends.  With the index or the route
    reference out of range the assignment raises [IndexError]: nothing is
    stored, and the drawer stays in its dragging state.  The state
    [stale_drag] is reached by three mouse events; it holds a drag of
    point 0 of the now empty current route, and the release raises, where
    [remove_point] with the same reference returns normally. *)
Theorem on_left_release_stale_drag_raises :
  (forall (s : drawer) (x y coord_x coord_y i : Z),
      dragging s = true ->
      canvas_to_coord_x s x = Ok coord_x -> canvas_to_coord_y s y = Ok coord_y ->
      drag_route_idx s = Some (-1) -> drag_point_idx s = Some i ->
      (0 <= i < Z.of_nat (length (current_route s)) ->
       on_left_release x y s
       = (Ok tt, set_drag false None None
                   (set_current_route
                      (<[Z.to_nat i := (coord_x, coord_y)]> (current_route s)) s)))
      /\ (Z.of_nat (length (current_route s)) <= i ->
          on_left_release x y s = (Raise IndexError, s)))
  /\ (forall (s : drawer) (x y coord_x coord_y j i : Z) (r : route),
        dragging s = true ->
        canvas_to_coord_x s x = Ok coord_x -> canvas_to_coord_y s y = Ok coord_y ->
        drag_route_idx s = Some j -> drag_point_idx s = Some i ->
        (0 <= j -> routes s !! Z.to_nat j = Some r ->
         0 <= i < Z.of_nat (length r) ->
         on_left_release x y s
         = (Ok tt, set_drag false None None
                     (set_routes
                        (<[Z.to_nat j := <[Z.to_nat i := (coord_x, coord_y)]> r]>
                           (routes s)) s)))
        /\ (Z.of_nat (length (routes s)) <= j ->
            on_left_release x y s = (Raise IndexError, s)))
  /\ reachable stale_drag
  /\ current_route stale_drag = []
  /\ dragging stale_drag = true
  /\ drag_route_idx stale_drag = Some (-1)
  /\ drag_point_idx stale_drag = Some 0
  /\ on_left_release 40 40 stale_drag = (Raise IndexError, stale_drag)
  /\ fst (remove_point (-1) 0 stale_drag) = Ok tt.
Proof.
  split.
  { intros s x y coord_x coord_y i Hd Hx Hy Hr Hi.
    rewrite (on_left_release_dragging s x y coord_x coord_y Hd Hx Hy), Hr, Hi.
    split; intros Hrange; unfold mbind at 1; unfold M_bind.
    - by rewrite move_point_current.
    - rewrite move_point_current_out_of_range; [done|by right]. }
  split.
  { intros s x y coord_x coord_y j i r Hd Hx Hy Hr Hi.
    rewrite (on_left_release_dragging s x y coord_x coord_y Hd Hx Hy), Hr, Hi.
    split.
    - intros Hj Hlook Hrange. unfold mbind at 1. unfold M_bind.
      by rewrite (move_point_committed s j i _ r).
    - intros Hj. unfold mbind at 1. unfold M_bind.
      rewrite move_point_bad_route; [done|lia|by right]. }
  split.
  { apply reachable_run; [|apply reachable_init].
    repeat constructor; apply device_ok_small; simpl; lia. }
  repeat split; vm_compute; reflexivity.
Qed.

(** ** Read-only methods *)







(** ** Hit testing: scan order and first match *)

Section FirstMatch.
Context {A : Type} (test : A -> result bool).

Lemma first_match_app (l1 l2 : list A) :
  first_match test (l1 ++ l2)
  = (found ← first_match test l1;
     match found with
     | Some x => Ok (Some x)
     | None => first_match test l2
     end).
Proof.
  induction l1 as [|x l1 IH]; simpl; [done|].
  destruct (test x) as [[|]|]; simpl; done.
Qed.

Lemma first_match_Some (l : list A) (x : A) :
  first_match test l = Ok (Some x)
  <-> exists before after,
        l = before ++ x :: after
        /\ Forall (fun y => test y = Ok false) before
        /\ test x = Ok true.
Proof.
  split.
  - induction l as [|y l IH]; simpl; [done|].
    destruct (test y) as [[|]|] eqn:Hy; simpl; [| |done].
    + intros [= ->]. by exists [], l.
    + intros H. destruct (IH H) as (before & after & -> & Hb & Hx).
      exists (y :: before), after. split; [done|]. split; [by constructor|done].
  - intros (before & after & -> & Hb & Hx).
    induction Hb as [|y before Hy _ IH]; simpl.
    + by rewrite Hx.
    + by rewrite Hy.
Qed.

Lemma first_match_None (l : list A) :
  first_match test l = Ok None <-> Forall (fun y => test y = Ok false) l.
Proof.
  split.
  - induction l as [|y l IH]; simpl; [by constructor|].
    destruct (test y) as [[|]|] eqn:Hy; simpl; [done| |done].
    intros H. constructor; auto.
  - induction 1 as [|y l Hy _ IH]; simpl; [done|]. by rewrite Hy.
Qed.

(** A test that never raises always gives a result. *)
Lemma first_match_total (l : list A) :
  Forall (fun y => exists b, test y = Ok b) l ->
  exists found, first_match test l = Ok found.
Proof.
  induction 1 as [|y l [b Hy] _ IH]; simpl; [by eexists|].
  rewrite Hy. simpl. destruct b; [by eexists | done].
Qed.
End FirstMatch.

Lemma first_match_map {A B} (f : A -> B) (test : B -> result bool) (l : list A) :
  first_match test (map f l)
  = (found ← first_match (fun x => test (f x)) l; Ok (option_map f found)).
Proof.
  induction l as [|x l IH]; simpl; [done|].
  destruct (test (f x)) as [[|]|]; simpl; done.
Qed.

Lemma scan_points_first_match (s : drawer) (cx cy : Z) (r : route) (i : Z) :
  scan_points s cx cy r i
  = (found ← first_match (fun ix : Z * point => point_hit s cx cy (snd ix))
               (enumerate_from i r);
     Ok (option_map fst found)).
Proof.
  revert i. induction r as [|p r IH]; intros i; simpl; [done|].
  destruct (point_hit s cx cy p) as [[|]|]; simpl; [done| |done].
  apply IH.
Qed.

Lemma scan_routes_first_match (s : drawer) (cx cy : Z) (rs : list route) (j : Z) :
  scan_routes s cx cy rs j
  = (found ← first_match (fun x : (Z * Z) * point => point_hit s cx cy (snd x))
               (concat (map (fun jr : Z * route => tagged (fst jr) (snd jr))
                            (enumerate_from j rs)));
     Ok (option_map fst found)).
Proof.
  revert j. induction rs as [|r rs IH]; intros j; simpl; [done|].
  rewrite first_match_app, scan_points_first_match.
  unfold tagged, enumerate. rewrite first_match_map. simpl.
  destruct (first_match _ (enumerate_from 0 r)) as [[[i p]|]|]; simpl; [done| |done].
  apply IH.
Qed.

Lemma find_point_first_match (s : drawer) (cx cy : Z) :
  find_point_at_position s cx cy
  = (found ← first_match (fun x : (Z * Z) * point => point_hit s cx cy (snd x))
               (scan_order s);
     Ok (option_map fst found)).
Proof.
  unfold find_point_at_position, scan_order.
  rewrite first_match_app, scan_points_first_match.
  unfold tagged, enumerate. rewrite first_match_map. simpl.
  destruct (first_match _ (enumerate_from 0 (current_route s))) as [[[i p]|]|];
    simpl; [done| |done].
  apply scan_routes_first_match.
Qed.

Lemma scan_lines_cons (s : drawer) (cx cy : Z) (a b : point) (r : route) (i : Z) :
  scan_lines s cx cy (a :: b :: r) i
  = (hit ← is_point_on_line s cx cy a b;
     if hit : bool then Ok (Some i) else scan_lines s cx cy (b :: r) (i + 1)).
Proof. done. Qed.

Lemma scan_lines_first_match (s : drawer) (cx cy : Z) (r : route) (i : Z) :
  scan_lines s cx cy r i
  = (found ← first_match (fun ix : Z * (point * point) => segment_test s cx cy (snd ix))
               (enumerate_from i (segments r));
     Ok (option_map fst found)).
Proof.
  revert i. induction r as [|a r IH]; intros i; [done|].
  destruct r as [|b r]; [done|].
  change (segments (a :: b :: r)) with ((a, b) :: segments (b :: r)).
  rewrite scan_lines_cons. cbn [enumerate_from first_match].
  unfold segment_test. cbn [fst snd].
  destruct (is_point_on_line s cx cy a b) as [[|]|]; [reflexivity| |reflexivity].
  apply IH.
Qed.

Lemma scan_route_lines_first_match (s : drawer) (cx cy : Z) (rs : list route) (j : Z) :
  scan_route_lines s cx cy rs j
  = (found ← first_match (fun x : (Z * Z) * (point * point) => segment_test s cx cy (snd x))
               (concat (map (fun jr : Z * route => tagged (fst jr) (segments (snd jr)))
                            (enumerate_from j rs)));
     Ok (option_map (fun x : (Z * Z) * (point * point) =>
                       (fst (fst x), snd (fst x), snd (fst x) + 1)) found)).
Proof.
  revert j. induction rs as [|r rs IH]; intros j; [done|].
  cbn [scan_route_lines enumerate_from map concat].
  rewrite first_match_app, scan_lines_first_match.
  unfold tagged, enumerate. rewrite first_match_map. simpl.
  destruct (first_match _ (enumerate_from 0 (segments r))) as [[[i p]|]|]; simpl; [done| |done].
  apply IH.
Qed.

Lemma find_line_first_match (s : drawer) (cx cy : Z) :
  find_line_at_position s cx cy
  = (found ← first_match (fun x : (Z * Z) * (point * point) => segment_test s cx cy (snd x))
               (segment_scan_order s);
     Ok (option_map (fun x : (Z * Z) * (point * point) =>
                       (fst (fst x), snd (fst x), snd (fst x) + 1)) found)).
Proof.
  unfold find_line_at_position, segment_scan_order.
  rewrite first_match_app, scan_lines_first_match.
  unfold tagged, enumerate. rewrite first_match_map. simpl.
  destruct (first_match _ (enumerate_from 0 (segments (current_route s)))) as [[[i p]|]|];
    simpl; [done| |done].
  apply scan_route_lines_first_match.
Qed.


(** [is_point_on_line] computes the distance of the specification. *)
Lemma is_point_on_line_distance (s : drawer) (cx cy : Z) (a b : point) :
  is_point_on_line s cx cy a b
  = let ax := coord_to_canvas_x s (fst a) in
    let ay := coord_to_canvas_y s (snd a) in
    let bx := coord_to_canvas_x s (fst b) in
    let by' := coord_to_canvas_y s (snd b) in
    if (bx - ax) ^ 2 + (by' - ay) ^ 2 =? 0 then Ok false
    else distance ← closest_point_distance cx cy ax ay bx by';
         Ok (Py.le distance (Py.Int (click_tolerance s))).
Proof.
  unfold is_point_on_line, closest_point_distance, clamp01. cbv zeta.
  destruct (_ =? 0); [done|].
  repeat (match goal with
          | |- (?m ≫= _) = _ => destruct m; simpl; [|done]
          end).
  done.
Qed.

(** ** Binary64 rounding *)

Lemma fexp_eq (e : Z) : fexp e = Z.max (e - 53) (-1074).
Proof. reflexivity. Qed.

Lemma digits2_pos_size (p : positive) : digits2_pos p = Pos.size p.
Proof. induction p; simpl; congruence. Qed.

Lemma Zdigits2_log2 (m : Z) : 0 < m -> Zdigits2 m = Z.log2 m + 1.
Proof.
  destruct m as [|p|p]; try lia. intros _. simpl.
  rewrite digits2_pos_size. destruct p; simpl; lia.
Qed.

Lemma Zdigits2_nonneg (m : Z) : 0 <= Zdigits2 m.
Proof. destruct m; simpl; lia. Qed.

Lemma Zdigits2_pos_lt (m : Z) : 0 < m -> 0 < Zdigits2 m.
Proof. destruct m; simpl; lia. Qed.

Lemma Zdigits2_spec (m : Z) :
  0 < m -> 2 ^ (Zdigits2 m - 1) <= m < 2 ^ Zdigits2 m.
Proof.
  intros Hm. rewrite Zdigits2_log2 by done.
  replace (Z.log2 m + 1 - 1) with (Z.log2 m) by lia.
  apply Z.log2_spec. done.
Qed.

Lemma Zdigits2_unique (m d : Z) :
  2 ^ (d - 1) <= m < 2 ^ d -> 0 < d -> Zdigits2 m = d.
Proof.
  intros Hm Hd.
  assert (0 < m) by (pose proof (Z.pow_pos_nonneg 2 (d - 1)); lia).
  rewrite Zdigits2_log2 by done.
  rewrite (Z.log2_unique m (d - 1)); [lia|lia|].
  replace (Z.succ (d - 1)) with d by lia. done.
Qed.

Lemma Zdigits2_le (m n : Z) : 0 <= m <= n -> Zdigits2 m <= Zdigits2 n.
Proof.
  intros [Hm Hn]. destruct (decide (m = 0)) as [->|Hne].
  - apply Zdigits2_nonneg.
  - rewrite !Zdigits2_log2 by lia. pose proof (Z.log2_le_mono m n Hn). lia.
Qed.

Lemma Zdigits2_le_pow (m k : Z) : 0 <= k -> 0 <= m < 2 ^ k -> Zdigits2 m <= k.
Proof.
  intros Hk [Hm Hlt]. destruct (decide (m = 0)) as [->|Hne]; [simpl; lia|].
  rewrite Zdigits2_log2 by lia.
  assert (Z.log2 m < k) by (apply Z.log2_lt_pow2; lia). lia.
Qed.

Lemma Zdigits2_shiftr (m n : Z) :
  0 < m -> 0 <= n -> Zdigits2 (m / 2 ^ n) = Z.max 0 (Zdigits2 m - n).
Proof.
  intros Hm Hn. rewrite <- Z.shiftr_div_pow2 by done.
  destruct (decide (Z.shiftr m n = 0)) as [E|E].
  - rewrite E. simpl. apply Z.shiftr_eq_0_iff in E as [?|[_ Hlog]]; [lia|].
    rewrite Zdigits2_log2 by done. lia.
  - assert (0 <= Z.shiftr m n) by (apply Z.shiftr_nonneg; lia).
    rewrite (Zdigits2_log2 (Z.shiftr m n)) by lia.
    rewrite Z.log2_shiftr by done. rewrite Zdigits2_log2 by done.
    assert (n <= Z.log2 m).
    { destruct (Z.le_gt_cases n (Z.log2 m)); [done|].
      exfalso. apply E. apply Z.shiftr_eq_0; lia. }
    lia.
Qed.

Lemma Zdigits2_mul_pow2 (m n : Z) :
  0 < m -> 0 <= n -> Zdigits2 (m * 2 ^ n) = Zdigits2 m + n.
Proof.
  intros Hm Hn.
  assert (0 < 2 ^ n) by (apply Z.pow_pos_nonneg; lia).
  rewrite !Zdigits2_log2 by nia.
  rewrite Z.log2_mul_pow2 by lia. lia.
Qed.

Lemma Zdigits2_succ (m : Z) : 0 <= m -> Zdigits2 (m + 1) <= Zdigits2 m + 1.
Proof.
  intros Hm. destruct (decide (m = 0)) as [->|Hne]; [simpl; lia|].
  rewrite !Zdigits2_log2 by lia.
  pose proof (Z.log2_succ_le m). replace (Z.succ m) with (m + 1) in * by lia. lia.
Qed.

Lemma shr_1_m (mrs : shr_record) :
  0 <= shr_m mrs -> shr_m (shr_1 mrs) = shr_m mrs / 2 /\ 0 <= shr_m (shr_1 mrs).
Proof.
  destruct mrs as [m r s]. simpl. intros Hm.
  rewrite <- Z.div2_div.
  destruct m as [|[p|p|]|p]; simpl; lia.
Qed.

Lemma iter_pos_shr_m (p : positive) (mrs : shr_record) :
  0 <= shr_m mrs ->
  shr_m (SpecFloat.iter_pos shr_1 p mrs) = shr_m mrs / 2 ^ Z.pos p
  /\ 0 <= shr_m (SpecFloat.iter_pos shr_1 p mrs).
Proof.
  revert mrs. induction p as [p IH|p IH|]; intros mrs Hm; simpl SpecFloat.iter_pos.
  - destruct (shr_1_m mrs Hm) as [E1 H1].
    destruct (IH _ H1) as [E2 H2]. destruct (IH _ H2) as [E3 H3].
    split; [|done]. rewrite E3, E2, E1.
    assert (0 < 2 ^ Z.pos p) by (apply Z.pow_pos_nonneg; lia).
    rewrite !Z.div_div by lia. f_equal.
    rewrite Pos2Z.inj_xI, Z.pow_add_r, Z.pow_1_r by lia.
    replace (2 * Z.pos p) with (Z.pos p + Z.pos p) by lia.
    rewrite Z.pow_add_r by lia. lia.
  - destruct (IH _ Hm) as [E2 H2]. destruct (IH _ H2) as [E3 H3].
    split; [|done]. rewrite E3, E2.
    assert (0 < 2 ^ Z.pos p) by (apply Z.pow_pos_nonneg; lia).
    rewrite !Z.div_div by lia. f_equal.
    rewrite Pos2Z.inj_xO. rewrite <- Z.pow_add_r by lia. f_equal. lia.
  - destruct (shr_1_m mrs Hm) as [E1 H1]. split; [|done]. rewrite E1. done.
Qed.

Lemma shr_spec (mrs : shr_record) (e n : Z) :
  0 <= shr_m mrs ->
  shr_m (fst (shr mrs e n)) = shr_m mrs / 2 ^ Z.max 0 n
  /\ snd (shr mrs e n) = e + Z.max 0 n.
Proof.
  intros Hm. destruct n as [|p|p]; simpl.
  - rewrite Z.div_1_r. lia.
  - destruct (iter_pos_shr_m p mrs Hm) as [E _]. rewrite E. done.
  - rewrite Z.div_1_r. lia.
Qed.

Lemma shr_record_of_loc_m (m : Z) (l : location) : shr_m (shr_record_of_loc m l) = m.
Proof. by destruct l as [|[]]. Qed.

Lemma shr_fexp_spec (m e : Z) (l : location) :
  0 <= m ->
  shr_m (fst (shr_fexp Py.prec Py.emax m e l))
  = m / 2 ^ Z.max 0 (fexp (Zdigits2 m + e) - e)
  /\ snd (shr_fexp Py.prec Py.emax m e l) = e + Z.max 0 (fexp (Zdigits2 m + e) - e).
Proof.
  intros Hm. unfold shr_fexp.
  pose proof (shr_spec (shr_record_of_loc m l) e (fexp (Zdigits2 m + e) - e)) as H.
  rewrite shr_record_of_loc_m in H. by apply H.
Qed.

Lemma round_nearest_even_bounds (m : Z) (l : location) :
  m <= round_nearest_even m l <= m + 1.
Proof. destruct l as [|[]]; simpl; try lia. destruct (Z.even m); lia. Qed.

(** The shape of a rounding: a shift to the target exponent, an increment
    of at most one, and one more shift when the increment carries. *)
Lemma binary_round_aux_unfold (sx : bool) (m e : Z) (l : location) :
  0 <= m ->
  exists m3,
    let n1 := Z.max 0 (fexp (Zdigits2 m + e) - e) in
    let n2 := Z.max 0 (fexp (Zdigits2 m3 + (e + n1)) - (e + n1)) in
    m / 2 ^ n1 <= m3 <= m / 2 ^ n1 + 1
    /\ binary_round_aux Py.prec Py.emax sx m e l
       = match m3 / 2 ^ n2 with
         | Z0 => S754_zero sx
         | Z.pos p =>
             if e + n1 + n2 <=? Py.emax - Py.prec
             then S754_finite sx p (e + n1 + n2) else S754_infinity sx
         | Z.neg _ => S754_nan
         end.
Proof.
  intros Hm. unfold binary_round_aux.
  destruct (shr_fexp_spec m e l Hm) as [E1 E2].
  destruct (shr_fexp Py.prec Py.emax m e l) as [mrs' e']. simpl in E1, E2.
  set (m3 := round_nearest_even (shr_m mrs') (loc_of_shr_record mrs')).
  exists m3. cbv zeta.
  pose proof (round_nearest_even_bounds (shr_m mrs') (loc_of_shr_record mrs')) as Hb.
  fold m3 in Hb. rewrite E1 in Hb. split; [done|].
  assert (0 <= m3).
  { assert (0 <= m / 2 ^ Z.max 0 (fexp (Zdigits2 m + e) - e)); [|lia].
    apply Z.div_pos; [done|]. apply Z.pow_pos_nonneg; lia. }
  destruct (shr_fexp_spec m3 e' loc_Exact) as [E3 E4]; [done|].
  destruct (shr_fexp Py.prec Py.emax m3 e' loc_Exact) as [mrs'' e'']. simpl in E3, E4.
  rewrite E3, E4, E2. done.
Qed.

(** *** Magnitude bounds: no overflow *)

Lemma mag_le_mono (K K' : Z) (f : spec_float) : K <= K' -> mag_le K f -> mag_le K' f.
Proof. destruct f; simpl; lia. Qed.

Lemma mag_le_not_inf (K : Z) (f : spec_float) : mag_le K f -> Py.is_inf f = false.
Proof. by destruct f. Qed.

Lemma mag_le_finite (K : Z) (f : spec_float) : mag_le K f -> Py.is_finite f = true.
Proof. by destruct f. Qed.

Lemma binary_round_aux_sign (sx : bool) (m e : Z) (l : location) :
  0 <= m -> has_sign sx (binary_round_aux Py.prec Py.emax sx m e l).
Proof.
  intros Hm. destruct (binary_round_aux_unfold sx m e l Hm) as (m3 & Hb & ->).
  cbv zeta in *.
  assert (0 <= m / 2 ^ Z.max 0 (fexp (Zdigits2 m + e) - e))
    by (apply Z.div_pos; [done|apply Z.pow_pos_nonneg; lia]).
  assert (0 <= m3 / 2 ^ Z.max 0 (fexp (Zdigits2 m3 + (e + Z.max 0 (fexp (Zdigits2 m + e) - e)))
                                  - (e + Z.max 0 (fexp (Zdigits2 m + e) - e))))
    by (apply Z.div_pos; [lia|apply Z.pow_pos_nonneg; lia]).
  destruct (m3 / _); [done| |lia].
  by destruct (_ <=? _).
Qed.

Lemma Zdigits2_div_pow2_le (m n : Z) :
  0 <= m -> 0 <= n -> Zdigits2 (m / 2 ^ n) + n <= Z.max n (Zdigits2 m).
Proof.
  intros Hm Hn. destruct (decide (m = 0)) as [->|Hne].
  - rewrite Z.div_0_l by (apply Z.pow_nonzero; lia). simpl. lia.
  - rewrite Zdigits2_shiftr by lia. lia.
Qed.

Lemma binary_round_aux_mag (sx : bool) (m e : Z) (l : location) (K : Z) :
  0 <= m -> Zdigits2 m + e <= K -> e <= K ->
  -1074 <= K -> e <= 971 -> K <= 1023 ->
  mag_le (K + 1) (binary_round_aux Py.prec Py.emax sx m e l).
Proof.
  intros Hm HD He HK He' HK'.
  destruct (binary_round_aux_unfold sx m e l Hm) as (m3 & Hb & ->).
  cbv zeta in *.
  set (n1 := Z.max 0 (fexp (Zdigits2 m + e) - e)) in *.
  set (n2 := Z.max 0 (fexp (Zdigits2 m3 + (e + n1)) - (e + n1))) in *.
  assert (Hn1 : 0 <= n1) by lia.
  assert (Hn2 : 0 <= n2) by lia.
  assert (Hm2 : 0 <= m / 2 ^ n1) by (apply Z.div_pos; [done|apply Z.pow_pos_nonneg; lia]).
  pose proof (Zdigits2_div_pow2_le m n1 Hm Hn1) as Hd2.
  assert (Hd3 : Zdigits2 m3 <= Zdigits2 (m / 2 ^ n1) + 1).
  { etrans; [apply (Zdigits2_le m3 (m / 2 ^ n1 + 1)); lia|]. by apply Zdigits2_succ. }
  assert (Hf1 : fexp (Zdigits2 m + e) <= K - 53 \/ fexp (Zdigits2 m + e) = -1074)
    by (rewrite fexp_eq; lia).
  assert (He2 : e + n1 <= K /\ e + n1 <= 971) by lia.
  assert (HD3 : Zdigits2 m3 + (e + n1) <= K + 1) by lia.
  assert (Hf3 : fexp (Zdigits2 m3 + (e + n1)) <= K - 52
                \/ fexp (Zdigits2 m3 + (e + n1)) = -1074)
    by (rewrite fexp_eq; lia).
  assert (He4 : e + n1 + n2 <= K /\ e + n1 + n2 <= 971) by lia.
  assert (Hm3 : 0 <= m3) by lia.
  pose proof (Zdigits2_div_pow2_le m3 n2 Hm3 Hn2) as Hd4.
  destruct (m3 / 2 ^ n2) as [|p|p] eqn:E4; [done| |].
  - replace (e + n1 + n2 <=? Py.emax - Py.prec) with true
      by (symmetry; apply Z.leb_le; unfold Py.emax, Py.prec; lia).
    change (Zdigits2 (Z.pos p) + (e + n1 + n2) <= K + 1). lia.
  - assert (0 <= m3 / 2 ^ n2) by (apply Z.div_pos; [done|apply Z.pow_pos_nonneg; lia]).
    lia.
Qed.

Lemma shl_align_spec (mx : positive) (ex ex' : Z) :
  Z.pos (fst (shl_align mx ex ex')) = Z.pos mx * 2 ^ (ex - Z.min ex ex')
  /\ snd (shl_align mx ex ex') = Z.min ex ex'.
Proof.
  unfold shl_align. destruct (ex' - ex) as [|d|d] eqn:E; simpl.
  - replace (Z.min ex ex') with ex by lia. rewrite Z.sub_diag. simpl. lia.
  - replace (Z.min ex ex') with ex by lia. rewrite Z.sub_diag. simpl. lia.
  - replace (Z.min ex ex') with ex' by lia. split; [|done].
    replace (ex - ex') with (Z.pos d) by lia.
    change (Pos.iter xO mx d) with (shift_pos d mx).
    rewrite shift_pos_correct.
    rewrite Zpower_pos_nat, Zpower_nat_Z, positive_nat_Z. lia.
Qed.

Lemma binary_round_mag (sx : bool) (mx : positive) (ex K : Z) :
  Zdigits2 (Z.pos mx) + ex <= K -> -1074 <= K -> ex <= 971 -> K <= 1023 ->
  mag_le (K + 1) (binary_round Py.prec Py.emax sx mx ex)
  /\ has_sign sx (binary_round Py.prec Py.emax sx mx ex).
Proof.
  intros HD HK He HK'. unfold binary_round.
  destruct (shl_align_spec mx ex (fexp (Z.pos (digits2_pos mx) + ex))) as [E1 E2].
  destruct (shl_align mx ex _) as [mz ez]. simpl in E1, E2.
  assert (Hd : Zdigits2 (Z.pos mz) + ez = Zdigits2 (Z.pos mx) + ex).
  { rewrite E1, Zdigits2_mul_pow2 by lia. lia. }
  split.
  - apply binary_round_aux_mag; try lia.
    pose proof (Zdigits2_pos_lt (Z.pos mz)). lia.
  - apply binary_round_aux_sign. lia.
Qed.

(** Ints below [2 ^ 1023] in magnitude convert without [OverflowError]. *)
Lemma float_of_int_ok (n : Z) (K : Z) :
  Zdigits2 (Z.abs n) <= K -> 0 <= K <= 1023 ->
  exists f, Py.float_of_int n = Ok f /\ mag_le (K + 1) f
            /\ (0 <= n -> has_sign false f).
Proof.
  intros Hn HK. unfold Py.float_of_int.
  destruct n as [|p|p]; simpl binary_normalize.
  - by exists (S754_zero false).
  - destruct (binary_round_mag false p 0 K) as [Hm Hs]; try lia.
    { simpl in Hn. simpl. lia. }
    rewrite (mag_le_not_inf _ _ Hm). eauto.
  - destruct (binary_round_mag true p 0 K) as [Hm Hs]; try lia.
    { simpl in Hn. simpl. lia. }
    rewrite (mag_le_not_inf _ _ Hm). eexists. split; [done|]. split; [done|lia].
Qed.

(** *** Canonical results *)

(** A finite positive result of a rounding whose input has enough digits:
    it is canonical, and it is at least the input truncated to the target
    exponent. *)
Lemma binary_round_aux_canonical (sx : bool) (m e : Z) (l : location) :
  0 < m ->
  e <= fexp (Zdigits2 m + e) ->
  -1073 <= Zdigits2 m + e ->
  exists m4 e4,
    binary_round_aux Py.prec Py.emax sx m e l
    = (if e4 <=? 971 then S754_finite sx m4 e4 else S754_infinity sx)
    /\ fexp (Zdigits2 (Z.pos m4) + e4) = e4
    /\ ((e4 = fexp (Zdigits2 m + e)
         /\ m / 2 ^ (fexp (Zdigits2 m + e) - e) <= Z.pos m4)
        \/ fexp (Zdigits2 m + e) < e4).
Proof.
  intros Hm He HD.
  destruct (binary_round_aux_unfold sx m e l) as (m3 & Hb & ->); [lia|].
  cbv zeta in *.
  remember (Zdigits2 m + e) as D eqn:ED.
  replace (Z.max 0 (fexp D - e)) with (fexp D - e) in * by lia.
  remember (fexp D - e) as n1 eqn:En1.
  replace (e + n1) with (fexp D) in * by lia.
  remember (m / 2 ^ n1) as m2 eqn:Em2.
  assert (Hd2 : Zdigits2 m2 = D - fexp D).
  { rewrite Em2, Zdigits2_shiftr by lia. rewrite fexp_eq in *. lia. }
  assert (Hm2 : 0 < m2).
  { destruct (Z.lt_total 0 m2) as [?|[E|?]]; [done| |].
    - rewrite <- E in Hd2. simpl in Hd2. rewrite fexp_eq in *. lia.
    - assert (0 <= m2) by (rewrite Em2; apply Z.div_pos; [lia|apply Z.pow_pos_nonneg; lia]). lia. }
  assert (Hd3 : Zdigits2 m3 = Zdigits2 m2
                \/ (Zdigits2 m3 = Zdigits2 m2 + 1 /\ m3 = 2 ^ Zdigits2 m2)).
  { destruct (decide (m3 = m2)) as [->|Hne]; [by left|].
    assert (m3 = m2 + 1) as -> by lia.
    pose proof (Zdigits2_spec m2 Hm2) as [Hlo Hhi].
    destruct (decide (m2 + 1 = 2 ^ Zdigits2 m2)) as [E|E].
    - right. split; [|done]. apply Zdigits2_unique.
      + replace (Zdigits2 m2 + 1 - 1) with (Zdigits2 m2) by lia.
        rewrite Z.pow_add_r by (pose proof (Zdigits2_nonneg m2); lia).
        change (2 ^ 1) with 2. lia.
      + pose proof (Zdigits2_nonneg m2). lia.
    - left. apply Zdigits2_unique; [|by apply Zdigits2_pos_lt].
      split; lia. }
  remember (Z.max 0 (fexp (Zdigits2 m3 + fexp D) - fexp D)) as n2 eqn:En2.
  assert (Hpos : 0 < 2 ^ Zdigits2 m2)
    by (apply Z.pow_pos_nonneg; [lia|apply Zdigits2_nonneg]).
  destruct Hd3 as [Hd3|[Hd3 Hcarry]].
  - (* no carry *)
    assert (n2 = 0) as Hn2.
    { rewrite En2, Hd3, Hd2. replace (D - fexp D + fexp D) with D by lia. lia. }
    rewrite Hn2, Z.pow_0_r, Z.div_1_r, Z.add_0_r.
    destruct m3 as [|p|p]; [lia| |lia].
    exists p, (fexp D). split; [done|]. split.
    + rewrite Hd3, Hd2. f_equal. lia.
    + left. split; [done|]. lia.
  - (* the increment carried to a power of two *)
    destruct (decide (fexp (D + 1) = fexp D)) as [Hsub|Hnorm].
    + assert (n2 = 0) as Hn2.
      { rewrite En2, Hd3, Hd2. replace (D - fexp D + 1 + fexp D) with (D + 1) by lia. lia. }
      rewrite Hn2, Z.pow_0_r, Z.div_1_r, Z.add_0_r.
      destruct m3 as [|p|p]; [lia| |lia].
      exists p, (fexp D). split; [done|]. split.
      * rewrite Hd3, Hd2. replace (D - fexp D + 1 + fexp D) with (D + 1) by lia. done.
      * left. split; [done|]. lia.
    + assert (n2 = 1) as Hn2.
      { rewrite En2, Hd3, Hd2. replace (D - fexp D + 1 + fexp D) with (D + 1) by lia.
        rewrite !fexp_eq in *. lia. }
      rewrite Hn2. change (2 ^ 1) with 2.
      assert (Hd2pos : 0 < Zdigits2 m2) by (by apply Zdigits2_pos_lt).
      assert (Hm4 : m3 / 2 = 2 ^ (Zdigits2 m2 - 1)).
      { rewrite Hcarry. replace (Zdigits2 m2) with (Zdigits2 m2 - 1 + 1) at 1 by lia.
        rewrite Z.pow_add_r by lia. change (2 ^ 1) with 2.
        rewrite Z.div_mul by lia. done. }
      rewrite Hm4.
      assert (0 < 2 ^ (Zdigits2 m2 - 1)) by (apply Z.pow_pos_nonneg; lia).
      destruct (2 ^ (Zdigits2 m2 - 1)) as [|p|p] eqn:E4; [lia| |lia].
      exists p, (fexp D + 1). split; [done|]. split.
      * rewrite <- E4.
        rewrite (Zdigits2_unique _ (Zdigits2 m2)); [| |done].
        -- rewrite Hd2. replace (D - fexp D + (fexp D + 1)) with (D + 1) by lia.
           rewrite !fexp_eq in *. lia.
        -- split; [lia|]. apply Z.pow_lt_mono_r; lia.
      * right. lia.
Qed.

Lemma valid_finite (s : bool) (m : positive) (e : Z) :
  valid (S754_finite s m e) <-> fexp (Zdigits2 (Z.pos m) + e) = e /\ e <= 971.
Proof.
  unfold valid, valid_binary, bounded, canonical_mantissa.
  rewrite andb_true_iff, Z.eqb_eq, Z.leb_le. done.
Qed.

Lemma binary_round_aux_valid (sx : bool) (m e : Z) (l : location) :
  0 < m ->
  e <= fexp (Zdigits2 m + e) ->
  -1073 <= Zdigits2 m + e ->
  valid (binary_round_aux Py.prec Py.emax sx m e l).
Proof.
  intros Hm He HD.
  destruct (binary_round_aux_canonical sx m e l Hm He HD) as (m4 & e4 & -> & Hc & _).
  destruct (e4 <=? 971) eqn:E; [|done].
  apply valid_finite. apply Z.leb_le in E. done.
Qed.

Lemma binary_round_canonical (sx : bool) (mx : positive) (ex : Z) :
  -1073 <= Zdigits2 (Z.pos mx) + ex ->
  let D := Zdigits2 (Z.pos mx) + ex in
  let ez := Z.min ex (fexp D) in
  exists m4 e4,
    binary_round Py.prec Py.emax sx mx ex
    = (if e4 <=? 971 then S754_finite sx m4 e4 else S754_infinity sx)
    /\ fexp (Zdigits2 (Z.pos m4) + e4) = e4
    /\ ((e4 = fexp D /\ Z.pos mx * 2 ^ (ex - ez) / 2 ^ (fexp D - ez) <= Z.pos m4)
        \/ fexp D < e4).
Proof.
  intros HD D ez. unfold binary_round.
  destruct (shl_align_spec mx ex (fexp (Z.pos (digits2_pos mx) + ex))) as [E1 E2].
  destruct (shl_align mx ex _) as [mz ez']. simpl in E1, E2.
  change (Z.pos (digits2_pos mx) + ex) with D in *. fold ez in E1, E2. subst ez'.
  assert (Hd : Zdigits2 (Z.pos mz) + ez = D).
  { rewrite E1, Zdigits2_mul_pow2 by lia. unfold D. lia. }
  destruct (binary_round_aux_canonical sx (Z.pos mz) ez loc_Exact)
    as (m4 & e4 & Hr & Hc & Hm); [lia|rewrite Hd; lia|lia|].
  exists m4, e4. rewrite Hd in Hm. rewrite E1 in Hm. done.
Qed.

(** *** Square root *)

Lemma Zdigits2_sqrt (n : Z) : 0 < n -> Zdigits2 (Z.sqrt n) = (Zdigits2 n + 1) / 2.
Proof.
  intros Hn. pose proof (Zdigits2_spec n Hn) as [Hlo Hhi].
  pose proof (Zdigits2_pos_lt n Hn) as Hk.
  set (k := Zdigits2 n) in *. set (j := (k + 1) / 2).
  assert (Hj : 2 * j <= k + 1 /\ k <= 2 * j).
  { unfold j. pose proof (Z.div_mod (k + 1) 2). pose proof (Z.mod_pos_bound (k + 1) 2). lia. }
  apply Zdigits2_unique; [|lia]. split.
  - apply Z.sqrt_le_square; [lia|apply Z.pow_nonneg; lia|].
    rewrite <- Z.pow_add_r by lia.
    etrans; [|exact Hlo]. apply Z.pow_le_mono_r; lia.
  - apply Z.sqrt_lt_square; [lia|apply Z.pow_nonneg; lia|].
    rewrite <- Z.pow_add_r by lia.
    eapply Z.lt_le_trans; [exact Hhi|]. apply Z.pow_le_mono_r; lia.
Qed.

Lemma fsqrt_valid (mx : positive) (ex : Z) :
  -1073 <= Zdigits2 (Z.pos mx) + ex ->
  valid (Py.fsqrt (S754_finite false mx ex))
  /\ has_sign false (Py.fsqrt (S754_finite false mx ex)).
Proof.
  intros HD. unfold Py.fsqrt, SFsqrt, SFsqrt_core_binary.
  set (d := Zdigits2 (Z.pos mx)) in *.
  set (g := Z.div2 (d + ex + 1)).
  set (e' := Z.min (fexp g) (Z.div2 ex)).
  set (s := ex - 2 * e').
  assert (Hg : 2 * g <= d + ex + 1 <= 2 * g + 1).
  { unfold g. rewrite Z.div2_div.
    pose proof (Z.div_mod (d + ex + 1) 2). pose proof (Z.mod_pos_bound (d + ex + 1) 2). lia. }
  assert (Hex : 2 * Z.div2 ex <= ex).
  { rewrite Z.div2_div. pose proof (Z.div_mod ex 2). pose proof (Z.mod_pos_bound ex 2). lia. }
  assert (Hs : 0 <= s) by lia.
  set (m' := match s with Z.pos _ => Z.shiftl (Z.pos mx) s | 0 => Z.pos mx | Z.neg _ => 0 end).
  assert (Hm' : m' = Z.pos mx * 2 ^ s).
  { unfold m'. destruct s as [|p|p] eqn:Es; [lia| |lia].
    by rewrite Z.shiftl_mul_pow2. }
  assert (Hm'pos : 0 < m').
  { rewrite Hm'. apply Z.mul_pos_pos; [lia|]. apply Z.pow_pos_nonneg; lia. }
  pose proof (Z.sqrtrem_sqrt m') as Hq.
  destruct (Z.sqrtrem m') as [q r]. simpl in Hq. subst q.
  assert (Hqpos : 0 < Z.sqrt m') by (apply Z.sqrt_pos; lia).
  assert (Hdq : Zdigits2 (Z.sqrt m') + e' = g).
  { rewrite Zdigits2_sqrt by done. rewrite Hm', Zdigits2_mul_pow2 by lia.
    fold d. unfold s.
    replace (d + (ex - 2 * e') + 1) with ((d + ex + 1) + (- e') * 2) by lia.
    rewrite Z.div_add by lia. unfold g. rewrite Z.div2_div. lia. }
  split.
  - apply binary_round_aux_valid; [done| |]; rewrite Hdq; lia.
  - apply binary_round_aux_sign. lia.
Qed.

(** *** Addition of non-negative floats does not decrease *)

Lemma SFcompare_refl_finite (m : positive) (e : Z) :
  SFcompare (S754_finite false m e) (S754_finite false m e) = Some Eq.
Proof. simpl. rewrite Z.compare_refl. by rewrite Pos.compare_cont_refl. Qed.

Lemma fle_refl (a : spec_float) : has_sign false a -> fle a a.
Proof.
  destruct a as [s|s| |s m e]; simpl; intros Hs; subst; try done.
  - by right.
  - by right.
  - right. apply SFcompare_refl_finite.
Qed.

Lemma fadd_finite (mc : positive) (ec : Z) (ms : positive) (es : Z) :
  Py.fadd (S754_finite false mc ec) (S754_finite false ms es)
  = binary_round Py.prec Py.emax false
      (fst (shl_align mc ec (Z.min ec es)) + fst (shl_align ms es (Z.min ec es)))
      (Z.min ec es).
Proof. done. Qed.

Lemma fadd_mono_finite (mc : positive) (ec : Z) (ms : positive) (es : Z) :
  valid (S754_finite false mc ec) ->
  fle (S754_finite false mc ec)
      (Py.fadd (S754_finite false mc ec) (S754_finite false ms es))
  /\ nonneg (Py.fadd (S754_finite false mc ec) (S754_finite false ms es)).
Proof.
  intros [Hc Hec]%valid_finite. rewrite fadd_finite.
  set (ez := Z.min ec es).
  destruct (shl_align_spec mc ec ez) as [Ec _].
  destruct (shl_align_spec ms es ez) as [Es _].
  replace (Z.min ec ez) with ez in Ec by lia.
  replace (Z.min es ez) with ez in Es by lia.
  set (mc' := fst (shl_align mc ec ez)) in *.
  set (ms' := fst (shl_align ms es ez)) in *.
  set (Dc := Zdigits2 (Z.pos mc) + ec) in *.
  assert (HDc : -1073 <= Dc).
  { pose proof (Zdigits2_pos_lt (Z.pos mc)). rewrite fexp_eq in Hc. lia. }
  assert (Hdc' : Zdigits2 (Z.pos mc') + ez = Dc).
  { rewrite Ec, Zdigits2_mul_pow2 by lia. unfold Dc. lia. }
  assert (HD : Dc <= Zdigits2 (Z.pos (mc' + ms')) + ez).
  { rewrite <- Hdc'. assert (Zdigits2 (Z.pos mc') <= Zdigits2 (Z.pos (mc' + ms'))); [|lia].
    apply Zdigits2_le. lia. }
  destruct (binary_round_canonical false (mc' + ms') ez) as (m4 & e4 & -> & Hcan & Hm);
    [lia|].
  set (D := Zdigits2 (Z.pos (mc' + ms')) + ez) in *.
  assert (HE : ec <= fexp D) by (rewrite <- Hc, !fexp_eq; lia).
  destruct (e4 <=? 971) eqn:E971.
  - apply Z.leb_le in E971. split.
    + unfold fle. simpl.
      destruct Hm as [[He4 Hm4]|He4].
      * destruct (Z.compare_spec ec e4) as [Heq|Hlt|Hgt]; [|by left|lia].
        assert (Z.min ez (fexp D) = ez) as Hmin by lia. rewrite Hmin in Hm4.
        rewrite Z.sub_diag, Z.pow_0_r, Z.mul_1_r in Hm4.
        assert (Z.pos mc <= Z.pos m4).
        { etrans; [|exact Hm4]. rewrite <- He4, <- Heq.
          apply Z.div_le_lower_bound; [apply Z.pow_pos_nonneg; lia|].
          rewrite Pos2Z.inj_add, Ec. lia. }
        rewrite Pos.compare_cont_spec. simpl.
        destruct (Pos.compare_spec mc m4); [by right|by left|lia].
      * replace (ec ?= e4) with Lt by (symmetry; apply Z.compare_lt_iff; lia). by left.
    + split; [|done]. by apply valid_finite.
  - split; [by left|done].
Qed.

Lemma fadd_mono (c s : spec_float) :
  nonneg c -> nonneg s -> fle c (Py.fadd c s) /\ nonneg (Py.fadd c s).
Proof.
  intros [Hvc Hsc] [Hvs Hss].
  destruct c as [sc|sc| |sc mc ec]; simpl in Hsc; subst; try done;
    destruct s as [ss|ss| |ss ms es]; simpl in Hss; subst; try done;
    try (split; [by (left + right)|by split]).
  - split; [right; apply SFcompare_refl_finite|by split].
  - by apply fadd_mono_finite.
Qed.

(** *** Order *)

Lemma SFcompare_finite (m1 : positive) (e1 : Z) (m2 : positive) (e2 : Z) :
  SFcompare (S754_finite false m1 e1) (S754_finite false m2 e2)
  = Some (match e1 ?= e2 with
          | Lt => Lt
          | Gt => Gt
          | Eq => (m1 ?= m2)%positive
          end).
Proof.
  simpl. rewrite Pos.compare_cont_spec. unfold Pos.switch_Eq.
  by destruct (e1 ?= e2), (m1 ?= m2)%positive.
Qed.

Lemma SFcompare_le_lt_trans (a b g : spec_float) :
  has_sign false a -> has_sign false b ->
  fle a b -> SFcompare b g = Some Lt -> SFcompare a g = Some Lt.
Proof.
  intros Ha Hb Hab Hbg. unfold fle in Hab.
  destruct a as [sa|sa| |sa ma ea]; simpl in Ha; subst; try done;
    destruct b as [sb|sb| |sb mb eb]; simpl in Hb; subst; try done;
    destruct g as [sg|sg| |[] mg eg]; try done;
    try (by destruct sg);
    try (by destruct Hab).
  rewrite SFcompare_finite in *.
  destruct (Z.compare_spec ea eb), (Z.compare_spec eb eg), (Z.compare_spec ea eg);
    destruct (Pos.compare_spec ma mb), (Pos.compare_spec mb mg), (Pos.compare_spec ma mg);
    destruct Hab; try done; try lia.
Qed.

Lemma fle_trans (a b c : spec_float) :
  has_sign false a -> has_sign false b -> has_sign false c ->
  fle a b -> fle b c -> fle a c.
Proof.
  intros Ha Hb Hc Hab [Hbc|Hbc].
  - left. exact (SFcompare_le_lt_trans a b c Ha Hb Hab Hbc).
  - unfold fle in *.
    destruct a as [sa|sa| |sa ma ea]; simpl in Ha; subst; try done;
      destruct b as [sb|sb| |sb mb eb]; simpl in Hb; subst; try done;
      destruct c as [sc|sc| |sc mc ec]; simpl in Hc; subst; try done.
    rewrite SFcompare_finite in *.
    destruct (Z.compare_spec ea eb), (Z.compare_spec eb ec), (Z.compare_spec ea ec);
      destruct (Pos.compare_spec ma mb), (Pos.compare_spec mb mc), (Pos.compare_spec ma mc);
      destruct Hab; try done; try lia; auto.
Qed.

Lemma Z_mul_compare_r (n m p : Z) : 0 < p -> (n * p ?= m * p) = (n ?= m).
Proof.
  intros Hp. destruct (Z.compare_spec n m) as [->|H|H].
  - apply Z.compare_refl.
  - apply Z.compare_lt_iff. nia.
  - apply Z.compare_gt_iff. nia.
Qed.

Lemma float_compare_int_scaled (m : positive) (e z : Z) :
  -1074 <= e ->
  Py.float_compare_int (S754_finite false m e) z
  = Some (scaled m e ?= z * 2 ^ 1074).
Proof.
  intros He. unfold Py.float_compare_int, scaled.
  destruct (0 <=? e) eqn:E; [apply Z.leb_le in E|apply Z.leb_gt in E]; f_equal.
  - rewrite Z.pow_add_r by lia.
    rewrite Z.mul_assoc.
    apply eq_sym, Z_mul_compare_r. apply Z.pow_pos_nonneg; lia.
  - assert (E2 : 2 ^ 1074 = 2 ^ (- e) * 2 ^ (e + 1074))
      by (rewrite <- Z.pow_add_r by lia; f_equal; lia).
    rewrite E2, Z.mul_assoc.
    apply eq_sym, Z_mul_compare_r. apply Z.pow_pos_nonneg; lia.
Qed.

Lemma valid_finite_bounds (m : positive) (e : Z) :
  valid (S754_finite false m e) ->
  -1074 <= e /\ Z.pos m < 2 ^ 53 /\ (-1074 < e -> 2 ^ 52 <= Z.pos m).
Proof.
  intros [Hc _]%valid_finite. rewrite fexp_eq in Hc.
  pose proof (Zdigits2_spec (Z.pos m)) as Hd. specialize (Hd ltac:(lia)).
  pose proof (Zdigits2_pos_lt (Z.pos m)) as Hp. specialize (Hp ltac:(lia)).
  split; [lia|]. split.
  - eapply Z.lt_le_trans; [apply Hd|]. apply Z.pow_le_mono_r; lia.
  - intros He. replace (Zdigits2 (Z.pos m)) with 53 in Hd by lia. apply Hd.
Qed.

Lemma fle_scaled (ma : positive) (ea : Z) (mb : positive) (eb : Z) :
  valid (S754_finite false ma ea) -> valid (S754_finite false mb eb) ->
  fle (S754_finite false ma ea) (S754_finite false mb eb) ->
  scaled ma ea <= scaled mb eb.
Proof.
  intros (Hea & Hma & _)%valid_finite_bounds (Heb & _ & Hmb)%valid_finite_bounds Hab.
  unfold fle in Hab. rewrite SFcompare_finite in Hab. unfold scaled.
  destruct (Z.compare_spec ea eb) as [->|Hlt|Hgt].
  - apply Z.mul_le_mono_nonneg_r; [apply Z.pow_nonneg; lia|].
    destruct (Pos.compare_spec ma mb); destruct Hab; try done; lia.
  - specialize (Hmb ltac:(lia)).
    assert (H1 : Z.pos ma * 2 ^ (ea + 1074) <= 2 ^ 53 * 2 ^ (ea + 1074)).
    { apply Z.mul_le_mono_nonneg_r; [apply Z.pow_nonneg; lia|lia]. }
    assert (H2 : 2 ^ 52 * 2 ^ (eb + 1074) <= Z.pos mb * 2 ^ (eb + 1074)).
    { apply Z.mul_le_mono_nonneg_r; [apply Z.pow_nonneg; lia|lia]. }
    rewrite <- Z.pow_add_r in H1, H2 by lia.
    assert (2 ^ (53 + (ea + 1074)) <= 2 ^ (52 + (eb + 1074)))
      by (apply Z.pow_le_mono_r; lia).
    lia.
  - by destruct Hab.
Qed.

Lemma float_compare_int_zero (s : bool) (z : Z) :
  Py.float_compare_int (S754_zero s) z = Some (0 ?= z).
Proof. done. Qed.

(** A running sum at or below the total stays below any number the total
    is below. *)
Lemma ge_false_of_fle_lt (a b : spec_float) (d : Py.num) :
  nonneg a -> nonneg b -> fle a b ->
  Py.lt (Py.Float b) d = true -> Py.ge (Py.Float a) d = false.
Proof.
  intros [Hva Hsa] [Hvb Hsb] Hab Hlt. unfold Py.lt, Py.ge in *.
  destruct d as [z|g]; cbn [Py.compare] in *.
  - destruct (Py.float_compare_int b z) as [[]|] eqn:Ebz; try done. clear Hlt.
    destruct a as [sa|sa| |sa ma ea]; cbn [has_sign] in Hsa; subst; try done;
      destruct b as [sb|sb| |sb mb eb]; cbn [has_sign] in Hsb; subst; try done;
      try (by destruct Hab).
    + by rewrite Ebz.
    + pose proof (valid_finite_bounds _ _ Hvb) as (Heb & _ & _).
      rewrite float_compare_int_scaled in Ebz by done.
      rewrite float_compare_int_zero.
      injection Ebz as Ebz. apply Z.compare_lt_iff in Ebz.
      assert (Hs : 0 < scaled mb eb)
        by (apply Z.mul_pos_pos; [lia|apply Z.pow_pos_nonneg; lia]).
      pose proof (Z.lt_trans _ _ _ Hs Ebz) as Hz.
      assert (Hk : 0 < 2 ^ 1074) by (apply Z.pow_pos_nonneg; lia).
      revert Hz Hk. generalize (2 ^ 1074). intros k Hz Hk.
      replace (0 ?= z) with Lt; [done|]. symmetry. apply Z.compare_lt_iff. nia.
    + pose proof (valid_finite_bounds _ _ Hva) as (Hea & _ & _).
      pose proof (valid_finite_bounds _ _ Hvb) as (Heb & _ & _).
      pose proof (fle_scaled _ _ _ _ Hva Hvb Hab) as Hle.
      rewrite float_compare_int_scaled in * by done.
      injection Ebz as Ebz. apply Z.compare_lt_iff in Ebz.
      replace (scaled ma ea ?= z * 2 ^ 1074) with Lt; [done|].
      symmetry. apply Z.compare_lt_iff. exact (Z.le_lt_trans _ _ _ Hle Ebz).
  - destruct (SFcompare b g) as [[]|] eqn:Ebg; try done.
    by rewrite (SFcompare_le_lt_trans a b g Hsa Hsb Hab Ebg).
Qed.

(** A number above a non-negative float is not [<= 0]. *)
Lemma le_zero_false_of_lt (b : spec_float) (d : Py.num) :
  has_sign false b -> Py.lt (Py.Float b) d = true -> Py.le d (Py.Int 0) = false.
Proof.
  intros Hsb Hlt. unfold Py.lt, Py.le in *.
  destruct d as [z|g]; cbn [Py.compare] in *.
  - destruct (Py.float_compare_int b z) as [[]|] eqn:Ebz; try done. clear Hlt.
    assert (0 < z); [|by replace (z ?= 0) with Gt by (symmetry; apply Z.compare_gt_iff; lia)].
    destruct b as [sb|sb| |sb mb eb]; cbn [has_sign] in Hsb; subst; try done.
    + rewrite float_compare_int_zero in Ebz.
      injection Ebz as Ebz. destruct z; try done; lia.
    + unfold Py.float_compare_int in Ebz.
      destruct (0 <=? eb) eqn:E; apply (inj Some) in Ebz.
      * apply Z.leb_le in E. apply -> Z.compare_lt_iff in Ebz.
        assert (0 < Z.pos mb * 2 ^ eb)
          by (apply Z.mul_pos_pos; [lia|apply Z.pow_pos_nonneg; lia]).
        lia.
      * apply Z.leb_gt in E. apply -> Z.compare_lt_iff in Ebz.
        assert (0 < 2 ^ (- eb)) by (apply Z.pow_pos_nonneg; lia).
        destruct (Z.lt_ge_cases 0 z) as [|Hz]; [done|].
        assert (z * 2 ^ (- eb) <= 0) by (apply Z.mul_nonpos_nonneg; lia).
        lia.
  - destruct (SFcompare b g) as [[]|] eqn:Ebg; try done. clear Hlt.
    destruct b as [sb|sb| |sb mb eb]; cbn [has_sign] in Hsb; subst; try done;
      destruct g as [sg|sg| |[] mg eg]; try done; try (by destruct sg).
    all: unfold Py.float_compare_int; destruct (0 <=? eg) eqn:E;
      [|by rewrite Z.mul_0_l].
    all: apply Z.leb_le in E;
      replace (Z.pos mg * 2 ^ eg ?= 0) with Gt; [done|];
      symmetry; apply Z.compare_gt_iff;
      apply Z.mul_pos_pos; [lia|apply Z.pow_pos_nonneg; lia].
Qed.

(** *** Conversions and square roots of ints *)

Lemma binary_round_valid (sx : bool) (mx : positive) (ex : Z) :
  -1073 <= Zdigits2 (Z.pos mx) + ex ->
  valid (binary_round Py.prec Py.emax sx mx ex)
  /\ has_sign sx (binary_round Py.prec Py.emax sx mx ex).
Proof.
  intros HD.
  destruct (binary_round_canonical sx mx ex HD) as (m4 & e4 & -> & Hc & _).
  destruct (e4 <=? 971) eqn:E; [|done].
  split; [|done]. apply valid_finite. by apply Z.leb_le in E.
Qed.

Lemma float_of_int_valid (n : Z) (f : spec_float) :
  Py.float_of_int n = Ok f -> valid f /\ (0 <= n -> has_sign false f).
Proof.
  unfold Py.float_of_int. destruct (Py.is_inf _) eqn:E; [done|]. intros [= <-].
  destruct n as [|p|p]; simpl binary_normalize.
  - done.
  - destruct (binary_round_valid false p 0) as [Hv Hs];
      [pose proof (Zdigits2_pos_lt (Z.pos p)); lia|]. done.
  - destruct (binary_round_valid true p 0) as [Hv Hs];
      [pose proof (Zdigits2_pos_lt (Z.pos p)); lia|]. split; [done|lia].
Qed.

Lemma valid_finite_mag (m : positive) (e : Z) :
  valid (S754_finite false m e) -> -1073 <= Zdigits2 (Z.pos m) + e.
Proof.
  intros [Hc _]%valid_finite. rewrite fexp_eq in Hc.
  pose proof (Zdigits2_pos_lt (Z.pos m)). lia.
Qed.

Lemma fsqrt_nonneg (f : spec_float) : nonneg f -> nonneg (Py.fsqrt f).
Proof.
  intros [Hv Hs]. destruct f as [s|s| |s m e]; simpl in Hs; subst; try done.
  apply fsqrt_valid. by apply valid_finite_mag.
Qed.

(** [math.sqrt] of a non-negative int either raises [OverflowError] or
    gives a non-negative float. *)
Lemma sqrt_int_nonneg (n : Z) (x : Py.num) :
  0 <= n -> Py.sqrt (Py.Int n) = Ok x -> exists f, x = Py.Float f /\ nonneg f.
Proof.
  intros Hn. unfold Py.sqrt. simpl.
  destruct (Py.float_of_int n) as [f|] eqn:E; [|done]. simpl.
  destruct (float_of_int_valid n f E) as [Hv Hs]. specialize (Hs Hn).
  assert (Hnn : nonneg (Py.fsqrt f)) by (by apply fsqrt_nonneg).
  destruct f as [s|s| |s m e]; simpl in Hs; subst; try done;
    intros [= <-]; eexists; (split; [reflexivity|exact Hnn]).
Qed.

Lemma sqrt_int_ok (n K : Z) :
  0 <= n -> Zdigits2 n <= K -> 0 <= K <= 1023 ->
  exists f, Py.sqrt (Py.Int n) = Ok (Py.Float f) /\ nonneg f.
Proof.
  intros Hn HK HK'. unfold Py.sqrt. simpl.
  destruct (float_of_int_ok n K) as (f & E & Hm & Hs); [by rewrite Z.abs_eq|done|].
  rewrite E. simpl.
  destruct (float_of_int_valid n f E) as [Hv _]. specialize (Hs Hn).
  assert (Hnn : nonneg (Py.fsqrt f)) by (by apply fsqrt_nonneg).
  destruct f as [s|s| |s m e]; simpl in Hs; subst; try done;
    eexists; (split; [reflexivity|exact Hnn]).
Qed.

Lemma sum_squares_nonneg (a b : Z) : 0 <= a ^ 2 + b ^ 2.
Proof. rewrite !Z.pow_2_r. nia. Qed.

Lemma segment_length_sqrt (a b : point) :
  segment_length a b
  = Py.sqrt (Py.Int ((fst b - fst a) ^ 2 + (snd b - snd a) ^ 2)).
Proof. by destruct a, b. Qed.

Lemma segment_length_nonneg (a b : point) (x : Py.num) :
  segment_length a b = Ok x -> exists f, x = Py.Float f /\ nonneg f.
Proof.
  rewrite segment_length_sqrt. apply sqrt_int_nonneg, sum_squares_nonneg.
Qed.

Lemma add_floats (c s : spec_float) :
  Py.add (Py.Float c) (Py.Float s) = Ok (Py.Float (Py.fadd c s)).
Proof. done. Qed.

(** *** The two loops walk the same running sums *)

Lemma length_loop_distance_loop (r : route) (c : spec_float) (x : Py.num) :
  nonneg c ->
  length_loop (Py.Float c) r = Ok x ->
  exists total,
    x = Py.Float total /\ fle c total /\ nonneg total
    /\ forall d, Py.lt (Py.Float total) d = true ->
                 distance_loop d (Py.Float c) r = Ok None.
Proof.
  revert c. induction r as [|a r IH]; intros c Hc.
  - simpl. intros [= <-]. exists c. split; [done|]. split; [apply fle_refl, Hc|done].
  - destruct r as [|b r].
    + simpl. intros [= <-]. exists c. split; [done|]. split; [apply fle_refl, Hc|done].
    + change (length_loop (Py.Float c) (a :: b :: r))
        with (distance ← segment_length a b;
              total' ← Py.add (Py.Float c) distance;
              length_loop total' (b :: r)).
      destruct (segment_length a b) as [y|] eqn:Eseg; [|done].
      destruct (segment_length_nonneg a b y Eseg) as (s & -> & Hs).
      cbn [mbind result_bind]. rewrite add_floats. cbn [mbind result_bind].
      destruct (fadd_mono c s Hc Hs) as [Hle Hc'].
      intros Hlen. destruct (IH _ Hc' Hlen) as (total & -> & Hle' & Htot & Hd).
      exists total. split; [done|]. split; [|split; [done|]].
      * eapply fle_trans; [apply Hc|apply Hc'|apply Htot|done..].
      * intros d Hlt.
        change (distance_loop d (Py.Float c) (a :: b :: r))
          with (segment_length ← segment_length a b;
                reached ← Py.add (Py.Float c) segment_length;
                if Py.ge reached d then
                  remaining_distance ← Py.sub d (Py.Float c);
                  if Py.eq segment_length (Py.Int 0) then Ok (Some (of_point a))
                  else
                    ratio ← Py.truediv remaining_distance segment_length;
                    x ← interpolate (fst a) (fst b) ratio;
                    y ← interpolate (snd a) (snd b) ratio;
                    Ok (Some (x, y))
                else
                  current_distance' ← Py.add (Py.Float c) segment_length;
                  distance_loop d current_distance' (b :: r)).
        rewrite Eseg. cbn [mbind result_bind]. rewrite add_floats.
        cbn [mbind result_bind].
        rewrite (ge_false_of_fle_lt (Py.fadd c s) total d Hc' Htot Hle' Hlt).
        by apply Hd.
Qed.

(** ** Arc length: the walk along the route *)

Lemma length_loop_cons (c : Py.num) (a b : point) (r : route) :
  length_loop c (a :: b :: r)
  = (distance ← segment_length a b;
     total' ← Py.add c distance;
     length_loop total' (b :: r)).
Proof. done. Qed.

Lemma distance_loop_cons (d c : Py.num) (a b : point) (r : route) :
  distance_loop d c (a :: b :: r)
  = (seg ← segment_length a b;
     reached ← Py.add c seg;
     if Py.ge reached d then
       p ← interpolate_on a b c seg d; Ok (Some p)
     else
       current_distance' ← Py.add c seg;
       distance_loop d current_distance' (b :: r)).
Proof.
  change (distance_loop d c (a :: b :: r))
    with (segment_length ← segment_length a b;
          reached ← Py.add c segment_length;
          if Py.ge reached d then
            remaining_distance ← Py.sub d c;
            if Py.eq segment_length (Py.Int 0) then Ok (Some (of_point a))
            else
              ratio ← Py.truediv remaining_distance segment_length;
              x ← interpolate (fst a) (fst b) ratio;
              y ← interpolate (snd a) (snd b) ratio;
              Ok (Some (x, y))
          else
            current_distance' ← Py.add c segment_length;
            distance_loop d current_distance' (b :: r)).
  destruct (segment_length a b) as [seg|]; [|done]. cbn [mbind result_bind].
  destruct (Py.add c seg) as [reached|]; [|done]. cbn [mbind result_bind].
  destruct (Py.ge reached d); [|done].
  unfold interpolate_on.
  destruct (Py.sub d c) as [rem|]; [|done]. cbn [mbind result_bind].
  destruct (Py.eq seg (Py.Int 0)); [done|].
  destruct (Py.truediv rem seg) as [ratio|]; [|done]. cbn [mbind result_bind].
  destruct (interpolate (fst a) (fst b) ratio); [|done]. cbn [mbind result_bind].
  by destruct (interpolate (snd a) (snd b) ratio).
Qed.

(** The segment that contains distance [d]: the running sum is below [d]
    at its start and reaches [d] at its end. *)
Lemma distance_loop_match (pre : route) (a b : point) (post : route)
    (c cum seg : spec_float) (d : Py.num) :
  nonneg c ->
  length_loop (Py.Float c) (pre ++ [a]) = Ok (Py.Float cum) ->
  segment_length a b = Ok (Py.Float seg) ->
  Py.lt (Py.Float cum) d = true ->
  Py.ge (Py.Float (Py.fadd cum seg)) d = true ->
  distance_loop d (Py.Float c) (pre ++ a :: b :: post)
  = (p ← interpolate_on a b (Py.Float cum) (Py.Float seg) d; Ok (Some p)).
Proof.
  intros Hc Hcum Hseg Hlt Hge. revert c Hc Hcum.
  induction pre as [|p pre IH]; intros c Hc Hcum.
  - simpl in Hcum. injection Hcum as ->. simpl app.
    rewrite distance_loop_cons, Hseg. cbn [mbind result_bind].
    rewrite add_floats. cbn [mbind result_bind]. by rewrite Hge.
  - assert (exists q rest, pre ++ [a] = q :: rest
                           /\ pre ++ a :: b :: post = q :: rest ++ b :: post)
      as (q & rest & E1 & E2).
    { destruct pre as [|q pre]; [by exists a, []|].
      exists q, (pre ++ [a]). split; [done|]. simpl. by rewrite <- app_assoc. }
    simpl app in *. rewrite E1 in Hcum. rewrite E2.
    rewrite length_loop_cons in Hcum. rewrite distance_loop_cons.
    destruct (segment_length p q) as [y|] eqn:Epq; [|done].
    destruct (segment_length_nonneg p q y Epq) as (s & -> & Hs).
    cbn [mbind result_bind] in *. rewrite add_floats in *.
    cbn [mbind result_bind] in *.
    destruct (fadd_mono c s Hc Hs) as [_ Hc'].
    destruct (length_loop_distance_loop _ _ _ Hc' Hcum) as (t & Et & Hle & Ht & _).
    injection Et as <-.
    rewrite (ge_false_of_fle_lt (Py.fadd c s) cum d Hc' Ht Hle Hlt).
    rewrite <- E2. rewrite <- E1 in Hcum. by apply IH.
Qed.

Lemma compare_float_some (c : spec_float) (d : Py.num) (x : comparison) (c' : spec_float) :
  Py.compare (Py.Float c) d = Some x -> has_sign false c' ->
  exists y, Py.compare (Py.Float c') d = Some y.
Proof.
  intros Hcd Hc'. destruct d as [z|g]; cbn [Py.compare] in *.
  - destruct c' as [s|s| |s m e]; try done; unfold Py.float_compare_int;
      try destruct (0 <=? e); eauto.
  - destruct g as [sg|sg| |sg mg eg]; [| |by destruct c|];
      destruct c' as [s|s| |s m e]; try done; simpl; eauto.
Qed.

Lemma lt_of_ge_false (c c' : spec_float) (d : Py.num) (x : comparison) :
  Py.compare (Py.Float c) d = Some x -> has_sign false c' ->
  Py.ge (Py.Float c') d = false -> Py.lt (Py.Float c') d = true.
Proof.
  intros Hcd Hc' Hge. destruct (compare_float_some c d x c' Hcd Hc') as [y Hy].
  unfold Py.ge, Py.lt in *. rewrite Hy in *. by destruct y.
Qed.

(** When the total reaches [d], some segment contains [d]. *)
Lemma distance_loop_reaches (r : route) (c total : spec_float) (d : Py.num) :
  nonneg c ->
  length_loop (Py.Float c) r = Ok (Py.Float total) ->
  Py.lt (Py.Float c) d = true ->
  Py.ge (Py.Float total) d = true ->
  exists pre a b post cum seg,
    r = pre ++ a :: b :: post
    /\ length_loop (Py.Float c) (pre ++ [a]) = Ok (Py.Float cum)
    /\ segment_length a b = Ok (Py.Float seg)
    /\ Py.lt (Py.Float cum) d = true
    /\ Py.ge (Py.Float (Py.fadd cum seg)) d = true.
Proof.
  revert c. induction r as [|a r IH]; intros c Hc Hlen Hlt Hge.
  - simpl in Hlen. injection Hlen as <-. unfold Py.lt, Py.ge in *.
    by destruct (Py.compare (Py.Float c) d) as [[]|].
  - destruct r as [|b r].
    + simpl in Hlen. injection Hlen as <-. unfold Py.lt, Py.ge in *.
      by destruct (Py.compare (Py.Float c) d) as [[]|].
    + rewrite length_loop_cons in Hlen.
      destruct (segment_length a b) as [y|] eqn:Eab; [|done].
      destruct (segment_length_nonneg a b y Eab) as (s & -> & Hs).
      cbn [mbind result_bind] in Hlen. rewrite add_floats in Hlen.
      cbn [mbind result_bind] in Hlen.
      destruct (fadd_mono c s Hc Hs) as [_ Hc'].
      destruct (Py.ge (Py.Float (Py.fadd c s)) d) eqn:Ege.
      * exists [], a, b, r, c, s. by repeat split.
      * assert (Hlt' : Py.lt (Py.Float (Py.fadd c s)) d = true).
        { unfold Py.lt in Hlt.
          destruct (Py.compare (Py.Float c) d) as [x|] eqn:Ecd; [|done].
          eapply lt_of_ge_false; [done|apply Hc'|done]. }
        destruct (IH _ Hc' Hlen Hlt' Hge)
          as (pre & a' & b' & post & cum & seg & Er & Hcum & Hseg & Hl & Hg).
        exists (a :: pre), a', b', post, cum, seg.
        split; [simpl; by rewrite Er|]. split; [|done].
        assert (exists rest, pre ++ [a'] = b :: rest) as [rest E1].
        { destruct pre as [|q pre]; simpl in Er.
          - injection Er as -> _. by exists [].
          - injection Er as -> _. by eexists. }
        simpl app. rewrite E1, length_loop_cons, Eab. cbn [mbind result_bind].
        rewrite add_floats. cbn [mbind result_bind]. by rewrite <- E1.
Qed.

Lemma nonneg_fzero : nonneg Py.fzero.
Proof. done. Qed.

Lemma calculate_route_length_loop (r : route) :
  calculate_route_length r = length_loop (Py.Float Py.fzero) r.
Proof. unfold calculate_route_length. by destruct r as [|a [|b r]]. Qed.

Lemma calculate_route_length_nonneg (r : route) (x : Py.num) :
  calculate_route_length r = Ok x -> exists total, x = Py.Float total /\ nonneg total.
Proof.
  rewrite calculate_route_length_loop. intros H.
  destruct (length_loop_distance_loop r Py.fzero x nonneg_fzero H) as (t & -> & _ & Ht & _).
  by exists t.
Qed.

Lemma getitem_head {A} (l : list A) (x : A) : head l = Some x -> Py.getitem l 0 = Ok x.
Proof. by destruct l; intros [= ->]. Qed.

Lemma getitem_last {A} (l : list A) (x : A) : last l = Some x -> Py.getitem l (-1) = Ok x.
Proof.
  intros Hl. unfold Py.getitem.
  assert (length l <> 0%nat) by (by destruct l).
  assert (Py.index (length l) (-1) = Some (Nat.pred (length l))) as ->.
  { unfold Py.index. simpl (0 <=? -1). cbn [andb].
    replace ((- Z.of_nat (length l) <=? -1) && (-1 <? 0)) with true
      by (symmetry; apply andb_true_iff; lia).
    f_equal. lia. }
  rewrite <- last_lookup. by rewrite Hl.
Qed.

Lemma lt_zero_of_not_le (total : spec_float) (d : Py.num) :
  Py.le d (Py.Int 0) = false -> Py.ge (Py.Float total) d = true ->
  Py.lt (Py.Float Py.fzero) d = true.
Proof.
  unfold Py.le, Py.ge, Py.lt, Py.fzero. destruct d as [z|g]; cbn [Py.compare option_map].
  - intros Hle _. rewrite float_compare_int_zero. cbn [option_map].
    destruct (Z.compare_spec z 0); try done.
    by replace (0 ?= z) with Lt by (symmetry; apply Z.compare_lt_iff; lia).
  - intros Hle Hge.
    destruct g as [sg|sg| |sg mg eg]; try done.
    + by destruct sg.
    + by destruct total.
    + destruct sg; [|done]. exfalso. unfold Py.float_compare_int in Hle.
      destruct (0 <=? eg) eqn:E.
      * apply Z.leb_le in E.
        assert (Z.neg mg * 2 ^ eg < 0)
          by (apply Z.mul_neg_pos; [lia|apply Z.pow_pos_nonneg; lia]).
        by replace (Z.neg mg * 2 ^ eg ?= 0) with Lt in Hle
          by (symmetry; apply Z.compare_lt_iff; lia).
      * by rewrite Z.mul_0_l in Hle.
Qed.

(** ** Totality in range *)

Lemma coord_ok_sub (a b : Z) : coord_ok a -> coord_ok b -> Z.abs (b - a) <= 2 ^ 54.
Proof. unfold coord_ok. change (2 ^ 54) with (2 * 2 ^ 53). lia. Qed.

Lemma sq_bound (a k : Z) : Z.abs a <= k -> a ^ 2 <= k ^ 2.
Proof. intros H. rewrite !Z.pow_2_r. nia. Qed.

Lemma segment_length_ok (a b : point) :
  point_ok a -> point_ok b ->
  exists f, segment_length a b = Ok (Py.Float f) /\ nonneg f.
Proof.
  intros [Ha1 Ha2] [Hb1 Hb2]. rewrite segment_length_sqrt.
  apply (sqrt_int_ok _ 110); [apply sum_squares_nonneg| |lia].
  apply Zdigits2_le_pow; [lia|]. split; [apply sum_squares_nonneg|].
  pose proof (sq_bound _ _ (coord_ok_sub _ _ Ha1 Hb1)).
  pose proof (sq_bound _ _ (coord_ok_sub _ _ Ha2 Hb2)).
  change (2 ^ 110) with (4 * (2 ^ 54) ^ 2). lia.
Qed.

Lemma float_of_int_small (n : Z) :
  Z.abs n <= 2 ^ 54 -> exists f, Py.float_of_int n = Ok f.
Proof.
  intros Hn. destruct (float_of_int_ok n 55) as (f & E & _); [|lia|by exists f].
  apply Zdigits2_le_pow; [lia|]. change (2 ^ 55) with (2 * 2 ^ 54). lia.
Qed.

Lemma interpolate_ok (x1 x2 : Z) (ratio : spec_float) :
  coord_ok x1 -> coord_ok x2 ->
  exists f, interpolate x1 x2 (Py.Float ratio) = Ok (Py.Float f).
Proof.
  intros H1 H2. unfold interpolate. cbn [Py.sub mbind result_bind Py.mul Py.to_float].
  destruct (float_of_int_small (x2 - x1)) as [fd ->]; [by apply coord_ok_sub|].
  cbn [mbind result_bind Py.add Py.to_float].
  destruct (float_of_int_small x1) as [f1 ->].
  { unfold coord_ok in H1. change (2 ^ 54) with (2 * 2 ^ 53). lia. }
  cbn [mbind result_bind]. by eexists.
Qed.

Lemma eq_zero_false_not_zero (seg : spec_float) :
  Py.eq (Py.Float seg) (Py.Int 0) = false -> Py.is_zero seg = false.
Proof. by destruct seg. Qed.

Lemma interpolate_on_ok (a b : point) (cum seg : spec_float) (d : Py.num) :
  point_ok a -> point_ok b -> distance_ok d ->
  exists p, interpolate_on a b (Py.Float cum) (Py.Float seg) d = Ok p.
Proof.
  intros [Ha1 Ha2] [Hb1 Hb2] [fd Hd]. unfold interpolate_on.
  assert (Py.sub d (Py.Float cum) = Ok (Py.Float (Py.fsub fd cum))) as ->.
  { destruct d as [z|g]; simpl in *; [by rewrite Hd|by injection Hd as ->]. }
  cbn [mbind result_bind].
  destruct (Py.eq (Py.Float seg) (Py.Int 0)) eqn:E; [by eexists|].
  cbn [Py.truediv Py.to_float mbind result_bind].
  rewrite (eq_zero_false_not_zero _ E). cbn [mbind result_bind].
  destruct (interpolate_ok (fst a) (fst b) (Py.fdiv (Py.fsub fd cum) seg) Ha1 Hb1) as [x ->].
  cbn [mbind result_bind].
  destruct (interpolate_ok (snd a) (snd b) (Py.fdiv (Py.fsub fd cum) seg) Ha2 Hb2) as [y ->].
  by eexists.
Qed.

Lemma distance_loop_ok (r : route) (c : spec_float) (d : Py.num) :
  route_ok r -> distance_ok d ->
  exists found, distance_loop d (Py.Float c) r = Ok found.
Proof.
  intros Hr Hd. revert c. induction Hr as [|a r Ha Hr IH]; intros c; [by eexists|].
  destruct r as [|b r]; [by eexists|].
  apply Forall_cons in Hr as Hb. destruct Hb as [Hb _].
  rewrite distance_loop_cons.
  destruct (segment_length_ok a b Ha Hb) as (s & -> & _).
  cbn [mbind result_bind]. rewrite add_floats. cbn [mbind result_bind].
  destruct (Py.ge _ d).
  - destruct (interpolate_on_ok a b c s d Ha Hb Hd) as [p ->]. by eexists.
  - apply IH.
Qed.

Lemma length_loop_ok (r : route) (c : spec_float) :
  route_ok r -> exists total, length_loop (Py.Float c) r = Ok (Py.Float total).
Proof.
  intros Hr. revert c. induction Hr as [|a r Ha Hr IH]; intros c; [by eexists|].
  destruct r as [|b r]; [by eexists|].
  apply Forall_cons in Hr as Hb. destruct Hb as [Hb _].
  rewrite length_loop_cons.
  destruct (segment_length_ok a b Ha Hb) as (s & -> & _).
  cbn [mbind result_bind]. rewrite add_floats. cbn [mbind result_bind].
  apply IH.
Qed.

Lemma calculate_route_length_ok (r : route) :
  route_ok r -> exists total, calculate_route_length r = Ok (Py.Float total).
Proof. rewrite calculate_route_length_loop. apply length_loop_ok. Qed.

Lemma get_point_at_distance_ok (r : route) (d : Py.num) :
  route_ok r -> distance_ok d -> exists p, get_point_at_distance r d = Ok p.
Proof.
  intros Hr Hd. unfold get_point_at_distance.
  destruct r as [|a r]; [by eexists|].
  rewrite (getitem_head (a :: r) a) by done. cbn [mbind result_bind].
  destruct ((length (a :: r) <? 2)%nat); [eexists; reflexivity|].
  destruct (Py.le d (Py.Int 0)); [eexists; reflexivity|].
  destruct (distance_loop_ok (a :: r) Py.fzero d Hr Hd) as [found ->].
  cbn [mbind result_bind]. destruct found; [eexists; reflexivity|].
  destruct (last (a :: r)) as [l|] eqn:El.
  - rewrite (getitem_last _ _ El). cbn [mbind result_bind]. eexists; reflexivity.
  - by apply last_None in El.
Qed.

Lemma get_point_at_distance_first (r : route) (d : Py.num) (first : point) :
  head r = Some first -> Py.le d (Py.Int 0) = true ->
  get_point_at_distance r d = Ok (of_point first).
Proof.
  intros Hh Hle. unfold get_point_at_distance.
  rewrite (getitem_head r first Hh), Hle. cbn [mbind result_bind].
  destruct r; [done|]. by destruct (_ <? _)%nat.
Qed.

Lemma get_point_at_distance_beyond (r : route) (d total : Py.num) (l : point) :
  (2 <= length r)%nat ->
  calculate_route_length r = Ok total -> last r = Some l ->
  Py.lt total d = true ->
  get_point_at_distance r d = Ok (of_point l).
Proof.
  intros Hlen Htot Hl Hlt.
  rewrite calculate_route_length_loop in Htot.
  destruct (length_loop_distance_loop r Py.fzero total nonneg_fzero Htot)
    as (t & -> & _ & [_ Ht] & Hd).
  unfold get_point_at_distance.
  replace (length r <? 2)%nat with false by (symmetry; apply Nat.ltb_ge; lia).
  rewrite (le_zero_false_of_lt t d Ht Hlt), (Hd d Hlt). cbn [mbind result_bind].
  by rewrite (getitem_last r l Hl).
Qed.

Lemma get_point_at_distance_within (pre : route) (a b : point) (post : route)
    (cum seg reached d : Py.num) :
  calculate_route_length (pre ++ [a]) = Ok cum ->
  segment_length a b = Ok seg ->
  Py.add cum seg = Ok reached ->
  Py.lt cum d = true -> Py.ge reached d = true ->
  get_point_at_distance (pre ++ a :: b :: post) d = interpolate_on a b cum seg d.
Proof.
  intros Hcum Hseg Hadd Hlt Hge.
  destruct (calculate_route_length_nonneg _ _ Hcum) as (c & -> & Hc).
  destruct (segment_length_nonneg _ _ _ Hseg) as (s & -> & Hs).
  rewrite add_floats in Hadd. injection Hadd as <-.
  rewrite calculate_route_length_loop in Hcum.
  unfold get_point_at_distance.
  replace (length (pre ++ a :: b :: post) <? 2)%nat with false
    by (symmetry; apply Nat.ltb_ge; rewrite length_app; simpl; lia).
  rewrite (le_zero_false_of_lt c d (proj2 Hc) Hlt).
  rewrite (distance_loop_match pre a b post Py.fzero c s d nonneg_fzero Hcum Hseg Hlt Hge).
  by destruct (interpolate_on a b (Py.Float c) (Py.Float s) d).
Qed.

Lemma get_point_at_distance_reaches (r : route) (d total : Py.num) :
  calculate_route_length r = Ok total ->
  Py.le d (Py.Int 0) = false -> Py.ge total d = true ->
  exists pre a b post cum seg reached,
    r = pre ++ a :: b :: post
    /\ calculate_route_length (pre ++ [a]) = Ok cum
    /\ segment_length a b = Ok seg
    /\ Py.add cum seg = Ok reached
    /\ Py.lt cum d = true /\ Py.ge reached d = true.
Proof.
  intros Htot Hle Hge.
  destruct (calculate_route_length_nonneg _ _ Htot) as (t & -> & Ht).
  rewrite calculate_route_length_loop in Htot.
  pose proof (lt_zero_of_not_le t d Hle Hge) as Hlt.
  destruct (distance_loop_reaches r Py.fzero t d nonneg_fzero Htot Hlt Hge)
    as (pre & a & b & post & cum & seg & -> & Hcum & Hseg & Hl & Hg).
  exists pre, a, b, post, (Py.Float cum), (Py.Float seg), (Py.Float (Py.fadd cum seg)).
  by rewrite calculate_route_length_loop.
Qed.

(** C3. [get_point_at_distance] on a route of at least two points: for
    [d <= 0] it returns the first point; for [d] above the total length
    the last point; and when the length of the route up to a point [a] is
    below [d] and the segment from [a] to the next point [b] reaches [d],
    it returns [a + ((d - cumulative) / segLen) * (b - a)], or [a] itself
    when that segment has length zero.  Whenever [0 < d <= total] such a
    segment exists.  A route of one point gives that point and an empty
    route gives [(0, 0)].  With coordinates in range the function does not
    raise.  On [[(0,0); (10,0); (10,10)]] at distance 15 the result is
    [(10.0, 5.0)], equal to [(10, 5)]. *)
Theorem get_point_at_distance_spec (r : route) (d : Py.num) :
  (forall first : point,
      (2 <= length r)%nat -> head r = Some first -> Py.le d (Py.Int 0) = true ->
      get_point_at_distance r d = Ok (of_point first))
  /\ (forall (total : Py.num) (l : point),
        (2 <= length r)%nat -> calculate_route_length r = Ok total ->
        last r = Some l -> Py.lt total d = true ->
        get_point_at_distance r d = Ok (of_point l))
  /\ (forall (pre : route) (a b : point) (post : route) (cum seg reached : Py.num),
        r = pre ++ a :: b :: post ->
        calculate_route_length (pre ++ [a]) = Ok cum ->
        segment_length a b = Ok seg ->
        Py.add cum seg = Ok reached ->
        Py.lt cum d = true -> Py.ge reached d = true ->
        get_point_at_distance r d = interpolate_on a b cum seg d
        /\ (Py.eq seg (Py.Int 0) = true -> distance_ok d ->
            get_point_at_distance r d = Ok (of_point a)))
  /\ (forall total : Py.num,
        calculate_route_length r = Ok total ->
        Py.le d (Py.Int 0) = false -> Py.ge total d = true ->
        exists pre a b post cum seg reached,
          r = pre ++ a :: b :: post
          /\ calculate_route_length (pre ++ [a]) = Ok cum
          /\ segment_length a b = Ok seg
          /\ Py.add cum seg = Ok reached
          /\ Py.lt cum d = true /\ Py.ge reached d = true)
  /\ (forall p : point, r = [p] -> get_point_at_distance r d = Ok (of_point p))
  /\ (r = [] -> get_point_at_distance r d = Ok (Py.Int 0, Py.Int 0))
  /\ (route_ok r -> distance_ok d -> exists p, get_point_at_distance r d = Ok p)
  /\ get_point_at_distance [(0, 0); (10, 0); (10, 10)] (Py.Int 15)
     = Ok (Py.Float (S754_finite false 5629499534213120 (-49)),
           Py.Float (S754_finite false 5629499534213120 (-50)))
  /\ position_eq (Py.Float (S754_finite false 5629499534213120 (-49)),
                  Py.Float (S754_finite false 5629499534213120 (-50)))
                 (Py.Int 10, Py.Int 5) = true.
Proof.
  split; [intros first _; apply get_point_at_distance_first|].
  split; [intros total l; apply get_point_at_distance_beyond|].
  split.
  { intros pre a b post cum seg reached -> Hcum Hseg Hadd Hlt Hge.
    pose proof (get_point_at_distance_within pre a b post cum seg reached d
                  Hcum Hseg Hadd Hlt Hge) as E.
    split; [done|]. intros Hz [fd Hd]. rewrite E. unfold interpolate_on.
    destruct (calculate_route_length_nonneg _ _ Hcum) as (c & -> & _).
    assert (Py.sub d (Py.Float c) = Ok (Py.Float (Py.fsub fd c))) as ->.
    { destruct d as [z|g]; simpl in *; [by rewrite Hd|by injection Hd as ->]. }
    cbn [mbind result_bind]. by rewrite Hz. }
  split; [apply get_point_at_distance_reaches|].
  split; [by intros p ->|].
  split; [by intros ->|].
  split; [apply get_point_at_distance_ok|].
  split; vm_compute; reflexivity.
Qed.

(** ** Route length and reversal *)

Lemma segments_cons (a b : point) (r : route) :
  segments (a :: b :: r) = (a, b) :: segments (b :: r).
Proof. done. Qed.

Lemma length_loop_sum (c : Py.num) (r : route) :
  length_loop c r = sum_lengths c (segment_lengths r).
Proof.
  revert c. induction r as [|a r IH]; intros c; [done|].
  destruct r as [|b r]; [done|].
  rewrite length_loop_cons. unfold segment_lengths. rewrite segments_cons.
  cbn [map sum_lengths fst snd].
  destruct (segment_length a b) as [x|]; [|done]. cbn [mbind result_bind].
  destruct (Py.add c x) as [c'|]; [|done]. cbn [mbind result_bind].
  apply IH.
Qed.

Lemma segment_length_sym (a b : point) : segment_length b a = segment_length a b.
Proof.
  rewrite !segment_length_sqrt. do 2 f_equal. rewrite !Z.pow_2_r. lia.
Qed.

Lemma segments_snoc (r : route) (y x : point) :
  segments ((r ++ [y]) ++ [x]) = segments (r ++ [y]) ++ [(y, x)].
Proof.
  induction r as [|a r IH]; [done|].
  destruct r as [|b r]; [done|].
  simpl app in *. rewrite !segments_cons. simpl. f_equal. apply IH.
Qed.

Lemma segment_lengths_rev (r : route) :
  segment_lengths (rev r) = rev (segment_lengths r).
Proof.
  induction r as [|a r IH]; [done|].
  destruct r as [|b r]; [done|].
  unfold segment_lengths in *. rewrite segments_cons.
  change (rev (a :: b :: r)) with ((rev r ++ [b]) ++ [a]).
  rewrite segments_snoc, map_app. cbn [map fst snd rev].
  change (rev (b :: r)) with (rev r ++ [b]) in IH. rewrite IH.
  by rewrite segment_length_sym.
Qed.

Lemma fadd_comm (x y : spec_float) : Py.fadd x y = Py.fadd y x.
Proof.
  destruct x as [sx|sx| |sx mx ex], y as [sy|sy| |sy my ey]; try done;
    try (by destruct sx, sy).
  unfold Py.fadd, SFadd. by rewrite Z.min_comm, Z.add_comm.
Qed.

Lemma fadd_zero_l (f : spec_float) : has_sign false f -> Py.fadd Py.fzero f = f.
Proof. destruct f as [s|s| |s m e]; simpl; try done; by intros ->. Qed.

Lemma segment_length_raise (a b : point) (e : exn) :
  segment_length a b = Raise e -> e = OverflowError.
Proof.
  rewrite segment_length_sqrt. unfold Py.sqrt, Py.to_float, Py.float_of_int.
  set (n := (fst b - fst a) ^ 2 + (snd b - snd a) ^ 2).
  destruct (Py.is_inf _) eqn:E; cbn [mbind result_bind]; [by intros [= <-]|].
  pose proof (float_of_int_valid n (binary_normalize Py.prec Py.emax n 0 false)) as Hv.
  unfold Py.float_of_int in Hv. rewrite E in Hv.
  destruct (Hv eq_refl) as [_ Hs]. specialize (Hs (sum_squares_nonneg _ _)).
  destruct (binary_normalize _ _ _ _ _) as [s|s| |s m ex]; simpl in Hs; subst; done.
Qed.

Lemma route_length_reverse_short (r : route) :
  (length r <= 3)%nat -> calculate_route_length (rev r) = calculate_route_length r.
Proof.
  intros Hlen.
  destruct r as [|a [|b [|c [|? ?]]]]; [done|done| | |simpl in Hlen; lia].
  - unfold calculate_route_length. simpl. by rewrite segment_length_sym.
  - rewrite !calculate_route_length_loop.
    change (rev [a; b; c]) with [c; b; a].
    rewrite !length_loop_cons. cbn [length_loop].
    rewrite (segment_length_sym b c), (segment_length_sym a b).
    destruct (segment_length a b) as [x|e1] eqn:E1,
             (segment_length b c) as [y|e2] eqn:E2; cbn [mbind result_bind].
    + destruct (segment_length_nonneg _ _ _ E1) as (f1 & -> & _ & H1).
      destruct (segment_length_nonneg _ _ _ E2) as (f2 & -> & _ & H2).
      rewrite !add_floats. cbn [mbind result_bind]. rewrite !add_floats.
      rewrite !fadd_zero_l by done. by rewrite fadd_comm.
    + destruct (segment_length_nonneg _ _ _ E1) as (f1 & -> & _ & H1).
      rewrite add_floats. cbn [mbind result_bind]. done.
    + destruct (segment_length_nonneg _ _ _ E2) as (f2 & -> & _ & H2).
      rewrite add_floats. cbn [mbind result_bind].
      by rewrite (segment_length_raise _ _ _ E1).
    + by rewrite (segment_length_raise _ _ _ E1), (segment_length_raise _ _ _ E2).
Qed.

(** C9, as the code has it.  The reversed route has the same segment
    lengths in reverse order, and each length is the float sum of them
    accumulated from [0.0] in its own order; for a route of at most three
    points the two sums are the same float. *)
Theorem route_length_reverse (r : route) :
  segment_lengths (rev r) = rev (segment_lengths r)
  /\ calculate_route_length r = sum_lengths (Py.Float Py.fzero) (segment_lengths r)
  /\ calculate_route_length (rev r)
     = sum_lengths (Py.Float Py.fzero) (rev (segment_lengths r))
  /\ ((length r <= 3)%nat ->
      calculate_route_length (rev r) = calculate_route_length r).
Proof.
  split; [apply segment_lengths_rev|].
  split; [by rewrite calculate_route_length_loop, length_loop_sum|].
  split; [by rewrite calculate_route_length_loop, length_loop_sum, segment_lengths_rev|].
  apply route_length_reverse_short.
Qed.

(** On [zigzag] the two directions give different floats:
    [(1 + sqrt 2) + sqrt 2] against [(sqrt 2 + sqrt 2) + 1]. *)
Lemma route_length_reverse_differs :
  calculate_route_length zigzag
  = Ok (Py.Float (S754_finite false 8620851486211020 (-51)))
  /\ calculate_route_length (rev zigzag)
     = Ok (Py.Float (S754_finite false 8620851486211021 (-51)))
  /\ calculate_route_length (rev zigzag) <> calculate_route_length zigzag.
Proof.
  assert (E1 : calculate_route_length zigzag
               = Ok (Py.Float (S754_finite false 8620851486211020 (-51))))
    by (vm_compute; reflexivity).
  assert (E2 : calculate_route_length (rev zigzag)
               = Ok (Py.Float (S754_finite false 8620851486211021 (-51))))
    by (vm_compute; reflexivity).
  split; [done|]. split; [done|]. rewrite E1, E2. discriminate.
Qed.

(** ** Exact roundings and the grid round trip *)

Lemma shr_1_even (k : Z) :
  0 <= k ->
  shr_1 {| shr_m := 2 * k; shr_r := false; shr_s := false |}
  = {| shr_m := k; shr_r := false; shr_s := false |}.
Proof. destruct k as [|p|p]; [done|done|lia]. Qed.

Lemma iter_pos_shr_exact (p : positive) (m : Z) :
  0 <= m ->
  SpecFloat.iter_pos shr_1 p
    {| shr_m := m * 2 ^ Z.pos p; shr_r := false; shr_s := false |}
  = {| shr_m := m; shr_r := false; shr_s := false |}.
Proof.
  revert m. induction p as [p IH|p IH|]; intros m Hm; cbn [SpecFloat.iter_pos].
  - assert (H2 : 0 < 2 ^ Z.pos p) by (apply Z.pow_pos_nonneg; lia).
    replace (m * 2 ^ Z.pos p~1) with (2 * (m * 2 ^ Z.pos p * 2 ^ Z.pos p)).
    + rewrite shr_1_even by nia. rewrite IH by nia. by rewrite IH.
    + rewrite Pos2Z.inj_xI, Z.pow_add_r, Z.pow_1_r by lia.
      replace (2 * Z.pos p) with (Z.pos p + Z.pos p) by lia.
      rewrite Z.pow_add_r by lia. lia.
  - assert (H2 : 0 < 2 ^ Z.pos p) by (apply Z.pow_pos_nonneg; lia).
    replace (m * 2 ^ Z.pos p~0) with (m * 2 ^ Z.pos p * 2 ^ Z.pos p).
    + rewrite IH by nia. by rewrite IH.
    + rewrite <- Z.mul_assoc, <- Z.pow_add_r by lia. do 2 f_equal. lia.
  - change (2 ^ 1) with 2. rewrite Z.mul_comm. by apply shr_1_even.
Qed.

Lemma shr_fexp_exact (m2 e n : Z) :
  0 <= m2 -> 0 <= n ->
  fexp (Zdigits2 (m2 * 2 ^ n) + e) - e = n ->
  shr_fexp Py.prec Py.emax (m2 * 2 ^ n) e loc_Exact
  = ({| shr_m := m2; shr_r := false; shr_s := false |}, e + n).
Proof.
  intros Hm Hn E. unfold shr_fexp. rewrite E. simpl shr_record_of_loc.
  destruct n as [|p|p]; [|by simpl; rewrite iter_pos_shr_exact|lia].
  simpl. by rewrite Z.mul_1_r, Z.add_0_r.
Qed.

Lemma binary_round_aux_exact (sx : bool) (m2 : positive) (e n : Z) :
  0 <= n ->
  fexp (Zdigits2 (Z.pos m2) + (e + n)) = e + n ->
  e + n <= 971 ->
  binary_round_aux Py.prec Py.emax sx (Z.pos m2 * 2 ^ n) e loc_Exact
  = S754_finite sx m2 (e + n).
Proof.
  intros Hn Hc He. unfold binary_round_aux.
  assert (Hd : Zdigits2 (Z.pos m2 * 2 ^ n) + e = Zdigits2 (Z.pos m2) + (e + n))
    by (rewrite Zdigits2_mul_pow2 by lia; lia).
  rewrite shr_fexp_exact; [|lia|done|rewrite Hd, Hc; lia].
  simpl loc_of_shr_record. simpl round_nearest_even. simpl shr_m.
  pose proof (shr_fexp_exact (Z.pos m2) (e + n) 0) as H0.
  rewrite Z.pow_0_r, Z.mul_1_r, Z.add_0_r in H0.
  rewrite H0; [|lia|lia|rewrite Hc; lia].
  simpl shr_m.
  by replace (e + n <=? Py.emax - Py.prec) with true
    by (symmetry; apply Z.leb_le; unfold Py.emax, Py.prec; lia).
Qed.

Lemma new_location_zero (nb : Z) : new_location nb 0 = loc_Exact.
Proof. unfold new_location. by destruct (Z.even nb). Qed.

Lemma Zdigits2_mul (a g : Z) :
  0 < a -> 0 < g ->
  Zdigits2 a + Zdigits2 g - 1 <= Zdigits2 (a * g) <= Zdigits2 a + Zdigits2 g.
Proof.
  intros Ha Hg.
  pose proof (Zdigits2_spec a Ha) as [Ha1 Ha2].
  pose proof (Zdigits2_spec g Hg) as [Hg1 Hg2].
  pose proof (Zdigits2_pos_lt a Ha). pose proof (Zdigits2_pos_lt g Hg).
  assert (Hag : 0 < a * g) by nia.
  pose proof (Zdigits2_spec (a * g) Hag) as [H1 H2].
  assert (Hlo : 2 ^ (Zdigits2 a - 1) * 2 ^ (Zdigits2 g - 1) <= a * g).
  { apply Z.mul_le_mono_nonneg; try done; apply Z.pow_nonneg; lia. }
  assert (Hhi : a * g < 2 ^ Zdigits2 a * 2 ^ Zdigits2 g).
  { apply Z.mul_lt_mono_nonneg; lia. }
  rewrite <- Z.pow_add_r in Hlo, Hhi by lia.
  split.
  - destruct (Z.le_gt_cases (Zdigits2 a + Zdigits2 g - 1) (Zdigits2 (a * g))); [done|].
    exfalso.
    assert (2 ^ Zdigits2 (a * g) <= 2 ^ (Zdigits2 a - 1 + (Zdigits2 g - 1)))
      by (apply Z.pow_le_mono_r; lia).
    lia.
  - destruct (Z.le_gt_cases (Zdigits2 (a * g)) (Zdigits2 a + Zdigits2 g)); [done|].
    exfalso.
    assert (2 ^ (Zdigits2 a + Zdigits2 g) <= 2 ^ (Zdigits2 (a * g) - 1))
      by (apply Z.pow_le_mono_r; lia).
    lia.
Qed.

Lemma div_eucl_div_mod (a b : Z) : Z.div_eucl a b = (a / b, a mod b).
Proof. unfold Z.div, Z.modulo. by destruct (Z.div_eucl a b). Qed.

Lemma fdiv_exact_multiple (sx : bool) (a g : positive) :
  Z.pos a <= 2 ^ 53 ->
  exists m2 E,
    Py.fdiv (S754_finite sx (a * g) 0) (S754_finite false g 0) = S754_finite sx m2 E
    /\ represents m2 E (Z.pos a).
Proof.
  intros Ha. unfold Py.fdiv, SFdiv, SFdiv_core_binary.
  rewrite !Z.add_0_r, Z.sub_diag, Z.sub_0_l.
  remember (Zdigits2 (Z.pos a)) as dp eqn:Edp.
  assert (Hdp : 1 <= dp <= 54).
  { subst dp. split; [pose proof (Zdigits2_pos_lt (Z.pos a)); lia|].
    apply Zdigits2_le_pow; [lia|]. change (2 ^ 54) with (2 * 2 ^ 53). lia. }
  assert (Hd : dp - 1 <= Zdigits2 (Z.pos (a * g)) - Zdigits2 (Z.pos g) <= dp).
  { pose proof (Zdigits2_mul (Z.pos a) (Z.pos g)) as H. subst dp.
    rewrite Pos2Z.inj_mul. lia. }
  remember (Zdigits2 (Z.pos (a * g)) - Zdigits2 (Z.pos g)) as dd eqn:Edd.
  remember (Z.min (fexp dd) 0) as e' eqn:Ee'.
  assert (He' : e' = Z.min (dd - 53) 0) by (rewrite Ee', fexp_eq; lia).
  remember (dp - 53) as E eqn:EE.
  assert (HE : fexp dp = E) by (rewrite fexp_eq; lia).
  assert (Hs : 0 <= - e') by lia.
  remember (match - e' with
            | 0 => Z.pos (a * g)
            | Z.pos _ => Z.shiftl (Z.pos (a * g)) (- e')
            | Z.neg _ => 0
            end) as m' eqn:Em'.
  assert (Hm' : m' = Z.pos a * 2 ^ (- e') * Z.pos g).
  { rewrite Em'. destruct (- e') as [|p|p] eqn:Es;
      [|rewrite Z.shiftl_mul_pow2 by lia|lia];
      rewrite Pos2Z.inj_mul; [rewrite Z.pow_0_r|]; lia. }
  rewrite div_eucl_div_mod, Hm'.
  rewrite Z.div_mul, Z.mod_mul by lia. rewrite new_location_zero.
  rewrite xorb_false_r.
  assert (Hpow : forall k, 0 <= k -> 0 < 2 ^ k) by (intros; apply Z.pow_pos_nonneg; lia).
  destruct (decide (E <= 0)) as [HE0|HE1].
  - (* the mantissa is scaled up to 53 bits *)
    pose proof (Hpow (- E) ltac:(lia)) as HpE.
    assert (Hpos : 0 < Z.pos a * 2 ^ (- E)) by (apply Z.mul_pos_pos; lia).
    destruct (Z.pos a * 2 ^ (- E)) as [|m2|m2] eqn:Em2; [lia| |lia].
    exists m2, E. split.
    2:{ destruct (decide (E < 0)); [right; split; [lia|done]|].
        left. split; [lia|]. assert (E = 0) as E0 by lia.
        rewrite E0 in Em2 |- *. rewrite Z.pow_0_r, Z.mul_1_r in *. done. }
    replace (Z.pos a * 2 ^ (- e')) with (Z.pos m2 * 2 ^ (E - e')).
    + replace E with (e' + (E - e')) at 2 by lia.
      apply binary_round_aux_exact; [lia| |lia].
      replace (e' + (E - e')) with E by lia.
      rewrite <- Em2, Zdigits2_mul_pow2 by lia. rewrite <- Edp.
      replace (dp + - E + E) with dp by lia. done.
    + rewrite <- Em2, <- Z.mul_assoc, <- Z.pow_add_r by lia. do 2 f_equal. lia.
  - (* a = 2 ^ 53 *)
    assert (E = 1) as HE1' by lia.
    assert (Hae : Z.pos a = 2 ^ 53).
    { pose proof (Zdigits2_spec (Z.pos a) ltac:(lia)) as [Hlo _]. rewrite <- Edp in Hlo.
      replace (dp - 1) with 53 in Hlo by lia. lia. }
    exists (Pos.pow 2 52), 1. split; [|left; split; [lia|by rewrite Hae]].
    replace (Z.pos a * 2 ^ (- e')) with (Z.pos (2 ^ 52) * 2 ^ (1 - e')).
    + replace 1 with (e' + (1 - e')) at 2 by lia.
      apply binary_round_aux_exact; [lia| |lia].
      replace (e' + (1 - e')) with 1 by lia. done.
    + rewrite Hae. change (Z.pos (2 ^ 52)) with (2 ^ 52).
      rewrite <- !Z.pow_add_r by lia. f_equal. lia.
Qed.

Lemma round_represents (sx : bool) (m : positive) (e : Z) (a : Z) :
  represents m e a ->
  Py.round (Py.Float (S754_finite sx m e)) = Ok (if sx then - a else a).
Proof.
  intros [[He Hv]|[He Hv]]; cbn [Py.round].
  - replace (0 <=? e) with true by (symmetry; apply Z.leb_le; lia). by rewrite Hv.
  - replace (0 <=? e) with false by (symmetry; apply Z.leb_gt; lia).
    unfold Py.round_half_even. rewrite Hv.
    assert (0 < 2 ^ (- e)) by (apply Z.pow_pos_nonneg; lia).
    rewrite Z.div_mul, Z.mod_mul by lia.
    by replace (2 * 0 ?= 2 ^ (- e)) with Lt by (symmetry; apply Z.compare_lt_iff; lia).
Qed.

(** [round((p * g) / g) == p] for a positive cell size [g] and a
    coordinate [p] of magnitude at most [2 ^ 53]. *)
Lemma round_truediv_multiple (p g : Z) :
  0 < g -> coord_ok p ->
  (q ← Py.truediv (Py.Int (p * g)) (Py.Int g); Py.round q) = Ok p.
Proof.
  intros Hg Hp. unfold coord_ok in Hp. cbn [Py.truediv]. unfold Py.int_truediv.
  replace (g =? 0) with false by (symmetry; apply Z.eqb_neq; lia).
  destruct (decide (p = 0)) as [->|Hne]; [done|].
  replace (p * g =? 0) with false by (symmetry; apply Z.eqb_neq; nia).
  replace (g <? 0) with false by (symmetry; apply Z.ltb_ge; lia).
  replace (p * g <? 0) with (p <? 0)
    by (destruct (Z.ltb_spec p 0); symmetry; [apply Z.ltb_lt|apply Z.ltb_ge]; nia).
  replace (Z.to_pos (Z.abs (p * g))) with (Z.to_pos (Z.abs p) * Z.to_pos (Z.abs g))%positive
    by (rewrite Z.abs_mul, Z2Pos.inj_mul; lia).
  replace (Z.abs g) with g by lia.
  destruct (fdiv_exact_multiple (p <? 0) (Z.to_pos (Z.abs p)) (Z.to_pos g))
    as (m2 & E & -> & Hrep); [rewrite Z2Pos.id; lia|].
  cbn [Py.is_inf mbind result_bind].
  rewrite (round_represents _ _ _ _ Hrep). rewrite Z2Pos.id by lia.
  f_equal. destruct (Z.ltb_spec p 0); lia.
Qed.

Lemma canvas_to_coord_x_roundtrip (s : drawer) (p : Z) :
  0 < grid_size s -> coord_ok p ->
  canvas_to_coord_x s (coord_to_canvas_x s p) = Ok p.
Proof.
  intros Hg Hp. unfold canvas_to_coord_x, coord_to_canvas_x.
  cbn [Py.sub mbind result_bind].
  replace (origin_x s + p * grid_size s - origin_x s) with (p * grid_size s) by lia.
  by apply round_truediv_multiple.
Qed.

Lemma canvas_to_coord_y_roundtrip (s : drawer) (p : Z) :
  0 < grid_size s -> coord_ok p ->
  canvas_to_coord_y s (coord_to_canvas_y s p) = Ok p.
Proof.
  intros Hg Hp. unfold canvas_to_coord_y, coord_to_canvas_y.
  cbn [Py.sub mbind result_bind].
  replace (origin_y s + p * grid_size s - origin_y s) with (p * grid_size s) by lia.
  by apply round_truediv_multiple.
Qed.

(** ** Snapping a device position stays in range *)

Lemma int_truediv_ok (x y K : Z) :
  y <> 0 -> Zdigits2 (Z.abs x) <= K -> 0 <= K <= 1023 ->
  exists f, Py.int_truediv x y = Ok f /\ mag_le (K + 1) f.
Proof.
  intros Hy Hx HK. unfold Py.int_truediv.
  replace (y =? 0) with false by (symmetry; apply Z.eqb_neq; lia).
  destruct (x =? 0) eqn:E0; [by eexists|]. apply Z.eqb_neq in E0.
  match goal with |- context [Py.fdiv ?a ?b] => assert (Hm : mag_le (K + 1) (Py.fdiv a b)) end.
  { unfold Py.fdiv, SFdiv, SFdiv_core_binary.
    rewrite !Z.add_0_r, Z.sub_diag, Z.sub_0_l.
    rewrite Z2Pos.id by lia.
    remember (Z.min (fexp (Zdigits2 (Z.abs x) - Zdigits2 (Z.pos (Z.to_pos (Z.abs y))))) 0)
      as e' eqn:Ee'.
    assert (He' : e' <= 0) by lia.
    remember (match - e' with
              | 0 => Z.abs x
              | Z.pos _ => Z.shiftl (Z.abs x) (- e')
              | Z.neg _ => 0
              end) as m' eqn:Em'.
    assert (Hm' : m' = Z.abs x * 2 ^ (- e')).
    { rewrite Em'. destruct (- e') as [|p|p] eqn:Es;
        [rewrite Z.pow_0_r; lia|by rewrite Z.shiftl_mul_pow2 by lia|lia]. }
    rewrite div_eucl_div_mod.
    assert (Hp2 : 0 < 2 ^ (- e')) by (apply Z.pow_pos_nonneg; lia).
    assert (Hq : 0 <= m' / Z.pos (Z.to_pos (Z.abs y)) <= m').
    { split; [apply Z.div_pos; nia|]. apply Z.div_le_upper_bound; nia. }
    apply binary_round_aux_mag; try lia.
    assert (Zdigits2 (m' / Z.pos (Z.to_pos (Z.abs y))) <= Zdigits2 m')
      by (apply Zdigits2_le; lia).
    assert (Zdigits2 m' = Zdigits2 (Z.abs x) - e')
      by (rewrite Hm', Zdigits2_mul_pow2 by lia; lia).
    lia. }
  rewrite (mag_le_not_inf _ _ Hm). by eexists.
Qed.

Lemma round_mag (f : spec_float) (K : Z) :
  0 <= K -> mag_le K f -> exists z, Py.round (Py.Float f) = Ok z /\ Z.abs z <= 2 ^ K.
Proof.
  intros HK Hm. assert (H1 : 1 <= 2 ^ K) by (pose proof (Z.pow_pos_nonneg 2 K); lia).
  destruct f as [s|s| |s m e]; try done; cbn [Py.round mag_le] in *.
  - exists 0. split; [done|]. simpl. lia.
  - eexists. split; [done|].
    pose proof (Zdigits2_spec (Z.pos m) ltac:(lia)) as [_ Hhi].
    pose proof (Zdigits2_pos_lt (Z.pos m) ltac:(lia)) as Hdm.
    assert (Hv : 0 <= (if 0 <=? e then Z.pos m * 2 ^ e
                       else Py.round_half_even (Z.pos m) (- e)) <= 2 ^ K);
      [|destruct s; lia].
    destruct (0 <=? e) eqn:E; [apply Z.leb_le in E|apply Z.leb_gt in E].
    + assert (0 < 2 ^ e) by (apply Z.pow_pos_nonneg; lia).
      split; [nia|].
      assert (Z.pos m * 2 ^ e < 2 ^ Zdigits2 (Z.pos m) * 2 ^ e) by nia.
      rewrite <- Z.pow_add_r in * by lia.
      assert (2 ^ (Zdigits2 (Z.pos m) + e) <= 2 ^ K) by (apply Z.pow_le_mono_r; lia).
      lia.
    + assert (Hk : 0 < 2 ^ (- e)) by (apply Z.pow_pos_nonneg; lia).
      assert (Hq : 0 <= Z.pos m / 2 ^ (- e)) by (apply Z.div_pos; lia).
      assert (Hq' : Z.pos m / 2 ^ (- e) + 1 <= 2 ^ K).
      { destruct (Z.le_gt_cases (Zdigits2 (Z.pos m)) (- e)) as [Hle|Hgt].
        - assert (2 ^ Zdigits2 (Z.pos m) <= 2 ^ (- e)) by (apply Z.pow_le_mono_r; lia).
          rewrite Z.div_small by lia. lia.
        - assert (Z.pos m / 2 ^ (- e) < 2 ^ (Zdigits2 (Z.pos m) + e)).
          { apply Z.div_lt_upper_bound; [done|].
            rewrite <- Z.pow_add_r by lia.
            by replace (- e + (Zdigits2 (Z.pos m) + e)) with (Zdigits2 (Z.pos m)) by lia. }
          assert (2 ^ (Zdigits2 (Z.pos m) + e) <= 2 ^ K) by (apply Z.pow_le_mono_r; lia).
          lia. }
      unfold Py.round_half_even.
      destruct (_ ?= _); [destruct (Z.even _)| |]; lia.
Qed.

Lemma device_digits (c : Z) : device_ok c -> Zdigits2 (Z.abs c) <= 32.
Proof.
  unfold device_ok. intros Hc. apply Zdigits2_le_pow; [lia|].
  change (2 ^ 32) with (2 * 2 ^ 31). lia.
Qed.

Lemma snap_ok (c : Z) :
  device_ok c ->
  exists p, (q ← Py.truediv (Py.Int c) (Py.Int 20); Py.round q) = Ok p /\ coord_ok p.
Proof.
  intros Hc. cbn [Py.truediv].
  destruct (int_truediv_ok c 20 32) as (f & -> & Hm); [lia|by apply device_digits|lia|].
  cbn [mbind result_bind].
  destruct (round_mag f 33) as (z & -> & Hz); [lia|done|].
  exists z. split; [done|]. unfold coord_ok.
  etrans; [exact Hz|]. apply Z.pow_le_mono_r; lia.
Qed.

Lemma canvas_to_coord_x_ok (s : drawer) (c : Z) :
  store_ok s -> device_ok c ->
  exists p, canvas_to_coord_x s c = Ok p /\ coord_ok p.
Proof.
  intros (Hg & Hx & _) Hc. unfold canvas_to_coord_x. rewrite Hg, Hx.
  cbn [Py.sub mbind result_bind]. rewrite Z.sub_0_r. by apply snap_ok.
Qed.

Lemma canvas_to_coord_y_ok (s : drawer) (c : Z) :
  store_ok s -> device_ok c ->
  exists p, canvas_to_coord_y s c = Ok p /\ coord_ok p.
Proof.
  intros (Hg & _ & Hy & _) Hc. unfold canvas_to_coord_y. rewrite Hg, Hy.
  cbn [Py.sub mbind result_bind]. rewrite Z.sub_0_r. by apply snap_ok.
Qed.

(** ** Reachable states are in range *)

Lemma pop_Forall {A} (P : A -> Prop) (l rest : list A) (i : Z) (x : A) :
  Py.pop l i = Ok (x, rest) -> Forall P l -> Forall P rest.
Proof.
  unfold Py.pop. destruct (Py.index (length l) i) as [n|]; [|done].
  destruct (l !! n); [|done]. intros [= _ <-] Hl. by apply Forall_delete.
Qed.

Lemma insert_Forall {A} (P : A -> Prop) (l : list A) (i : Z) (x : A) :
  Forall P l -> P x -> Forall P (Py.insert l i x).
Proof.
  intros Hl Hx. unfold Py.insert. apply Forall_app. split.
  - by apply Forall_take.
  - constructor; [done|]. by apply Forall_drop.
Qed.

Lemma store_ok_set_current (s : drawer) (r : route) :
  store_ok s -> route_ok r -> store_ok (set_current_route r s).
Proof. intros (?&?&?&?&?&?) Hr. by repeat split. Qed.

Lemma store_ok_set_routes (s : drawer) (rs : list route) :
  store_ok s -> Forall route_ok rs -> store_ok (set_routes rs s).
Proof. intros (?&?&?&?&?&?) Hr. by repeat split. Qed.

Lemma store_ok_set_drag (s : drawer) (d : bool) (r p : option Z) :
  store_ok s -> store_ok (set_drag d r p s).
Proof. intros (?&?&?&?&?&?). by repeat split. Qed.

Lemma remove_point_store_ok (s : drawer) (route_idx point_idx : Z) :
  store_ok s -> store_ok (snd (remove_point route_idx point_idx s)).
Proof.
  intros Hs. pose proof Hs as (_ & _ & _ & _ & Hrs & Hc).
  unfold remove_point. unfold_M.
  destruct (route_idx =? -1).
  - destruct (Py.in_bounds point_idx (current_route s)); [|done].
    destruct (Py.pop (current_route s) point_idx) as [[x rest]|] eqn:E; [|done].
    simpl. apply store_ok_set_current; [done|]. by eapply pop_Forall.
  - destruct (Py.in_bounds route_idx (routes s)); [|done].
    destruct (Py.getitem (routes s) route_idx) as [r|] eqn:Er; [|done].
    destruct (Py.in_bounds point_idx r); [|done].
    destruct (Py.pop r point_idx) as [[x rest]|] eqn:E; [|done].
    pose proof (getitem_Forall route_ok _ _ _ Er Hrs) as Hr.
    pose proof (pop_Forall point_ok _ _ _ _ E Hr) as Hrest.
    destruct rest as [|q rest].
    + destruct (Py.pop (routes s) route_idx) as [[y rs]|] eqn:E2; [|done].
      simpl. apply store_ok_set_routes; [done|]. by eapply pop_Forall.
    + destruct (Py.setitem (routes s) route_idx (q :: rest)) as [rs|] eqn:E2; [|done].
      simpl. apply store_ok_set_routes; [done|]. by eapply setitem_Forall.
Qed.

Lemma insert_point_store_ok (s : drawer) (route_idx i : Z) (p : point) :
  store_ok s -> point_ok p ->
  store_ok (snd (insert_point_in_route route_idx i p s)).
Proof.
  intros Hs Hp. pose proof Hs as (_ & _ & _ & _ & Hrs & Hc).
  unfold insert_point_in_route. unfold_M.
  destruct (route_idx =? -1).
  - apply store_ok_set_current; [done|]. by apply insert_Forall.
  - destruct (Py.in_bounds route_idx (routes s)); [|done].
    destruct (Py.getitem (routes s) route_idx) as [r|] eqn:Er; [|done].
    destruct (Py.setitem (routes s) route_idx (Py.insert r i p)) as [rs|] eqn:E2; [|done].
    simpl. apply store_ok_set_routes; [done|].
    eapply setitem_Forall; [done..|].
    apply insert_Forall; [|done]. exact (getitem_Forall route_ok _ _ _ Er Hrs).
Qed.

Lemma move_point_store_ok (s : drawer) (route_idx point_idx : option Z) (p : point) :
  store_ok s -> point_ok p ->
  store_ok (snd (move_point route_idx point_idx p s)).
Proof.
  intros Hs Hp. pose proof Hs as (_ & _ & _ & _ & Hrs & Hc).
  unfold move_point. unfold_M. case_bool_decide.
  - destruct (subscript point_idx) as [i|]; [|done]. simpl.
    destruct (Py.setitem (current_route s) i p) as [r|] eqn:E; [|done].
    simpl. apply store_ok_set_current; [done|]. by eapply setitem_Forall.
  - destruct (subscript route_idx) as [j|]; [|done]. simpl.
    destruct (Py.getitem (routes s) j) as [r|] eqn:Er; [|done].
    destruct (subscript point_idx) as [i|]; [|done]. simpl.
    destruct (Py.setitem r i p) as [r'|] eqn:Er'; [|done].
    destruct (Py.setitem (routes s) j r') as [rs|] eqn:Ers; [|done].
    simpl. apply store_ok_set_routes; [done|].
    eapply setitem_Forall; [done..|].
    eapply setitem_Forall; [done| |done].
    exact (getitem_Forall route_ok _ _ _ Er Hrs).
Qed.

Lemma after_store_ok (ev : event) (s : drawer) :
  event_ok ev -> store_ok s -> store_ok (after ev s).
Proof.
  intros Hev Hs. pose proof Hs as (_ & _ & _ & _ & Hrs & Hc).
  unfold after. destruct ev as [x y|x y|x y|x y| | |]; simpl in *.
  - destruct Hev as [Hx Hy]. unfold on_left_click. unfold_M.
    destruct (find_point_at_position s x y) as [[[rr pp]|]|]; try done.
    destruct (canvas_to_coord_x_ok s x Hs Hx) as (cx & -> & Hcx).
    destruct (canvas_to_coord_y_ok s y Hs Hy) as (cy & -> & Hcy).
    apply store_ok_set_current; [done|].
    apply Forall_app. split; [done|]. by apply Forall_singleton.
  - destruct Hev as [Hx Hy]. unfold on_right_click. unfold_M.
    destruct (find_point_at_position s x y) as [[[rr pp]|]|]; try done.
    + by apply remove_point_store_ok.
    + destruct (find_line_at_position s x y) as [[[[rr i] j]|]|]; try done.
      destruct (canvas_to_coord_x_ok s x Hs Hx) as (cx & -> & Hcx).
      destruct (canvas_to_coord_y_ok s y Hs Hy) as (cy & -> & Hcy).
      by apply insert_point_store_ok.
  - destruct Hev as [Hx Hy]. unfold on_left_release. unfold_M.
    destruct (dragging s); [|done].
    destruct (canvas_to_coord_x_ok s x Hs Hx) as (cx & -> & Hcx).
    destruct (canvas_to_coord_y_ok s y Hs Hy) as (cy & -> & Hcy).
    pose proof (move_point_store_ok s (drag_route_idx s) (drag_point_idx s)
                  (cx, cy) Hs (conj Hcx Hcy)) as Hm.
    destruct (move_point _ _ _ s) as [[[]|] s']; [|done].
    exact (store_ok_set_drag s' false None None Hm).
  - unfold on_drag. unfold_M.
    destruct (dragging s); [|done].
    destruct (canvas_to_coord_x s x); [|done].
    by destruct (canvas_to_coord_y s y).
  - unfold start_new_route. unfold_M.
    destruct (current_route s) eqn:Ec; simpl.
    + apply store_ok_set_current; [done|constructor].
    + apply store_ok_set_current; [|constructor].
      apply store_ok_set_routes; [done|].
      apply Forall_app. split; [done|]. apply Forall_singleton. exact Hc.
  - unfold clear_all. unfold_M.
    apply store_ok_set_current; [|constructor].
    apply store_ok_set_routes; [done|constructor].
  - unfold undo_last_point. unfold_M.
    destruct (current_route s) eqn:Ec; [done|].
    destruct (Py.pop _ _) as [[x rest]|] eqn:E; [|done].
    simpl. apply store_ok_set_current; [done|].
    exact (pop_Forall point_ok _ _ _ _ E Hc).
Qed.

Lemma store_ok_init : store_ok init.
Proof. unfold store_ok, init; simpl. repeat split; constructor. Qed.

Lemma reachable_store_ok (s : drawer) : reachable s -> store_ok s.
Proof.
  induction 1 as [|s ev Hev _ IH]; [apply store_ok_init|by apply after_store_ok].
Qed.

(** ** Point hits: positions in the scan order, precedence, totality *)

Lemma enumerate_from_lookup {A} (l : list A) (i : Z) (n : nat) :
  enumerate_from i l !! n = (fun x => (i + Z.of_nat n, x)) <$> l !! n.
Proof.
  revert i n. induction l as [|x l IH]; intros i [|n]; simpl; try done.
  - by rewrite Z.add_0_r.
  - rewrite IH. destruct (l !! n); simpl; [|done]. do 2 f_equal. lia.
Qed.

Lemma elem_of_enumerate {A} (l : list A) (i : Z) (x : A) :
  (i, x) ∈ enumerate l <-> 0 <= i /\ l !! Z.to_nat i = Some x.
Proof.
  unfold enumerate. rewrite list_elem_of_lookup. split.
  - intros [n Hn]. rewrite enumerate_from_lookup in Hn.
    destruct (l !! n) eqn:E; simpl in Hn; [|done].
    injection Hn as <- <-. split; [lia|]. by rewrite Z.add_0_l, Nat2Z.id.
  - intros [Hi Hl]. exists (Z.to_nat i). rewrite enumerate_from_lookup, Hl. simpl.
    do 2 f_equal. lia.
Qed.

Lemma elem_of_tagged {A} (l : list A) (j i : Z) (x : A) (j' : Z) :
  ((j, i), x) ∈ tagged j' l <-> j = j' /\ 0 <= i /\ l !! Z.to_nat i = Some x.
Proof.
  unfold tagged. rewrite list_elem_of_fmap. split.
  - intros ([i' x'] & [= -> -> ->] & H). by apply elem_of_enumerate in H.
  - intros (-> & Hi & Hl). exists (i, x). split; [done|]. by apply elem_of_enumerate.
Qed.

Lemma elem_of_concat {A} (x : A) (ls : list (list A)) :
  x ∈ concat ls <-> exists l, x ∈ l /\ l ∈ ls.
Proof.
  induction ls as [|l ls IH]; simpl.
  - split; [by intros ?%elem_of_nil|by intros (l & _ & ?%elem_of_nil)].
  - rewrite elem_of_app, IH. split.
    + intros [H|(l' & H1 & H2)]; [exists l|exists l']; (split; [done|]);
        [by left|by right].
    + intros (l' & H1 & H2). apply elem_of_cons in H2 as [->|H2]; [by left|].
      right. by exists l'.
Qed.

Lemma elem_of_tagged_routes {A} (g : route -> list A) (c : route) (rs : list route)
    (j i : Z) (x : A) :
  ((j, i), x) ∈ tagged (-1) (g c)
                ++ concat (map (fun jr : Z * route => tagged (fst jr) (g (snd jr)))
                               (enumerate rs))
  <-> 0 <= i
      /\ ((j = -1 /\ g c !! Z.to_nat i = Some x)
          \/ (0 <= j /\ exists r, rs !! Z.to_nat j = Some r
                                  /\ g r !! Z.to_nat i = Some x)).
Proof.
  rewrite elem_of_app, elem_of_tagged. split.
  - intros [(-> & Hi & Hl)|H]; [by auto|].
    apply elem_of_concat in H as (l & Hin & Hl).
    apply list_elem_of_fmap in Hl as ([j' r] & -> & Hjr).
    apply elem_of_enumerate in Hjr as [Hj Hr].
    apply elem_of_tagged in Hin as (-> & Hi & Hp). simpl in *.
    split; [done|]. right. split; [done|]. by exists r.
  - intros [Hi [[-> Hl]|(Hj & r & Hr & Hl)]]; [by left|]. right.
    apply elem_of_concat. exists (tagged j (g r)). split.
    + by apply elem_of_tagged.
    + apply list_elem_of_fmap. exists (j, r). split; [done|]. by apply elem_of_enumerate.
Qed.

(** The scan order holds exactly the stored points, each under its route
    reference and index. *)
Lemma elem_of_scan_order (s : drawer) (j i : Z) (p : point) :
  ((j, i), p) ∈ scan_order s
  <-> 0 <= i
      /\ ((j = -1 /\ current_route s !! Z.to_nat i = Some p)
          \/ (0 <= j /\ exists r, routes s !! Z.to_nat j = Some r
                                  /\ r !! Z.to_nat i = Some p)).
Proof. apply (elem_of_tagged_routes (fun r : route => r)). Qed.

Lemma scan_points_hit (s : drawer) (cx cy : Z) (r : route) (k : Z) (i : nat) (p : point) :
  r !! i = Some p ->
  Forall (fun q => point_hit s cx cy q = Ok false) (take i r) ->
  point_hit s cx cy p = Ok true ->
  scan_points s cx cy r k = Ok (Some (k + Z.of_nat i)).
Proof.
  revert k i. induction r as [|q r IH]; intros k [|i]; simpl; try done.
  - intros [= ->] _ ->. simpl. by rewrite Z.add_0_r.
  - intros Hl Hmiss Hp. apply Forall_cons in Hmiss as [-> Hmiss]. simpl.
    rewrite (IH (k + 1) i) by done. do 2 f_equal. lia.
Qed.

Lemma point_hit_ok (s : drawer) (cx cy : Z) (p : point) :
  store_ok s -> device_ok cx -> device_ok cy -> point_ok p ->
  exists b, point_hit s cx cy p = Ok b.
Proof.
  intros (Hg & Hox & Hoy & _) Hx Hy [Hp1 Hp2]. unfold point_hit.
  unfold coord_to_canvas_x, coord_to_canvas_y. rewrite Hg, Hox, Hoy.
  unfold device_ok, coord_ok in *.
  destruct (sqrt_int_ok ((cx - (0 + fst p * 20)) ^ 2 + (cy - (0 + snd p * 20)) ^ 2) 120)
    as (f & -> & _); [apply sum_squares_nonneg| |lia|by eexists].
  apply Zdigits2_le_pow; [lia|]. split; [apply sum_squares_nonneg|].
  assert (Z.abs (cx - (0 + fst p * 20)) <= 2 ^ 59) as H1.
  { change (2 ^ 59) with (64 * 2 ^ 53). change (2 ^ 31) with 2147483648 in Hx.
    change (2 ^ 53) with 9007199254740992 in *. lia. }
  assert (Z.abs (cy - (0 + snd p * 20)) <= 2 ^ 59) as H2.
  { change (2 ^ 59) with (64 * 2 ^ 53). change (2 ^ 31) with 2147483648 in Hy.
    change (2 ^ 53) with 9007199254740992 in *. lia. }
  apply sq_bound in H1, H2. change (2 ^ 120) with (4 * (2 ^ 59) ^ 2). lia.
Qed.

Lemma scan_order_ok (s : drawer) :
  store_ok s -> Forall (fun x : (Z * Z) * point => point_ok (snd x)) (scan_order s).
Proof.
  intros (_ & _ & _ & _ & Hrs & Hc). apply Forall_forall. intros [[j i] p] Hin.
  apply elem_of_scan_order in Hin as [_ [[_ Hl]|(_ & r & Hr & Hl)]]; simpl.
  - exact (Forall_lookup_1 _ _ _ _ Hc Hl).
  - exact (Forall_lookup_1 _ _ _ _ (Forall_lookup_1 _ _ _ _ Hrs Hr) Hl).
Qed.

Lemma find_point_at_position_ok (s : drawer) (cx cy : Z) :
  store_ok s -> device_ok cx -> device_ok cy ->
  exists found, find_point_at_position s cx cy = Ok found.
Proof.
  intros Hs Hx Hy. rewrite find_point_first_match.
  destruct (first_match_total (fun x : (Z * Z) * point => point_hit s cx cy (snd x))
              (scan_order s)) as [found ->]; [|by eexists].
  eapply Forall_impl; [by apply scan_order_ok|].
  intros x Hp. by apply point_hit_ok.
Qed.

(** ** Magnitudes through float arithmetic *)

Lemma mag_le_finite_exp (K : Z) (s : bool) (m : positive) (e : Z) :
  mag_le K (S754_finite s m e) -> e <= K - 1.
Proof.
  cbn [mag_le]. pose proof (Zdigits2_pos_lt (Z.pos m) ltac:(lia)). lia.
Qed.

Lemma fmul_mag (a b : spec_float) (K1 K2 : Z) :
  mag_le K1 a -> mag_le K2 b -> 0 <= K1 -> 0 <= K2 -> K1 + K2 <= 972 ->
  mag_le (K1 + K2 + 1) (Py.fmul a b).
Proof.
  intros Ha Hb H1 H2 HK.
  destruct a as [sa|sa| |sa ma ea], b as [sb|sb| |sb mb eb]; try done.
  pose proof (mag_le_finite_exp _ _ _ _ Ha). pose proof (mag_le_finite_exp _ _ _ _ Hb).
  cbn [mag_le] in Ha, Hb. unfold Py.fmul, SFmul.
  apply binary_round_aux_mag; try lia.
  rewrite Pos2Z.inj_mul.
  pose proof (Zdigits2_mul (Z.pos ma) (Z.pos mb) ltac:(lia) ltac:(lia)). lia.
Qed.

Lemma fmul_self_sign (K : Z) (g : spec_float) :
  mag_le K g -> has_sign false (Py.fmul g g).
Proof.
  destruct g as [s|s| |s m e]; try done; intros _.
  - simpl. apply xorb_nilpotent.
  - unfold Py.fmul, SFmul.
    pose proof (binary_round_aux_sign (xorb s s) (Z.pos (m * m)) (e + e) loc_Exact
                  ltac:(lia)) as H.
    by rewrite xorb_nilpotent in H at 1.
Qed.

Lemma binary_normalize_mag (m e K : Z) :
  Zdigits2 (Z.abs m) + e <= K -> -1074 <= K -> e <= 971 -> K <= 1023 ->
  mag_le (K + 1) (binary_normalize Py.prec Py.emax m e false)
  /\ (0 <= m -> has_sign false (binary_normalize Py.prec Py.emax m e false)).
Proof.
  intros Hd H1 H2 H3. destruct m as [|p|p]; simpl.
  - done.
  - destruct (binary_round_mag false p e K) as [Hm Hs]; try done.
  - destruct (binary_round_mag true p e K) as [Hm Hs]; try done.
Qed.

(** The aligned mantissa of a float below [2 ^ K]. *)
Lemma shl_align_bound (m : positive) (e e' K : Z) :
  Zdigits2 (Z.pos m) + e <= K -> e' <= e ->
  0 < Z.pos (fst (shl_align m e e')) < 2 ^ (K - e').
Proof.
  intros Hm He. destruct (shl_align_spec m e e') as [-> _]. split; [lia|].
  rewrite Z.min_r by lia.
  pose proof (Zdigits2_spec (Z.pos m) ltac:(lia)) as [_ Hhi].
  pose proof (Zdigits2_pos_lt (Z.pos m) ltac:(lia)).
  assert (0 < 2 ^ (e - e')) by (apply Z.pow_pos_nonneg; lia).
  assert (Z.pos m * 2 ^ (e - e') < 2 ^ Zdigits2 (Z.pos m) * 2 ^ (e - e')) by nia.
  rewrite <- Z.pow_add_r in * by lia.
  assert (2 ^ (Zdigits2 (Z.pos m) + (e - e')) <= 2 ^ (K - e'))
    by (apply Z.pow_le_mono_r; lia).
  lia.
Qed.

Lemma aligned_sum_mag (z A B ez K : Z) :
  Z.abs z <= A + B -> 0 < A < 2 ^ (K - ez) -> 0 < B < 2 ^ (K - ez) ->
  ez <= K - 1 -> 0 <= K <= 1021 -> ez <= 971 ->
  mag_le (K + 2) (binary_normalize Py.prec Py.emax z ez false)
  /\ (0 <= z -> has_sign false (binary_normalize Py.prec Py.emax z ez false)).
Proof.
  intros Hz HA HB He HK He'.
  replace (K + 2) with (K + 1 + 1) by lia.
  apply binary_normalize_mag; try lia.
  assert (Zdigits2 (Z.abs z) <= K - ez + 1); [|lia].
  apply Zdigits2_le_pow; [lia|]. split; [lia|].
  replace (K - ez + 1) with (1 + (K - ez)) by lia.
  rewrite Z.pow_add_r by lia. change (2 ^ 1) with 2. lia.
Qed.

Lemma fadd_mag (a b : spec_float) (K : Z) :
  mag_le K a -> mag_le K b -> 0 <= K <= 971 ->
  mag_le (K + 2) (Py.fadd a b)
  /\ (has_sign false a -> has_sign false b -> has_sign false (Py.fadd a b)).
Proof.
  intros Ha Hb HK.
  destruct a as [sa|sa| |sa ma ea], b as [sb|sb| |sb mb eb]; try done.
  - split; [by destruct sa, sb|]. simpl. by intros -> ->.
  - split; [|done]. eapply mag_le_mono; [|done]. lia.
  - split; [|done]. eapply mag_le_mono; [|done]. lia.
  - pose proof (mag_le_finite_exp _ _ _ _ Ha). pose proof (mag_le_finite_exp _ _ _ _ Hb).
    cbn [mag_le] in Ha, Hb. unfold Py.fadd, SFadd.
    pose proof (shl_align_bound ma ea (Z.min ea eb) K Ha ltac:(lia)) as HA.
    pose proof (shl_align_bound mb eb (Z.min ea eb) K Hb ltac:(lia)) as HB.
    remember (Z.pos (fst (shl_align ma ea (Z.min ea eb)))) as A eqn:EA.
    remember (Z.pos (fst (shl_align mb eb (Z.min ea eb)))) as B eqn:EB.
    destruct (aligned_sum_mag (cond_Zopp sa A + cond_Zopp sb B) A B (Z.min ea eb) K)
      as [Hm Hs]; try lia.
    { destruct sa, sb; simpl; lia. }
    split; [done|]. simpl. intros -> ->. apply Hs. simpl. lia.
Qed.

Lemma fsub_mag (a b : spec_float) (K : Z) :
  mag_le K a -> mag_le K b -> 0 <= K <= 971 -> mag_le (K + 2) (Py.fsub a b).
Proof.
  intros Ha Hb HK.
  destruct a as [sa|sa| |sa ma ea], b as [sb|sb| |sb mb eb]; try done.
  - by destruct sa, sb.
  - simpl in *. lia.
  - eapply mag_le_mono; [|done]. lia.
  - pose proof (mag_le_finite_exp _ _ _ _ Ha). pose proof (mag_le_finite_exp _ _ _ _ Hb).
    cbn [mag_le] in Ha, Hb. unfold Py.fsub, SFsub.
    pose proof (shl_align_bound ma ea (Z.min ea eb) K Ha ltac:(lia)) as HA.
    pose proof (shl_align_bound mb eb (Z.min ea eb) K Hb ltac:(lia)) as HB.
    remember (Z.pos (fst (shl_align ma ea (Z.min ea eb)))) as A eqn:EA.
    remember (Z.pos (fst (shl_align mb eb (Z.min ea eb)))) as B eqn:EB.
    destruct (aligned_sum_mag (cond_Zopp sa A - cond_Zopp sb B) A B (Z.min ea eb) K)
      as [Hm Hs]; try lia.
    { destruct sa, sb; simpl; lia. }
    done.
Qed.

(** ** Clamping to the unit interval *)

Lemma compare_int_antisym (q : Py.num) (z : Z) (c : comparison) :
  Py.compare q (Py.Int z) = Some c -> Py.compare (Py.Int z) q = Some (CompOpp c).
Proof.
  destruct q as [x|f]; cbn [Py.compare].
  - intros [= <-]. by rewrite Z.compare_antisym.
  - by intros ->.
Qed.

Lemma clamp01_cases (q : Py.num) :
  clamp01 q = Py.Int 0 \/ clamp01 q = Py.Int 1
  \/ (clamp01 q = q /\ Py.gt q (Py.Int 0) = true /\ Py.lt q (Py.Int 1) = true).
Proof.
  unfold clamp01, Py.min, Py.max.
  destruct (Py.lt q (Py.Int 1)) eqn:E1.
  - destruct (Py.gt q (Py.Int 0)) eqn:E0; auto.
  - auto.
Qed.

(** The clamped parameter lies between 0 and 1, whatever the quotient. *)
Lemma clamp01_range (q : Py.num) :
  Py.le (Py.Int 0) (clamp01 q) = true /\ Py.le (clamp01 q) (Py.Int 1) = true.
Proof.
  destruct (clamp01_cases q) as [->|[->|(-> & H0 & H1)]]; [done..|].
  unfold Py.gt, Py.lt, Py.le in *.
  destruct (Py.compare q (Py.Int 0)) as [[]|] eqn:E0; try done.
  rewrite (compare_int_antisym _ _ _ E0).
  by destruct (Py.compare q (Py.Int 1)) as [[]|].
Qed.

(** ** The segment test returns in range *)

Lemma to_float_int_mag (z K : Z) :
  Z.abs z < 2 ^ K -> 0 <= K <= 1022 ->
  exists f, Py.float_of_int z = Ok f /\ mag_le (K + 1) f.
Proof.
  intros Hz HK. destruct (float_of_int_ok z K) as (f & E & Hm & _); [|lia|by exists f].
  apply Zdigits2_le_pow; lia.
Qed.

Lemma pow2_float_ok (g : spec_float) (K : Z) :
  mag_le K g -> 0 <= K <= 486 ->
  exists h, Py.pow2 (Py.Float g) = Ok (Py.Float h)
            /\ mag_le (2 * K + 1) h /\ has_sign false h.
Proof.
  intros Hg HK. pose proof (fmul_mag g g K K Hg Hg ltac:(lia) ltac:(lia) ltac:(lia)) as Hm.
  cbn [Py.pow2]. rewrite (mag_le_not_inf _ _ Hm), andb_false_r.
  eexists. split; [done|]. split; [by replace (2 * K + 1) with (K + K + 1) by lia|].
  by eapply fmul_self_sign.
Qed.

Lemma sqrt_float_ok (f : spec_float) :
  has_sign false f -> exists r, Py.sqrt (Py.Float f) = Ok r.
Proof.
  intros Hs. unfold Py.sqrt. cbn [Py.to_float mbind result_bind].
  destruct f as [s|s| |s m e]; simpl in Hs; subst; by eexists.
Qed.

Lemma sqrt_sum_squares_ok (a b : Z) :
  Z.abs a <= 2 ^ 62 -> Z.abs b <= 2 ^ 62 ->
  exists r, Py.sqrt (Py.Int (a ^ 2 + b ^ 2)) = Ok r.
Proof.
  intros Ha Hb.
  destruct (sqrt_int_ok (a ^ 2 + b ^ 2) 126) as (f & -> & _);
    [apply sum_squares_nonneg| |lia|by eexists].
  apply Zdigits2_le_pow; [lia|]. split; [apply sum_squares_nonneg|].
  apply sq_bound in Ha, Hb. change (2 ^ 126) with (4 * (2 ^ 62) ^ 2). lia.
Qed.

Lemma abs_mul_le (u v U V : Z) :
  Z.abs u <= U -> Z.abs v <= V -> Z.abs (u * v) <= U * V.
Proof.
  intros Hu Hv. rewrite Z.abs_mul.
  apply Z.mul_le_mono_nonneg; [apply Z.abs_nonneg|done|apply Z.abs_nonneg|done].
Qed.

Lemma closest_point_distance_ok (px py ax ay bx by' : Z) :
  Z.abs px <= 2 ^ 58 -> Z.abs py <= 2 ^ 58 ->
  Z.abs ax <= 2 ^ 58 -> Z.abs ay <= 2 ^ 58 ->
  Z.abs bx <= 2 ^ 58 -> Z.abs by' <= 2 ^ 58 ->
  (bx - ax) ^ 2 + (by' - ay) ^ 2 <> 0 ->
  exists d, closest_point_distance px py ax ay bx by' = Ok d.
Proof.
  intros Hpx Hpy Hax Hay Hbx Hby Hne. unfold closest_point_distance.
  cbv zeta. cbn [Py.truediv].
  change (2 ^ 58) with 288230376151711744 in *.
  destruct (int_truediv_ok ((px - ax) * (bx - ax) + (py - ay) * (by' - ay))
              ((bx - ax) ^ 2 + (by' - ay) ^ 2) 120) as (q & -> & Hq); [done| |lia|].
  { apply Zdigits2_le_pow; [lia|]. split; [lia|].
    pose proof (abs_mul_le (px - ax) (bx - ax) (2 ^ 59) (2 ^ 59)
                  ltac:(change (2 ^ 59) with 576460752303423488; lia)
                  ltac:(change (2 ^ 59) with 576460752303423488; lia)) as H1.
    pose proof (abs_mul_le (py - ay) (by' - ay) (2 ^ 59) (2 ^ 59)
                  ltac:(change (2 ^ 59) with 576460752303423488; lia)
                  ltac:(change (2 ^ 59) with 576460752303423488; lia)) as H2.
    pose proof (Z.abs_triangle ((px - ax) * (bx - ax)) ((py - ay) * (by' - ay))) as H3.
    change (2 ^ 120) with (4 * (2 ^ 59 * 2 ^ 59)).
    remember (2 ^ 59 * 2 ^ 59) as B eqn:EB. 
    assert (0 < B) by (rewrite EB; done). lia. }
  cbn [mbind result_bind].
  destruct (clamp01_cases (Py.Float q)) as [->|[->|(-> & _ & _)]].
  - cbn [Py.mul Py.add Py.sub Py.pow2 mbind result_bind].
    apply sqrt_sum_squares_ok; change (2 ^ 62) with 4611686018427387904; lia.
  - cbn [Py.mul Py.add Py.sub Py.pow2 mbind result_bind].
    apply sqrt_sum_squares_ok; change (2 ^ 62) with 4611686018427387904; lia.
  - destruct (to_float_int_mag (bx - ax) 60) as (fdx & Edx & Hdx);
      [change (2 ^ 60) with 1152921504606846976; lia|lia|].
    destruct (to_float_int_mag (by' - ay) 60) as (fdy & Edy & Hdy);
      [change (2 ^ 60) with 1152921504606846976; lia|lia|].
    destruct (to_float_int_mag ax 60) as (fax & Eax & Hfax);
      [change (2 ^ 60) with 1152921504606846976; lia|lia|].
    destruct (to_float_int_mag ay 60) as (fay & Eay & Hfay);
      [change (2 ^ 60) with 1152921504606846976; lia|lia|].
    destruct (to_float_int_mag px 60) as (fpx & Epx & Hfpx);
      [change (2 ^ 60) with 1152921504606846976; lia|lia|].
    destruct (to_float_int_mag py 60) as (fpy & Epy & Hfpy);
      [change (2 ^ 60) with 1152921504606846976; lia|lia|].
    do 4 (cbn [Py.mul Py.add Py.sub Py.to_float mbind result_bind];
          rewrite ?Edx, ?Edy, ?Eax, ?Eay, ?Epx, ?Epy).
    cbn [mbind result_bind].
    pose proof (fmul_mag q fdx 121 61 Hq Hdx ltac:(lia) ltac:(lia) ltac:(lia)) as Htx.
    pose proof (fmul_mag q fdy 121 61 Hq Hdy ltac:(lia) ltac:(lia) ltac:(lia)) as Hty.
    apply (mag_le_mono _ 183) in Hfax; [|lia].
    apply (mag_le_mono _ 183) in Hfay; [|lia].
    apply (mag_le_mono _ 185) in Hfpx; [|lia].
    apply (mag_le_mono _ 185) in Hfpy; [|lia].
    destruct (fadd_mag fax (Py.fmul q fdx) 183 Hfax Htx ltac:(lia)) as [Hcx _].
    destruct (fadd_mag fay (Py.fmul q fdy) 183 Hfay Hty ltac:(lia)) as [Hcy _].
    pose proof (fsub_mag fpx _ 185 Hfpx Hcx ltac:(lia)) as Hdx'.
    pose proof (fsub_mag fpy _ 185 Hfpy Hcy ltac:(lia)) as Hdy'.
    destruct (pow2_float_ok _ 187 Hdx' ltac:(lia)) as (hx & -> & Hhx & Hsx).
    cbn [mbind result_bind].
    destruct (pow2_float_ok _ 187 Hdy' ltac:(lia)) as (hy & -> & Hhy & Hsy).
    cbn [mbind result_bind Py.add Py.to_float].
    apply sqrt_float_ok. by apply (fadd_mag hx hy (2 * 187 + 1)).
Qed.





(** ** Segments in the scan order *)

Lemma segments_lookup (r : route) (i : nat) (a b : point) :
  segments r !! i = Some (a, b) <-> r !! i = Some a /\ r !! S i = Some b.
Proof.
  unfold segments. rewrite lookup_zip_with_Some. split.
  - intros (x & y & [= -> ->] & Hx & Hy). by rewrite lookup_tail in Hy.
  - intros [Ha Hb]. exists a, b. by rewrite lookup_tail.
Qed.

(** The segment scan order holds exactly the consecutive pairs of the
    stored routes, each under its route reference and start index. *)
Lemma elem_of_segment_scan_order (s : drawer) (j i : Z) (a b : point) :
  ((j, i), (a, b)) ∈ segment_scan_order s
  <-> 0 <= i
      /\ ((j = -1 /\ current_route s !! Z.to_nat i = Some a
           /\ current_route s !! S (Z.to_nat i) = Some b)
          \/ (0 <= j /\ exists r, routes s !! Z.to_nat j = Some r
                                  /\ r !! Z.to_nat i = Some a
                                  /\ r !! S (Z.to_nat i) = Some b)).
Proof.
  unfold segment_scan_order. rewrite (elem_of_tagged_routes segments).
  rewrite segments_lookup. split.
  - intros [Hi [?|(Hj & r & Hr & Hl)]]; (split; [done|]); [by left|right].
    split; [done|]. exists r. by rewrite <- segments_lookup.
  - intros [Hi [?|(Hj & r & Hr & Hl)]]; (split; [done|]); [by left|right].
    split; [done|]. exists r. by rewrite segments_lookup.
Qed.

Lemma canvas_x_bound (s : drawer) (z : Z) :
  store_ok s -> coord_ok z -> Z.abs (coord_to_canvas_x s z) <= 2 ^ 58.
Proof.
  intros (Hg & Hx & _) Hz. unfold coord_to_canvas_x, coord_ok in *. rewrite Hg, Hx.
  change (2 ^ 58) with (32 * 2 ^ 53). lia.
Qed.

Lemma canvas_y_bound (s : drawer) (z : Z) :
  store_ok s -> coord_ok z -> Z.abs (coord_to_canvas_y s z) <= 2 ^ 58.
Proof.
  intros (Hg & _ & Hy & _) Hz. unfold coord_to_canvas_y, coord_ok in *. rewrite Hg, Hy.
  change (2 ^ 58) with (32 * 2 ^ 53). lia.
Qed.

Lemma device_bound (c : Z) : device_ok c -> Z.abs c <= 2 ^ 58.
Proof.
  unfold device_ok. intros H. etrans; [exact H|]. by apply Z.pow_le_mono_r.
Qed.

Lemma is_point_on_line_ok (s : drawer) (cx cy : Z) (a b : point) :
  store_ok s -> device_ok cx -> device_ok cy -> point_ok a -> point_ok b ->
  exists hit, is_point_on_line s cx cy a b = Ok hit.
Proof.
  intros Hs Hx Hy [Ha1 Ha2] [Hb1 Hb2]. rewrite is_point_on_line_distance. cbv zeta.
  destruct (_ =? 0) eqn:E; [by eexists|]. apply Z.eqb_neq in E.
  destruct (closest_point_distance_ok cx cy
              (coord_to_canvas_x s (fst a)) (coord_to_canvas_y s (snd a))
              (coord_to_canvas_x s (fst b)) (coord_to_canvas_y s (snd b)))
    as [d ->]; try done;
    [by apply device_bound|by apply device_bound
     |by apply canvas_x_bound|by apply canvas_y_bound
     |by apply canvas_x_bound|by apply canvas_y_bound|].
  by eexists.
Qed.

Lemma segment_scan_order_ok (s : drawer) :
  store_ok s ->
  Forall (fun x : (Z * Z) * (point * point) =>
            point_ok (fst (snd x)) /\ point_ok (snd (snd x)))
         (segment_scan_order s).
Proof.
  intros (_ & _ & _ & _ & Hrs & Hc). apply Forall_forall. intros [[j i] [a b]] Hin.
  apply elem_of_segment_scan_order in Hin
    as [_ [(_ & Ha & Hb)|(_ & r & Hr & Ha & Hb)]]; simpl.
  - split; [exact (Forall_lookup_1 _ _ _ _ Hc Ha)|exact (Forall_lookup_1 _ _ _ _ Hc Hb)].
  - pose proof (Forall_lookup_1 _ _ _ _ Hrs Hr) as Hok.
    split; [exact (Forall_lookup_1 _ _ _ _ Hok Ha)|exact (Forall_lookup_1 _ _ _ _ Hok Hb)].
Qed.

Lemma find_line_at_position_ok (s : drawer) (cx cy : Z) :
  store_ok s -> device_ok cx -> device_ok cy ->
  exists found, find_line_at_position s cx cy = Ok found.
Proof.
  intros Hs Hx Hy. rewrite find_line_first_match.
  destruct (first_match_total
              (fun x : (Z * Z) * (point * point) => segment_test s cx cy (snd x))
              (segment_scan_order s)) as [found ->]; [|by eexists].
  eapply Forall_impl; [by apply segment_scan_order_ok|].
  intros x [Ha Hb]. by apply is_point_on_line_ok.
Qed.


(** ** The scan order is the order of the references *)

Lemma enumerate_from_sorted {A} (k : Z) (l : list A) :
  StronglySorted (fun x y : Z * A => fst x < fst y) (enumerate_from k l)
  /\ Forall (fun x : Z * A => k <= fst x) (enumerate_from k l).
Proof.
  revert k. induction l as [|x l IH]; intros k; simpl.
  - split; constructor.
  - destruct (IH (k + 1)) as [Hs Hb]. split.
    + constructor; [done|]. eapply Forall_impl; [exact Hb|]. simpl. intros; lia.
    + constructor; [simpl; lia|]. eapply Forall_impl; [exact Hb|]. simpl. intros; lia.
Qed.

Lemma tagged_sorted {A} (j : Z) (l : list A) :
  StronglySorted (fun x y : (Z * Z) * A => ref_lt (fst x) (fst y)) (tagged j l).
Proof.
  unfold tagged, enumerate.
  apply (StronglySorted_fmap _ (fun x y : Z * A => fst x < fst y)).
  - intros x y Hxy. by right.
  - apply enumerate_from_sorted.
Qed.

Section ScanOrder.
Context {A : Type} (g : route -> list A).

Lemma blocks_sorted (k : Z) (rs : list route) :
  StronglySorted (fun x y : (Z * Z) * A => ref_lt (fst x) (fst y))
    (concat (map (fun jr : Z * route => tagged (fst jr) (g (snd jr)))
                 (enumerate_from k rs)))
  /\ Forall (fun x : (Z * Z) * A => k <= fst (fst x))
       (concat (map (fun jr : Z * route => tagged (fst jr) (g (snd jr)))
                    (enumerate_from k rs))).
Proof.
  revert k. induction rs as [|r rs IH]; intros k; simpl.
  - split; constructor.
  - destruct (IH (k + 1)) as [Hs Hb].
    assert (Hk : Forall (fun x : (Z * Z) * A => fst (fst x) = k) (tagged k (g r))).
    { apply Forall_forall. intros [[j i] x] Hin.
      by apply elem_of_tagged in Hin as (-> & _). }
    split.
    + apply StronglySorted_app_2; [|apply tagged_sorted|done].
      intros x1 x2 H1 H2. left.
      rewrite (proj1 (Forall_forall _ _) Hk x1 H1).
      pose proof (proj1 (Forall_forall _ _) Hb x2 H2). simpl in *. lia.
    + apply Forall_app. split.
      * eapply Forall_impl; [exact Hk|]. simpl. intros; lia.
      * eapply Forall_impl; [exact Hb|]. simpl. intros; lia.
Qed.

Lemma tagged_routes_sorted (c : route) (rs : list route) :
  StronglySorted (fun x y : (Z * Z) * A => ref_lt (fst x) (fst y))
    (tagged (-1) (g c)
     ++ concat (map (fun jr : Z * route => tagged (fst jr) (g (snd jr)))
                    (enumerate rs))).
Proof.
  destruct (blocks_sorted 0 rs) as [Hs Hb].
  apply StronglySorted_app_2; [|apply tagged_sorted|done].
  intros [[j i] x] x2 H1 H2. left.
  apply elem_of_tagged in H1 as (-> & _).
  pose proof (proj1 (Forall_forall _ _) Hb x2 H2). simpl in *. lia.
Qed.
End ScanOrder.

(** In a list sorted by reference, the first match is the match with the
    least reference. *)
Lemma first_match_least {A} (test : A -> result bool) (key : A -> Z * Z)
    (l : list A) (x : A) :
  StronglySorted (fun a b => ref_lt (key a) (key b)) l ->
  first_match test l = Ok (Some x)
  <-> x ∈ l /\ test x = Ok true
      /\ forall y, y ∈ l -> ref_lt (key y) (key x) -> test y = Ok false.
Proof.
  intros Hs. rewrite first_match_Some. split.
  - intros (before & after & -> & Hb & Hx). split; [|split; [done|]].
    + apply elem_of_app. right. by left.
    + intros y Hy Hlt. apply elem_of_app in Hy as [Hy|Hy].
      * exact (proj1 (Forall_forall _ _) Hb y Hy).
      * exfalso. apply elem_of_cons in Hy as [->|Hy].
        -- unfold ref_lt in Hlt. lia.
        -- apply StronglySorted_app_1_r, StronglySorted_inv in Hs as [_ Hs].
           pose proof (proj1 (Forall_forall _ _) Hs y Hy) as Hxy.
           unfold ref_lt in *. lia.
  - intros (Hin & Hx & Hleast).
    apply list_elem_of_split in Hin as (before & after & ->).
    exists before, after. split; [done|]. split; [|done].
    apply Forall_forall. intros y Hy. apply Hleast.
    + apply elem_of_app. by left.
    + exact (StronglySorted_app_1_elem_of _ _ _ _ _ Hs Hy (list_elem_of_here _ _)).
Qed.

Lemma elem_of_scan_order_point_at (s : drawer) (ref : Z * Z) (p : point) :
  (ref, p) ∈ scan_order s <-> point_at s ref p.
Proof. destruct ref as [j i]. apply elem_of_scan_order. Qed.

Lemma elem_of_segment_scan_order_segment_at (s : drawer) (ref : Z * Z)
    (ab : point * point) :
  (ref, ab) ∈ segment_scan_order s <-> segment_at s ref ab.
Proof. destruct ref as [j i], ab as [a b]. apply elem_of_segment_scan_order. Qed.

Lemma scan_order_sorted (s : drawer) :
  StronglySorted (fun x y : (Z * Z) * point => ref_lt (fst x) (fst y)) (scan_order s).
Proof. apply (tagged_routes_sorted (fun r : route => r)). Qed.

Lemma segment_scan_order_sorted (s : drawer) :
  StronglySorted (fun x y : (Z * Z) * (point * point) => ref_lt (fst x) (fst y))
    (segment_scan_order s).
Proof. apply (tagged_routes_sorted segments). Qed.

(** [find_point_at_position] returns the least reference of a point that
    passes the test, all points before it having failed. *)
Lemma find_point_least (s : drawer) (cx cy : Z) (ref : Z * Z) :
  find_point_at_position s cx cy = Ok (Some ref)
  <-> (exists p, point_at s ref p /\ point_hit s cx cy p = Ok true)
      /\ (forall ref' p', point_at s ref' p' -> ref_lt ref' ref ->
                          point_hit s cx cy p' = Ok false).
Proof.
  rewrite find_point_first_match.
  set (test := fun x : (Z * Z) * point => point_hit s cx cy (snd x)).
  split.
  - destruct (first_match test (scan_order s)) as [[[ref' p]|]|] eqn:E; simpl; [|done..].
    intros [= ->].
    apply (first_match_least test fst _ _ (scan_order_sorted s)) in E
      as (Hin & Hp & Hleast).
    split; [exists p; split; [by apply elem_of_scan_order_point_at|done]|].
    intros ref' p' Hin' Hlt.
    apply (Hleast (ref', p')); [by apply elem_of_scan_order_point_at|done].
  - intros [(p & Hin & Hp) Hleast].
    assert (first_match test (scan_order s) = Ok (Some (ref, p))) as ->; [|done].
    apply (first_match_least test fst _ _ (scan_order_sorted s)).
    split; [by apply elem_of_scan_order_point_at|]. split; [done|].
    intros [ref' p'] Hin' Hlt. apply (Hleast ref' p'); [|done].
    by apply elem_of_scan_order_point_at.
Qed.

Lemma find_point_none (s : drawer) (cx cy : Z) :
  find_point_at_position s cx cy = Ok None
  <-> forall ref p, point_at s ref p -> point_hit s cx cy p = Ok false.
Proof.
  rewrite find_point_first_match.
  set (test := fun x : (Z * Z) * point => point_hit s cx cy (snd x)).
  split.
  - intros H ref p Hin.
    destruct (first_match test (scan_order s)) as [[x|]|] eqn:E; simpl in H; try done.
    apply first_match_None in E. apply elem_of_scan_order_point_at in Hin.
    exact (proj1 (Forall_forall _ _) E (ref, p) Hin).
  - intros H. assert (first_match test (scan_order s) = Ok None) as ->; [|done].
    apply first_match_None, Forall_forall. intros [ref p] Hin.
    apply (H ref p). by apply elem_of_scan_order_point_at.
Qed.

(** [find_line_at_position] returns the least reference of a segment that
    passes the test, with the indices of its two ends. *)
Lemma find_line_least (s : drawer) (cx cy : Z) (j i k : Z) :
  find_line_at_position s cx cy = Ok (Some (j, i, k))
  <-> k = i + 1
      /\ (exists ab, segment_at s (j, i) ab /\ segment_test s cx cy ab = Ok true)
      /\ (forall ref' ab', segment_at s ref' ab' -> ref_lt ref' (j, i) ->
                           segment_test s cx cy ab' = Ok false).
Proof.
  rewrite find_line_first_match.
  set (test := fun x : (Z * Z) * (point * point) => segment_test s cx cy (snd x)).
  split.
  - destruct (first_match test (segment_scan_order s)) as [[[[j' i'] ab]|]|] eqn:E;
      simpl; [|done..].
    intros [= -> -> <-]. split; [done|].
    apply (first_match_least test fst _ _ (segment_scan_order_sorted s)) in E
      as (Hin & Hp & Hleast).
    split; [exists ab; split; [by apply elem_of_segment_scan_order_segment_at|done]|].
    intros ref' ab' Hin' Hlt.
    apply (Hleast (ref', ab')); [by apply elem_of_segment_scan_order_segment_at|done].
  - intros (-> & (ab & Hin & Hp) & Hleast).
    assert (first_match test (segment_scan_order s) = Ok (Some ((j, i), ab))) as ->;
      [|done].
    apply (first_match_least test fst _ _ (segment_scan_order_sorted s)).
    split; [by apply elem_of_segment_scan_order_segment_at|]. split; [done|].
    intros [ref' ab'] Hin' Hlt. apply (Hleast ref' ab'); [|done].
    by apply elem_of_segment_scan_order_segment_at.
Qed.


(** ** The point test is the exact comparison of squared distances *)

Lemma scaled_lower (m : positive) (e c j : Z) :
  0 <= c <= Z.pos m -> 0 <= j <= e + 1074 -> c * 2 ^ j <= scaled m e.
Proof.
  intros Hc Hj. unfold scaled. apply Z.mul_le_mono_nonneg; [lia..| |].
  - apply Z.pow_nonneg; lia.
  - apply Z.pow_le_mono_r; lia.
Qed.

Lemma canonical_normal (m : positive) (e : Z) :
  fexp (Zdigits2 (Z.pos m) + e) = e -> -1074 < e -> 2 ^ 52 <= Z.pos m < 2 ^ 53.
Proof.
  rewrite fexp_eq. intros Hc He.
  pose proof (Zdigits2_spec (Z.pos m) ltac:(lia)) as Hd.
  by replace (Zdigits2 (Z.pos m)) with 53 in Hd by lia.
Qed.

(** [float(n)] is at least [k] for an int [n >= k], as long as [k] is
    itself a double. *)
Lemma float_of_int_lower (n k : Z) :
  0 < k <= n -> k <= 2 ^ 53 -> Zdigits2 n <= 1023 ->
  exists m e, Py.float_of_int n = Ok (S754_finite false m e)
              /\ valid (S754_finite false m e)
              /\ k * 2 ^ 1074 <= scaled m e.
Proof.
  intros Hk Hk53 Hn. destruct n as [|p|p]; try lia.
  destruct (float_of_int_ok (Z.pos p) 1023) as (f & E & Hmag & _); [done|lia|].
  destruct (float_of_int_valid _ _ E) as [Hv _].
  pose proof (Zdigits2_spec (Z.pos p) ltac:(lia)) as [Hlo Hhi].
  pose proof (Zdigits2_pos_lt (Z.pos p) ltac:(lia)) as HD.
  destruct (binary_round_canonical false p 0) as (m4 & e4 & Hr & Hc & Hb); [lia|].
  cbv zeta in Hb. rewrite Z.add_0_r in Hb. rewrite fexp_eq in Hb.
  remember (Zdigits2 (Z.pos p)) as D eqn:ED.
  rewrite Z.max_l in Hb by lia.
  pose proof E as E0.
  unfold Py.float_of_int in E. cbn [binary_normalize] in E. rewrite Hr in E.
  destruct (e4 <=? 971) eqn:E4; [|done]. cbn [Py.is_inf] in E. injection E as <-.
  exists m4, e4. split; [done|]. split; [done|].
  assert (H1074 : 0 < 2 ^ 1074) by done.
  destruct Hb as [[-> Hm4]|He4].
  - destruct (Z.le_gt_cases D 53) as [HD53|HD53].
    + rewrite Z.min_r, Z.sub_diag, Z.pow_0_r, Z.div_1_r in Hm4 by lia.
      replace (0 - (D - 53)) with (53 - D) in Hm4 by lia.
      etrans; [|apply (scaled_lower m4 (D - 53) (Z.pos p * 2 ^ (53 - D)) (D - 53 + 1074))].
      * rewrite <- Z.mul_assoc, <- Z.pow_add_r by lia.
        replace (53 - D + (D - 53 + 1074)) with 1074 by lia.
        apply Z.mul_le_mono_nonneg_r; lia.
      * split; [|done]. apply Z.mul_nonneg_nonneg; [lia|]. apply Z.pow_nonneg; lia.
      * lia.
    + rewrite Z.min_l, !Z.sub_0_r, Z.pow_0_r, Z.mul_1_r in Hm4 by lia.
      assert (H52 : 2 ^ 52 <= Z.pos p / 2 ^ (D - 53)).
      { apply Z.div_le_lower_bound; [apply Z.pow_pos_nonneg; lia|].
        rewrite <- Z.pow_add_r by lia. by replace (D - 53 + 52) with (D - 1) by lia. }
      etrans; [|apply (scaled_lower m4 (D - 53) (2 ^ 52) (1 + 1074))];
        [|split; [done|exact (Z.le_trans _ _ _ H52 Hm4)]|lia].
      rewrite <- Z.pow_add_r by lia. change (52 + (1 + 1074)) with (53 + 1074).
      rewrite Z.pow_add_r by lia. apply Z.mul_le_mono_nonneg_r; lia.
  - pose proof (canonical_normal m4 e4 Hc ltac:(lia)) as [Hm4 _].
    etrans; [|apply (scaled_lower m4 e4 (2 ^ 52) (D - 52 + 1074))];
      [|split; [done|done]|lia].
    rewrite <- Z.pow_add_r by lia. replace (52 + (D - 52 + 1074)) with (D + 1074) by lia.
    rewrite Z.pow_add_r by lia. apply Z.mul_le_mono_nonneg_r; lia.
Qed.

Lemma scaled_above_8 (m : positive) (e : Z) :
  -49 <= e -> 2 ^ 52 < Z.pos m \/ (2 ^ 52 <= Z.pos m /\ -48 <= e) ->
  8 * 2 ^ 1074 < scaled m e.
Proof.
  intros He Hm. unfold scaled.
  replace (e + 1074) with ((e + 49) + 1025) by lia. rewrite Z.pow_add_r by lia.
  change (8 * 2 ^ 1074) with (2 ^ 52 * 2 ^ 1025). rewrite Z.mul_assoc.
  apply Z.mul_lt_mono_pos_r; [done|].
  assert (1 <= 2 ^ (e + 49)) by (apply (Z.pow_le_mono_r 2 0); lia).
  destruct Hm as [Hm|[Hm He']].
  - eapply Z.lt_le_trans; [exact Hm|]. 
    rewrite <- (Z.mul_1_r (Z.pos m)) at 1. apply Z.mul_le_mono_nonneg_l; lia.
  - assert (2 <= 2 ^ (e + 49)) by (apply (Z.pow_le_mono_r 2 1); lia).
    eapply Z.lt_le_trans; [|apply Z.mul_le_mono_nonneg; [| exact Hm | |eassumption]]; lia.
Qed.

(** The square root of a double that is at least 65 is above 8. *)
Lemma fsqrt_above_8 (m : positive) (e : Z) :
  valid (S754_finite false m e) -> 65 * 2 ^ 1074 <= scaled m e ->
  Py.le (Py.Float (Py.fsqrt (S754_finite false m e))) (Py.Int 8) = false.
Proof.
  intros Hv Hlow. pose proof Hv as [Hcan He971]%valid_finite.
  pose proof (valid_finite_bounds _ _ Hv) as (He & Hm53 & _).
  (* the operand is normal, with exponent at least -46 *)
  assert (He46 : -46 <= e).
  { destruct (Z.le_gt_cases (-46) e) as [|Hlt]; [done|]. exfalso.
    assert (Hlt' : scaled m e < 2 ^ 53 * 2 ^ 1027).
    2: { change (2 ^ 53 * 2 ^ 1027) with (64 * 2 ^ 1074) in Hlt'.
         assert (H0 : 0 < 2 ^ 1074) by done.
         revert Hlow Hlt' H0. generalize (2 ^ 1074), (scaled m e). intros; lia. }
    unfold scaled. apply Z.le_lt_trans with (Z.pos m * 2 ^ 1027).
    - apply Z.mul_le_mono_nonneg_l; [lia|]. apply Z.pow_le_mono_r; lia.
    - by apply Z.mul_lt_mono_pos_r. }
  pose proof (canonical_normal m e Hcan ltac:(lia)) as [Hm52 _].
  assert (Hd : Zdigits2 (Z.pos m) = 53) by (apply Zdigits2_unique; [done|lia]).
  unfold Py.fsqrt, SFsqrt, SFsqrt_core_binary. rewrite Hd.
  set (g := Z.div2 (53 + e + 1)).
  set (e' := Z.min (fexp g) (Z.div2 e)).
  set (s := e - 2 * e').
  assert (Hg : 2 * g <= 53 + e + 1 <= 2 * g + 1).
  { unfold g. rewrite Z.div2_div.
    pose proof (Z.div_mod (53 + e + 1) 2). pose proof (Z.mod_pos_bound (53 + e + 1) 2). lia. }
  assert (Hex : 2 * Z.div2 e <= e <= 2 * Z.div2 e + 1).
  { rewrite Z.div2_div. pose proof (Z.div_mod e 2). pose proof (Z.mod_pos_bound e 2). lia. }
  assert (Hfg : fexp g = g - 53) by (rewrite fexp_eq; lia).
  assert (Hs : 0 <= s) by lia.
  set (m' := match s with Z.pos _ => Z.shiftl (Z.pos m) s | 0 => Z.pos m | Z.neg _ => 0 end).
  assert (Hm' : m' = Z.pos m * 2 ^ s).
  { unfold m'. destruct s as [|p|p] eqn:Es; [lia| |lia].
    by rewrite Z.shiftl_mul_pow2. }
  assert (Hm'pos : 0 < m').
  { rewrite Hm'. apply Z.mul_pos_pos; [lia|]. apply Z.pow_pos_nonneg; lia. }
  pose proof (Z.sqrtrem_sqrt m') as Hq.
  destruct (Z.sqrtrem m') as [q r]. simpl in Hq. subst q.
  assert (Hqpos : 0 < Z.sqrt m') by (apply Z.sqrt_pos; lia).
  assert (Hdq : Zdigits2 (Z.sqrt m') + e' = g).
  { rewrite Zdigits2_sqrt by done. rewrite Hm', Zdigits2_mul_pow2 by lia.
    rewrite Hd. unfold s.
    replace (53 + (e - 2 * e') + 1) with ((53 + e + 1) + (- e') * 2) by lia.
    rewrite Z.div_add by lia. unfold g. rewrite Z.div2_div. lia. }
  match goal with
  | |- context [binary_round_aux _ _ _ _ _ ?l] =>
      destruct (binary_round_aux_canonical false (Z.sqrt m') e' l)
        as (m5 & e5 & -> & Hc5 & Hb); [done|rewrite Hdq; lia|lia|]
  end.
  rewrite Hdq, Hfg in Hb.
  destruct (e5 <=? 971); [|done].
  assert (He5 : -49 <= e5) by lia.
  unfold Py.le. cbn [Py.compare]. rewrite float_compare_int_scaled by lia.
  enough (8 * 2 ^ 1074 < scaled m5 e5) as Hgt
    by (by rewrite (proj2 (Z.compare_gt_iff _ _) Hgt)).
  apply scaled_above_8; [done|].
  destruct Hb as [[-> Hm5]|He5'].
  - (* the root is truncated at the target exponent *)
    pose proof (Zdigits2_shiftr (Z.sqrt m') (g - 53 - e') Hqpos ltac:(lia)) as Hdt.
    assert (Ht : 2 ^ 52 <= Z.sqrt m' / 2 ^ (g - 53 - e')).
    { assert (Hdt' : Zdigits2 (Z.sqrt m' / 2 ^ (g - 53 - e')) = 53) by lia.
      assert (0 < Z.sqrt m' / 2 ^ (g - 53 - e')).
      { destruct (Z.le_gt_cases (Z.sqrt m' / 2 ^ (g - 53 - e')) 0) as [Hle|]; [|done].
        assert (0 <= Z.sqrt m' / 2 ^ (g - 53 - e'))
          by (apply Z.div_pos; [lia|apply Z.pow_pos_nonneg; lia]).
        replace (Z.sqrt m' / 2 ^ (g - 53 - e')) with 0 in Hdt' by lia. done. }
      pose proof (Zdigits2_spec _ H) as [Hlo _]. by rewrite Hdt' in Hlo. }
    destruct (Z.le_gt_cases 5 g) as [Hg5|Hg4]; [right; lia|left].
    assert (g = 4) as -> by lia.
    assert (e' = -49) as He'49 by lia.
    rewrite He'49 in Hm5. change (4 - 53 - -49) with 0 in Hm5.
    rewrite Z.pow_0_r, Z.div_1_r in Hm5.
    eapply Z.lt_le_trans; [|exact Hm5].
    enough (2 ^ 52 + 1 <= Z.sqrt m') by lia.
    apply Z.sqrt_le_square; [lia|done|].
    (* [(2 ^ 52 + 1) ^ 2 <= 65 * 2 ^ 98 <= m'] *)
    apply Z.le_trans with (65 * 2 ^ 98); [vm_compute; discriminate|].
    apply (Z.mul_le_mono_pos_r _ _ (2 ^ 976)); [done|].
    change (65 * 2 ^ 98 * 2 ^ 976) with (65 * 2 ^ 1074).
    rewrite Hm', <- Z.mul_assoc, <- Z.pow_add_r by lia.
    replace (s + 976) with (e + 1074) by (unfold s; lia). exact Hlow.
  - pose proof (canonical_normal m5 e5 Hc5 ltac:(lia)) as [Hm5 _].
    right. lia.
Qed.

Lemma sqrt_le_8_small (n : Z) :
  0 <= n <= 64 ->
  exists d, Py.sqrt (Py.Int n) = Ok d /\ Py.le d (Py.Int 8) = true.
Proof.
  intros Hn.
  assert (Hall : forallb (fun k : nat =>
                            match Py.sqrt (Py.Int (Z.of_nat k)) with
                            | Ok d => Py.le d (Py.Int 8)
                            | Raise _ => false
                            end) (seq 0 65) = true) by (vm_compute; reflexivity).
  rewrite forallb_forall in Hall. specialize (Hall (Z.to_nat n)).
  rewrite Z2Nat.id in Hall by lia.
  destruct (Py.sqrt (Py.Int n)) as [d|x].
  - exists d. split; [done|]. apply Hall. apply in_seq. lia.
  - discriminate Hall. apply in_seq. lia.
Qed.

(** For an int [n], [math.sqrt(n) <= 8] exactly when [n <= 64]. *)
Lemma sqrt_le_8 (n : Z) :
  0 <= n -> Zdigits2 n <= 1023 ->
  exists d, Py.sqrt (Py.Int n) = Ok d /\ Py.le d (Py.Int 8) = (n <=? 64).
Proof.
  intros Hn Hd. destruct (Z.leb_spec n 64) as [Hle|Hgt].
  - by apply sqrt_le_8_small.
  - destruct (float_of_int_lower n 65) as (m & e & E & Hv & Hlow); [lia|done|done|].
    unfold Py.sqrt. cbn [Py.to_float]. rewrite E. cbn [mbind result_bind].
    eexists. split; [reflexivity|]. by apply fsqrt_above_8.
Qed.

(** With the click tolerance of 8, a point is hit exactly when its
    squared device distance to the position is at most the squared
    tolerance. *)
Lemma point_hit_exact (s : drawer) (cx cy : Z) (p : point) :
  store_ok s -> device_ok cx -> device_ok cy -> point_ok p ->
  point_hit s cx cy p
  = Ok ((cx - coord_to_canvas_x s (fst p)) ^ 2
        + (cy - coord_to_canvas_y s (snd p)) ^ 2 <=? click_tolerance s ^ 2).
Proof.
  intros Hs Hx Hy [Hp1 Hp2]. pose proof Hs as (_ & _ & _ & Htol & _).
  unfold point_hit. cbv zeta. rewrite Htol. change (8 ^ 2) with 64.
  destruct (sqrt_le_8 ((cx - coord_to_canvas_x s (fst p)) ^ 2
                       + (cy - coord_to_canvas_y s (snd p)) ^ 2))
    as (d & -> & Hd); [apply sum_squares_nonneg| |by rewrite <- Hd].
  etrans; [|apply (Z.lt_le_incl 120 1023 eq_refl)].
  apply Zdigits2_le_pow; [lia|]. split; [apply sum_squares_nonneg|].
  pose proof (canvas_x_bound s (fst p) Hs Hp1) as Hbx.
  pose proof (canvas_y_bound s (snd p) Hs Hp2) as Hby.
  apply device_bound in Hx, Hy.
  assert (Z.abs (cx - coord_to_canvas_x s (fst p)) <= 2 ^ 59) as H1
    by (change (2 ^ 59) with (2 * 2 ^ 58); lia).
  assert (Z.abs (cy - coord_to_canvas_y s (snd p)) <= 2 ^ 59) as H2
    by (change (2 ^ 59) with (2 * 2 ^ 58); lia).
  apply sq_bound in H1, H2. change (2 ^ 120) with (4 * (2 ^ 59) ^ 2). lia.
Qed.


(** ** The two searches *)

(** C4. [find_point_at_position] tests the stored points in scan order and
    returns the reference of the first point whose test passes.  The scan
    order holds exactly the stored points, each under its reference, in
    the order of the references: the current route, reported as [-1],
    by point index, then the committed routes by index, each by point
    index.  So the search returns a reference exactly when its point
    passes the test and every point stored under an earlier reference
    fails it, whether or not a later point is nearer, and it returns
    [None] exactly when every stored point fails the test.  A point of
    the current route that passes, with the current route's earlier
    points failing, is returned whatever the committed routes hold, as
    for the coincident points of [coincident].  For a drawer with stored
    coordinates in range and a device position the search returns without
    raising, and the test of a point, that the square root of its squared
    device distance to the position is at most the click tolerance, is
    exactly that the squared distance is at most the squared tolerance. *)
Theorem find_point_at_position_spec (s : drawer) (canvas_x canvas_y : Z) :
  let test := fun x : (Z * Z) * point => point_hit s canvas_x canvas_y (snd x) in
  find_point_at_position s canvas_x canvas_y
  = (found ← first_match test (scan_order s); Ok (option_map fst found))
  /\ (forall (ref : Z * Z) (p : point), (ref, p) ∈ scan_order s <-> point_at s ref p)
  /\ StronglySorted (fun x y : (Z * Z) * point => ref_lt (fst x) (fst y)) (scan_order s)
  /\ (forall ref : Z * Z,
        find_point_at_position s canvas_x canvas_y = Ok (Some ref)
        <-> (exists p, point_at s ref p /\ point_hit s canvas_x canvas_y p = Ok true)
            /\ (forall ref' p', point_at s ref' p' -> ref_lt ref' ref ->
                                point_hit s canvas_x canvas_y p' = Ok false))
  /\ (find_point_at_position s canvas_x canvas_y = Ok None
      <-> forall ref p, point_at s ref p -> point_hit s canvas_x canvas_y p = Ok false)
  /\ (forall (i : nat) (p : point),
        current_route s !! i = Some p ->
        Forall (fun q => point_hit s canvas_x canvas_y q = Ok false)
               (take i (current_route s)) ->
        point_hit s canvas_x canvas_y p = Ok true ->
        find_point_at_position s canvas_x canvas_y = Ok (Some (-1, Z.of_nat i)))
  /\ (current_route coincident = [(1, 1)] /\ routes coincident = [[(1, 1)]]
      /\ find_point_at_position coincident 20 20 = Ok (Some (-1, 0)))
  /\ (store_ok s -> device_ok canvas_x -> device_ok canvas_y ->
      (exists found, find_point_at_position s canvas_x canvas_y = Ok found)
      /\ (forall p : point,
            point_ok p ->
            point_hit s canvas_x canvas_y p
            = Ok ((canvas_x - coord_to_canvas_x s (fst p)) ^ 2
                  + (canvas_y - coord_to_canvas_y s (snd p)) ^ 2
                  <=? click_tolerance s ^ 2))).
Proof.
  intros test. split; [apply find_point_first_match|].
  split; [apply elem_of_scan_order_point_at|].
  split; [apply scan_order_sorted|].
  split; [apply find_point_least|].
  split; [apply find_point_none|].
  split; [|split].
  - intros i p Hl Hmiss Hp. unfold find_point_at_position.
    by rewrite (scan_points_hit s canvas_x canvas_y _ 0 i p).
  - by vm_compute.
  - intros Hs Hx Hy. split; [by apply find_point_at_position_ok|].
    intros p Hp. by apply point_hit_exact.
Qed.


(** ** Snapping rounds to the nearest grid line *)

Lemma round_half_even_round_div (m k : Z) :
  Py.round_half_even m k = round_div m (2 ^ k).
Proof. done. Qed.

(** Two fractions with no multiple of one half between them or on them
    round to the same integer. *)
Lemma round_div_near (A B C D : Z) :
  0 < B -> 0 < D ->
  (forall n : Z, (n * B < 2 * A /\ n * D < 2 * C) \/ (2 * A < n * B /\ 2 * C < n * D)) ->
  round_div A B = round_div C D.
Proof.
  intros HB HD H. unfold round_div.
  pose proof (Z.div_mod A B ltac:(lia)) as EA.
  pose proof (Z.mod_pos_bound A B HB) as RA.
  pose proof (Z.div_mod C D ltac:(lia)) as EC.
  pose proof (Z.mod_pos_bound C D HD) as RC.
  assert (Hq : C / D = A / B).
  { pose proof (H (2 * (A / B))) as H0. pose proof (H (2 * (A / B) + 2)) as H2.
    symmetry. apply Z.div_unique with (C - D * (A / B)); [|lia].
    left. nia. }
  rewrite Hq in *.
  pose proof (H (2 * (A / B) + 1)) as H1.
  destruct (Z.compare_spec (2 * (A mod B)) B), (Z.compare_spec (2 * (C mod D)) D);
    try done; exfalso; nia.
Qed.

Lemma round_div_same (A B C D : Z) :
  0 < B -> 0 < D -> A * D = C * B -> round_div A B = round_div C D.
Proof.
  intros HB HD H. unfold round_div.
  pose proof (Z.div_mod A B ltac:(lia)) as EA.
  pose proof (Z.mod_pos_bound A B HB) as RA.
  pose proof (Z.div_mod C D ltac:(lia)) as EC.
  pose proof (Z.mod_pos_bound C D HD) as RC.
  assert (Hq : C / D = A / B).
  { symmetry. apply Z.div_unique with (C - D * (A / B)); [|lia]. left. nia. }
  rewrite Hq in *.
  assert (Hr : (A mod B) * D = (C mod D) * B) by nia.
  destruct (Z.compare_spec (2 * (A mod B)) B), (Z.compare_spec (2 * (C mod D)) D);
    try done; exfalso; nia.
Qed.

Lemma round_div_opp (a g : Z) : 0 < g -> round_div (- a) g = - round_div a g.
Proof.
  intros Hg. unfold round_div.
  pose proof (Z.div_mod a g ltac:(lia)) as Ea.
  pose proof (Z.mod_pos_bound a g Hg) as Ra.
  destruct (decide (a mod g = 0)) as [E0|E0].
  - assert (Hq : - a / g = - (a / g)).
    { symmetry. apply Z.div_unique with 0; [lia|]. lia. }
    assert (Hr : - a mod g = 0).
    { symmetry. apply Z.mod_unique with (- (a / g)); [lia|]. lia. }
    rewrite Hq, Hr, E0.
    replace (2 * 0 ?= g) with Lt by (symmetry; apply Z.compare_lt_iff; lia). done.
  - assert (Hq : - a / g = - (a / g) - 1).
    { symmetry. apply Z.div_unique with (g - a mod g); [lia|]. lia. }
    assert (Hr : - a mod g = g - a mod g).
    { symmetry. apply Z.mod_unique with (- (a / g) - 1); [lia|]. lia. }
    rewrite Hq, Hr.
    replace (Z.even (- (a / g) - 1)) with (negb (Z.even (a / g))).
    2: { replace (- (a / g) - 1) with (- (a / g + 1)) by lia.
         rewrite Z.even_opp, Z.even_add. by destruct (Z.even (a / g)). }
    destruct (Z.compare_spec (2 * (a mod g)) g),
             (Z.compare_spec (2 * (g - a mod g)) g); try lia.
    destruct (Z.even (a / g)); simpl; lia.
Qed.

Lemma fdiv_20_round (sx : bool) (a : positive) :
  Z.pos a <= 2 ^ 31 ->
  exists M E,
    Py.fdiv (S754_finite sx a 0) (S754_finite false 20 0) = S754_finite sx M E
    /\ E < 0 /\ round_div (Z.pos M) (2 ^ (- E)) = round_div (Z.pos a) 20.
Proof.
  intros Ha. unfold Py.fdiv, SFdiv, SFdiv_core_binary.
  rewrite !Z.add_0_r, Z.sub_diag, Z.sub_0_l, xorb_false_r.
  change (Zdigits2 20) with 5.
  pose proof (Zdigits2_spec (Z.pos a) ltac:(lia)) as [Hlo Hhi].
  pose proof (Zdigits2_pos_lt (Z.pos a) ltac:(lia)) as Hd1.
  assert (Hd32 : Zdigits2 (Z.pos a) <= 32).
  { apply Zdigits2_le_pow; [lia|]. change (2 ^ 32) with (2 * 2 ^ 31). lia. }
  remember (Zdigits2 (Z.pos a)) as d1 eqn:Ed1.
  rewrite fexp_eq. rewrite Z.max_l, Z.min_l by lia.
  replace (d1 - 5 - 53) with (d1 - 58) by lia.
  remember (58 - d1) as s eqn:Es.
  assert (Hs : 26 <= s <= 57) by lia.
  replace (- (d1 - 58)) with s by lia.
  replace (d1 - 58) with (- s) by lia.
  assert (Hm' : match s with
                | 0 => Z.pos a
                | Z.pos _ => Z.shiftl (Z.pos a) s
                | Z.neg _ => 0
                end = Z.pos a * 2 ^ s).
  { destruct s as [|p|p] eqn:E; [lia| |lia]. by rewrite Z.shiftl_mul_pow2. }
  rewrite Hm', div_eucl_div_mod. clear Hm'.
  assert (HX : 2 ^ 26 <= 2 ^ s) by (apply Z.pow_le_mono_r; lia).
  assert (Hdm : Zdigits2 (Z.pos a * 2 ^ s) = 58)
    by (rewrite Zdigits2_mul_pow2 by lia; lia).
  pose proof (Zdigits2_spec (Z.pos a * 2 ^ s) ltac:(lia)) as [Hmlo Hmhi].
  rewrite Hdm in Hmlo, Hmhi.
  destruct (decide (Z.pos a mod 5 = 0)) as [H5|H5].
  - (* the quotient is a double *)
    remember (Z.pos a / 5) as b eqn:Eb.
    assert (Hab : Z.pos a = 5 * b) by (rewrite Eb; apply Z_div_exact_full_2; lia).
    assert (Hb : 0 < b) by lia.
    remember (Zdigits2 b) as db eqn:Edb.
    pose proof (Zdigits2_pos_lt b Hb) as Hdb. rewrite <- Edb in Hdb.
    assert (Hdb' : db <= d1 <= db + 3).
    { pose proof (Zdigits2_mul 5 b ltac:(lia) Hb) as Hmul.
      rewrite <- Hab, <- Ed1, <- Edb in Hmul. change (Zdigits2 5) with 3 in Hmul.
      split; [|lia]. rewrite Ed1, Edb. apply Zdigits2_le. lia. }
    assert (Hp : forall k, 0 <= k -> 0 < 2 ^ k) by (intros; apply Z.pow_pos_nonneg; lia).
    pose proof (Hp (53 - db) ltac:(lia)) as Hp53.
    assert (Hm2 : 0 < b * 2 ^ (53 - db)) by (apply Z.mul_pos_pos; lia).
    destruct (b * 2 ^ (53 - db)) as [|m2|m2] eqn:Em2; [lia| |lia].
    assert (Hdm2 : Zdigits2 (Z.pos m2) = 53).
    { rewrite <- Em2, Zdigits2_mul_pow2 by lia. lia. }
    replace (Z.pos a * 2 ^ s) with (Z.pos m2 * 2 ^ (s - 55 + db) * 20).
    2: { rewrite <- Em2, Hab.
         replace (b * 2 ^ (53 - db) * 2 ^ (s - 55 + db)) with (b * 2 ^ (s - 2)).
         2: { rewrite <- Z.mul_assoc, <- Z.pow_add_r by lia. do 2 f_equal. lia. }
         replace (2 ^ s) with (4 * 2 ^ (s - 2)).
         2: { change 4 with (2 ^ 2). rewrite <- Z.pow_add_r by lia. f_equal. lia. }
         lia. }
    rewrite Z.div_mul, Z.mod_mul by lia. rewrite new_location_zero.
    rewrite binary_round_aux_exact; [|lia| |lia].
    2: { rewrite Hdm2, fexp_eq. lia. }
    exists m2, (- s + (s - 55 + db)). split; [done|]. split; [lia|].
    apply round_div_same; [apply Hp; lia|lia|].
    replace (- (- s + (s - 55 + db))) with (2 + (53 - db)) by lia.
    rewrite Z.pow_add_r by lia. change (2 ^ 2) with 4. rewrite <- Em2, Hab. lia.
  - (* the quotient is rounded, by less than its distance to a half *)
    remember (Z.pos a * 2 ^ s) as m' eqn:Em'.
    remember (m' / 20) as q eqn:Eq.
    pose proof (Z.div_mod m' 20 ltac:(lia)) as Hdiv.
    pose proof (Z.mod_pos_bound m' 20 ltac:(lia)) as Hmod.
    rewrite <- Eq in Hdiv.
    assert (Hq : 2 ^ 52 <= q < 2 ^ 54).
    { change (2 ^ 57) with (32 * 2 ^ 52) in Hmlo.
      change (2 ^ 58) with (16 * 2 ^ 54) in Hmhi. lia. }
    assert (Hdq : 53 <= Zdigits2 q <= 54).
    { split; [|apply Zdigits2_le_pow; lia].
      change 53 with (Zdigits2 (2 ^ 52)). apply Zdigits2_le. lia. }
    destruct (binary_round_aux_unfold sx q (- s) (new_location 20 (m' mod 20))
                ltac:(lia)) as (m3 & Hm3 & ->).
    remember (Zdigits2 q) as dq eqn:Edq.
    assert (Hf1 : fexp (dq + - s) = dq - s - 53) by (rewrite fexp_eq; lia).
    rewrite !Hf1 in *.
    replace (Z.max 0 (dq - s - 53 - - s)) with (dq - 53) in * by lia.
    remember (dq - 53) as n1 eqn:En1.
    assert (Hn1 : n1 = 0 \/ n1 = 1) by lia.
    assert (HQ1 : 2 ^ 52 <= q / 2 ^ n1 < 2 ^ 53).
    { pose proof (Zdigits2_shiftr q n1 ltac:(lia) ltac:(lia)) as Hsh.
      rewrite <- Edq in Hsh. replace (Z.max 0 (dq - n1)) with 53 in Hsh by lia.
      assert (0 < q / 2 ^ n1).
      { apply Z.div_str_pos. split; [destruct Hn1 as [->| ->]; done|].
        destruct Hn1 as [->| ->]; simpl; lia. }
      pose proof (Zdigits2_spec _ H) as Hsp. by rewrite Hsh in Hsp. }
    assert (Hdm3 : 53 <= Zdigits2 m3 <= 54).
    { split.
      - change 53 with (Zdigits2 (2 ^ 52)). apply Zdigits2_le. lia.
      - apply Zdigits2_le_pow; [lia|]. change (2 ^ 54) with (2 * 2 ^ 53). lia. }
    remember (Zdigits2 m3) as dm3 eqn:Edm3.
    assert (Hf2 : fexp (dm3 + (- s + n1)) = dm3 - s + n1 - 53)
      by (rewrite fexp_eq; lia).
    rewrite !Hf2.
    replace (Z.max 0 (dm3 - s + n1 - 53 - (- s + n1))) with (dm3 - 53) by lia.
    remember (dm3 - 53) as n2 eqn:En2.
    assert (Hn2 : n2 = 0 \/ n2 = 1) by lia.
    assert (HM : 2 ^ 52 <= m3 / 2 ^ n2).
    { pose proof (Zdigits2_shiftr m3 n2 ltac:(lia) ltac:(lia)) as Hsh.
      rewrite <- Edm3 in Hsh. replace (Z.max 0 (dm3 - n2)) with 53 in Hsh by lia.
      assert (0 < m3 / 2 ^ n2).
      { apply Z.div_str_pos. split; [destruct Hn2 as [->| ->]; done|].
        destruct Hn2 as [->| ->]; simpl; lia. }
      pose proof (Zdigits2_spec _ H) as Hsp. rewrite Hsh in Hsp. apply Hsp. }
    destruct (m3 / 2 ^ n2) as [|M|M] eqn:EM; [lia| |lia].
    replace (- s + n1 + n2 <=? Py.emax - Py.prec) with true
      by (symmetry; apply Z.leb_le; unfold Py.emax, Py.prec; lia).
    exists M, (- s + n1 + n2). split; [done|]. split; [lia|].
    replace (- (- s + n1 + n2)) with (s - n1 - n2) by lia.
    remember (2 ^ (s - n1 - n2)) as B eqn:EB.
    assert (HB : 0 < B) by (rewrite EB; apply Z.pow_pos_nonneg; lia).
    assert (HXB : 2 ^ s = B * 2 ^ n1 * 2 ^ n2).
    { rewrite EB, <- !Z.pow_add_r by lia. f_equal. lia. }
    pose proof (Z.div_mod q (2 ^ n1) ltac:(destruct Hn1 as [->| ->]; done)) as Hd1'.
    pose proof (Z.mod_pos_bound q (2 ^ n1) ltac:(destruct Hn1 as [->| ->]; done)) as Hr1.
    pose proof (Z.div_mod m3 (2 ^ n2) ltac:(destruct Hn2 as [->| ->]; done)) as Hd2'.
    pose proof (Z.mod_pos_bound m3 (2 ^ n2) ltac:(destruct Hn2 as [->| ->]; done)) as Hr2.
    rewrite EM in Hd2'.
    apply round_div_near; [done|lia|]. intros n.
    assert (Hne : 10 * n <> Z.pos a).
    { intros E. apply H5. rewrite <- E. replace (10 * n) with (2 * n * 5) by lia.
      apply Z.mod_mul. lia. }
    destruct (Z.lt_ge_cases (10 * n) (Z.pos a)) as [Hlt|Hge].
    + left. split; [|lia].
      assert (Hmul : (10 * n + 1) * 2 ^ s <= Z.pos a * 2 ^ s)
        by (apply Z.mul_le_mono_nonneg_r; lia).
      rewrite <- Em' in Hmul. rewrite HXB in Hmul, HX.
      change (2 ^ 26) with 67108864 in HX.
      destruct Hn1 as [-> | ->], Hn2 as [-> | ->];
        change (2 ^ 0) with 1 in *; change (2 ^ 1) with 2 in *; lia.
    + right. split; [|lia].
      assert (Hmul : (Z.pos a + 1) * 2 ^ s <= 10 * n * 2 ^ s)
        by (apply Z.mul_le_mono_nonneg_r; lia).
      rewrite Z.mul_add_distr_r, <- Em' in Hmul. rewrite HXB in Hmul, HX.
      change (2 ^ 26) with 67108864 in HX.
      destruct Hn1 as [-> | ->], Hn2 as [-> | ->];
        change (2 ^ 0) with 1 in *; change (2 ^ 1) with 2 in *; lia.
Qed.

(** [round(c / 20)] is the integer nearest to the exact quotient. *)
Lemma snap_nearest (c : Z) :
  device_ok c ->
  (q ← Py.truediv (Py.Int c) (Py.Int 20); Py.round q) = Ok (round_div c 20).
Proof.
  unfold device_ok. intros Hc. cbn [Py.truediv]. unfold Py.int_truediv.
  change (20 =? 0) with false. change (20 <? 0) with false.
  change (Z.to_pos (Z.abs 20)) with 20%positive. cbv iota.
  destruct c as [|p|p].
  - done.
  - change (Z.pos p =? 0) with false. change (Z.pos p <? 0) with false. cbv iota.
    change (Z.to_pos (Z.abs (Z.pos p))) with p.
    destruct (fdiv_20_round false p Hc) as (M & E & -> & HE & Hr).
    cbn [Py.is_inf mbind result_bind Py.round].
    replace (0 <=? E) with false by (symmetry; apply Z.leb_gt; lia).
    by rewrite round_half_even_round_div, Hr.
  - change (Z.neg p =? 0) with false. change (Z.neg p <? 0) with true. cbv iota.
    change (Z.to_pos (Z.abs (Z.neg p))) with p.
    destruct (fdiv_20_round true p Hc) as (M & E & -> & HE & Hr).
    cbn [Py.is_inf mbind result_bind Py.round].
    replace (0 <=? E) with false by (symmetry; apply Z.leb_gt; lia).
    rewrite round_half_even_round_div, Hr.
    change (Z.neg p) with (- Z.pos p). by rewrite round_div_opp.
Qed.

Lemma canvas_to_coord_x_nearest (s : drawer) (c : Z) :
  store_ok s -> device_ok c ->
  canvas_to_coord_x s c = Ok (round_div (c - origin_x s) (grid_size s)).
Proof.
  intros (Hg & Hx & _) Hc. unfold canvas_to_coord_x. rewrite Hg, Hx.
  cbn [Py.sub mbind result_bind]. rewrite Z.sub_0_r. by apply snap_nearest.
Qed.

Lemma canvas_to_coord_y_nearest (s : drawer) (c : Z) :
  store_ok s -> device_ok c ->
  canvas_to_coord_y s c = Ok (round_div (c - origin_y s) (grid_size s)).
Proof.
  intros (Hg & _ & Hy & _) Hc. unfold canvas_to_coord_y. rewrite Hg, Hy.
  cbn [Py.sub mbind result_bind]. rewrite Z.sub_0_r. by apply snap_nearest.
Qed.

(** The nearest integer is within half a cell of the exact quotient. *)
Lemma round_div_nearest (a g : Z) :
  0 < g -> 2 * Z.abs (a - round_div a g * g) <= g.
Proof.
  intros Hg. unfold round_div.
  pose proof (Z.div_mod a g ltac:(lia)) as Ea.
  pose proof (Z.mod_pos_bound a g Hg) as Ra.
  destruct (Z.compare_spec (2 * (a mod g)) g); [destruct (Z.even (a / g))| |]; lia.
Qed.

(** ** The grid round trip *)




(** Every point a reachable drawer stores survives the round trip. *)
Lemma stored_point_roundtrip (s : drawer) (r : route) (p : point) :
  reachable s -> r = current_route s \/ r ∈ routes s -> p ∈ r ->
  canvas_to_coord_x s (coord_to_canvas_x s (fst p)) = Ok (fst p)
  /\ canvas_to_coord_y s (coord_to_canvas_y s (snd p)) = Ok (snd p).
Proof.
  intros Hs Hr Hp. apply reachable_store_ok in Hs as (Hg & _ & _ & _ & Hrs & Hc).
  assert (route_ok r) as Hok.
  { destruct Hr as [->|Hr]; [done|]. by apply (proj1 (Forall_forall _ _) Hrs). }
  destruct (proj1 (Forall_forall _ _) Hok p Hp) as [Hx Hy]. split.
  - apply canvas_to_coord_x_roundtrip; [lia|done].
  - apply canvas_to_coord_y_roundtrip; [lia|done].
Qed.

(** The converse is not exact: snapping sends a neighbourhood of device
    positions to one grid point, and a position half way between two grid
    lines to the even one. *)
Lemma canvas_to_coord_snaps :
  canvas_to_coord_x init 29 = Ok 1
  /\ canvas_to_coord_x init 31 = Ok 2
  /\ canvas_to_coord_x init 10 = Ok 0
  /\ canvas_to_coord_x init 30 = Ok 2
  /\ canvas_to_coord_x init 50 = Ok 2
  /\ canvas_to_coord_y init (-30) = Ok (-2).
Proof. by vm_compute. Qed.

(** ** Feature extraction *)

Lemma float_of_int_2 :
  Py.float_of_int 2 = Ok (S754_finite false 4503599627370496 (-51)).
Proof. by vm_compute. Qed.

Lemma float_of_int_3 :
  Py.float_of_int 3 = Ok (S754_finite false 6755399441055744 (-51)).
Proof. by vm_compute. Qed.

Lemma distance_ok_float (f : spec_float) : distance_ok (Py.Float f).
Proof. by exists f. Qed.

Lemma get_middle_point_ok (r : route) :
  route_ok r -> exists p, get_middle_point r = Ok p.
Proof.
  intros Hr. unfold get_middle_point.
  destruct (calculate_route_length_ok r Hr) as [total ->].
  cbn [mbind result_bind Py.truediv Py.to_float]. rewrite float_of_int_2.
  cbn [mbind result_bind Py.is_zero].
  apply get_point_at_distance_ok; [done|apply distance_ok_float].
Qed.

Lemma get_third_points_ok (r : route) :
  route_ok r -> exists p, get_third_points r = Ok p.
Proof.
  intros Hr. unfold get_third_points.
  destruct (calculate_route_length_ok r Hr) as [total ->].
  cbn [mbind result_bind Py.truediv Py.mul Py.to_float].
  rewrite float_of_int_3, float_of_int_2. cbn [mbind result_bind Py.is_zero].
  destruct (get_point_at_distance_ok r (Py.Float (Py.fdiv total
              (S754_finite false 6755399441055744 (-51)))) Hr (distance_ok_float _))
    as [p1 ->].
  cbn [mbind result_bind Py.truediv Py.to_float]. rewrite float_of_int_3.
  cbn [mbind result_bind Py.is_zero].
  destruct (get_point_at_distance_ok r (Py.Float (Py.fdiv
              (Py.fmul (S754_finite false 4503599627370496 (-51)) total)
              (S754_finite false 6755399441055744 (-51)))) Hr (distance_ok_float _))
    as [p2 ->].
  by eexists.
Qed.

Lemma calculate_euclidean_distance_ok (r : route) :
  route_ok r -> exists d, calculate_euclidean_distance r = Ok d.
Proof.
  intros Hr. unfold calculate_euclidean_distance.
  destruct (length r <? 2)%nat eqn:E; [by eexists|].
  destruct r as [|a r]; [done|].
  rewrite (getitem_head (a :: r) a) by done.
  destruct (last (a :: r)) as [l|] eqn:El; [|by apply last_None in El].
  rewrite (getitem_last _ _ El). destruct a as [x1 y1], l as [x2 y2].
  cbn [mbind result_bind].
  assert (point_ok (x1, y1)) as H1 by (by apply Forall_cons in Hr as [? _]).
  assert (point_ok (x2, y2)) as H2.
  { apply last_Some in El as [l' El]. rewrite El in Hr.
    apply Forall_app in Hr as [_ Hr]. exact (proj1 (Forall_singleton _ _) Hr). }
  destruct (segment_length_ok _ _ H1 H2) as (f & -> & _). by eexists.
Qed.

(** A route in range with at least one point has a feature vector, with
    one entry per feature name. *)
Lemma extract_single_route_features_ok (r : route) (m t e : bool) :
  route_ok r -> r <> [] ->
  exists row, extract_single_route_features r m t e = Ok row
              /\ length row = length (feature_names m t e).
Proof.
  intros Hr Hne. unfold extract_single_route_features.
  destruct r as [|a r]; [done|].
  rewrite (getitem_head (a :: r) a) by done.
  destruct (last (a :: r)) as [l|] eqn:El; [|by apply last_None in El].
  rewrite (getitem_last _ _ El). destruct a as [x1 y1], l as [x2 y2].
  cbn [mbind result_bind].
  destruct (calculate_route_length_ok _ Hr) as [total ->]. cbn [mbind result_bind].
  destruct (get_middle_point_ok _ Hr) as [[mx my] Em].
  destruct (get_third_points_ok _ Hr) as [[[ax ay] [bx by']] Et].
  destruct (calculate_euclidean_distance_ok _ Hr) as [d Ed].
  destruct m, t, e; rewrite ?Em, ?Et, ?Ed; cbn [mbind result_bind];
    eexists; (split; [reflexivity|done]).
Qed.

Section Rows.
Context {A B : Type} (f : A -> result B).

Lemma mapM_result_app (l1 l2 : list A) :
  mapM f (l1 ++ l2)
  = (a ← mapM f l1; b ← mapM f l2; Ok (a ++ b)).
Proof.
  induction l1 as [|x l1 IH]; simpl.
  - by destruct (mapM f l2).
  - destruct (f x); simpl; [|done]. rewrite IH.
    destruct (mapM f l1); simpl; [|done]. by destruct (mapM f l2).
Qed.

Lemma mapM_result_Ok (l : list A) (k : list B) :
  mapM f l = Ok k <-> Forall2 (fun x y => f x = Ok y) l k.
Proof.
  split.
  - revert k. induction l as [|x l IH]; simpl; intros k.
    + intros [= <-]. constructor.
    + destruct (f x) eqn:Ex; simpl; [|done].
      destruct (mapM f l); simpl; [|done]. intros [= <-]. constructor; auto.
  - induction 1 as [|x y l k Hx _ IH]; simpl; [done|]. by rewrite Hx, IH.
Qed.

Lemma mapM_result_total (l : list A) :
  Forall (fun x => exists y, f x = Ok y) l -> exists k, mapM f l = Ok k.
Proof.
  induction 1 as [|x l [y Hx] _ [k IH]]; simpl; [by eexists|].
  rewrite Hx, IH. by eexists.
Qed.
End Rows.

Lemma extract_loop_rows (m t e : bool) (rs : list route) (i : nat)
    (features : list (list Py.num)) (route_labels : list string) :
  let qs := omap (fun ir : nat * route =>
                    if qualifies (snd ir)
                    then Some (route_label (fst ir), snd ir) else None)
                 (imap (fun k r => ((i + k)%nat, r)) rs) in
  extract_loop m t e rs i features route_labels
  = (rows ← feature_rows m t e qs;
     Ok (features ++ rows, route_labels ++ map fst qs)).
Proof.
  revert i features route_labels.
  induction rs as [|r rs IH]; intros i features route_labels qs; subst qs.
  - simpl. by rewrite !app_nil_r.
  - cbn [extract_loop]. rewrite imap_cons. cbn [omap list_omap fst snd].
    rewrite (imap_ext _ (fun k r => ((S i + k)%nat, r)))
      by (intros; simpl; f_equal; lia).
    rewrite Nat.add_0_r. change (qualifies r) with (2 <=? length r)%nat.
    destruct (2 <=? length r)%nat.
    + unfold feature_rows. cbn [mapM fst snd map].
      destruct (extract_single_route_features r m t e) as [row|x]; [|done].
      cbn [mbind result_bind]. rewrite IH. unfold feature_rows.
      destruct (mapM _ _) as [rows|x]; [|done].
      cbn [mbind result_bind mret result_ret]. by rewrite <- !app_assoc.
    + apply IH.
Qed.

Lemma extract_route_features_rows (s : drawer) (m t e : bool) :
  extract_route_features m t e s
  = (rows ← feature_rows m t e (qualifying_routes s);
     Ok (rows, map fst (qualifying_routes s), feature_names m t e), s).
Proof.
  pose proof (extract_loop_rows m t e (routes s) 0 [] []) as H. cbv zeta in H.
  unfold extract_route_features, qualifying_routes, committed_rows, feature_rows in *.
  rewrite mapM_result_app, map_app.
  unfold mbind at 1 2 3. unfold M_bind, get, lift. cbn [Nat.add] in H. rewrite H.
  destruct (mapM _ (omap _ _)) as [rows|x]; [|done].
  cbn [mbind result_bind app]. change (qualifies (current_route s))
    with (2 <=? length (current_route s))%nat.
  destruct (2 <=? length (current_route s))%nat.
  - cbn [mapM fst snd map]. unfold mbind at 1. unfold M_bind, lift.
    destruct (extract_single_route_features (current_route s) m t e) as [row|x];
      [|done].
    unfold mret, M_ret, result_ret. cbn [mbind result_bind]. done.
  - cbn [mapM map]. unfold mret, M_ret, result_ret. cbn [mbind result_bind].
    by rewrite !app_nil_r.
Qed.

(** The committed rows are the committed routes of at least two points,
    each under the label of its index in the store. *)
Lemma elem_of_committed_rows (rs : list route) (label : string) (r : route) :
  (label, r) ∈ committed_rows rs
  <-> exists i : nat, label = route_label i /\ rs !! i = Some r /\ (2 <= length r)%nat.
Proof.
  unfold committed_rows. rewrite list_elem_of_omap. split.
  - intros ([i r'] & Hin & Hq). apply elem_of_lookup_imap in Hin as (i' & r'' & [= -> ->] & Hl).
    simpl in Hq. unfold qualifies in Hq.
    destruct (2 <=? length r'')%nat eqn:E; [|done]. injection Hq as <- <-.
    exists i'. split; [done|]. split; [done|]. by apply Nat.leb_le.
  - intros (i & -> & Hl & Hlen). exists (i, r). split.
    + apply elem_of_lookup_imap. by exists i, r.
    + simpl. unfold qualifies. by rewrite (proj2 (Nat.leb_le _ _) Hlen).
Qed.

Lemma length_committed_rows (rs : list route) :
  length (committed_rows rs) = length (filter (fun r : route => (2 <= length r)%nat) rs).
Proof.
  unfold committed_rows.
  enough (forall g : nat -> nat,
            length (omap (fun ir : nat * route =>
                            if qualifies (snd ir)
                            then Some (route_label (fst ir), snd ir) else None)
                         (imap (fun k r => (g k, r)) rs))
            = length (filter (fun r : route => (2 <= length r)%nat) rs)) as H
    by apply (H (fun k => k)).
  induction rs as [|r rs IH]; intros g; [done|].
  rewrite imap_cons, filter_cons. cbn [omap list_omap fst snd].
  rewrite (imap_ext _ (fun k r => (g (S k), r))) by done.
  unfold qualifies at 1. specialize (IH (fun k => g (S k))). cbv beta in IH.
  destruct (Nat.leb_spec 2 (length r)); case_decide; try lia; simpl; by rewrite IH.
Qed.

Lemma qualifying_routes_ok (s : drawer) :
  store_ok s ->
  Forall (fun lr : string * route => route_ok (snd lr) /\ snd lr <> [])
         (qualifying_routes s).
Proof.
  intros (_ & _ & _ & _ & Hrs & Hc). unfold qualifying_routes.
  apply Forall_app. split.
  - apply Forall_forall. intros [label r] Hin.
    apply elem_of_committed_rows in Hin as (i & _ & Hl & Hlen). simpl. split.
    + exact (Forall_lookup_1 _ _ _ _ Hrs Hl).
    + intros ->. simpl in Hlen. lia.
  - unfold qualifies. destruct (Nat.leb_spec 2 (length (current_route s))) as [Hlen|];
      constructor; [|constructor]. simpl. split; [done|].
    intros E. rewrite E in Hlen. simpl in Hlen. lia.
Qed.

(** C7. Feature extraction returns one row per qualifying route, in the
    order of [qualifying_routes]: the committed routes of at least two
    points in store order, each labelled with its 1-based store index, and
    then the current route labelled [Current Route] if it has at least two
    points; the row of a route is its feature vector.  So the number of
    rows and of labels is the number of qualifying routes, which is the
    number of committed routes of at least two points plus one for a
    current route of at least two points.  With no qualifying route it
    returns no rows and no labels.  For a drawer with stored coordinates in
    range it returns without raising, each row with one entry per feature
    name.  In the drawer [three_routes] the committed single point is
    passed over and the rows are those of [Route 2] and [Current Route]. *)
Theorem extract_route_features_spec (s : drawer)
    (include_middle include_thirds include_euclidean : bool) :
  let names := feature_names include_middle include_thirds include_euclidean in
  let row := fun r : route =>
               extract_single_route_features r
                 include_middle include_thirds include_euclidean in
  let extract := extract_route_features include_middle include_thirds include_euclidean in
  extract s
  = (rows ← feature_rows include_middle include_thirds include_euclidean
               (qualifying_routes s);
     Ok (rows, map fst (qualifying_routes s), names), s)
  /\ (forall rows labels names',
        fst (extract s) = Ok (rows, labels, names') ->
        length rows = length (qualifying_routes s)
        /\ length labels = length (qualifying_routes s)
        /\ labels = map fst (qualifying_routes s)
        /\ names' = names
        /\ Forall2 (fun (lr : string * route) (v : list Py.num) => row (snd lr) = Ok v)
                   (qualifying_routes s) rows)
  /\ (forall (label : string) (r : route),
        (label, r) ∈ qualifying_routes s
        <-> (exists i : nat, label = route_label i /\ routes s !! i = Some r
                             /\ (2 <= length r)%nat)
            \/ (label = "Current Route"%string /\ r = current_route s
                /\ (2 <= length r)%nat))
  /\ length (qualifying_routes s)
     = (length (filter (fun r : route => (2 <= length r)%nat) (routes s))
        + (if decide (2 <= length (current_route s))%nat then 1 else 0))%nat
  /\ (qualifying_routes s = [] -> extract s = (Ok ([], [], names), s))
  /\ (store_ok s ->
      exists rows,
        extract s = (Ok (rows, map fst (qualifying_routes s), names), s)
        /\ length rows = length (qualifying_routes s)
        /\ Forall (fun v : list Py.num => length v = length names) rows)
  /\ (routes three_routes = [[(1, 1)]; [(5, 1); (5, 5)]]
      /\ current_route three_routes = [(10, 10); (13, 14)]
      /\ fst (extract_route_features false false true three_routes)
         = Ok ([[Py.Int 5; Py.Int 1; Py.Int 5; Py.Int 5;
                 Py.Float (S754_finite false 4503599627370496 (-50));
                 Py.Float (S754_finite false 4503599627370496 (-50))];
                [Py.Int 10; Py.Int 10; Py.Int 13; Py.Int 14;
                 Py.Float (S754_finite false 5629499534213120 (-50));
                 Py.Float (S754_finite false 5629499534213120 (-50))]],
               ["Route 2"; "Current Route"]%string,
               ["start_x"; "start_y"; "end_x"; "end_y"; "length";
                "euclidean_dist"]%string)).
Proof.
  intros names row extract. subst extract.
  split; [apply extract_route_features_rows|].
  split; [|split; [|split; [|split; [|split]]]].
  - intros rows labels names'. rewrite extract_route_features_rows. cbn [fst].
    unfold feature_rows.
    destruct (mapM _ (qualifying_routes s)) as [rows'|x] eqn:E; [|done].
    cbn [mbind result_bind]. intros [= <- <- <-].
    apply mapM_result_Ok in E. pose proof (Forall2_length _ _ _ E) as Hlen.
    by rewrite length_map.
  - intros label r. unfold qualifying_routes.
    rewrite elem_of_app, elem_of_committed_rows. unfold qualifies. split.
    + intros [H|H]; [by left|right].
      destruct (Nat.leb_spec 2 (length (current_route s))).
      * by apply list_elem_of_singleton in H as [= -> ->].
      * by apply elem_of_nil in H.
    + intros [H|(-> & -> & H)]; [by left|right].
      rewrite (proj2 (Nat.leb_le _ _) H). by apply list_elem_of_singleton.
  - unfold qualifying_routes. rewrite length_app, length_committed_rows.
    unfold qualifies.
    destruct (Nat.leb_spec 2 (length (current_route s))); case_decide; simpl; lia.
  - intros E. rewrite extract_route_features_rows, E. done.
  - intros Hs. rewrite extract_route_features_rows. unfold feature_rows.
    pose proof (qualifying_routes_ok s Hs) as Hq.
    destruct (mapM_result_total (fun lr : string * route => row (snd lr))
                (qualifying_routes s)) as [rows E].
    { eapply Forall_impl; [exact Hq|]. intros lr [Hr Hne].
      destruct (extract_single_route_features_ok (snd lr)
                  include_middle include_thirds include_euclidean Hr Hne)
        as (v & Hv & _).
      by exists v. }
    subst row. cbv beta in E. rewrite E. cbn [mbind result_bind].
    exists rows. split; [done|]. apply mapM_result_Ok in E.
    split; [symmetry; exact (Forall2_length _ _ _ E)|].
    eapply Forall2_Forall_r; [exact E|].
    eapply Forall_impl; [exact Hq|]. intros lr [Hr Hne] v Hv.
    destruct (extract_single_route_features_ok (snd lr)
                include_middle include_thirds include_euclidean Hr Hne)
      as (v' & Hv' & Hlen).
    rewrite Hv' in Hv. by injection Hv as <-.
  - by vm_compute.
Qed.
(** * Handlers: what they raise, drag and drop, undo *)

(** Proves [store_ok] of a drawer given by a run of events, by
    evaluation. *)
Ltac store_ok_by_evaluation :=
  unfold store_ok;
  repeat match goal with
         | |- _ /\ _ => split
         | |- @eq Z _ _ => vm_compute; reflexivity
         | |- Forall route_ok ?l =>
             let l' := eval vm_compute in l in change (Forall route_ok l')
         | |- route_ok ?l =>
             let l' := eval vm_compute in l in change (route_ok l')
         end;
  repeat constructor; vm_compute; discriminate.

(** ** What the handlers raise *)

Lemma remove_point_drag (s : drawer) (route_idx point_idx : Z) :
  drag_of (snd (remove_point route_idx point_idx s)) = drag_of s.
Proof.
  unfold remove_point. unfold_M.
  destruct (route_idx =? -1).
  - destruct (Py.in_bounds point_idx (current_route s)); [|done].
    by destruct (Py.pop (current_route s) point_idx) as [[x rest]|].
  - destruct (Py.in_bounds route_idx (routes s)); [|done].
    destruct (Py.getitem (routes s) route_idx) as [r|]; [|done]. simpl.
    destruct (Py.in_bounds point_idx r); [|done].
    destruct (Py.pop r point_idx) as [[x [|y rest]]|]; [| |done]; simpl.
    + by destruct (Py.pop (routes s) route_idx) as [[x' rs]|].
    + by destruct (Py.setitem (routes s) route_idx (y :: rest)).
Qed.

Lemma insert_point_in_route_total (s : drawer) (route_idx i : Z) (p : point) :
  fst (insert_point_in_route route_idx i p s) = Ok tt
  /\ drag_of (snd (insert_point_in_route route_idx i p s)) = drag_of s.
Proof.
  destruct (decide (route_idx = -1)) as [->|Hne]; [by rewrite insert_point_current|].
  destruct (decide (0 <= route_idx < Z.of_nat (length (routes s)))) as [Hr|Hr].
  - destruct (lookup_lt_is_Some_2 (routes s) (Z.to_nat route_idx)) as [r Hlook]; [lia|].
    by rewrite (insert_point_committed s route_idx i p r) by (done || lia).
  - unfold insert_point_in_route. unfold_M.
    destruct (route_idx =? -1) eqn:E; [lia|].
    by rewrite (proj2 (in_bounds_false _ _) Hr).
Qed.

Lemma move_point_outcome (s : drawer) (j i : Z) (p : point) :
  (exists s', move_point (Some j) (Some i) p s = (Ok tt, s') /\ drag_of s' = drag_of s)
  \/ move_point (Some j) (Some i) p s = (Raise IndexError, s).
Proof.
  unfold move_point. unfold_M. case_bool_decide as E.
  - unfold Py.setitem. destruct (Py.index _ i); [left|right]; by eexists.
  - unfold Py.getitem, Py.setitem.
    destruct (Py.index (length (routes s)) j) as [n|]; [|by right].
    destruct (routes s !! n) as [r|]; [|by right]. simpl.
    destruct (Py.index (length r) i); [|by right]. simpl. left. by eexists.
Qed.

Lemma point_at_bounds (s : drawer) (j i : Z) (p : point) :
  point_at s (j, i) p -> -1 <= j /\ 0 <= i.
Proof. intros [Hi [[Hj _]|[Hj _]]]; simpl in *; lia. Qed.

Lemma drag_ok_same (s s' : drawer) : drag_of s' = drag_of s -> drag_ok s -> drag_ok s'.
Proof. unfold drag_of, drag_ok. intros [= -> -> ->]. done. Qed.

Lemma after_drag_ok (ev : event) (s : drawer) : drag_ok s -> drag_ok (after ev s).
Proof.
  intros Hs. unfold after.
  destruct ev as [x y|x y|x y|x y| | |]; cbn [handle].
  - unfold on_left_click. unfold_M.
    destruct (find_point_at_position s x y) as [[[j i]|]|] eqn:E; simpl; [| |done].
    + intros _. apply find_point_least in E as [(p & Hp & _) _].
      apply point_at_bounds in Hp. by exists j, i.
    + destruct (canvas_to_coord_x s x); [|done]. simpl.
      by destruct (canvas_to_coord_y s y).
  - unfold on_right_click. unfold_M.
    destruct (find_point_at_position s x y) as [[[j i]|]|]; simpl; [| |done].
    + eapply drag_ok_same; [apply remove_point_drag|done].
    + destruct (find_line_at_position s x y) as [[[[j i] k]|]|]; simpl; [| |done..].
      * destruct (canvas_to_coord_x s x); [|done]. simpl.
        destruct (canvas_to_coord_y s y); [|done]. simpl.
        eapply drag_ok_same; [apply insert_point_in_route_total|done].
      * done.
  - unfold on_left_release. unfold_M.
    destruct (dragging s) eqn:Ed; [|done].
    destruct (canvas_to_coord_x s x); [|done]. simpl.
    destruct (canvas_to_coord_y s y); [|done]. simpl.
    destruct (Hs Ed) as (j & i & -> & -> & _).
    destruct (move_point_outcome s j i (a, a0)) as [(s' & -> & Hd)| ->]; [|done].
    simpl. by intros [=].
  - unfold on_drag. unfold_M.
    destruct (dragging s); [|done].
    destruct (canvas_to_coord_x s x); [|done]. simpl.
    by destruct (canvas_to_coord_y s y).
  - unfold start_new_route. unfold_M. by destruct (current_route s).
  - done.
  - unfold undo_last_point. unfold_M.
    destruct (current_route s) eqn:E; [done|].
    by destruct (Py.pop _ _) as [[x rest]|].
Qed.

Lemma reachable_drag_ok (s : drawer) : reachable s -> drag_ok s.
Proof.
  induction 1 as [|s ev _ _ IH]; [done|]. by apply after_drag_ok.
Qed.

Lemma point_at_move (s : drawer) (j i : Z) (q : point) :
  -1 <= j -> 0 <= i ->
  (exists p, point_at s (j, i) p /\
     move_point (Some j) (Some i) q s =
       (Ok tt,
        if j =? -1 then set_current_route (<[Z.to_nat i := q]> (current_route s)) s
        else set_routes (alter (fun r : route => <[Z.to_nat i := q]> r) (Z.to_nat j)
                               (routes s)) s))
  \/ ((forall p, ~ point_at s (j, i) p)
      /\ move_point (Some j) (Some i) q s = (Raise IndexError, s)).
Proof.
  intros Hj Hi. destruct (decide (j = -1)) as [->|Hne].
  - destruct (current_route s !! Z.to_nat i) as [p|] eqn:E.
    + left. exists p. split; [split; [simpl; lia|left; done]|].
      apply lookup_lt_Some in E. rewrite move_point_current by lia. done.
    + right. apply lookup_ge_None in E. split.
      * intros p [_ [[_ Hp]|[Hp _]]]; simpl in *; [|lia].
        apply lookup_lt_Some in Hp. lia.
      * apply move_point_current_out_of_range. lia.
  - destruct (routes s !! Z.to_nat j) as [r|] eqn:Er.
    + destruct (r !! Z.to_nat i) as [p|] eqn:E.
      * left. exists p. split; [split; [simpl; lia|right; split; [simpl; lia|by exists r]]|].
        apply lookup_lt_Some in E.
        rewrite (move_point_committed s j i q r) by (done || lia).
        destruct (j =? -1) eqn:Ej; [lia|].
        f_equal. f_equal. apply list_eq. intros k.
        destruct (decide (k = Z.to_nat j)) as [->|Hk].
        -- rewrite list_lookup_insert_eq by (by eapply lookup_lt_Some).
           by rewrite list_lookup_alter_eq, Er.
        -- by rewrite list_lookup_insert_ne, list_lookup_alter_ne.
      * right. apply lookup_ge_None in E. split.
        -- intros p [_ [[Hp _]|[_ (r' & Hr' & Hp)]]]; simpl in *; [lia|].
           rewrite Er in Hr'. injection Hr' as <-. apply lookup_lt_Some in Hp. lia.
        -- unfold move_point. unfold_M. case_bool_decide as Eb; [congruence|].
           rewrite (getitem_in_bounds _ _ r) by (done || lia). simpl.
           unfold Py.setitem, Py.index.
           destruct (0 <=? i) eqn:E0; [|lia].
           destruct (i <? Z.of_nat (length r)) eqn:E1; [lia|]. simpl. destruct (i <? 0) eqn:E2; [lia|]. by rewrite andb_false_r.
    + right. apply lookup_ge_None in Er. split.
      * intros p [_ [[Hp _]|[_ (r' & Hr' & Hp)]]]; simpl in *; [lia|].
        apply lookup_lt_Some in Hr'. lia.
      * apply move_point_bad_route; [done|lia].
Qed.

Lemma pop_last {A} (l : list A) (x : A) : Py.pop (l ++ [x]) (-1) = Ok (x, l).
Proof.
  unfold Py.pop, Py.index. rewrite length_app, Nat.add_1_r.
  destruct (0 <=? -1) eqn:E0; [lia|].
  destruct (- Z.of_nat (S (length l)) <=? -1) eqn:E1; [|apply Z.leb_gt in E1; lia].
  cbn [andb Z.ltb Z.compare].
  replace (Z.to_nat (Z.of_nat (S (length l)) + -1)) with (length l) by lia.
  rewrite lookup_app_r by lia. rewrite Nat.sub_diag. cbn [lookup list_lookup].
  rewrite delete_middle. by rewrite app_nil_r.
Qed.

(** [undo_last_point] drops the last point of the current route and
    does nothing when the route is empty. *)
Lemma undo_last_point_eq (s : drawer) :
  undo_last_point s =
  (Ok tt, match current_route s with
          | [] => s
          | _ :: _ => set_current_route (removelast (current_route s)) s
          end).
Proof.
  unfold undo_last_point. unfold_M.
  destruct (current_route s) as [|p r] eqn:E; [done|].
  destruct (exists_last (l := p :: r)) as (l & x & ->); [done|].
  rewrite pop_last. simpl. by rewrite removelast_last.
Qed.

(** In every state the program reaches from [__init__] by events with
    C-int coordinates, a handler returns normally, with one exception:
    [on_left_release] while a drag is on whose point is no longer
    stored raises [IndexError] and leaves the drawer as it was, the drag
    still on. *)
Theorem handlers_raise_only_on_stale_release (s : drawer) (ev : event) :
  reachable s -> event_ok ev ->
  fst (handle ev s) = Ok tt
  \/ exists x y j i,
       ev = LeftRelease x y /\ dragging s = true
       /\ drag_route_idx s = Some j /\ drag_point_idx s = Some i
       /\ (forall p, ~ point_at s (j, i) p)
       /\ handle ev s = (Raise IndexError, s).
Proof.
  intros Hr Hev. pose proof (reachable_store_ok _ Hr) as Hs.
  pose proof (reachable_drag_ok _ Hr) as Hd.
  destruct ev as [x y|x y|x y|x y| | |]; cbn [handle event_ok] in *;
    try (pose proof (proj1 Hev) as Hx; pose proof (proj2 Hev) as Hy;
         destruct (canvas_to_coord_x_ok s x Hs Hx) as (cx & Ecx & _);
         destruct (canvas_to_coord_y_ok s y Hs Hy) as (cy & Ecy & _);
         destruct (find_point_at_position_ok s x y Hs Hx Hy) as (fp & Efp);
         destruct (find_line_at_position_ok s x y Hs Hx Hy) as (fl & Efl)).
  - left. unfold on_left_click. unfold_M. rewrite Efp. simpl.
    destruct fp as [[j i]|]; [done|]. by rewrite Ecx, Ecy.
  - left. unfold on_right_click. unfold_M. rewrite Efp. simpl.
    destruct fp as [[j i]|]; [apply remove_point_ok|].
    rewrite Efl. simpl. destruct fl as [[[j i] k]|]; [|done].
    rewrite Ecx, Ecy. simpl. apply insert_point_in_route_total.
  - destruct (dragging s) eqn:Ed.
    + destruct (Hd Ed) as (j & i & Ej & Ei & Hj & Hi).
      rewrite (on_left_release_dragging s x y cx cy Ed Ecx Ecy), Ej, Ei.
      unfold_M.
      destruct (point_at_move s j i (cx, cy) Hj Hi) as [(p & _ & ->)|[Hno ->]].
      * by left.
      * right. by exists x, y, j, i.
    + left. unfold on_left_release. unfold_M. by rewrite Ed.
  - left. unfold on_drag. unfold_M. destruct (dragging s); [|done].
    by rewrite Ecx, Ecy.
  - left. unfold start_new_route. unfold_M. by destruct (current_route s).
  - by left.
  - left. rewrite undo_last_point_eq. by destruct (current_route s).
Qed.

Lemma handlers_raise_only_on_stale_release_witness :
  fst (handle (LeftRelease 40 40) stale_drag) = Ok tt
  \/ exists x y j i,
       LeftRelease 40 40 = LeftRelease x y /\ dragging stale_drag = true
       /\ drag_route_idx stale_drag = Some j /\ drag_point_idx stale_drag = Some i
       /\ (forall p, ~ point_at stale_drag (j, i) p)
       /\ handle (LeftRelease 40 40) stale_drag = (Raise IndexError, stale_drag).
Proof.
  apply handlers_raise_only_on_stale_release.
  - apply reachable_run; [|apply reachable_init].
    repeat constructor; vm_compute; discriminate.
  - split; vm_compute; discriminate.
Defined.

Lemma point_at_set_drag (d : bool) (a b : option Z) (s : drawer) ref p :
  point_at (set_drag d a b s) ref p <-> point_at s ref p.
Proof. done. Qed.

(** A press on a stored point followed by a release: the release moves
    that point, and no other, to the grid point nearest to the release
    position, and ends the drag. *)
Theorem drag_and_drop (s : drawer) (x y x' y' : Z) (ref : Z * Z) :
  store_ok s -> device_ok x -> device_ok y -> device_ok x' -> device_ok y' ->
  find_point_at_position s x y = Ok (Some ref) ->
  exists s',
    (on_left_click x y ≫= fun _ => on_left_release x' y') s = (Ok tt, s')
    /\ dragging s' = false
    /\ point_at s' ref (round_div x' 20, round_div y' 20)
    /\ (forall ref' p, ref' <> ref -> point_at s' ref' p <-> point_at s ref' p)
    /\ length (routes s') = length (routes s).
Proof.
  intros Hs Hx Hy Hx' Hy' Hf. destruct ref as [j i].
  pose proof Hf as Hf'. apply find_point_least in Hf' as [(p & Hp & _) _].
  destruct (point_at_bounds _ _ _ _ Hp) as [Hj Hi].
  pose proof Hs as (Hg & Hox & Hoy & _).
  set (q := (round_div x' 20, round_div y' 20)).
  set (s1 := set_drag true (Some j) (Some i) s).
  assert (E1 : on_left_click x y s = (Ok tt, s1)).
  { unfold on_left_click. unfold_M. by rewrite Hf. }
  assert (Hs1 : store_ok s1) by done.
  assert (E2 : on_left_release x' y' s1 =
               (move_point (Some j) (Some i) q ≫= fun _ => modify (set_drag false None None)) s1).
  { apply (on_left_release_dragging s1 x' y'); [done|..].
    - rewrite canvas_to_coord_x_nearest by done. simpl. rewrite Hox, Hg.
      by rewrite Z.sub_0_r.
    - rewrite canvas_to_coord_y_nearest by done. simpl. rewrite Hoy, Hg.
      by rewrite Z.sub_0_r. }
  destruct (point_at_move s1 j i q Hj Hi) as [(p' & _ & Em)|[Hno _]];
    [|by destruct (Hno p)].
  eexists. split.
  { unfold mbind at 1. unfold M_bind. rewrite E1, E2.
    unfold mbind at 1. unfold M_bind. rewrite Em. reflexivity. }
  destruct Hp as [_ Hp]. cbn [fst snd] in Hp.
  destruct (j =? -1) eqn:Ej.
  - apply Z.eqb_eq in Ej as ->. destruct Hp as [[_ Hp]|[? _]]; [|lia].
    split; [done|]. split.
    + split; [done|]. left. split; [done|]. simpl.
      apply list_lookup_insert_eq. by eapply lookup_lt_Some.
    + split; [|done]. intros [j' i'] p0 Hne. unfold point_at. simpl.
      split; (intros [Hi' [[-> Hl]|Hr]]; (split; [done|]); [left|by right]);
        (split; [done|]).
      * rewrite list_lookup_insert_ne in Hl; [done|]. intros Heq.
        apply Hne. f_equal. lia.
      * rewrite list_lookup_insert_ne; [done|]. intros Heq.
        apply Hne. f_equal. lia.
  - apply Z.eqb_neq in Ej. destruct Hp as [[? _]|[_ (r & Hr & Hp)]]; [lia|].
    split; [done|]. split.
    + split; [done|]. right. split; [simpl; lia|]. simpl.
      exists (<[Z.to_nat i := q]> r). split.
      * by rewrite list_lookup_alter_eq, Hr.
      * apply list_lookup_insert_eq. by eapply lookup_lt_Some.
    + split; [|simpl; by rewrite length_alter].
      intros [j' i'] p0 Hne. unfold point_at. simpl.
      split; (intros [Hi' [Hc|[Hj' (r' & Hr' & Hl)]]]; (split; [done|]);
              [by left|right]); (split; [done|]).
      * destruct (decide (Z.to_nat j' = Z.to_nat j)) as [Ejj|Ejj].
        -- rewrite Ejj, list_lookup_alter_eq, Hr in Hr'. injection Hr' as <-.
           exists r. split; [by rewrite Ejj|].
           rewrite list_lookup_insert_ne in Hl; [done|]. intros Heq.
           apply Hne. f_equal; lia.
        -- rewrite list_lookup_alter_ne in Hr' by done. by exists r'.
      * destruct (decide (Z.to_nat j' = Z.to_nat j)) as [Ejj|Ejj].
        -- rewrite Ejj, Hr in Hr'. injection Hr' as <-.
           exists (<[Z.to_nat i := q]> r). split.
           ++ by rewrite Ejj, list_lookup_alter_eq, Hr.
           ++ rewrite list_lookup_insert_ne; [done|]. intros Heq.
              apply Hne. f_equal; lia.
        -- exists r'. by rewrite list_lookup_alter_ne.
Qed.

Lemma drag_and_drop_witness :
  exists s',
    (on_left_click 20 20 ≫= fun _ => on_left_release 61 38) (run [LeftClick 20 20] init)
      = (Ok tt, s')
    /\ dragging s' = false
    /\ point_at s' (-1, 0) (round_div 61 20, round_div 38 20)
    /\ (forall ref' p, ref' <> (-1, 0) ->
          point_at s' ref' p <-> point_at (run [LeftClick 20 20] init) ref' p)
    /\ length (routes s') = length (routes (run [LeftClick 20 20] init)).
Proof.
  apply drag_and_drop.
  - store_ok_by_evaluation.
  - vm_compute. discriminate.
  - vm_compute. discriminate.
  - vm_compute. discriminate.
  - vm_compute. discriminate.
  - vm_compute. reflexivity.
Defined.

(** A left click away from every stored point appends the grid point
    nearest to the click to the current route; [undo_last_point] then
    gives back the drawer as it was before the click. *)
Theorem click_then_undo (s : drawer) (x y : Z) :
  store_ok s -> device_ok x -> device_ok y ->
  find_point_at_position s x y = Ok None ->
  on_left_click x y s =
    (Ok tt, set_current_route (current_route s ++ [(round_div x 20, round_div y 20)]) s)
  /\ (on_left_click x y ≫= fun _ => undo_last_point) s = (Ok tt, s).
Proof.
  intros Hs Hx Hy Hf. pose proof Hs as (Hg & Hox & Hoy & _).
  assert (E : on_left_click x y s =
    (Ok tt, set_current_route (current_route s ++ [(round_div x 20, round_div y 20)]) s)).
  { unfold on_left_click. unfold_M. rewrite Hf. simpl.
    rewrite canvas_to_coord_x_nearest, canvas_to_coord_y_nearest by done.
    simpl. by rewrite Hox, Hoy, Hg, !Z.sub_0_r. }
  split; [done|].
  unfold mbind at 1. unfold M_bind. rewrite E, undo_last_point_eq.
  cbn [current_route set_current_route].
  destruct (current_route s ++ _) eqn:El; [by destruct (current_route s)|].
  rewrite <- El, removelast_last. f_equal. by destruct s.
Qed.

Lemma click_then_undo_witness :
  on_left_click 50 90 init =
    (Ok tt, set_current_route (current_route init ++ [(round_div 50 20, round_div 90 20)]) init)
  /\ (on_left_click 50 90 ≫= fun _ => undo_last_point) init = (Ok tt, init).
Proof.
  apply click_then_undo.
  - store_ok_by_evaluation.
  - vm_compute. discriminate.
  - vm_compute. discriminate.
  - reflexivity.
Defined.

(** * Right click: the number of stored points *)

Lemma length_concat_insert {A} (rs : list (list A)) (j : nat) (r r' : list A) :
  rs !! j = Some r ->
  (length (concat (<[j := r']> rs)) + length r = length (concat rs) + length r')%nat.
Proof.
  intros Hr. rewrite <- (take_drop_middle rs j r Hr) at 2.
  rewrite insert_take_drop by (by eapply lookup_lt_Some).
  rewrite !concat_app, !length_app. simpl. rewrite !length_app. lia.
Qed.

Lemma length_concat_delete {A} (rs : list (list A)) (j : nat) (r : list A) :
  rs !! j = Some r ->
  (length (concat (delete j rs)) + length r = length (concat rs))%nat.
Proof.
  intros Hr. rewrite <- (take_drop_middle rs j r Hr) at 2.
  rewrite delete_take_drop.
  rewrite !concat_app, !length_app. simpl. rewrite !length_app. lia.
Qed.

Lemma length_py_insert {A} (l : list A) (i : Z) (x : A) :
  length (Py.insert l i x) = S (length l).
Proof.
  unfold Py.insert. rewrite length_app. simpl.
  rewrite length_take, length_drop. lia.
Qed.

(** A right click changes the number of stored points by one at most:
    on a stored point it removes one point, on a segment and off every
    point it adds one, the grid point nearest to the click just behind
    the segment's first end, and elsewhere it leaves the drawer
    untouched. *)
Theorem on_right_click_point_count (s : drawer) (x y : Z) :
  store_ok s -> device_ok x -> device_ok y ->
  exists s',
    on_right_click x y s = (Ok tt, s')
    /\ match find_point_at_position s x y, find_line_at_position s x y with
       | Ok (Some _), _ => S (point_count s') = point_count s
       | Ok None, Ok (Some (j, i, _)) =>
           point_count s' = S (point_count s)
           /\ point_at s' (j, i + 1) (round_div x 20, round_div y 20)
       | _, _ => s' = s
       end.
Proof.
  intros Hs Hx Hy. pose proof Hs as (Hg & Hox & Hoy & _).
  destruct (find_point_at_position_ok s x y Hs Hx Hy) as (fp & Efp).
  destruct (find_line_at_position_ok s x y Hs Hx Hy) as (fl & Efl).
  unfold on_right_click. unfold_M. rewrite Efp. cbn [fst snd].
  destruct fp as [[j i]|].
  - apply find_point_least in Efp as [(p & [Hi Hp] & _) _]. cbn [fst snd] in *.
    destruct Hp as [[-> Hp]|[Hj (r & Hr & Hp)]].
    + pose proof (lookup_lt_Some _ _ _ Hp) as Hlt.
      rewrite remove_point_current by lia. eexists. split; [done|].
      unfold point_count. cbn [current_route routes set_current_route].
      rewrite length_delete by (by eexists). lia.
    + pose proof (lookup_lt_Some _ _ _ Hp) as Hlt.
      rewrite (remove_point_committed s j i r) by (done || lia).
      eexists. split; [done|].
      pose proof (length_delete r (Z.to_nat i) (ltac:(by eexists))) as Hd.
      unfold point_count.
      destruct (delete (Z.to_nat i) r) as [|q l] eqn:Ed;
        cbn [current_route routes set_routes].
      * pose proof (length_concat_delete _ _ _ Hr). simpl in Hd. lia.
      * pose proof (length_concat_insert _ _ _ (q :: l) Hr). lia.
  - rewrite Efl. cbn [fst snd]. destruct fl as [[[j i] k]|]; [|by eexists].
    rewrite canvas_to_coord_x_nearest, canvas_to_coord_y_nearest by done.
    cbn [fst snd]. rewrite Hox, Hoy, Hg, !Z.sub_0_r.
    apply find_line_least in Efl as (-> & (ab & [Hi Hab] & _) & _).
    cbn [fst snd] in *. set (q := (round_div x 20, round_div y 20)).
    destruct Hab as [(-> & Ha & Hb)|(Hj & r & Hr & Ha & Hb)].
    + rewrite insert_point_current. eexists. split; [done|]. split.
      * unfold point_count. cbn [current_route routes set_current_route].
        by rewrite length_py_insert.
      * split; [simpl; lia|]. left. split; [done|].
        cbn [fst snd current_route set_current_route].
        apply lookup_lt_Some in Hb.
        rewrite insert_in_range by lia.
        rewrite lookup_app_r by (rewrite length_take; lia).
        rewrite length_take.
        replace (Z.to_nat (i + 1) - _)%nat with 0%nat by lia. done.
    + rewrite (insert_point_committed s j (i + 1) q r) by done.
      eexists. split; [done|]. split.
      * unfold point_count. cbn [current_route routes set_routes].
        pose proof (length_concat_insert _ _ _ (Py.insert r (i + 1) q) Hr) as Hl.
        rewrite length_py_insert in Hl. lia.
      * split; [simpl; lia|]. right. split; [done|].
        cbn [fst snd routes set_routes].
        exists (Py.insert r (i + 1) q). split.
        -- apply list_lookup_insert_eq. by eapply lookup_lt_Some.
        -- apply lookup_lt_Some in Hb.
           rewrite insert_in_range by lia.
           rewrite lookup_app_r by (rewrite length_take; lia).
           rewrite length_take.
           replace (Z.to_nat (i + 1) - _)%nat with 0%nat by lia. done.
Qed.

Lemma on_right_click_point_count_witness :
  let s := run [LeftClick 20 20; LeftClick 100 20] init in
  exists s',
    on_right_click 60 22 s = (Ok tt, s')
    /\ match find_point_at_position s 60 22, find_line_at_position s 60 22 with
       | Ok (Some _), _ => S (point_count s') = point_count s
       | Ok None, Ok (Some (j, i, _)) =>
           point_count s' = S (point_count s)
           /\ point_at s' (j, i + 1) (round_div 60 20, round_div 22 20)
       | _, _ => s' = s
       end.
Proof.
  apply on_right_click_point_count.
  - store_ok_by_evaluation.
  - vm_compute. discriminate.
  - vm_compute. discriminate.
Defined.

(** * Feature extraction and the analysis dialog *)

Lemma start_new_route_eq (s : drawer) :
  start_new_route s =
  (Ok tt, match current_route s with
          | [] => set_current_route [] s
          | _ :: _ => set_current_route [] (set_routes (routes s ++ [current_route s]) s)
          end).
Proof. unfold start_new_route. unfold_M. by destruct (current_route s). Qed.

Lemma committed_rows_snoc (rs : list route) (c : route) :
  committed_rows (rs ++ [c]) =
  committed_rows rs ++ (if qualifies c then [(route_label (length rs), c)] else []).
Proof.
  unfold committed_rows. rewrite imap_app, omap_app. f_equal.
  simpl. rewrite Nat.add_0_r. by destruct (qualifies c).
Qed.

(** Committing the current route with [start_new_route] leaves the
    feature matrix and the feature names of an extraction as they were;
    only the label of the last row changes, from [Current Route] to the
    number of the new committed route. *)
Theorem start_new_route_keeps_features (s : drawer) (m t e : bool) :
  fst (extract_route_features m t e (after NewRoute s)) =
  '(rows, labels, names) ← fst (extract_route_features m t e s);
  Ok (rows,
      if qualifies (current_route s)
      then removelast labels ++ [route_label (length (routes s))]
      else labels,
      names).
Proof.
  rewrite !extract_route_features_rows. cbn [fst].
  unfold after. cbn [handle]. rewrite start_new_route_eq. cbn [snd].
  unfold qualifying_routes.
  destruct (current_route s) as [|p c] eqn:Ec.
  - cbn [current_route set_current_route routes qualifies length Nat.leb].
    rewrite app_nil_r.
    by destruct (feature_rows m t e (committed_rows (routes s))).
  - cbn [current_route set_current_route routes set_routes].
    change (qualifies []) with false. rewrite app_nil_r.
    rewrite committed_rows_snoc.
    destruct (qualifies (p :: c)) eqn:Eq.
    + unfold feature_rows. rewrite !mapM_result_app.
      destruct (mapM _ (committed_rows (routes s))) as [rows|]; [|done].
      cbn [mbind result_bind mapM]. cbn [snd].
      destruct (extract_single_route_features (p :: c) m t e); [|done].
      cbn. rewrite !map_app. cbn [map fst].
      by rewrite removelast_last.
    + rewrite !app_nil_r.
      by destruct (feature_rows m t e (committed_rows (routes s))).
Qed.

Lemma route_label_inj : Inj eq eq route_label.
Proof.
  intros i j H. unfold route_label in H.
  apply (inj (String.append _)) in H.
  assert (Some (Nat.to_uint (S i)) = Some (Nat.to_uint (S j))) as Hu
    by (by rewrite <- !NilEmpty.usu, H).
  injection Hu as Hu. apply (f_equal Nat.of_uint) in Hu.
  rewrite !Unsigned.of_to in Hu. lia.
Qed.

Lemma committed_labels_sublist (rs : list route) (i : nat) :
  map fst (omap (fun ir : nat * route =>
                   if qualifies (snd ir) then Some (route_label (fst ir), snd ir)
                   else None)
                (imap (fun k r => ((i + k)%nat, r)) rs))
  `sublist_of` map route_label (seq i (length rs)).
Proof.
  revert i. induction rs as [|r rs IH]; intros i; [done|].
  rewrite imap_cons. cbn [omap list_omap length seq map fst snd].
  rewrite Nat.add_0_r.
  rewrite (imap_ext _ (fun k r => ((S i + k)%nat, r))).
  2:{ intros k x _. simpl. f_equal. lia. }
  destruct (qualifies r); cbn [map fmap list_fmap fst].
  - apply sublist_skip, IH.
  - apply sublist_cons, IH.
Qed.

Lemma qualifying_labels_NoDup (s : drawer) : NoDup (map fst (qualifying_routes s)).
Proof.
  unfold qualifying_routes. rewrite map_app. apply NoDup_app. split; [|split].
  - eapply sublist_NoDup; [|apply (committed_labels_sublist (routes s) 0)].
    apply (@NoDup_fmap_2 _ _ route_label route_label_inj), NoDup_seq.
  - intros l Hl Hc. destruct (qualifies (current_route s)); [|by inversion Hc].
    apply list_elem_of_singleton in Hc as ->.
    apply list_elem_of_fmap in Hl as ([l r] & Hl & Hin).
    apply elem_of_committed_rows in Hin as (i & -> & _). by simpl in Hl.
  - destruct (qualifies (current_route s)); [apply NoDup_singleton|apply NoDup_nil_2].
Qed.

Lemma feature_rows_length (m t e : bool) (qs : list (string * route)) rows :
  feature_rows m t e qs = Ok rows -> length rows = length qs.
Proof.
  intros H. apply mapM_result_Ok in H. symmetry. by eapply Forall2_length.
Qed.

Lemma extract_route_features_Ok (s : drawer) (m t e : bool) rows labels names :
  fst (extract_route_features m t e s) = Ok (rows, labels, names) ->
  length rows = length (qualifying_routes s)
  /\ labels = map fst (qualifying_routes s) /\ names = feature_names m t e.
Proof.
  rewrite extract_route_features_rows. cbn [fst].
  destruct (feature_rows m t e (qualifying_routes s)) as [rows'|] eqn:E; [|done].
  intros [= <- <- <-]. split; [|done]. by eapply feature_rows_length.
Qed.

(** The labels an extraction returns are pairwise distinct, so they can
    serve as keys that tell the rows apart. *)
Theorem extract_route_features_labels_distinct (s : drawer) (m t e : bool)
    (rows : list (list Py.num)) (labels names : list string) :
  fst (extract_route_features m t e s) = Ok (rows, labels, names) ->
  NoDup labels.
Proof.
  intros H. apply extract_route_features_Ok in H as (_ & -> & _).
  apply qualifying_labels_NoDup.
Qed.

Lemma extract_route_features_labels_distinct_witness :
  NoDup ["Route 2"%string; "Current Route"%string].
Proof.
  apply (extract_route_features_labels_distinct three_routes false false false
           [[Py.Int 5; Py.Int 1; Py.Int 5; Py.Int 5;
             Py.Float (S754_finite false 4503599627370496 (-50))];
            [Py.Int 10; Py.Int 10; Py.Int 13; Py.Int 14;
             Py.Float (S754_finite false 5629499534213120 (-50))]]
           _ ["start_x"; "start_y"; "end_x"; "end_y"; "length"]%string).
  vm_compute. reflexivity.
Defined.

Lemma length_filter_Forall {A} (P : A -> Prop) `{!forall x, Decision (P x)}
    (l : list A) :
  length (filter P l) = length l <-> Forall P l.
Proof.
  induction l as [|x l IH]; [by split|].
  rewrite filter_cons. pose proof (length_filter P l) as Hle.
  destruct (decide (P x)) as [Hx|Hx]; simpl.
  - rewrite Forall_cons. split.
    + intros [=]. by split; [|apply IH].
    + intros [_ Hl]. f_equal. by apply IH.
  - split; [lia|]. intros Hf. by apply Forall_cons in Hf as [? _].
Qed.

(** The route count [open_analysis_dialog] checks and shows is never
    less than the number of rows the extraction returns, and the two
    agree exactly when every committed route has two points at least:
    a committed single point is counted by the dialog and skipped by the
    extraction. *)
Theorem total_routes_counts_rows (s : drawer) (m t e : bool)
    (rows : list (list Py.num)) (labels names : list string) :
  fst (extract_route_features m t e s) = Ok (rows, labels, names) ->
  (length rows <= total_routes s)%nat
  /\ (length rows = total_routes s
      <-> Forall (fun r : route => (2 <= length r)%nat) (routes s)).
Proof.
  intros H. apply extract_route_features_Ok in H as (-> & _ & _).
  unfold qualifying_routes, total_routes. rewrite length_app, length_committed_rows.
  change (qualifies (current_route s)) with (2 <=? length (current_route s))%nat.
  pose proof (length_filter (fun r : route => (2 <= length r)%nat) (routes s)) as Hle.
  pose proof (length_filter_Forall (fun r : route => (2 <= length r)%nat) (routes s))
    as [H1 H2].
  destruct (2 <=? length (current_route s))%nat; cbn [length]; (split; [lia|]).
  - split; [intros Hl; apply H1; lia|]. intros Hf. by rewrite (H2 Hf).
  - split; [intros Hl; apply H1; lia|]. intros Hf. by rewrite (H2 Hf).
Qed.

Lemma total_routes_counts_rows_witness :
  (2 <= total_routes three_routes)%nat
  /\ ((2 = total_routes three_routes)%nat
      <-> Forall (fun r : route => (2 <= length r)%nat) (routes three_routes)).
Proof.
  apply (total_routes_counts_rows three_routes false false false
           [[Py.Int 5; Py.Int 1; Py.Int 5; Py.Int 5;
             Py.Float (S754_finite false 4503599627370496 (-50))];
            [Py.Int 10; Py.Int 10; Py.Int 13; Py.Int 14;
             Py.Float (S754_finite false 5629499534213120 (-50))]]
           ["Route 2"; "Current Route"]%string
           ["start_x"; "start_y"; "end_x"; "end_y"; "length"]%string).
  vm_compute. reflexivity.
Defined.

(** The feature count and the feature list that the analysis dialog
    shows are the number and the names of the columns that the
    extraction returns for the same options, and every row of the
    extraction has that many entries. *)
Theorem dialog_feature_count (s : drawer) (m t e : bool)
    (rows : list (list Py.num)) (labels names : list string) :
  store_ok s ->
  fst (extract_route_features m t e s) = Ok (rows, labels, names) ->
  snd (update_feature_count m t e) = names
  /\ fst (update_feature_count m t e) = length names
  /\ Forall (fun row => length row = fst (update_feature_count m t e)) rows.
Proof.
  intros Hs H. rewrite extract_route_features_rows in H. cbn [fst] in H.
  destruct (feature_rows m t e (qualifying_routes s)) as [rows'|] eqn:E; [|done].
  injection H as <- <- <-.
  assert (Hn : update_feature_count m t e
               = (length (feature_names m t e), feature_names m t e))
    by (by destruct m, t, e).
  rewrite Hn. cbn [fst snd]. split; [done|]. split; [done|].
  apply mapM_result_Ok in E. apply (Forall2_Forall_r _ _ _ _ E).
  eapply Forall_impl; [apply qualifying_routes_ok, Hs|].
  intros [l r] [Hr Hne] row Hrow. cbn [snd] in *.
  destruct (extract_single_route_features_ok r m t e Hr Hne) as (row' & Er & Hl).
  congruence.
Qed.

Lemma dialog_feature_count_witness :
  let names := ["start_x"; "start_y"; "end_x"; "end_y"; "length";
                "euclidean_dist"]%string in
  snd (update_feature_count false false true) = names
  /\ fst (update_feature_count false false true) = length names
  /\ Forall (fun row => length row = fst (update_feature_count false false true))
       [[Py.Int 5; Py.Int 1; Py.Int 5; Py.Int 5;
         Py.Float (S754_finite false 4503599627370496 (-50));
         Py.Float (S754_finite false 4503599627370496 (-50))];
        [Py.Int 10; Py.Int 10; Py.Int 13; Py.Int 14;
         Py.Float (S754_finite false 5629499534213120 (-50));
         Py.Float (S754_finite false 5629499534213120 (-50))]].
Proof.
  apply (dialog_feature_count three_routes false false true _
           ["Route 2"; "Current Route"]%string).
  - store_ok_by_evaluation.
  - vm_compute. reflexivity.
Defined.

(** * Arc length and straight-line distance: further properties *)

Lemma euclidean_distance_ends (r : route) (a b : point) :
  (2 <= length r)%nat -> head r = Some a -> last r = Some b ->
  calculate_euclidean_distance r = segment_length a b.
Proof.
  intros Hlen Ha Hb. unfold calculate_euclidean_distance.
  destruct (length r <? 2)%nat eqn:E; [apply Nat.ltb_lt in E; lia|].
  rewrite (getitem_head _ _ Ha), (getitem_last _ _ Hb).
  by destruct a, b.
Qed.

Lemma head_rev {A} (l : list A) : head (rev l) = last l.
Proof.
  induction l as [|x l _] using rev_ind; [done|].
  by rewrite rev_app_distr, last_snoc.
Qed.

Lemma last_rev {A} (l : list A) : last (rev l) = head l.
Proof. by rewrite <- head_rev, rev_involutive. Qed.

(** The straight-line distance from the first to the last point of a
    route is the same in both directions, to the last bit. *)
Theorem euclidean_distance_reverse (r : route) :
  calculate_euclidean_distance (rev r) = calculate_euclidean_distance r.
Proof.
  destruct (decide (2 <= length r)%nat) as [Hlen|Hlen].
  - destruct r as [|a r]; [simpl in Hlen; lia|].
    destruct (last (a :: r)) as [b|] eqn:Eb.
    2:{ apply last_None in Eb. done. }
    rewrite (euclidean_distance_ends (a :: r) a b) by done.
    rewrite (euclidean_distance_ends (rev (a :: r)) b a).
    + apply segment_length_sym.
    + by rewrite length_rev.
    + by rewrite head_rev.
    + by rewrite last_rev.
  - unfold calculate_euclidean_distance. rewrite length_rev.
    destruct (length r <? 2)%nat eqn:E; [done|]. apply Nat.ltb_ge in E. lia.
Qed.

Lemma segment_length_same (p : point) : segment_length p p = Ok (Py.Float Py.fzero).
Proof.
  destruct p as [x y]. unfold segment_length. cbn [Py.sub mbind result_bind Py.pow2 Py.add].
  rewrite !Z.sub_diag. reflexivity.
Qed.

Lemma length_loop_two (a b : point) :
  length_loop (Py.Float Py.fzero) [a; b] = segment_length a b.
Proof.
  rewrite length_loop_cons.
  destruct (segment_length a b) as [d|e] eqn:E; [|done].
  apply segment_length_nonneg in E as (f & -> & _ & Hf).
  cbn [mbind result_bind]. rewrite add_floats. cbn [mbind result_bind length_loop].
  by rewrite fadd_zero_l.
Qed.

(** For a route of two points the arc length and the straight-line
    distance are the same number, and the same exception when the
    coordinates are too large for a double. *)
Theorem two_point_route_length (a b : point) :
  calculate_route_length [a; b] = calculate_euclidean_distance [a; b].
Proof.
  rewrite calculate_route_length_loop, length_loop_two.
  by rewrite (euclidean_distance_ends [a; b] a b).
Qed.

Lemma sum_lengths_snoc (c : Py.num) (ds : list (result Py.num)) (d : result Py.num) :
  sum_lengths c (ds ++ [d]) =
  t ← sum_lengths c ds; x ← d; Py.add t x.
Proof.
  revert c. induction ds as [|d0 ds IH]; intros c.
  - cbn [app sum_lengths mbind result_bind]. destruct d as [x|]; [|done].
    cbn [mbind result_bind]. by destruct (Py.add c x).
  - cbn [app sum_lengths]. destruct d0 as [x0|]; [|done]. cbn [mbind result_bind].
    destruct (Py.add c x0); [|done]. cbn [mbind result_bind]. apply IH.
Qed.

Lemma fle_zero (f : spec_float) : nonneg f -> fle Py.fzero f.
Proof.
  intros Hf. destruct (fadd_mono Py.fzero f) as [Hle _]; [by split|done|].
  rewrite fadd_zero_l in Hle; [done|apply Hf].
Qed.

(** Appending a point to a route never makes it shorter: the arc length
    of the longer route is at least that of the route it extends. *)
Theorem route_length_append_grows (r : route) (p : point) (t t' : Py.num) :
  calculate_route_length r = Ok t ->
  calculate_route_length (r ++ [p]) = Ok t' ->
  Py.le t t' = true.
Proof.
  intros Ht Ht'.
  destruct (calculate_route_length_nonneg _ _ Ht) as (f & -> & Hf).
  destruct (calculate_route_length_nonneg _ _ Ht') as (f' & -> & Hf').
  enough (fle f f') as Hle.
  { unfold Py.le. cbn [Py.compare]. by destruct Hle as [-> | ->]. }
  rewrite calculate_route_length_loop in Ht, Ht'.
  destruct r as [|y r _] using rev_ind.
  - injection Ht as <-. injection Ht' as <-. by apply fle_refl.
  - rewrite length_loop_sum in Ht, Ht'. unfold segment_lengths in Ht'.
    rewrite segments_snoc, map_app in Ht'. cbn [map fst snd] in Ht'.
    fold (segment_lengths (r ++ [y])) in Ht'.
    rewrite sum_lengths_snoc, Ht in Ht'. cbn [mbind result_bind] in Ht'.
    destruct (segment_length y p) as [d|] eqn:Ed; [|done].
    apply segment_length_nonneg in Ed as (g & -> & Hg).
    cbn [mbind result_bind] in Ht'. rewrite add_floats in Ht'.
    injection Ht' as <-. by apply fadd_mono.
Qed.

Lemma route_length_append_grows_witness :
  Py.le (Py.Float (S754_finite false 4503599627370496 (-50)))
        (Py.Float (S754_finite false 5066549580791808 (-49))) = true.
Proof.
  apply (route_length_append_grows [(5, 1); (5, 5)] (10, 5)); vm_compute; reflexivity.
Defined.

Lemma length_loop_replicate (n : nat) (p : point) :
  length_loop (Py.Float Py.fzero) (replicate n p) = Ok (Py.Float Py.fzero).
Proof.
  induction n as [|[|n] IH]; [done..|].
  change (replicate (S (S n)) p) with (p :: p :: replicate n p).
  rewrite length_loop_cons, segment_length_same. cbn [mbind result_bind].
  rewrite add_floats. cbn [mbind result_bind]. apply IH.
Qed.

Lemma route_length_replicate (n : nat) (p : point) :
  calculate_route_length (replicate n p) = Ok (Py.Float Py.fzero).
Proof. rewrite calculate_route_length_loop. apply length_loop_replicate. Qed.

(** A route whose points all coincide, a single point included, has arc
    length and straight-line distance [0.0], and its middle point and
    both third points are that point. *)
Theorem coincident_route_geometry (n : nat) (p : point) :
  let r := replicate (S n) p in
  calculate_route_length r = Ok (Py.Float Py.fzero)
  /\ calculate_euclidean_distance r = Ok (Py.Float Py.fzero)
  /\ get_middle_point r = Ok (of_point p)
  /\ get_third_points r = Ok (of_point p, of_point p).
Proof.
  intros r. subst r.
  assert (Hd : forall d, Py.le d (Py.Int 0) = true ->
                         get_point_at_distance (replicate (S n) p) d = Ok (of_point p)).
  { intros d Hd. by apply get_point_at_distance_first. }
  split; [apply route_length_replicate|]. split; [|split].
  - destruct n as [|n]; [done|].
    rewrite (euclidean_distance_ends _ p p).
    + apply segment_length_same.
    + rewrite length_replicate. lia.
    + done.
    + clear Hd. generalize (S n). intros k. induction k as [|k IH]; [done|].
      change (replicate (S (S k)) p) with (p :: replicate (S k) p).
      by rewrite last_cons, IH.
  - unfold get_middle_point. rewrite route_length_replicate.
    cbn [mbind result_bind]. by apply Hd.
  - unfold get_third_points. rewrite route_length_replicate.
    cbn [mbind result_bind].
    change (Py.truediv (Py.Float Py.fzero) (Py.Int 3)) with (Ok (Py.Float Py.fzero)).
    change (Py.mul (Py.Int 2) (Py.Float Py.fzero)) with (Ok (Py.Float Py.fzero)).
    cbn [mbind result_bind].
    change (Py.truediv (Py.Float Py.fzero) (Py.Int 3)) with (Ok (Py.Float Py.fzero)).
    cbn [mbind result_bind]. by rewrite Hd.
Qed.

(** On the empty route the geometry returns zeros and raises nothing:
    length [0.0], distance [0.0], middle point [(0, 0)], third points
    [(0, 0)] twice.  The feature vector is another matter: of the routes
    with coordinates in range, the empty one is the one on which it
    raises [IndexError], whatever the options. *)
Theorem empty_route_geometry (m t e : bool) :
  calculate_route_length [] = Ok (Py.Float Py.fzero)
  /\ calculate_euclidean_distance [] = Ok (Py.Float Py.fzero)
  /\ get_middle_point [] = Ok (Py.Int 0, Py.Int 0)
  /\ get_third_points [] = Ok ((Py.Int 0, Py.Int 0), (Py.Int 0, Py.Int 0))
  /\ (forall r, route_ok r ->
        extract_single_route_features r m t e = Raise IndexError <-> r = []).
Proof.
  repeat split; try reflexivity.
  - intros Hx. destruct (decide (r = [])) as [|Hne]; [done|].
    destruct (extract_single_route_features_ok r m t e H Hne) as (row & Hrow & _).
    congruence.
  - by intros ->.
Qed.

(** * Cluster colours *)

Lemma palette_lookup (k : nat) :
  cluster_colors !! (k mod length cluster_colors)%nat = Some (palette k).
Proof.
  unfold palette. change (length cluster_colors) with 15%nat.
  destruct (lookup_lt_is_Some_2 cluster_colors (k mod 15)%nat) as [c ->]; [|done].
  change (length cluster_colors) with 15%nat. apply Nat.mod_upper_bound. lia.
Qed.

Lemma color_map_loop_spec (us : list Z) (idx : nat) (m : gmap Z string) :
  exists m', color_map_loop us idx m = Some m'
    /\ (forall l, l ∉ us -> m' !! l = m !! l)
    /\ (NoDup us -> forall pre l post, us = pre ++ l :: post ->
          m' !! l = Some (if l =? -1 then "#808080"%string
                          else palette (idx + length (filter (fun x => x <> -1) pre)))).
Proof.
  revert idx m. induction us as [|u us IH]; intros idx m.
  - exists m. split; [done|]. split; [done|]. intros _ [|? ?] ? ? ?; done.
  - cbn [color_map_loop]. destruct (u =? -1) eqn:Eu.
    + apply Z.eqb_eq in Eu as ->.
      destruct (IH idx (<[-1 := "#808080"%string]> m)) as (m' & -> & Hout & Hin).
      exists m'. split; [done|]. split.
      * intros l Hl. apply not_elem_of_cons in Hl as [Hne Hl].
        by rewrite Hout, lookup_insert_ne.
      * intros Hnd pre l post E. apply NoDup_cons in Hnd as [Hu Hnd].
        destruct pre as [|p pre]; simplify_eq/=.
        -- by rewrite Hout, lookup_insert_eq.
        -- rewrite (Hin Hnd pre l post eq_refl).
           by rewrite filter_cons_False by (intros ?; done).
    + apply Z.eqb_neq in Eu. rewrite palette_lookup. cbn [mbind option_bind].
      destruct (IH (S idx) (<[u := palette idx]> m)) as (m' & -> & Hout & Hin).
      exists m'. split; [done|]. split.
      * intros l Hl. apply not_elem_of_cons in Hl as [Hne Hl].
        by rewrite Hout, lookup_insert_ne.
      * intros Hnd pre l post E. apply NoDup_cons in Hnd as [Hu Hnd].
        destruct pre as [|p pre]; simplify_eq/=.
        -- rewrite Hout, lookup_insert_eq by done.
           destruct (l =? -1) eqn:El; [lia|]. by rewrite Nat.add_0_r.
        -- rewrite (Hin Hnd pre l post eq_refl).
           rewrite filter_cons_True by done. cbn [length].
           by rewrite Nat.add_succ_r.
Qed.

Lemma np_unique_elem_of (a : list Z) (x : Z) : x ∈ np_unique a <-> x ∈ a.
Proof.
  unfold np_unique. rewrite merge_sort_Permutation. apply elem_of_remove_dups.
Qed.

Lemma np_unique_NoDup (a : list Z) : NoDup (np_unique a).
Proof.
  unfold np_unique. rewrite merge_sort_Permutation. apply NoDup_remove_dups.
Qed.

Lemma np_unique_sorted (a : list Z) : StronglySorted Z.lt (np_unique a).
Proof.
  pose proof (np_unique_NoDup a) as Hnd.
  assert (Hs : StronglySorted Z.le (np_unique a)).
  { apply (StronglySorted_merge_sort Z.le); apply _. }
  induction Hs as [|x l Hs IH Hx]; [constructor|].
  apply NoDup_cons in Hnd as [Hnx Hnd]. constructor; [by apply IH|].
  apply Forall_forall. intros y Hy.
  rewrite Forall_forall in Hx. specialize (Hx y Hy).
  assert (x <> y) by (intros ->; done). lia.
Qed.

Lemma clusters_sorted (a : list Z) : StronglySorted Z.lt (clusters a).
Proof.
  unfold clusters. generalize (np_unique_sorted a).
  induction 1 as [|x l Hs IH Hx]; [constructor|].
  rewrite filter_cons. destruct (decide (x <> -1)); [|done].
  constructor; [done|]. apply Forall_forall. intros y Hy.
  apply list_elem_of_filter in Hy as [_ Hy].
  rewrite Forall_forall in Hx. by apply Hx.
Qed.

Lemma elem_of_clusters (a : list Z) (x : Z) : x ∈ clusters a <-> x ∈ a /\ x <> -1.
Proof.
  unfold clusters. rewrite list_elem_of_filter, np_unique_elem_of. tauto.
Qed.

Lemma filter_all {A} (P : A -> Prop) `{!forall x, Decision (P x)} (l : list A) :
  Forall P l -> filter P l = l.
Proof.
  induction 1 as [|x l Hx _ IH]; [done|].
  by rewrite filter_cons_True, IH.
Qed.

Lemma filter_none {A} (P : A -> Prop) `{!forall x, Decision (P x)} (l : list A) :
  Forall (fun x => ~ P x) l -> filter P l = [].
Proof.
  induction 1 as [|x l Hx _ IH]; [done|].
  by rewrite filter_cons_False.
Qed.

(** In a strictly increasing list the elements below the one at
    position [k] are the first [k]. *)
Lemma sorted_filter_lt (pre post : list Z) (x : Z) :
  StronglySorted Z.lt (pre ++ x :: post) ->
  filter (fun y => y < x) (pre ++ x :: post) = pre.
Proof.
  intros Hs. rewrite filter_app, filter_cons_False by lia.
  rewrite filter_all, filter_none; [by rewrite app_nil_r|..].
  - apply StronglySorted_app_1_r, StronglySorted_inv in Hs as [_ Hs].
    eapply Forall_impl; [exact Hs|]. intros y Hy. simpl in Hy. lia.
  - apply Forall_forall. intros y Hy.
    apply (StronglySorted_app_1_elem_of _ _ _ y x Hs); [done|]. by left.
Qed.

Lemma cluster_rank_lookup (a : list Z) (k : nat) (x : Z) :
  clusters a !! k = Some x -> cluster_rank a x = k.
Proof.
  intros Hk. unfold cluster_rank.
  pose proof (clusters_sorted a) as Hs.
  rewrite <- (take_drop_middle _ _ _ Hk) in Hs |- *.
  rewrite sorted_filter_lt by done.
  rewrite length_take. apply lookup_lt_Some in Hk. lia.
Qed.

Lemma mapM_Some_map {A B} (f : A -> option B) (g : A -> B) (l : list A) :
  Forall (fun x => f x = Some (g x)) l -> mapM f l = Some (map g l).
Proof.
  intros H. apply mapM_Some_2. induction H; constructor; done.
Qed.

Lemma generate_cluster_colors_eq (cluster_labels : list Z) :
  generate_cluster_colors cluster_labels
  = Some (map (cluster_color cluster_labels) cluster_labels).
Proof.
  unfold generate_cluster_colors.
  destruct (color_map_loop_spec (np_unique cluster_labels) 0 ∅) as (m & -> & _ & Hin).
  cbn [mbind option_bind]. apply mapM_Some_map, Forall_forall. intros l Hl.
  apply np_unique_elem_of in Hl as Hu.
  apply list_elem_of_split in Hu as (pre & post & Eu).
  rewrite (Hin (np_unique_NoDup _) pre l post Eu). f_equal.
  unfold cluster_color. destruct (l =? -1) eqn:El; [done|].
  apply Z.eqb_neq in El. f_equal. cbn [Nat.add].
  unfold cluster_rank, clusters. rewrite Eu.
  rewrite filter_app, filter_cons_True by done.
  pose proof (np_unique_sorted cluster_labels) as Hs. rewrite Eu in Hs.
  assert (Hs' : StronglySorted Z.lt
                  (filter (fun x => x <> -1) pre ++ l :: filter (fun x => x <> -1) post)).
  { pose proof (clusters_sorted cluster_labels) as Hc. unfold clusters in Hc.
    by rewrite Eu, filter_app, filter_cons_True in Hc. }
  by rewrite sorted_filter_lt.
Qed.

Lemma palette_not_gray (k : nat) : palette k <> "#808080"%string.
Proof.
  unfold palette. pose proof (Nat.mod_upper_bound k 15 ltac:(lia)) as Hk.
  revert Hk. generalize (k mod 15)%nat. intros n Hn.
  do 15 (destruct n as [|n]; [vm_compute; discriminate|]). lia.
Qed.

Lemma palette_inj (j k : nat) :
  (j < 15)%nat -> (k < 15)%nat -> palette j = palette k -> j = k.
Proof.
  intros Hj Hk. unfold palette. rewrite !Nat.mod_small by done.
  do 15 (destruct j as [|j]; [do 15 (destruct k as [|k]; [vm_compute; done|]); lia|]).
  lia.
Qed.

(** [generate_cluster_colors] raises nothing and returns one colour for
    every label: gray [#808080] for the noise label [-1], and for a
    cluster the palette entry at its rank among the clusters in
    increasing order of their ids, the palette repeating after its
    fifteen colours. *)
Theorem generate_cluster_colors_spec (cluster_labels : list Z) :
  exists colors,
    generate_cluster_colors cluster_labels = Some colors
    /\ length colors = length cluster_labels
    /\ forall i l, cluster_labels !! i = Some l ->
         colors !! i = Some (if l =? -1 then "#808080"%string
                             else palette (cluster_rank cluster_labels l)).
Proof.
  eexists. split; [apply generate_cluster_colors_eq|]. split.
  - by rewrite length_map.
  - intros i l Hl. change (map ?f ?l) with (f <$> l).
    by rewrite list_lookup_fmap, Hl.
Qed.

Lemma cluster_rank_lt (a : list Z) (x : Z) :
  x ∈ a -> x <> -1 -> (cluster_rank a x < length (clusters a))%nat.
Proof.
  intros Hx Hne. assert (Hc : x ∈ clusters a) by (by apply elem_of_clusters).
  apply list_elem_of_lookup in Hc as [k Hk].
  rewrite (cluster_rank_lookup a k x Hk). by eapply lookup_lt_Some.
Qed.

Lemma cluster_rank_inj (a : list Z) (x y : Z) :
  x ∈ a -> x <> -1 -> y ∈ a -> y <> -1 ->
  cluster_rank a x = cluster_rank a y -> x = y.
Proof.
  intros Hx Hxn Hy Hyn.
  assert (Hcx : x ∈ clusters a) by (by apply elem_of_clusters).
  assert (Hcy : y ∈ clusters a) by (by apply elem_of_clusters).
  apply list_elem_of_lookup in Hcx as [j Hj]. apply list_elem_of_lookup in Hcy as [k Hk].
  rewrite (cluster_rank_lookup a j x Hj), (cluster_rank_lookup a k y Hk).
  intros ->. congruence.
Qed.

(** With fifteen clusters at most, two points have the same colour
    exactly when they have the same label, noise included. *)
Theorem cluster_colors_tell_clusters_apart (cluster_labels : list Z)
    (colors : list string) (i j : nat) (a b : Z) :
  (length (clusters cluster_labels) <= 15)%nat ->
  generate_cluster_colors cluster_labels = Some colors ->
  cluster_labels !! i = Some a -> cluster_labels !! j = Some b ->
  (colors !! i = colors !! j <-> a = b).
Proof.
  intros Hn Hg Ha Hb. rewrite generate_cluster_colors_eq in Hg. injection Hg as <-.
  change (map ?f ?l) with (f <$> l). rewrite !list_lookup_fmap, Ha, Hb. cbn.
  split; [|by intros ->]. intros [= Hc]. revert Hc. unfold cluster_color.
  apply list_elem_of_lookup_2 in Ha, Hb.
  destruct (a =? -1) eqn:Ea, (b =? -1) eqn:Eb.
  - lia.
  - intros Hc. symmetry in Hc. by apply palette_not_gray in Hc.
  - intros Hc. by apply palette_not_gray in Hc.
  - apply Z.eqb_neq in Ea, Eb. intros Hc.
    pose proof (cluster_rank_lt _ _ Ha Ea). pose proof (cluster_rank_lt _ _ Hb Eb).
    apply palette_inj in Hc; [|lia..]. by apply (cluster_rank_inj cluster_labels).
Qed.

Lemma cluster_colors_tell_clusters_apart_witness :
  (["#FF6B6B"; "#808080"; "#4ECDC4"; "#FF6B6B"]%string !! 0%nat
   = ["#FF6B6B"; "#808080"; "#4ECDC4"; "#FF6B6B"]%string !! 3%nat) <-> 0 = 0.
Proof.
  apply (cluster_colors_tell_clusters_apart [0; -1; 7; 0]).
  - vm_compute. lia.
  - vm_compute. reflexivity.
  - reflexivity.
  - reflexivity.
Defined.

(** With more than fifteen clusters the palette runs out: two points of
    different clusters get the same colour. *)
Theorem cluster_colors_repeat (cluster_labels : list Z) (colors : list string) :
  (16 <= length (clusters cluster_labels))%nat ->
  generate_cluster_colors cluster_labels = Some colors ->
  exists i j a b c,
    cluster_labels !! i = Some a /\ cluster_labels !! j = Some b
    /\ a <> -1 /\ b <> -1 /\ a <> b
    /\ colors !! i = Some c /\ colors !! j = Some c.
Proof.
  intros Hn Hg. rewrite generate_cluster_colors_eq in Hg. injection Hg as <-.
  destruct (lookup_lt_is_Some_2 (clusters cluster_labels) 0) as [a Ha]; [lia|].
  destruct (lookup_lt_is_Some_2 (clusters cluster_labels) 15) as [b Hb]; [lia|].
  pose proof (list_elem_of_lookup_2 _ _ _ Ha) as Hia.
  pose proof (list_elem_of_lookup_2 _ _ _ Hb) as Hib.
  apply elem_of_clusters in Hia as [Hia Hna]. apply elem_of_clusters in Hib as [Hib Hnb].
  apply list_elem_of_lookup in Hia as [i Hi]. apply list_elem_of_lookup in Hib as [j Hj].
  exists i, j, a, b, (palette 0). split; [done|]. split; [done|].
  split; [done|]. split; [done|]. split.
  - intros ->. pose proof (cluster_rank_lookup _ _ _ Ha) as H0.
    rewrite (cluster_rank_lookup _ _ _ Hb) in H0. lia.
  - change (map ?f ?l) with (f <$> l). rewrite !list_lookup_fmap, Hi, Hj. cbn.
    unfold cluster_color.
    destruct (a =? -1) eqn:Ea; [lia|]. destruct (b =? -1) eqn:Eb; [lia|].
    by rewrite (cluster_rank_lookup _ _ _ Ha), (cluster_rank_lookup _ _ _ Hb).
Qed.

Lemma cluster_colors_repeat_witness :
  let cluster_labels := [0; 1; 2; 3; 4; 5; 6; 7; 8; 9; 10; 11; 12; 13; 14; 15] in
  let colors := cluster_colors ++ ["#FF6B6B"%string] in
  exists i j a b c,
    cluster_labels !! i = Some a /\ cluster_labels !! j = Some b
    /\ a <> -1 /\ b <> -1 /\ a <> b
    /\ colors !! i = Some c /\ colors !! j = Some c.
Proof.
  apply cluster_colors_repeat.
  - vm_compute. lia.
  - vm_compute. reflexivity.
Defined.

(** * The canvas *)

Ltac unfold_V :=
  unfold mbind, Gui.V_bind, mret, Gui.V_ret, Gui.get_store, Gui.modify_store,
    Gui.lift_result, Gui.canvas_create, Gui.canvas_delete; cbn [fst snd Gui.store Gui.canvas].

Lemma draw_point_eq (cx cy x y : Z) (g : Gui.app) :
  Gui.draw_point cx cy x y g =
  (Ok tt, {| Gui.store := Gui.store g;
             Gui.canvas := Gui.canvas g
               ++ [Gui.create_oval (cx - Gui.point_radius) (cy - Gui.point_radius)
                     (cx + Gui.point_radius) (cy + Gui.point_radius)
                     Gui.point_color "black" 1 "points";
                   Gui.create_text cx (cy - 15) (Gui.point_text x y)
                     (Some "black"%string) "point_labels"] |}).
Proof.
  unfold Gui.draw_point. unfold_V. by rewrite <- app_assoc.
Qed.

Lemma draw_route_loop_eq (route pre rest : route) (g : Gui.app) :
  route = pre ++ rest ->
  Gui.draw_route_loop route (Z.of_nat (length pre)) rest g =
  (Ok tt, {| Gui.store := Gui.store g;
             Gui.canvas := Gui.canvas g
               ++ Gui.route_items_from (Gui.store g) (last pre) rest |}).
Proof.
  revert pre g. induction rest as [|[x y] rest IH]; intros pre g Hr.
  - cbn. rewrite app_nil_r. by destruct g.
  - cbn [Gui.draw_route_loop Gui.route_items_from].
    unfold mbind at 1. unfold Gui.V_bind at 1. unfold Gui.get_store at 1.
    unfold mbind at 1. unfold Gui.V_bind at 1. rewrite draw_point_eq.
    unfold mbind at 1. unfold Gui.V_bind at 1.
    set (g1 := {| Gui.store := Gui.store g; Gui.canvas := _ |}).
    assert (Hline :
      (if 0 <? Z.of_nat (length pre)
       then prev_point ← Gui.lift_result (Py.getitem route (Z.of_nat (length pre) - 1));
            Gui.draw_line (coord_to_canvas_x (Gui.store g) (fst prev_point))
                          (coord_to_canvas_y (Gui.store g) (snd prev_point))
                          (coord_to_canvas_x (Gui.store g) x)
                          (coord_to_canvas_y (Gui.store g) y)
       else mret tt) g1 =
      (Ok tt, {| Gui.store := Gui.store g;
                 Gui.canvas := Gui.canvas g1
                   ++ match last pre with
                      | Some a => [Gui.line_item (Gui.store g) a (x, y)]
                      | None => []
                      end |})).
    { destruct pre as [|a pre _] using rev_ind.
      - cbn. by rewrite app_nil_r.
      - rewrite length_app, last_snoc. cbn [length].
        destruct (0 <? Z.of_nat (length pre + 1)) eqn:E; [|apply Z.ltb_ge in E; lia].
        assert (Hg : Py.getitem route (Z.of_nat (length pre + 1) - 1) = Ok a).
        { apply getitem_in_bounds; [lia|]. rewrite Hr, <- app_assoc.
          rewrite lookup_app_r by lia.
          replace (Z.to_nat _ - length pre)%nat with 0%nat by lia. done. }
        unfold_V. rewrite Hg. done. }
    rewrite Hline.
    replace (Z.of_nat (length pre) + 1) with (Z.of_nat (length (pre ++ [(x, y)])))
      by (rewrite length_app; simpl; lia).
    rewrite (IH (pre ++ [(x, y)])) by (by rewrite <- app_assoc).
    cbn [Gui.store Gui.canvas]. rewrite last_snoc. subst g1. cbn [Gui.canvas].
    unfold Gui.point_items. cbn [fst snd]. by rewrite <- !app_assoc.
Qed.

Lemma draw_route_eq (r : route) (g : Gui.app) :
  Gui.draw_route r g =
  (Ok tt, {| Gui.store := Gui.store g;
             Gui.canvas := Gui.canvas g ++ Gui.route_items (Gui.store g) r |}).
Proof. apply (draw_route_loop_eq r [] r). done. Qed.

Lemma for_each_draw_route (rs : list route) (g : Gui.app) :
  Gui.for_each Gui.draw_route rs g =
  (Ok tt, {| Gui.store := Gui.store g;
             Gui.canvas := Gui.canvas g
               ++ concat (map (Gui.route_items (Gui.store g)) rs) |}).
Proof.
  revert g. induction rs as [|r rs IH]; intros g.
  - cbn. rewrite app_nil_r. by destruct g.
  - cbn [Gui.for_each]. unfold mbind, Gui.V_bind. rewrite draw_route_eq, IH.
    cbn [Gui.store Gui.canvas map concat]. by rewrite <- app_assoc.
Qed.

Lemma route_tag_false (tag : string) :
  Gui.route_tag tag = false
  <-> tag <> "point_labels"%string /\ tag <> "lines"%string /\ tag <> "points"%string.
Proof.
  unfold Gui.route_tag. rewrite bool_decide_eq_false. tauto.
Qed.

Lemma delete_route_tags (c : list Gui.item) :
  filter (fun it => Gui.item_tags it <> "point_labels"%string)
    (filter (fun it => Gui.item_tags it <> "lines"%string)
       (filter (fun it => Gui.item_tags it <> "points"%string) c))
  = base_items c.
Proof.
  rewrite !list_filter_filter. apply list_filter_iff. intros it.
  rewrite route_tag_false. tauto.
Qed.

Lemma redraw_all_routes_eq (g : Gui.app) :
  Gui.redraw_all_routes g =
  (Ok tt, {| Gui.store := Gui.store g;
             Gui.canvas := base_items (Gui.canvas g) ++ Gui.drawing (Gui.store g) |}).
Proof.
  unfold Gui.redraw_all_routes.
  unfold mbind at 1 2 3 4. unfold Gui.V_bind at 1 2 3 4.
  unfold Gui.canvas_delete, Gui.get_store. cbn [Gui.store Gui.canvas].
  unfold mbind, Gui.V_bind. rewrite for_each_draw_route. cbn [Gui.store Gui.canvas].
  rewrite delete_route_tags. unfold Gui.drawing.
  destruct (current_route (Gui.store g)) eqn:Ec.
  - cbn. by rewrite !app_nil_r.
  - rewrite draw_route_eq. cbn [Gui.store Gui.canvas]. by rewrite <- app_assoc.
Qed.

Lemma updates_refl (g g' : Gui.app) :
  Gui.canvas g' = Gui.canvas g ->
  Gui.drawing (Gui.store g') = Gui.drawing (Gui.store g) -> updates g g'.
Proof. intros Hc Hd. right. exists []. by rewrite !app_nil_r. Qed.

Lemma updates_redraw (g : Gui.app) (s' : drawer) :
  updates g (snd (Gui.redraw_all_routes {| Gui.store := s'; Gui.canvas := Gui.canvas g |})).
Proof. rewrite redraw_all_routes_eq. by left. Qed.

Lemma route_items_from_ext (s s' : drawer) (prev : option point) (r : route) :
  grid_size s' = grid_size s -> origin_x s' = origin_x s -> origin_y s' = origin_y s ->
  Gui.route_items_from s' prev r = Gui.route_items_from s prev r.
Proof.
  intros Hg Hx Hy. revert prev. induction r as [|p r IH]; intros prev; [done|].
  cbn [Gui.route_items_from]. rewrite IH.
  unfold Gui.point_items, Gui.line_item, coord_to_canvas_x, coord_to_canvas_y.
  by rewrite Hg, Hx, Hy.
Qed.

(** The drawing of a drawer is that of its routes on its grid. *)
Lemma drawing_ext (s s' : drawer) :
  grid_size s' = grid_size s -> origin_x s' = origin_x s -> origin_y s' = origin_y s ->
  Gui.drawing s' =
  concat (map (Gui.route_items s) (routes s')) ++ Gui.route_items s (current_route s').
Proof.
  intros Hg Hx Hy. unfold Gui.drawing, Gui.route_items. f_equal.
  - f_equal. apply map_ext. intros r. by apply route_items_from_ext.
  - by apply route_items_from_ext.
Qed.

Lemma drawing_set_drag (d : bool) (a b : option Z) (s : drawer) :
  Gui.drawing (set_drag d a b s) = Gui.drawing s.
Proof. by rewrite (drawing_ext s). Qed.

(** The case of a handler that leaves the canvas and the drawing as
    they are. *)
Ltac by_same :=
  split; [reflexivity|]; split; [reflexivity|];
  apply updates_refl; [reflexivity|first [reflexivity|apply drawing_set_drag]].

Lemma follows_remove_point (j i : Z) : follows (Gui.remove_point j i) (remove_point j i).
Proof.
  intros g. unfold Gui.remove_point, remove_point. unfold_M. unfold_V.
  destruct (j =? -1).
  - destruct (Py.in_bounds i (current_route (Gui.store g))); [|by_same].
    destruct (Py.pop (current_route (Gui.store g)) i) as [[x rest]|e];
      [|by_same].
    rewrite redraw_all_routes_eq. cbn [fst snd Gui.store Gui.canvas].
    split; [done|]. split; [done|]. by left.
  - destruct (Py.in_bounds j (routes (Gui.store g))); [|by_same].
    destruct (Py.getitem (routes (Gui.store g)) j) as [r|e];
      [|by_same].
    cbn [fst snd].
    destruct (Py.in_bounds i r); [|by_same].
    destruct (Py.pop r i) as [[x [|y rest]]|e]; cbn [fst snd];
      [| |by_same].
    + destruct (Py.pop (routes (Gui.store g)) j) as [[x' rs]|e]; cbn [fst snd];
        [|by_same].
      rewrite redraw_all_routes_eq. cbn [fst snd Gui.store Gui.canvas].
      split; [done|]. split; [done|]. by left.
    + destruct (Py.setitem (routes (Gui.store g)) j (y :: rest)) as [rs|e]; cbn [fst snd];
        [|by_same].
      rewrite redraw_all_routes_eq. cbn [fst snd Gui.store Gui.canvas].
      split; [done|]. split; [done|]. by left.
Qed.

Lemma follows_insert_point_in_route (j i : Z) (p : point) :
  follows (Gui.insert_point_in_route j i p) (insert_point_in_route j i p).
Proof.
  intros g. unfold Gui.insert_point_in_route, insert_point_in_route. unfold_M. unfold_V.
  destruct (j =? -1).
  - rewrite redraw_all_routes_eq. cbn [fst snd Gui.store Gui.canvas].
    split; [done|]. split; [done|]. by left.
  - destruct (Py.in_bounds j (routes (Gui.store g))); [|by_same].
    destruct (Py.getitem (routes (Gui.store g)) j) as [r|e]; cbn [fst snd];
      [|by_same].
    destruct (Py.setitem (routes (Gui.store g)) j (Py.insert r i p)) as [rs|e]; cbn [fst snd];
      [|by_same].
    rewrite redraw_all_routes_eq. cbn [fst snd Gui.store Gui.canvas].
    split; [done|]. split; [done|]. by left.
Qed.

Lemma route_items_from_snoc (s : drawer) (prev : option point) (r : route) (p : point) :
  Gui.route_items_from s prev (r ++ [p]) =
  Gui.route_items_from s prev r ++ Gui.point_items s p
  ++ match last r with
     | Some a => [Gui.line_item s a p]
     | None => match prev with Some a => [Gui.line_item s a p] | None => [] end
     end.
Proof.
  revert prev. induction r as [|q r IH]; intros prev.
  - cbn. by rewrite !app_nil_r.
  - cbn [app Gui.route_items_from]. rewrite IH, <- !app_assoc. do 3 f_equal.
    destruct r as [|q' r]; [done|]. rewrite last_cons_cons.
    destruct (last (q' :: r)) eqn:El; [done|]. by apply last_None in El.
Qed.

Lemma getitem_second_last {A} (l : list A) (a b : A) :
  Py.getitem ((l ++ [a]) ++ [b]) (-2) = Ok a.
Proof.
  unfold Py.getitem, Py.index. rewrite !length_app. cbn [length].
  destruct (0 <=? -2) eqn:E0; [apply Z.leb_le in E0; lia|]. cbn [andb].
  destruct (- Z.of_nat (length l + 1 + 1) <=? -2) eqn:E1; [|apply Z.leb_gt in E1; lia].
  cbn [andb Z.ltb Z.compare].
  replace (Z.to_nat (Z.of_nat (length l + 1 + 1) + -2)) with (length l) by lia.
  rewrite lookup_app_l by (rewrite length_app; simpl; lia).
  by rewrite list_lookup_middle.
Qed.

Lemma follows_on_left_click (x y : Z) :
  follows (Gui.on_left_click x y) (on_left_click x y).
Proof.
  intros g. unfold Gui.on_left_click, on_left_click. unfold_M. unfold_V.
  destruct (find_point_at_position (Gui.store g) x y) as [[[j i]|]|e];
    cbn [fst snd]; [by_same| |
                    by_same].
  destruct (canvas_to_coord_x (Gui.store g) x) as [cx|e]; cbn [fst snd];
    [|by_same].
  destruct (canvas_to_coord_y (Gui.store g) y) as [cy|e]; cbn [fst snd];
    [|by_same].
  rewrite draw_point_eq. cbn [fst snd Gui.store Gui.canvas current_route set_current_route].
  set (s := Gui.store g). set (cur := current_route s).
  assert (Hd : forall items,
    items = Gui.point_items s (cx, cy)
            ++ match last cur with Some a => [Gui.line_item s a (cx, cy)] | None => [] end ->
    Gui.drawing (set_current_route (cur ++ [(cx, cy)]) s) = Gui.drawing s ++ items).
  { intros items ->. rewrite (drawing_ext s) by done.
    unfold Gui.drawing, Gui.route_items.
    cbn [routes current_route set_current_route].
    rewrite route_items_from_snoc, <- !app_assoc. fold cur.
    by destruct (last cur). }
  destruct cur as [|a cur _] using rev_ind.
  - cbn [app length Nat.ltb Nat.leb]. cbn [fst snd Gui.store Gui.canvas].
    split; [done|]. split; [done|]. right. eexists. split; [done|].
    exact (Hd _ eq_refl).
  - rewrite !length_app. cbn [length].
    destruct (1 <? length cur + 1 + 1)%nat eqn:E; [|apply Nat.ltb_ge in E; lia].
    rewrite getitem_second_last. cbn [fst snd Gui.store Gui.canvas].
    unfold Gui.draw_line, Gui.canvas_create. cbn [fst snd Gui.store Gui.canvas].
    split; [done|]. split; [done|]. right.
    exists (Gui.point_items s (cx, cy) ++ [Gui.line_item s a (cx, cy)]). split.
    + cbn [Gui.canvas]. rewrite <- app_assoc. reflexivity.
    + cbn [Gui.store snd]. specialize (Hd _ eq_refl). rewrite last_snoc in Hd. exact Hd.
Qed.

Lemma follows_on_right_click (x y : Z) :
  follows (Gui.on_right_click x y) (on_right_click x y).
Proof.
  intros g. unfold Gui.on_right_click, on_right_click.
  unfold mbind, M_bind, Gui.V_bind, mret, M_ret, Gui.V_ret, get, lift,
    Gui.get_store, Gui.lift_result.
  destruct (find_point_at_position (Gui.store g) x y) as [[[j i]|]|e]; [| |by_same].
  - apply follows_remove_point.
  - destruct (find_line_at_position (Gui.store g) x y) as [[[[j i] k]|]|e];
      [|by_same|by_same].
    destruct (canvas_to_coord_x (Gui.store g) x) as [cx|e]; [|by_same].
    destruct (canvas_to_coord_y (Gui.store g) y) as [cy|e]; [|by_same].
    apply follows_insert_point_in_route.
Qed.

Lemma move_point_total (s : drawer) (a b : option Z) (p : point) :
  (exists s', move_point a b p s = (Ok tt, s')) \/ (exists e, move_point a b p s = (Raise e, s)).
Proof.
  unfold move_point. unfold_M. case_bool_decide.
  - destruct (subscript b); [|by right; eexists]. cbn [fst snd].
    destruct (Py.setitem _ _ _); [left|right]; by eexists.
  - destruct (subscript a); [|by right; eexists]. cbn [fst snd].
    destruct (Py.getitem _ _); [|by right; eexists]. cbn [fst snd].
    destruct (subscript b); [|by right; eexists]. cbn [fst snd].
    destruct (Py.setitem _ _ _); [|by right; eexists]. cbn [fst snd].
    destruct (Py.setitem _ _ _); [left|right]; by eexists.
Qed.

Lemma follows_on_left_release (x y : Z) :
  follows (Gui.on_left_release x y) (on_left_release x y).
Proof.
  intros g. unfold Gui.on_left_release, on_left_release. unfold_M. unfold_V.
  destruct (dragging (Gui.store g)); [|by_same].
  destruct (canvas_to_coord_x (Gui.store g) x) as [cx|e]; cbn [fst snd]; [|by_same].
  destruct (canvas_to_coord_y (Gui.store g) y) as [cy|e]; cbn [fst snd]; [|by_same].
  unfold Gui.call. cbn [Gui.store Gui.canvas].
  destruct (move_point_total (Gui.store g) (drag_route_idx (Gui.store g))
              (drag_point_idx (Gui.store g)) (cx, cy)) as [(s' & ->)|(e & ->)];
    cbn [fst snd].
  - rewrite redraw_all_routes_eq. cbn [fst snd Gui.store Gui.canvas].
    split; [done|]. split; [done|]. left. cbn [Gui.store Gui.canvas].
    by rewrite drawing_set_drag.
  - by_same.
Qed.

Lemma follows_on_drag (x y : Z) : follows (Gui.on_drag x y) (on_drag x y).
Proof.
  intros g. unfold Gui.on_drag, Gui.call. cbn [fst snd Gui.store Gui.canvas].
  split; [done|]. split; [done|]. apply updates_refl; [done|].
  cbn [Gui.store]. unfold on_drag. unfold_M.
  destruct (dragging (Gui.store g)); [|done].
  destruct (canvas_to_coord_x (Gui.store g) x); [|done]. cbn [fst snd].
  by destruct (canvas_to_coord_y (Gui.store g) y).
Qed.

Lemma follows_start_new_route : follows Gui.start_new_route start_new_route.
Proof.
  intros g. unfold Gui.start_new_route, Gui.call. cbn [fst snd Gui.store Gui.canvas].
  split; [done|]. split; [done|]. apply updates_refl; [done|].
  cbn [Gui.store]. unfold start_new_route. unfold_M.
  destruct (current_route (Gui.store g)) as [|p r] eqn:Ec; cbn [fst snd].
  - rewrite (drawing_ext (Gui.store g)) by done. cbn [routes current_route set_current_route].
    unfold Gui.drawing. by rewrite Ec.
  - rewrite (drawing_ext (Gui.store g)) by done.
    cbn [routes current_route set_current_route set_routes].
    unfold Gui.drawing. rewrite map_app, concat_app, Ec. cbn [map concat].
    by rewrite !app_nil_r.
Qed.

Lemma follows_clear_all : follows Gui.clear_all clear_all.
Proof.
  intros g. unfold Gui.clear_all, clear_all. unfold_M. unfold_V.
  split; [done|]. split; [done|]. left. cbn [Gui.store Gui.canvas].
  rewrite delete_route_tags. rewrite (drawing_ext (Gui.store g)) by done.
  cbn. by rewrite app_nil_r.
Qed.

Lemma follows_undo_last_point : follows Gui.undo_last_point undo_last_point.
Proof.
  intros g. unfold Gui.undo_last_point, undo_last_point. unfold_M. unfold_V.
  destruct (current_route (Gui.store g)) as [|p r]; [by_same|].
  destruct (Py.pop (p :: r) (-1)) as [[q rest]|e]; cbn [fst snd]; [|by_same].
  rewrite redraw_all_routes_eq. cbn [fst snd Gui.store Gui.canvas].
  split; [done|]. split; [done|]. by left.
Qed.

Lemma follows_handle (ev : event) : follows (Gui.handle ev) (handle ev).
Proof.
  destruct ev; cbn [Gui.handle handle].
  - apply follows_on_left_click.
  - apply follows_on_right_click.
  - apply follows_on_left_release.
  - apply follows_on_drag.
  - apply follows_start_new_route.
  - apply follows_clear_all.
  - apply follows_undo_last_point.
Qed.

Lemma appends_ret {A} (P : Gui.item -> Prop) (a : A) : appends P (mret a).
Proof. intros g. split; [done|]. exists []. by rewrite app_nil_r. Qed.

Lemma appends_lift_result {A} (P : Gui.item -> Prop) (r : result A) :
  appends P (Gui.lift_result r).
Proof. intros g. split; [done|]. exists []. by rewrite app_nil_r. Qed.

Lemma appends_get_store (P : Gui.item -> Prop) : appends P Gui.get_store.
Proof. intros g. split; [done|]. exists []. by rewrite app_nil_r. Qed.

Lemma appends_canvas_create (P : Gui.item -> Prop) (it : Gui.item) :
  P it -> appends P (Gui.canvas_create it).
Proof. intros Hit g. split; [done|]. exists [it]. split; [done|]. by constructor. Qed.

Lemma appends_bind {A B} (P : Gui.item -> Prop) (v : Gui.V A) (f : A -> Gui.V B) :
  appends P v -> (forall a, appends P (f a)) -> appends P (v ≫= f).
Proof.
  intros Hv Hf g. unfold mbind, Gui.V_bind.
  destruct (Hv g) as (Hs & items & Hc & Hp).
  destruct (v g) as [[a|e] g1]; cbn [snd] in *.
  - destruct (Hf a g1) as (Hs' & items' & Hc' & Hp').
    split; [congruence|]. exists (items ++ items'). split.
    + by rewrite Hc', Hc, app_assoc.
    + by apply Forall_app.
  - split; [done|]. by exists items.
Qed.

Lemma appends_for_each {A} (P : Gui.item -> Prop) (f : A -> Gui.V unit) (l : list A) :
  (forall x, appends P (f x)) -> appends P (Gui.for_each f l).
Proof.
  intros Hf. induction l as [|x l IH]; cbn [Gui.for_each].
  - apply appends_ret.
  - apply appends_bind; [apply Hf|]. intros _. apply IH.
Qed.

Lemma appends_startup (w h : Z) : appends background (Gui.startup w h).
Proof.
  unfold Gui.startup, Gui.draw_grid, Gui.draw_axes, Gui.draw_coordinate_labels.
  repeat first
    [ apply appends_get_store | apply appends_lift_result | apply appends_ret
    | apply appends_canvas_create; reflexivity
    | apply appends_for_each; intros ?
    | apply appends_bind; [|intros ?]
    | match goal with |- appends _ (if ?b then _ else _) => destruct b end ].
Qed.

Lemma base_items_background (c : list Gui.item) :
  Forall background c -> base_items c = c.
Proof. intros H. unfold base_items. by apply filter_all. Qed.

Lemma route_items_from_tags (s : drawer) (prev : option point) (r : route) :
  Forall (fun it => Gui.route_tag (Gui.item_tags it) = true) (Gui.route_items_from s prev r).
Proof.
  revert prev. induction r as [|p r IH]; intros prev; [constructor|].
  cbn [Gui.route_items_from]. repeat apply Forall_app_2.
  - by repeat constructor.
  - destruct prev; by repeat constructor.
  - apply IH.
Qed.

Lemma base_items_drawing (s : drawer) : base_items (Gui.drawing s) = [].
Proof.
  unfold base_items. apply filter_none. unfold Gui.drawing.
  assert (H : Forall (fun it => Gui.route_tag (Gui.item_tags it) = true)
                (concat (map (Gui.route_items s) (routes s))
                 ++ Gui.route_items s (current_route s))).
  { apply Forall_app_2; [|apply route_items_from_tags].
    apply Forall_concat, Forall_map, Forall_forall. intros r _.
    apply route_items_from_tags. }
  eapply Forall_impl; [exact H|]. intros it Hit. by rewrite Hit.
Qed.

Lemma shows_updates (b : list Gui.item) (g g' : Gui.app) :
  Forall background b -> shows b g -> updates g g' -> shows b g'.
Proof.
  unfold shows. intros Hb Hg [Hu|(items & Hc & Hd)].
  - rewrite Hu, Hg. unfold base_items. rewrite filter_app.
    fold (base_items b). fold (base_items (Gui.drawing (Gui.store g))).
    by rewrite base_items_background, base_items_drawing, app_nil_r.
  - by rewrite Hc, Hd, Hg, app_assoc.
Qed.

Lemma reachable_shows (w h : Z) (g : Gui.app) :
  Gui.reachable w h g ->
  reachable (Gui.store g) /\ shows (Gui.canvas (Gui.init w h)) g.
Proof.
  assert (Hb : Forall background (Gui.canvas (Gui.init w h))
               /\ Gui.store (Gui.init w h) = init).
  { destruct (appends_startup w h {| Gui.store := init; Gui.canvas := [] |})
      as (Hs & items & Hc & Hp).
    unfold Gui.init. rewrite Hc. by split. }
  destruct Hb as [Hb Hi].
  induction 1 as [|g ev Hev Hg [IHr IHs]].
  - split; [rewrite Hi; constructor|].
    unfold shows. rewrite Hi. cbn. by rewrite app_nil_r.
  - destruct (follows_handle ev g) as (_ & Hs & Hu). split.
    + unfold Gui.after. rewrite Hs. by constructor.
    + by apply (shows_updates _ g).
Qed.

Lemma for_each_create {A} (f : A -> Gui.item) (l : list A) (g : Gui.app) :
  Gui.for_each (fun x => Gui.canvas_create (f x)) l g =
  (Ok tt, {| Gui.store := Gui.store g; Gui.canvas := Gui.canvas g ++ map f l |}).
Proof.
  revert g. induction l as [|x l IH]; intros g.
  - cbn. rewrite app_nil_r. by destruct g.
  - cbn [Gui.for_each]. unfold mbind, Gui.V_bind, Gui.canvas_create at 1.
    rewrite IH. cbn [Gui.store Gui.canvas map]. by rewrite <- app_assoc.
Qed.

Lemma round_div_multiple (a g : Z) : 0 < g -> round_div (a * g) g = a.
Proof.
  intros Hg. unfold round_div. rewrite Z.div_mul, Z.mod_mul by lia.
  destruct (2 * 0 ?= g) eqn:E; [|done|]; cbn in E; destruct g; try discriminate; lia.
Qed.

(** The multiples of [step] below [stop], from zero on. *)
Lemma range_from_zero (stop step : Z) :
  0 < step ->
  Gui.range 0 stop step =
  Ok (map (fun k : nat => Z.of_nat k * step) (seq 0 (Z.to_nat ((stop + step - 1) / step)))).
Proof.
  intros Hs. unfold Gui.range.
  destruct (step =? 0) eqn:E0; [apply Z.eqb_eq in E0; lia|].
  destruct (0 <? step) eqn:E1; [|apply Z.ltb_ge in E1; lia].
  by rewrite Z.sub_0_r.
Qed.

Lemma range_count (stop step : Z) :
  0 < step ->
  Z.to_nat ((stop + step - 1) / step) =
  if 0 <? stop then S (Z.to_nat ((stop - 1) / step)) else 0%nat.
Proof.
  intros Hs. destruct (0 <? stop) eqn:E.
  - apply Z.ltb_lt in E.
    replace (stop + step - 1) with ((stop - 1) + 1 * step) by lia.
    rewrite Z.div_add by lia.
    assert (0 <= (stop - 1) / step) by (apply Z.div_pos; lia). lia.
  - apply Z.ltb_ge in E.
    assert ((stop + step - 1) / step <= 0); [|lia].
    assert ((stop + step - 1) / step < 1); [|lia].
    apply Z.div_lt_upper_bound; lia.
Qed.

(** The labels of one axis: none at zero, and at every other multiple
    of a hundred pixels the grid coordinate, five times the multiple. *)
Lemma for_each_axis_label (mk : Z -> Z -> Gui.item) (conv : drawer -> Z -> result Z)
    (stop : Z) (g : Gui.app) :
  (forall c, device_ok c -> conv init c = Ok (round_div c 20)) ->
  device_ok stop ->
  Gui.for_each (fun x =>
      coord ← Gui.lift_result (conv init x);
      if negb (coord =? 0) then Gui.canvas_create (mk x coord) else mret tt)
    (map (fun k : nat => Z.of_nat k * 100) (seq 0 (Z.to_nat ((stop + 100 - 1) / 100)))) g =
  (Ok tt, {| Gui.store := Gui.store g;
             Gui.canvas := Gui.canvas g
               ++ map (fun k : nat => mk (100 * Z.of_nat k) (5 * Z.of_nat k))
                      (seq 1 (Z.to_nat ((stop - 1) / 100))) |}).
Proof.
  intros Hconv Hstop. rewrite range_count by lia.
  assert (Hstep : forall (n : nat) (k0 : nat) (g : Gui.app),
    (0 < k0)%nat -> Z.of_nat (k0 + n) * 100 <= stop + 100 ->
    Gui.for_each (fun x =>
        coord ← Gui.lift_result (conv init x);
        if negb (coord =? 0) then Gui.canvas_create (mk x coord) else mret tt)
      (map (fun k : nat => Z.of_nat k * 100) (seq k0 n)) g =
    (Ok tt, {| Gui.store := Gui.store g;
               Gui.canvas := Gui.canvas g
                 ++ map (fun k : nat => mk (100 * Z.of_nat k) (5 * Z.of_nat k))
                        (seq k0 n) |})).
  { induction n as [|n IH]; intros k0 g0 Hk Hle.
    - cbn. rewrite app_nil_r. by destruct g0.
    - cbn [seq map Gui.for_each]. unfold mbind at 1. unfold Gui.V_bind at 1.
      unfold mbind at 1. unfold Gui.V_bind at 1. unfold Gui.lift_result at 1.
      rewrite Hconv.
      2:{ unfold device_ok in *. apply Z.abs_le in Hstop. apply Z.abs_le. lia. }
      replace (Z.of_nat k0 * 100) with (5 * Z.of_nat k0 * 20) by lia.
      rewrite round_div_multiple by lia.
      destruct (5 * Z.of_nat k0 =? 0) eqn:E; [apply Z.eqb_eq in E; lia|].
      cbn [negb]. unfold Gui.canvas_create at 1.
      rewrite IH by lia. cbn [Gui.store Gui.canvas].
      rewrite <- app_assoc. cbn [app].
      by replace (5 * Z.of_nat k0 * 20) with (100 * Z.of_nat k0) by lia. }
  destruct (0 <? stop) eqn:E.
  - apply Z.ltb_lt in E. cbn [seq map Gui.for_each].
    unfold mbind at 1. unfold Gui.V_bind at 1.
    unfold mbind at 1. unfold Gui.V_bind at 1. unfold Gui.lift_result at 1.
    rewrite Hconv by (unfold device_ok; simpl; lia).
    change (round_div (Z.of_nat 0 * 100) 20) with 0. cbn [Z.eqb negb].
    unfold mret at 1. unfold Gui.V_ret at 1.
    apply Hstep; [lia|].
    assert ((stop - 1) / 100 * 100 <= stop - 1).
    { rewrite Z.mul_comm. apply Z.mul_div_le. lia. }
    assert (0 <= (stop - 1) / 100) by (apply Z.div_pos; lia). lia.
  - apply Z.ltb_ge in E.
    assert ((stop - 1) / 100 < 0) by (apply Z.div_lt_upper_bound; lia).
    replace (Z.to_nat ((stop - 1) / 100)) with 0%nat by lia.
    cbn. rewrite app_nil_r. by destruct g.
Qed.

Lemma bind_Ok {A B} (v : Gui.V A) (f : A -> Gui.V B) (g g' : Gui.app) (a : A) :
  v g = (Ok a, g') -> (v ≫= f) g = f a g'.
Proof. intros H. unfold mbind, Gui.V_bind. by rewrite H. Qed.

(** The canvas that [__init__] leaves: a grid line every 20 pixels
    below the requested width and height, the two axes, and on either
    axis a label every 100 pixels that shows the grid coordinate there,
    5 at 100, 10 at 200 and so on, none at zero but the origin label.
    Drawing it raises nothing. *)
Theorem startup_canvas (canvas_width canvas_height : Z) :
  device_ok canvas_width -> device_ok canvas_height ->
  Gui.startup canvas_width canvas_height {| Gui.store := init; Gui.canvas := [] |}
    = (Ok tt, Gui.init canvas_width canvas_height)
  /\ Gui.store (Gui.init canvas_width canvas_height) = init
  /\ Gui.canvas (Gui.init canvas_width canvas_height) =
       map (fun k : nat => Gui.create_line (20 * Z.of_nat k) 0 (20 * Z.of_nat k) canvas_height
                             "#E0E0E0" None "grid")
           (seq 0 (Z.to_nat ((canvas_width + 19) / 20)))
       ++ map (fun k : nat => Gui.create_line 0 (20 * Z.of_nat k) canvas_width (20 * Z.of_nat k)
                                "#E0E0E0" None "grid")
              (seq 0 (Z.to_nat ((canvas_height + 19) / 20)))
       ++ [Gui.create_line 0 0 canvas_width 0 "#808080" (Some 2) "axes";
           Gui.create_line 0 0 0 canvas_height "#808080" (Some 2) "axes"]
       ++ map (fun k : nat => Gui.create_text (100 * Z.of_nat k) 15
                                (Gui.str_int (5 * Z.of_nat k)) None "labels")
              (seq 1 (Z.to_nat ((canvas_width - 1) / 100)))
       ++ map (fun k : nat => Gui.create_text 15 (100 * Z.of_nat k)
                                (Gui.str_int (5 * Z.of_nat k)) None "labels")
              (seq 1 (Z.to_nat ((canvas_height - 1) / 100)))
       ++ [Gui.create_text 10 10 "(0,0)" None "labels"].
Proof.
  intros Hw Hh.
  assert (E : Gui.startup canvas_width canvas_height {| Gui.store := init; Gui.canvas := [] |}
              = (Ok tt, {| Gui.store := init; Gui.canvas :=
       map (fun k : nat => Gui.create_line (20 * Z.of_nat k) 0 (20 * Z.of_nat k) canvas_height
                             "#E0E0E0" None "grid")
           (seq 0 (Z.to_nat ((canvas_width + 19) / 20)))
       ++ map (fun k : nat => Gui.create_line 0 (20 * Z.of_nat k) canvas_width (20 * Z.of_nat k)
                                "#E0E0E0" None "grid")
              (seq 0 (Z.to_nat ((canvas_height + 19) / 20)))
       ++ [Gui.create_line 0 0 canvas_width 0 "#808080" (Some 2) "axes";
           Gui.create_line 0 0 0 canvas_height "#808080" (Some 2) "axes"]
       ++ map (fun k : nat => Gui.create_text (100 * Z.of_nat k) 15
                                (Gui.str_int (5 * Z.of_nat k)) None "labels")
              (seq 1 (Z.to_nat ((canvas_width - 1) / 100)))
       ++ map (fun k : nat => Gui.create_text 15 (100 * Z.of_nat k)
                                (Gui.str_int (5 * Z.of_nat k)) None "labels")
              (seq 1 (Z.to_nat ((canvas_height - 1) / 100)))
       ++ [Gui.create_text 10 10 "(0,0)" None "labels"] |})).
  { set (labels_x := fun x c => Gui.create_text x 15 (Gui.str_int c) None "labels").
    set (labels_y := fun y c => Gui.create_text 15 y (Gui.str_int c) None "labels").
    assert (Hx : forall c, device_ok c -> canvas_to_coord_x init c = Ok (round_div c 20)).
    { intros c Hc. rewrite canvas_to_coord_x_nearest by (done || apply store_ok_init).
      by rewrite Z.sub_0_r. }
    assert (Hy : forall c, device_ok c -> canvas_to_coord_y init c = Ok (round_div c 20)).
    { intros c Hc. rewrite canvas_to_coord_y_nearest by (done || apply store_ok_init).
      by rewrite Z.sub_0_r. }
    unfold Gui.startup.
    erewrite bind_Ok; cycle 1.
    { unfold Gui.draw_grid.
      erewrite bind_Ok by reflexivity. cbn [Gui.store grid_size init].
      rewrite !range_from_zero by lia.
      erewrite bind_Ok by reflexivity.
      erewrite bind_Ok by apply for_each_create.
      erewrite bind_Ok by reflexivity.
      apply for_each_create. }
    unfold Gui.draw_axes.
    erewrite bind_Ok by reflexivity. cbn [Gui.store origin_x origin_y init].
    erewrite bind_Ok by reflexivity.
    erewrite bind_Ok by reflexivity.
    unfold Gui.draw_coordinate_labels.
    erewrite bind_Ok by reflexivity. cbn [Gui.store grid_size init].
    change (20 * 5) with 100. rewrite !range_from_zero by lia.
    erewrite bind_Ok by reflexivity.
    erewrite bind_Ok by (apply (for_each_axis_label labels_x canvas_to_coord_x); done).
    erewrite bind_Ok by reflexivity.
    erewrite bind_Ok by (apply (for_each_axis_label labels_y canvas_to_coord_y); done).
    unfold Gui.canvas_create. cbn [Gui.store Gui.canvas].
    replace (canvas_width + 20 - 1) with (canvas_width + 19) by lia.
    replace (canvas_height + 20 - 1) with (canvas_height + 19) by lia.
    f_equal. f_equal. rewrite !map_map. cbn [app].
    rewrite <- !app_assoc. cbn [app]. subst labels_x labels_y. cbn beta.
    f_equal; [|f_equal].
    - apply map_ext. intros k. f_equal; lia.
    - apply map_ext. intros k. f_equal; lia. }
  unfold Gui.init. rewrite E. done.
Qed.

Lemma startup_canvas_witness :
  Gui.startup 250 120 {| Gui.store := init; Gui.canvas := [] |}
    = (Ok tt, Gui.init 250 120)
  /\ Gui.store (Gui.init 250 120) = init
  /\ Gui.canvas (Gui.init 250 120) =
       map (fun k : nat => Gui.create_line (20 * Z.of_nat k) 0 (20 * Z.of_nat k) 120
                             "#E0E0E0" None "grid")
           (seq 0 (Z.to_nat ((250 + 19) / 20)))
       ++ map (fun k : nat => Gui.create_line 0 (20 * Z.of_nat k) 250 (20 * Z.of_nat k)
                                "#E0E0E0" None "grid")
              (seq 0 (Z.to_nat ((120 + 19) / 20)))
       ++ [Gui.create_line 0 0 250 0 "#808080" (Some 2) "axes";
           Gui.create_line 0 0 0 120 "#808080" (Some 2) "axes"]
       ++ map (fun k : nat => Gui.create_text (100 * Z.of_nat k) 15
                                (Gui.str_int (5 * Z.of_nat k)) None "labels")
              (seq 1 (Z.to_nat ((250 - 1) / 100)))
       ++ map (fun k : nat => Gui.create_text 15 (100 * Z.of_nat k)
                                (Gui.str_int (5 * Z.of_nat k)) None "labels")
              (seq 1 (Z.to_nat ((120 - 1) / 100)))
       ++ [Gui.create_text 10 10 "(0,0)" None "labels"].
Proof.
  apply startup_canvas; vm_compute; discriminate.
Defined.




(** The canvas calls change nothing in what a handler does to the
    drawer: with them a handler returns or raises as it does without,
    and leaves the same store; the stores of the window are those the
    drawer reaches. *)
Theorem drawing_leaves_handlers_alone (ev : event) (g : Gui.app) :
  fst (Gui.handle ev g) = fst (handle ev (Gui.store g))
  /\ Gui.store (Gui.after ev g) = after ev (Gui.store g)
  /\ (forall w h, Gui.reachable w h g -> reachable (Gui.store g)).
Proof.
  destruct (follows_handle ev g) as (Hf & Hs & _).
  split; [done|]. split; [done|]. intros w h Hr. by apply (reachable_shows w h).
Qed.

(** * Highlighting the routes by their clusters *)

Lemma draw_route_with_color_loop_eq (route pre rest : route) (color : string) (g : Gui.app) :
  route = pre ++ rest ->
  Gui.draw_route_with_color_loop route color (Z.of_nat (length pre)) rest g =
  (Ok tt, {| Gui.store := Gui.store g;
             Gui.canvas := Gui.canvas g
               ++ Gui.colored_items_from (Gui.store g) color (last pre) rest |}).
Proof.
  revert pre g. induction rest as [|[x y] rest IH]; intros pre g Hr.
  - cbn. rewrite app_nil_r. by destruct g.
  - cbn [Gui.draw_route_with_color_loop Gui.colored_items_from].
    erewrite bind_Ok by reflexivity.
    erewrite bind_Ok by reflexivity.
    erewrite bind_Ok by reflexivity.
    match goal with |- (_ ≫= _) ?g1 = _ => set (g' := g1) end.
    assert (Hline :
      (if 0 <? Z.of_nat (length pre)
       then prev_point ← Gui.lift_result (Py.getitem route (Z.of_nat (length pre) - 1));
            Gui.canvas_create
              (Gui.create_line (coord_to_canvas_x (Gui.store g) (fst prev_point))
                               (coord_to_canvas_y (Gui.store g) (snd prev_point))
                               (coord_to_canvas_x (Gui.store g) x)
                               (coord_to_canvas_y (Gui.store g) y) color (Some 2) "lines")
       else mret tt) g' =
      (Ok tt, {| Gui.store := Gui.store g;
                 Gui.canvas := Gui.canvas g'
                   ++ match last pre with
                      | Some a => [Gui.create_line (coord_to_canvas_x (Gui.store g) (fst a))
                                     (coord_to_canvas_y (Gui.store g) (snd a))
                                     (coord_to_canvas_x (Gui.store g) x)
                                     (coord_to_canvas_y (Gui.store g) y) color (Some 2) "lines"]
                      | None => []
                      end |})).
    { destruct pre as [|a pre _] using rev_ind.
      - cbn. by rewrite app_nil_r.
      - rewrite length_app, last_snoc. cbn [length].
        destruct (0 <? Z.of_nat (length pre + 1)) eqn:E; [|apply Z.ltb_ge in E; lia].
        assert (Hg : Py.getitem route (Z.of_nat (length pre + 1) - 1) = Ok a).
        { apply getitem_in_bounds; [lia|]. rewrite Hr, <- app_assoc.
          rewrite lookup_app_r by lia.
          replace (Z.to_nat _ - length pre)%nat with 0%nat by lia. done. }
        erewrite bind_Ok by (unfold Gui.lift_result; rewrite Hg; reflexivity).
        done. }
    erewrite bind_Ok by exact Hline.
    replace (Z.of_nat (length pre) + 1) with (Z.of_nat (length (pre ++ [(x, y)])))
      by (rewrite length_app; simpl; lia).
    rewrite (IH (pre ++ [(x, y)])) by (by rewrite <- app_assoc).
    cbn [Gui.store Gui.canvas fst snd]. rewrite last_snoc. subst g'.
    cbn [Gui.store Gui.canvas]. by rewrite <- !app_assoc.
Qed.

Lemma draw_route_with_color_eq (r : route) (color : string) (g : Gui.app) :
  Gui.draw_route_with_color r color g =
  (Ok tt, {| Gui.store := Gui.store g;
             Gui.canvas := Gui.canvas g ++ Gui.colored_items (Gui.store g) color r |}).
Proof. apply (draw_route_with_color_loop_eq r [] r). done. Qed.

Lemma route_to_cluster_loop_spec (labels : list string) (i : nat)
    (cluster_labels : list Z) (colors : list string) (m : gmap string (Z * string)) :
  (i + length labels <= length cluster_labels)%nat ->
  (i + length labels <= length colors)%nat ->
  exists m',
    Gui.route_to_cluster_loop labels (Z.of_nat i) cluster_labels colors m = Ok m'
    /\ (forall l, l ∉ labels -> m' !! l = m !! l)
    /\ (NoDup labels -> forall k l, labels !! k = Some l ->
          exists c, snd <$> m' !! l = Some c /\ colors !! (i + k)%nat = Some c).
Proof.
  revert i m. induction labels as [|l0 labels IH]; intros i m Hcl Hco.
  - exists m. split; [done|]. split; [done|]. intros _ k l Hk. done.
  - cbn [Gui.route_to_cluster_loop length] in *.
    destruct (lookup_lt_is_Some_2 cluster_labels i) as [c0 Hc0]; [lia|].
    destruct (lookup_lt_is_Some_2 colors i) as [col0 Hcol0]; [lia|].
    rewrite (getitem_in_bounds cluster_labels (Z.of_nat i) c0) by (lia || by rewrite Nat2Z.id).
    rewrite (getitem_in_bounds colors (Z.of_nat i) col0) by (lia || by rewrite Nat2Z.id).
    cbn [mbind result_bind].
    replace (Z.of_nat i + 1) with (Z.of_nat (S i)) by lia.
    destruct (IH (S i) (<[l0 := (c0, col0)]> m)) as (m' & Hm' & Hout & Hin); [lia..|].
    exists m'. split; [done|]. split.
    + intros l Hl. apply not_elem_of_cons in Hl as [Hne Hl].
      by rewrite Hout, lookup_insert_ne.
    + intros Hnd k l Hk. apply NoDup_cons in Hnd as [Hl0 Hnd].
      destruct k as [|k]; cbn in Hk.
      * injection Hk as <-. exists col0. rewrite Hout, lookup_insert_eq by done.
        split; [done|]. by rewrite Nat.add_0_r.
      * destruct (Hin Hnd k l Hk) as (c & Hc & Hcol). exists c. split; [done|].
        by replace (i + S k)%nat with (S i + k)%nat by lia.
Qed.

Lemma for_each_indexed (f : nat * route -> Gui.V unit)
    (items : nat -> route -> list Gui.item) (rs : list route) (n : nat)
    (s : drawer) (g : Gui.app) :
  (forall i r g, rs !! i = Some r -> Gui.store g = s ->
     f ((n + i)%nat, r) g = (Ok tt, {| Gui.store := s;
                              Gui.canvas := Gui.canvas g ++ items (n + i)%nat r |})) ->
  Gui.store g = s ->
  Gui.for_each f (imap (fun i r => ((n + i)%nat, r)) rs) g =
  (Ok tt, {| Gui.store := s;
             Gui.canvas := Gui.canvas g
               ++ concat (imap (fun i r => items (n + i)%nat r) rs) |}).
Proof.
  revert n g. induction rs as [|r rs IH]; intros n g Hf Hs.
  - cbn. rewrite app_nil_r. destruct g. cbn in Hs. by subst.
  - rewrite !imap_cons. cbn [Gui.for_each concat].
    erewrite bind_Ok by (by apply (Hf 0%nat)).
    rewrite (imap_ext _ (fun i r => ((S n + i)%nat, r))).
    2:{ intros i x _. cbn. f_equal. lia. }
    rewrite (imap_ext (_ ∘ S) (fun i r => items (S n + i)%nat r)).
    2:{ intros i x _. cbn. f_equal. lia. }
    rewrite IH.
    + cbn [Gui.store Gui.canvas]. by rewrite <- app_assoc.
    + intros i r' g' Hi Hs'. replace (S n + i)%nat with (n + S i)%nat by lia.
      by apply Hf.
    + done.
Qed.

(** The rows of the committed routes in a longer list begin with the
    rows of a prefix. *)
Lemma committed_rows_prefix (l1 l2 : list route) :
  exists tail, committed_rows (l1 ++ l2) = committed_rows l1 ++ tail.
Proof.
  induction l2 as [|r l2 IH] using rev_ind.
  - exists []. by rewrite !app_nil_r.
  - destruct IH as (tail & Ht). rewrite app_assoc, committed_rows_snoc, Ht.
    eexists. by rewrite <- app_assoc.
Qed.

Lemma committed_rows_row (rs : list route) (i : nat) (r : route) :
  rs !! i = Some r -> qualifies r = true ->
  committed_rows rs !! row_of rs i = Some (route_label i, r).
Proof.
  intros Hi Hq. unfold row_of. rewrite <- length_committed_rows.
  destruct (committed_rows_prefix (take i rs ++ [r]) (drop (S i) rs)) as (tail & Ht).
  rewrite <- app_assoc in Ht. cbn [app] in Ht. rewrite take_drop_middle in Ht by done.
  rewrite Ht, committed_rows_snoc, Hq, <- app_assoc.
  rewrite lookup_app_r by lia. rewrite Nat.sub_diag. cbn.
  rewrite length_take_le; [done|]. apply lookup_lt_Some in Hi. lia.
Qed.

Lemma delete_route_tags_highlight (c : list Gui.item) :
  filter (fun it => Gui.item_tags it <> "point_labels"%string)
    (filter (fun it => Gui.item_tags it <> "points"%string)
       (filter (fun it => Gui.item_tags it <> "lines"%string) c))
  = base_items c.
Proof.
  rewrite !list_filter_filter. apply list_filter_iff. intros it.
  rewrite route_tag_false. tauto.
Qed.

Lemma route_label_not_current (i : nat) : route_label i <> "Current Route"%string.
Proof. unfold route_label. intros H. discriminate H. Qed.

Lemma qualifying_label_committed (s : drawer) (i : nat) (r : route) :
  routes s !! i = Some r ->
  route_label i ∈ map fst (qualifying_routes s) -> qualifies r = true.
Proof.
  intros Hi Hl. apply list_elem_of_fmap in Hl as ([l r'] & Hl & Hin). cbn in Hl.
  unfold qualifying_routes in Hin. apply elem_of_app in Hin as [Hin|Hin].
  - apply elem_of_committed_rows in Hin as (i' & -> & Hi' & Hlen).
    apply route_label_inj in Hl as ->. rewrite Hi in Hi'. injection Hi' as <-.
    unfold qualifies. by apply Nat.leb_le.
  - destruct (qualifies (current_route s)); [|by inversion Hin].
    apply list_elem_of_singleton in Hin. injection Hin as -> _.
    by apply route_label_not_current in Hl.
Qed.

(** Highlighting by clusters, with the labels of an extraction from the
    drawer as it is and one colour for every row, redraws every route:
    a route with two points at least in the colour of its row, committed
    routes by their order and the current route last; a route without a
    row, a single point, in blue.  The background is left alone and the
    drawer unchanged. *)
Theorem highlight_colors_routes_by_row (g : Gui.app) (m t e : bool)
    (rows : list (list Py.num)) (labels names : list string)
    (cluster_labels : list Z) (colors : list string) :
  fst (extract_route_features m t e (Gui.store g)) = Ok (rows, labels, names) ->
  length cluster_labels = length labels ->
  length colors = length labels ->
  let s := Gui.store g in
  Gui.highlight_original_routes_by_clusters labels cluster_labels colors g =
  (Ok tt,
   {| Gui.store := s;
      Gui.canvas :=
        base_items (Gui.canvas g)
        ++ concat (imap (fun i r =>
                     Gui.colored_items s (highlight_color colors (row_of (routes s) i) r) r)
                   (routes s))
        ++ Gui.colored_items s
             (highlight_color colors (row_of (routes s) (length (routes s)))
                (current_route s))
             (current_route s) |}).
Proof.
  intros Hx Hcl Hco. cbv zeta. remember (Gui.store g) as s eqn:Es.
  apply extract_route_features_Ok in Hx as (_ & Hl & _).
  unfold Gui.highlight_original_routes_by_clusters. f_equal.
  unfold Gui.highlight_routes.
  erewrite bind_Ok by reflexivity. erewrite bind_Ok by reflexivity.
  erewrite bind_Ok by reflexivity.
  cbn [Gui.store Gui.canvas].
  rewrite delete_route_tags_highlight.
  destruct (route_to_cluster_loop_spec labels 0 cluster_labels colors ∅)
    as (m' & Hm' & Hout & Hin); [cbn; lia..|].
  specialize (Hin ltac:(rewrite Hl; apply qualifying_labels_NoDup)).
  change (Z.of_nat 0) with 0 in Hm'.
  erewrite bind_Ok by (unfold Gui.lift_result; rewrite Hm'; reflexivity).
  erewrite bind_Ok by reflexivity. cbn [Gui.store]. rewrite <- Es.
  assert (Hcolor : forall k l r, labels !! k = Some l ->
            match m' !! l with
            | Some cluster_info => Gui.draw_route_with_color r (snd cluster_info)
            | None => Gui.draw_route_with_color r "#0000FF"
            end = Gui.draw_route_with_color r (default "#0000FF"%string (colors !! k))).
  { intros k l r Hk. destruct (Hin k l Hk) as (c & Hc & Hcol).
    cbn [Nat.add] in Hcol. rewrite Hcol. cbn.
    destruct (m' !! l) as [[cid c']|]; [|done]. cbn in Hc. by injection Hc as ->. }
  assert (Hblue : forall l r, l ∉ labels ->
            match m' !! l with
            | Some cluster_info => Gui.draw_route_with_color r (snd cluster_info)
            | None => Gui.draw_route_with_color r "#0000FF"
            end = Gui.draw_route_with_color r "#0000FF").
  { intros l r Hl'. by rewrite (Hout l Hl'), lookup_empty. }
  erewrite bind_Ok; cycle 1.
  { apply (for_each_indexed _
             (fun i r => Gui.colored_items s (highlight_color colors (row_of (routes s) i) r) r)
             (routes s) 0 s); [|by rewrite Es].
    intros i r g' Hi Hs'. cbn [Nat.add fst snd]. unfold highlight_color.
    destruct (qualifies r) eqn:Hq.
    - rewrite (Hcolor (row_of (routes s) i) (route_label i)).
      + by rewrite draw_route_with_color_eq, Hs'.
      + rewrite Hl. change (map ?f ?l) with (f <$> l). rewrite list_lookup_fmap.
        unfold qualifying_routes. rewrite lookup_app_l.
        * by rewrite (committed_rows_row _ _ _ Hi Hq).
        * by eapply lookup_lt_Some, committed_rows_row.
    - rewrite Hblue.
      + by rewrite draw_route_with_color_eq, Hs'.
      + rewrite Hl. intros Hin'. apply (qualifying_label_committed s i r Hi) in Hin'.
        congruence. }
  cbn [Gui.store Gui.canvas].
  assert (Hrow : row_of (routes s) (length (routes s)) = length (committed_rows (routes s))).
  { unfold row_of. by rewrite firstn_all, length_committed_rows. }
  destruct (current_route s) as [|p cur] eqn:Ec.
  - cbn. by rewrite !app_nil_r.
  - unfold highlight_color. destruct (qualifies (p :: cur)) eqn:Hq.
    + rewrite (Hcolor (row_of (routes s) (length (routes s))) "Current Route"%string).
      * rewrite draw_route_with_color_eq. cbn [Gui.store Gui.canvas].
        by rewrite <- app_assoc.
      * rewrite Hl, Hrow. change (map ?f ?l) with (f <$> l). rewrite list_lookup_fmap.
        unfold qualifying_routes. rewrite lookup_app_r by lia.
        rewrite Nat.sub_diag, Ec, Hq. done.
    + rewrite Hblue.
      * rewrite draw_route_with_color_eq. cbn [Gui.store Gui.canvas].
        by rewrite <- app_assoc.
      * rewrite Hl. intros Hin'.
        apply list_elem_of_fmap in Hin' as ([l r'] & Hl' & Hin'). cbn in Hl'.
        unfold qualifying_routes in Hin'. rewrite Ec, Hq, app_nil_r in Hin'.
        apply elem_of_committed_rows in Hin' as (i' & -> & _).
        symmetry in Hl'. by apply route_label_not_current in Hl'.
Qed.

Lemma highlight_colors_routes_by_row_witness :
  let g := {| Gui.store := three_routes; Gui.canvas := [] |} in
  let colors := ["#FF6B6B"; "#808080"]%string in
  let s := Gui.store g in
  Gui.highlight_original_routes_by_clusters ["Route 2"; "Current Route"]%string [0; -1] colors g =
  (Ok tt,
   {| Gui.store := s;
      Gui.canvas :=
        base_items (Gui.canvas g)
        ++ concat (imap (fun i r =>
                     Gui.colored_items s (highlight_color colors (row_of (routes s) i) r) r)
                   (routes s))
        ++ Gui.colored_items s
             (highlight_color colors (row_of (routes s) (length (routes s)))
                (current_route s))
             (current_route s) |}).
Proof.
  apply (highlight_colors_routes_by_row _ false false false
           [[Py.Int 5; Py.Int 1; Py.Int 5; Py.Int 5;
             Py.Float (S754_finite false 4503599627370496 (-50))];
            [Py.Int 10; Py.Int 10; Py.Int 13; Py.Int 14;
             Py.Float (S754_finite false 5629499534213120 (-50))]]
           _ ["start_x"; "start_y"; "end_x"; "end_y"; "length"]%string).
  - vm_compute. reflexivity.
  - reflexivity.
  - reflexivity.
Defined.












(** * The route list *)

Lemma route_info_ok (name : string) (r : route) :
  route_ok r -> r <> [] ->
  exists p tail,
    head r = Some p
    /\ route_info name r
       = Ok (Some (String.append name
                     (String.append ": " (String.append (point_str p) tail)))).
Proof.
  intros Hr Hne. destruct r as [|p r]; [done|]. exists p.
  unfold route_info. rewrite (getitem_head (p :: r) p) by done.
  destruct (2 <=? length (p :: r))%nat eqn:E.
  - destruct (last (p :: r)) as [q|] eqn:El; [|by apply last_None in El].
    rewrite (getitem_last _ _ El).
    destruct (calculate_route_length_ok _ Hr) as (total & ->).
    cbn [mbind result_bind]. by eexists.
  - apply Nat.leb_gt in E. destruct r; [|cbn in E; lia].
    cbn. by eexists.
Qed.

Lemma route_list_loop_ok (rs : list route) (i : nat) (listbox : list string) :
  Forall route_ok rs -> Forall (fun r : route => r <> []) rs ->
  exists lines,
    route_list_loop rs i listbox = Ok (listbox ++ lines)
    /\ length lines = length rs
    /\ forall k r, rs !! k = Some r ->
         exists p tail,
           head r = Some p
           /\ lines !! k
              = Some (String.append (route_label (i + k))
                        (String.append ": " (String.append (point_str p) tail))).
Proof.
  intros Hok Hne. revert i listbox.
  induction rs as [|r rs IH]; intros i listbox.
  - exists []. rewrite app_nil_r. split; [done|]. split; [done|]. intros k r Hk. done.
  - apply Forall_cons in Hok as [Hr Hok]. apply Forall_cons in Hne as [Hrn Hne].
    cbn [route_list_loop].
    destruct (route_info_ok (route_label i) r Hr Hrn) as (p & tail & Hp & ->).
    cbn [mbind result_bind].
    destruct (IH Hok Hne (S i) (listbox ++ [String.append (route_label i)
                (String.append ": " (String.append (point_str p) tail))]))
      as (lines & -> & Hlen & Hlines).
    eexists (_ :: lines). split; [by rewrite <- app_assoc|]. split; [cbn; lia|].
    intros [|k] r' Hk; cbn in Hk.
    + injection Hk as <-. exists p, tail. by rewrite Nat.add_0_r.
    + destruct (Hlines k r' Hk) as (p' & tail' & Hp' & Hl).
      exists p', tail'. split; [done|]. cbn.
      by replace (i + S k)%nat with (S i + k)%nat by lia.
Qed.

(** In every state the drawer reaches, [update_route_list] raises
    nothing and fills the list box with one line for every stored
    route: the committed routes in order, the line of route [i] starting
    with its number, counted from 1, and its first point, and then the
    current route, if it has a point, as [Current]; when nothing is
    stored the list holds the one line [No routes created yet]. *)
Theorem route_list_lines (s : drawer) :
  reachable s ->
  exists lines,
    update_route_list s = Ok lines
    /\ length lines
       = Nat.max 1 (length (routes s)
                    + match current_route s with [] => 0 | _ :: _ => 1 end)
    /\ (forall i r, routes s !! i = Some r ->
          exists p tail,
            head r = Some p
            /\ lines !! i
               = Some (String.append (route_label i)
                         (String.append ": " (String.append (point_str p) tail))))
    /\ (forall p, head (current_route s) = Some p ->
          exists tail,
            lines !! length (routes s)
            = Some (String.append "Current"
                      (String.append ": " (String.append (point_str p) tail))))
    /\ (routes s = [] -> current_route s = [] ->
          lines = ["No routes created yet"%string]).
Proof.
  intros Hr. pose proof (reachable_store_ok _ Hr) as (_ & _ & _ & _ & Hrs & Hc).
  pose proof (reachable_no_empty_route _ Hr) as Hne.
  unfold update_route_list.
  destruct (route_list_loop_ok (routes s) 0 [] Hrs Hne) as (lines & -> & Hlen & Hlines).
  cbn [mbind result_bind app].
  destruct (current_route s) as [|p cur] eqn:Ec.
  - cbn [mbind result_bind]. destruct (routes s) as [|r rs] eqn:Er.
    + destruct lines; [|done]. eexists. split; [done|]. split; [done|].
      split; [by intros ? ? ?|]. split; [by intros ? ?|]. done.
    + exists lines. split; [done|]. split; [cbn in *; lia|].
      split; [exact Hlines|]. split; [by intros ? ?|]. done.
  - destruct (route_info_ok "Current" (p :: cur)) as (p' & tail & Hp & ->); [done..|].
    cbn in Hp. injection Hp as <-. cbn [mbind result_bind].
    eexists. split; [by destruct (routes s)|]. split.
    + rewrite length_app, Hlen. cbn. lia.
    + split; [|split; [|done]].
      * intros i r Hi. destruct (Hlines i r Hi) as (q & tl & Hq & Hl).
        exists q, tl. split; [done|]. rewrite lookup_app_l; [done|].
        by eapply lookup_lt_Some.
      * intros q [= <-]. exists tail.
        rewrite lookup_app_r by lia. by rewrite Hlen, Nat.sub_diag.
Qed.

Lemma route_list_lines_witness :
  exists lines,
    update_route_list three_routes = Ok lines
    /\ length lines
       = Nat.max 1 (length (routes three_routes)
                    + match current_route three_routes with [] => 0 | _ :: _ => 1 end)
    /\ (forall i r, routes three_routes !! i = Some r ->
          exists p tail,
            head r = Some p
            /\ lines !! i
               = Some (String.append (route_label i)
                         (String.append ": " (String.append (point_str p) tail))))
    /\ (forall p, head (current_route three_routes) = Some p ->
          exists tail,
            lines !! length (routes three_routes)
            = Some (String.append "Current"
                      (String.append ": " (String.append (point_str p) tail))))
    /\ (routes three_routes = [] -> current_route three_routes = [] ->
          lines = ["No routes created yet"%string]).
Proof.
  apply route_list_lines.
  apply reachable_run; [|apply reachable_init].
  repeat constructor; vm_compute; discriminate.
Defined.

(** * Left clicks near a stored point *)

Lemma point_at_ok (s : drawer) (ref : Z * Z) (p : point) :
  store_ok s -> point_at s ref p -> point_ok p.
Proof.
  intros (_ & _ & _ & _ & Hrs & Hc) [_ [[_ Hp]|[_ (r & Hr & Hp)]]].
  - by eapply (Forall_lookup_1 _ _ _ _ Hc).
  - pose proof (Forall_lookup_1 _ _ _ _ Hrs Hr) as Hok.
    by eapply (Forall_lookup_1 _ _ _ _ Hok).
Qed.

Lemma round_div_unique (c k : Z) : Z.abs (c - 20 * k) < 10 -> round_div c 20 = k.
Proof.
  intros Hk. pose proof (round_div_nearest c 20 ltac:(lia)) as Hq. lia.
Qed.

(** The test of a point in device terms, for the drawer's grid. *)
Lemma point_hit_near (s : drawer) (x y : Z) (p : point) :
  store_ok s -> device_ok x -> device_ok y -> point_ok p ->
  point_hit s x y p = Ok ((x - 20 * fst p) ^ 2 + (y - 20 * snd p) ^ 2 <=? 64).
Proof.
  intros Hs Hx Hy Hp. rewrite point_hit_exact by done.
  destruct Hs as (Hg & Hox & Hoy & Ht & _).
  unfold coord_to_canvas_x, coord_to_canvas_y. rewrite Hg, Hox, Hoy, Ht.
  do 2 f_equal. lia.
Qed.

Lemma sq_le_64 (a b : Z) : a ^ 2 + b ^ 2 <= 64 -> Z.abs a <= 8 /\ Z.abs b <= 8.
Proof. intros H. split; nia. Qed.

(** A left click within the tolerance of a stored point never adds a
    point: it starts the drag of a stored point and leaves the routes as
    they are. *)
Theorem left_click_near_point_starts_drag (s : drawer) (x y : Z) (ref : Z * Z)
    (p : point) :
  store_ok s -> device_ok x -> device_ok y ->
  point_at s ref p ->
  (x - 20 * fst p) ^ 2 + (y - 20 * snd p) ^ 2 <= 64 ->
  exists ref' p',
    point_at s ref' p'
    /\ on_left_click x y s
       = (Ok tt, set_drag true (Some (fst ref')) (Some (snd ref')) s).
Proof.
  intros Hs Hx Hy Hp Hd.
  destruct (find_point_at_position_ok s x y Hs Hx Hy) as ([ref'|] & Hf).
  - pose proof Hf as Hf'. apply find_point_least in Hf' as [(p' & Hp' & _) _].
    exists ref', p'. split; [done|]. unfold on_left_click. unfold_M.
    rewrite Hf. by destruct ref'.
  - pose proof (proj1 (find_point_none s x y) Hf ref p Hp) as Hn.
    rewrite (point_hit_near s x y p Hs Hx Hy (point_at_ok _ _ _ Hs Hp)) in Hn.
    injection Hn as Hn. apply Z.leb_gt in Hn. lia.
Qed.

Lemma left_click_near_point_starts_drag_witness :
  let s := run [LeftClick 20 20] init in
  exists ref' p',
    point_at s ref' p'
    /\ on_left_click 25 14 s
       = (Ok tt, set_drag true (Some (fst ref')) (Some (snd ref')) s).
Proof.
  apply (left_click_near_point_starts_drag _ 25 14 (-1, 0) (1, 1)).
  - store_ok_by_evaluation.
  - vm_compute. discriminate.
  - vm_compute. discriminate.
  - split; [done|]. left. split; reflexivity.
  - vm_compute. discriminate.
Defined.

(** A left click does not keep points apart: a click that misses every
    stored point by more than the tolerance, but lies within half a cell
    of the stored point [p], appends a second copy of [p] to the current
    route. *)
Theorem left_click_can_duplicate_point (s : drawer) (x y : Z) (ref : Z * Z)
    (p : point) :
  store_ok s -> device_ok x -> device_ok y ->
  point_at s ref p ->
  find_point_at_position s x y = Ok None ->
  Z.abs (x - 20 * fst p) < 10 -> Z.abs (y - 20 * snd p) < 10 ->
  64 < (x - 20 * fst p) ^ 2 + (y - 20 * snd p) ^ 2
  /\ on_left_click x y s = (Ok tt, set_current_route (current_route s ++ [p]) s).
Proof.
  intros Hs Hx Hy Hp Hf Hdx Hdy. split.
  - pose proof (proj1 (find_point_none s x y) Hf ref p Hp) as Hn.
    rewrite (point_hit_near s x y p Hs Hx Hy (point_at_ok _ _ _ Hs Hp)) in Hn.
    injection Hn as Hn. by apply Z.leb_gt in Hn.
  - pose proof Hs as (Hg & Hox & Hoy & _).
    unfold on_left_click. unfold_M. rewrite Hf. cbn [fst snd].
    rewrite canvas_to_coord_x_nearest, canvas_to_coord_y_nearest by done.
    cbn [fst snd]. rewrite Hox, Hoy, Hg, !Z.sub_0_r.
    rewrite (round_div_unique x (fst p)), (round_div_unique y (snd p)) by done.
    by destruct p.
Qed.

Lemma left_click_can_duplicate_point_witness :
  let s := run [LeftClick 20 20] init in
  64 < (29 - 20 * 1) ^ 2 + (20 - 20 * 1) ^ 2
  /\ on_left_click 29 20 s = (Ok tt, set_current_route (current_route s ++ [(1, 1)]) s).
Proof.
  apply (left_click_can_duplicate_point _ 29 20 (-1, 0) (1, 1)).
  - store_ok_by_evaluation.
  - vm_compute. discriminate.
  - vm_compute. discriminate.
  - split; [done|]. left. split; reflexivity.
  - vm_compute. reflexivity.
  - vm_compute. reflexivity.
  - vm_compute. reflexivity.
Defined.

Lemma set_drag_idle (s : drawer) (d : bool) (a b : option Z) :
  set_drag false None None (set_drag d a b s) = set_drag false None None s.
Proof. done. Qed.

(** A click on a stored point, the button pressed and released at the
    same position, leaves every route as it is: the point that the
    press picks up is put back where it was. *)
Theorem click_on_point_is_noop (s : drawer) (x y : Z) (ref : Z * Z) :
  store_ok s -> device_ok x -> device_ok y ->
  find_point_at_position s x y = Ok (Some ref) ->
  (on_left_click x y ≫= fun _ => on_left_release x y) s
  = (Ok tt, set_drag false None None s).
Proof.
  intros Hs Hx Hy Hf. destruct ref as [j i].
  pose proof Hf as Hf'. apply find_point_least in Hf' as [(p & Hp & Hhit) _].
  destruct (point_at_bounds _ _ _ _ Hp) as [Hj Hi].
  rewrite (point_hit_near s x y p Hs Hx Hy (point_at_ok _ _ _ Hs Hp)) in Hhit.
  injection Hhit as Hhit. apply Z.leb_le, sq_le_64 in Hhit as [Hdx Hdy].
  pose proof Hs as (Hg & Hox & Hoy & _).
  set (s1 := set_drag true (Some j) (Some i) s).
  assert (E1 : on_left_click x y s = (Ok tt, s1)).
  { unfold on_left_click. unfold_M. by rewrite Hf. }
  assert (E2 : on_left_release x y s1 =
               (move_point (Some j) (Some i) (fst p, snd p)
                  ≫= fun _ => modify (set_drag false None None)) s1).
  { apply (on_left_release_dragging s1 x y); [done|..].
    - rewrite canvas_to_coord_x_nearest by done. cbn [origin_x grid_size s1 set_drag].
      rewrite Hox, Hg, Z.sub_0_r. rewrite (round_div_unique x (fst p)) by lia. done.
    - rewrite canvas_to_coord_y_nearest by done. cbn [origin_y grid_size s1 set_drag].
      rewrite Hoy, Hg, Z.sub_0_r. rewrite (round_div_unique y (snd p)) by lia. done. }
  unfold mbind at 1. unfold M_bind. rewrite E1, E2.
  replace (fst p, snd p) with p by (by destruct p).
  destruct (point_at_move s1 j i p Hj Hi) as [(p' & _ & Em)|[Hno _]];
    [|by destruct (Hno p)].
  unfold mbind at 1. unfold M_bind. rewrite Em. cbn [modify].
  f_equal. destruct Hp as [_ Hp]. cbn [fst snd] in Hp.
  destruct (j =? -1) eqn:Ej.
  - apply Z.eqb_eq in Ej as ->. destruct Hp as [[_ Hp]|[? _]]; [|lia].
    cbn [current_route s1 set_drag]. rewrite list_insert_id by done.
    by destruct s.
  - apply Z.eqb_neq in Ej. destruct Hp as [[? _]|[_ (r & Hr & Hp)]]; [lia|].
    cbn [routes s1 set_drag].
    assert (Ha : alter (fun r0 : route => <[Z.to_nat i:=p]> r0) (Z.to_nat j) (routes s)
                 = routes s).
    { apply list_eq. intros k. destruct (decide (k = Z.to_nat j)) as [->|Hk].
      - rewrite list_lookup_alter_eq, Hr. cbn. by rewrite list_insert_id.
      - by rewrite list_lookup_alter_ne. }
    rewrite Ha. by destruct s.
Qed.

Lemma click_on_point_is_noop_witness :
  let s := run [LeftClick 20 20; LeftClick 100 20] init in
  (on_left_click 104 15 ≫= fun _ => on_left_release 104 15) s
  = (Ok tt, set_drag false None None s).
Proof.
  apply (click_on_point_is_noop _ 104 15 (-1, 1)).
  - store_ok_by_evaluation.
  - vm_compute. discriminate.
  - vm_compute. discriminate.
  - vm_compute. reflexivity.
Defined.

(** * The middle point of a straight route *)

Lemma normal_digits (m : positive) (e : Z) :
  valid (S754_finite false m e) -> -1074 < e -> Zdigits2 (Z.pos m) = 53.
Proof.
  intros [Hcan _]%valid_finite He.
  pose proof (canonical_normal m e Hcan He) as [Hlo Hhi].
  apply Zdigits2_unique; [done|lia].
Qed.

(** The square root of a double that is at least [1] is a normal double
    that is at least [1]. *)
Lemma fsqrt_normal (m : positive) (e : Z) :
  valid (S754_finite false m e) -> -52 <= e ->
  exists m5 e5,
    Py.fsqrt (S754_finite false m e) = S754_finite false m5 e5
    /\ valid (S754_finite false m5 e5) /\ -52 <= e5.
Proof.
  intros Hv He. pose proof Hv as [Hcan He971]%valid_finite.
  pose proof (normal_digits m e Hv ltac:(lia)) as Hd.
  unfold Py.fsqrt, SFsqrt, SFsqrt_core_binary. rewrite Hd.
  set (g := Z.div2 (53 + e + 1)).
  set (e' := Z.min (fexp g) (Z.div2 e)).
  set (s := e - 2 * e').
  assert (Hg : 2 * g <= 53 + e + 1 <= 2 * g + 1).
  { unfold g. rewrite Z.div2_div.
    pose proof (Z.div_mod (53 + e + 1) 2). pose proof (Z.mod_pos_bound (53 + e + 1) 2). lia. }
  assert (Hex : 2 * Z.div2 e <= e <= 2 * Z.div2 e + 1).
  { rewrite Z.div2_div. pose proof (Z.div_mod e 2). pose proof (Z.mod_pos_bound e 2). lia. }
  assert (Hfg : fexp g = g - 53) by (rewrite fexp_eq; lia).
  assert (Hs : 0 <= s) by lia.
  set (m' := match s with Z.pos _ => Z.shiftl (Z.pos m) s | 0 => Z.pos m | Z.neg _ => 0 end).
  assert (Hm' : m' = Z.pos m * 2 ^ s).
  { unfold m'. destruct s as [|p|p] eqn:Es; [lia| |lia].
    by rewrite Z.shiftl_mul_pow2. }
  assert (Hm'pos : 0 < m').
  { rewrite Hm'. apply Z.mul_pos_pos; [lia|]. apply Z.pow_pos_nonneg; lia. }
  pose proof (Z.sqrtrem_sqrt m') as Hq.
  destruct (Z.sqrtrem m') as [q r]. simpl in Hq. subst q.
  assert (Hqpos : 0 < Z.sqrt m') by (apply Z.sqrt_pos; lia).
  assert (Hdq : Zdigits2 (Z.sqrt m') + e' = g).
  { rewrite Zdigits2_sqrt by done. rewrite Hm', Zdigits2_mul_pow2 by lia.
    rewrite Hd. unfold s.
    replace (53 + (e - 2 * e') + 1) with ((53 + e + 1) + (- e') * 2) by lia.
    rewrite Z.div_add by lia. unfold g. rewrite Z.div2_div. lia. }
  match goal with
  | |- context [binary_round_aux _ _ _ _ _ ?l] =>
      pose proof (binary_round_aux_mag false (Z.sqrt m') e' l g) as Hmag;
      destruct (binary_round_aux_canonical false (Z.sqrt m') e' l)
        as (m5 & e5 & Hr & Hc5 & Hb); [done|rewrite Hdq; lia|lia|]
  end.
  rewrite Hr in Hmag |- *. rewrite Hdq, Hfg in Hb.
  destruct (e5 <=? 971) eqn:E5.
  - apply Z.leb_le in E5. exists m5, e5. split; [done|]. split; [|lia].
    by apply valid_finite.
  - exfalso. assert (Hm : mag_le (g + 1) (S754_infinity false)); [|done].
    apply Hmag; lia.
Qed.

(** Dividing two doubles with full mantissas, when the quotient of the
    mantissas is a power of two. *)
Lemma fdiv_shape (m1 : positive) (e1 : Z) (m2 : positive) (e2 : Z) :
  Zdigits2 (Z.pos m1) = 53 -> Zdigits2 (Z.pos m2) = 53 ->
  -1021 <= e1 - e2 ->
  Py.fdiv (S754_finite false m1 e1) (S754_finite false m2 e2) =
  binary_round_aux Py.prec Py.emax false
    ((Z.pos m1 * 2 ^ 53) / Z.pos m2) (e1 - e2 - 53)
    (new_location (Z.pos m2) ((Z.pos m1 * 2 ^ 53) mod Z.pos m2)).
Proof.
  intros H1 H2 He. unfold Py.fdiv, SFdiv, SFdiv_core_binary. rewrite H1, H2.
  replace (53 + e1 - (53 + e2)) with (e1 - e2) by lia.
  change (SpecFloat.fexp Py.prec Py.emax) with fexp.
  assert (Hf : Z.min (fexp (e1 - e2)) (e1 - e2) = e1 - e2 - 53)
    by (rewrite fexp_eq; lia).
  rewrite Hf. replace (e1 - e2 - (e1 - e2 - 53)) with 53 by lia.
  rewrite div_eucl_div_mod. cbn [xorb].
  by rewrite Z.shiftl_mul_pow2.
Qed.

Lemma fdiv_by_two (m : positive) (e : Z) :
  valid (S754_finite false m e) -> -1000 <= e ->
  Py.fdiv (S754_finite false m e) (S754_finite false 4503599627370496 (-51))
  = S754_finite false m (e - 1).
Proof.
  intros Hv He. pose proof (normal_digits m e Hv ltac:(lia)) as Hd.
  pose proof Hv as [Hcan He971]%valid_finite.
  rewrite fdiv_shape by (done || lia).
  change (Z.pos 4503599627370496) with (2 ^ 52).
  replace (Z.pos m * 2 ^ 53) with (Z.pos m * 2 * 2 ^ 52)
    by (change (2 ^ 53) with (2 * 2 ^ 52); lia).
  rewrite Z.div_mul, Z.mod_mul by done. rewrite new_location_zero.
  replace (Z.pos m * 2) with (Z.pos m * 2 ^ 1) by lia.
  replace (e - 1) with ((e - -51 - 53) + 1) by lia.
  apply binary_round_aux_exact; [lia| |lia].
  rewrite Hd, fexp_eq. lia.
Qed.

Lemma fdiv_half_self (m : positive) (e : Z) :
  Zdigits2 (Z.pos m) = 53 ->
  Py.fdiv (S754_finite false m (e - 1)) (S754_finite false m e) = one_half.
Proof.
  intros Hd. rewrite fdiv_shape by (done || lia).
  rewrite Z.mul_comm, Z.div_mul, Z.mod_mul by done. rewrite new_location_zero.
  replace (e - 1 - e - 53) with (-54) by lia.
  change (2 ^ 53) with (Z.pos 4503599627370496 * 2 ^ 1).
  change one_half with (S754_finite false 4503599627370496 (-54 + 1)).
  apply binary_round_aux_exact; done.
Qed.

Lemma scaled_exponent (m : positive) (e : Z) :
  valid (S754_finite false m e) -> 2 ^ 1074 <= scaled m e -> -52 <= e.
Proof.
  intros Hv Hlow. pose proof (valid_finite_bounds _ _ Hv) as (He & Hm53 & _).
  destruct (Z.le_gt_cases (-52) e) as [|Hlt]; [done|]. exfalso.
  assert (Hlt' : scaled m e < 2 ^ 53 * 2 ^ 1021).
  { unfold scaled. apply Z.le_lt_trans with (Z.pos m * 2 ^ 1021).
    - apply Z.mul_le_mono_nonneg_l; [lia|]. apply Z.pow_le_mono_r; lia.
    - by apply Z.mul_lt_mono_pos_r. }
  change (2 ^ 53 * 2 ^ 1021) with (2 ^ 1074) in Hlt'. lia.
Qed.

(** The length of a segment between two different grid points is a
    normal double, at least [1]. *)
Lemma segment_length_normal (a b : point) :
  point_ok a -> point_ok b -> a <> b ->
  exists m e,
    segment_length a b = Ok (Py.Float (S754_finite false m e))
    /\ valid (S754_finite false m e) /\ -52 <= e.
Proof.
  intros [Hax Hay] [Hbx Hby] Hne. rewrite segment_length_sqrt.
  set (n := (fst b - fst a) ^ 2 + (snd b - snd a) ^ 2).
  assert (Hn1 : 1 <= n).
  { unfold n. destruct a as [ax ay], b as [bx b_y]. cbn [fst snd] in *.
    assert (bx - ax <> 0 \/ b_y - ay <> 0) as [H|H]
      by (destruct (decide (bx = ax)); [right; intros ?; apply Hne; f_equal; lia|left; lia]);
      nia. }
  assert (Hn2 : n < 2 ^ 110).
  { unfold n.
    pose proof (sq_bound _ _ (coord_ok_sub _ _ Hax Hbx)) as H1.
    pose proof (sq_bound _ _ (coord_ok_sub _ _ Hay Hby)) as H2.
    change ((2 ^ 54) ^ 2) with (2 ^ 108) in *. change (2 ^ 110) with (4 * 2 ^ 108).
    revert H1 H2. generalize (2 ^ 108). intros; lia. }
  destruct (float_of_int_lower n 1) as (m0 & e0 & Hf & Hv0 & Hlow); [lia|done| |].
  { apply Z.le_trans with 110; [|lia]. apply Zdigits2_le_pow; lia. }
  rewrite Z.mul_1_l in Hlow.
  pose proof (scaled_exponent m0 e0 Hv0 Hlow) as He0.
  destruct (fsqrt_normal m0 e0 Hv0 He0) as (m & e & Hs & Hv & He).
  exists m, e. unfold Py.sqrt. cbn [Py.to_float]. rewrite Hf. cbn [mbind result_bind].
  by rewrite Hs.
Qed.

(** The middle point of a route of two different points is taken at the
    ratio [0.5] exactly: half the length divided by the length. *)
Theorem middle_of_two_points (a b : point) :
  point_ok a -> point_ok b -> a <> b ->
  get_middle_point [a; b] =
  x ← interpolate (fst a) (fst b) (Py.Float one_half);
  y ← interpolate (snd a) (snd b) (Py.Float one_half);
  Ok (x, y).
Proof.
  intros Ha Hb Hne.
  destruct (segment_length_normal a b Ha Hb Hne) as (m & e & Hseg & Hv & He).
  pose proof (normal_digits m e Hv ltac:(lia)) as Hd.
  pose proof (valid_finite_bounds _ _ Hv) as (_ & _ & _).
  set (d := S754_finite false m e). set (half := S754_finite false m (e - 1)).
  assert (Hlen : calculate_route_length [a; b] = Ok (Py.Float d)).
  { by rewrite calculate_route_length_loop, length_loop_two. }
  assert (Hhalf : Py.truediv (Py.Float d) (Py.Int 2) = Ok (Py.Float half)).
  { unfold Py.truediv. cbn [Py.to_float]. rewrite float_of_int_2.
    cbn [mbind result_bind Py.is_zero]. unfold d. by rewrite fdiv_by_two by (done || lia). }
  unfold get_middle_point. rewrite Hlen. cbn [mbind result_bind]. rewrite Hhalf.
  cbn [mbind result_bind].
  assert (Hw : get_point_at_distance [a; b] (Py.Float half)
               = interpolate_on a b (Py.Float Py.fzero) (Py.Float d) (Py.Float half)).
  { apply (get_point_at_distance_within [] a b [] (Py.Float Py.fzero) (Py.Float d)
             (Py.Float d) (Py.Float half)).
    - done.
    - exact Hseg.
    - rewrite add_floats. by rewrite fadd_zero_l.
    - unfold Py.lt, half. cbn [Py.compare Py.fzero SFcompare]. done.
    - unfold Py.ge, d, half. cbn [Py.compare]. rewrite SFcompare_finite.
      destruct (Z.compare_spec e (e - 1)); [lia|lia|done]. }
  rewrite Hw. unfold interpolate_on.
  assert (Hrem : Py.sub (Py.Float half) (Py.Float Py.fzero) = Ok (Py.Float half)) by done.
  rewrite Hrem. cbn [mbind result_bind].
  assert (Heq : Py.eq (Py.Float d) (Py.Int 0) = false).
  { unfold Py.eq, d. cbn [Py.compare]. rewrite float_compare_int_scaled by lia.
    assert (0 < scaled m e) by (apply Z.mul_pos_pos; [lia|apply Z.pow_pos_nonneg; lia]).
    destruct (Z.compare_spec (scaled m e) (0 * 2 ^ 1074)); [lia|lia|done]. }
  rewrite Heq.
  assert (Hratio : Py.truediv (Py.Float half) (Py.Float d) = Ok (Py.Float one_half)).
  { unfold Py.truediv, half, d. cbn [Py.to_float mbind result_bind Py.is_zero].
    by rewrite (fdiv_half_self m e Hd). }
  rewrite Hratio. reflexivity.
Qed.

Lemma middle_of_two_points_witness :
  get_middle_point [(1, 1); (4, 5)] =
  x ← interpolate 1 4 (Py.Float one_half);
  y ← interpolate 1 5 (Py.Float one_half);
  Ok (x, y).
Proof.
  apply (middle_of_two_points (1, 1) (4, 5)).
  - split; vm_compute; discriminate.
  - split; vm_compute; discriminate.
  - discriminate.
Defined.
